(** * mxjson: a shallow embedding of the JSON tokenizer of [mxjson.h]

    The development follows the header file top to bottom: the string
    slices the parser reads ([mxstr_t]), the token record and the parser
    context, the lexer, the token allocator, the parse loop, the
    unescape pass and the accessor API.  Theorems about the code come
    after the definitions. *)

From Stdlib Require Import ZArith List String Ascii Bool Lia.
From stdpp Require Import base tactics option list.
Import ListNotations.

#[local] Open Scope Z_scope.

(** ** Machine integers and bytes *)

(** [uint8_t] and [uint32_t] values are integers with the wrap-around
    written out where the source computes on them. *)
Definition u8 (z : Z) : Z := z mod 256.
Definition u32 (z : Z) : Z := z mod 4294967296.
Definition u27 (z : Z) : Z := z mod 134217728.

(** A character constant of the C source, as the byte it denotes. *)
Definition chr (a : ascii) : Z := Z.of_N (N_of_ascii a).

(** The double quote and the backslash, which the source writes as
    escaped character constants. *)
Definition DQUOTE : Z := 34.
Definition BACKSLASH : Z := 92.

Fixpoint bytes (s : string) : list Z :=
  match s with
  | EmptyString => []
  | String a r => chr a :: bytes r
  end.

(** The bytes of [s] between two double quotes. *)
Definition quoted (s : string) : list Z := DQUOTE :: bytes s ++ [DQUOTE].

(** [isdigit] and [isxdigit] of <ctype.h> in the C locale. *)
Definition isdigit (c : Z) : bool := (48 <=? c) && (c <=? 57).
Definition isxdigit (c : Z) : bool :=
  isdigit c || ((65 <=? c) && (c <=? 70)) || ((97 <=? c) && (c <=? 102)).

(** ** String slices ([mxstr.h])

    [mxstr.h] is not among the sources.  Its slice type is a pointer and
    a length; the parser only ever looks at the bytes the slice covers and
    at differences of pointers into the same buffer, so a slice is kept as
    the memory block it points into, the offset of its first byte in that
    block, and the bytes it covers. *)
Inductive block : Type := BNull | BLiteral | BInput | BBuffer.

Record mxstr_t : Type := mkstr { blk : block; ptr : Z; data : list Z }.

(** The number of bytes a slice covers, as a natural number. *)
Abbreviation dlen s := (length (data s)).

Definition mxstr_len (s : mxstr_t) : Z := Z.of_nat (length (data s)).

(** [mxstr_literal("...")]: a slice over a string constant. *)
Definition mxstr_literal (s : string) : mxstr_t := mkstr BLiteral 0 (bytes s).

(** The slice with a NULL pointer and length 0. *)
Definition mxstr_null : mxstr_t := mkstr BNull 0 [].

(** Modelled from the spec: the slice operations of [mxstr.h] that the
    core invokes (the header is missing from the sources).  Their
    behaviour is fixed by the way [mxjson.h] uses them: the character
    operations store the first byte of the slice through [c] whenever
    there is one and leave [c] alone on an empty slice, and they consume
    that byte only when the condition holds for it. *)
Definition mxstr_empty (s : mxstr_t) : bool :=
  match data s with [] => true | _ => false end.

Definition mxstr_advance (n : nat) (s : mxstr_t) : mxstr_t :=
  mkstr (blk s) (ptr s + Z.of_nat n) (drop n (data s)).

Definition mxstr_consume (s : mxstr_t) (n : nat) : bool * mxstr_t :=
  if (n <=? length (data s))%nat then (true, mxstr_advance n s) else (false, s).

Definition mxstr_getchar (s : mxstr_t) (c : Z) : bool * Z :=
  match data s with
  | x :: _ => (true, x)
  | [] => (false, c)
  end.

Definition mxstr_consume_char (cond : Z -> bool) (s : mxstr_t) (c : Z)
  : bool * mxstr_t * Z :=
  match data s with
  | x :: r => if cond x then (true, mkstr (blk s) (ptr s + 1) r, x)
              else (false, s, x)
  | [] => (false, s, c)
  end.

(** [mxstr_consume_chars] consumes bytes one at a time for as long as the
    condition holds: the slice over the bytes [l] at offset [o] of block
    [b] after that, with the last byte looked at. *)
Fixpoint consume_chars_from (cond : Z -> bool) (b : block) (o : Z)
  (l : list Z) (c : Z) : mxstr_t * Z :=
  match l with
  | [] => (mkstr b o [], c)
  | x :: r =>
      if cond x then consume_chars_from cond b (o + 1) r x
      else (mkstr b o l, x)
  end.

Definition mxstr_consume_chars (cond : Z -> bool) (s : mxstr_t) (c : Z)
  : mxstr_t * Z :=
  consume_chars_from cond (blk s) (ptr s) (data s) c.

Fixpoint is_prefix (lit l : list Z) : bool :=
  match lit, l with
  | [], _ => true
  | a :: lit', b :: l' => (a =? b) && is_prefix lit' l'
  | _ :: _, [] => false
  end.

Definition mxstr_consume_str (s : mxstr_t) (lit : mxstr_t) : bool * mxstr_t :=
  if is_prefix (data lit) (data s)
  then (true, mxstr_advance (length (data lit)) s)
  else (false, s).

(** [mxstr_prefix(a, b)]: the part of [a] that lies before the start of
    [b], where [b] is a suffix of [a]. *)
Definition mxstr_prefix (a b : mxstr_t) : mxstr_t :=
  mkstr (blk a) (ptr a) (take (Z.to_nat (ptr b - ptr a)) (data a)).

(** [mxstr_substr_offset(a, b)]: the offset of [b] inside [a]. *)
Definition mxstr_substr_offset (a b : mxstr_t) : Z := ptr b - ptr a.

(** ** The lexer *)

Definition is_ws (c : Z) : bool :=
  (c =? chr " ") || (c =? 10) || (c =? 13) || (c =? 9).

Definition mxjson_consume_ws (str : mxstr_t) : mxstr_t :=
  fst (mxstr_consume_chars is_ws str 0).

(** The three parts of [mxjson_parse_number], each with the state it
    hands on: whether the number is well formed so far, the input left,
    and the byte last looked at.

    An optional minus sign followed by at least one digit; after a first
    digit other than 0 there may be more digits. *)
Definition number_int (s : mxstr_t) (c : Z) : bool * mxstr_t * Z :=
  let '(_, s, c) := mxstr_consume_char (fun c => c =? chr "-") s c in
  let '(ok, s, c) := mxstr_consume_char isdigit s c in
  if ok then
    let '(s, c) :=
      if negb (c =? chr "0") then mxstr_consume_chars isdigit s c else (s, c) in
    (ok, s, c)
  else (ok, s, c).

(** An optional decimal point followed by one or more digits. *)
Definition number_frac (s : mxstr_t) (c : Z) : bool * mxstr_t * Z :=
  let '(dot, s, c) := mxstr_consume_char (fun c => c =? chr ".") s c in
  if dot then
    let '(ok, s, c) := mxstr_consume_char isdigit s c in
    let '(s, c) := mxstr_consume_chars isdigit s c in
    (ok, s, c)
  else (true, s, c).

(** An optional exponent mark followed by an optional sign and one or
    more digits. *)
Definition number_exp (s : mxstr_t) (c : Z) : bool * mxstr_t * Z :=
  let '(e, s, c) :=
    mxstr_consume_char (fun c => (c =? chr "e") || (c =? chr "E")) s c in
  if e then
    let '(_, s, c) :=
      mxstr_consume_char (fun c => (c =? chr "+") || (c =? chr "-")) s c in
    let '(ok, s, c) := mxstr_consume_char isdigit s c in
    let '(s, c) := mxstr_consume_chars isdigit s c in
    (ok, s, c)
  else (true, s, c).

Definition mxjson_parse_number (str : mxstr_t) (value : mxstr_t)
  : bool * mxstr_t * mxstr_t :=
  let '(ok, s, c) := number_int str 0 in
  let '(ok, s, c) := if ok then number_frac s c else (ok, s, c) in
  let '(ok, s, c) := if ok then number_exp s c else (ok, s, c) in
  let value := if ok then mxstr_prefix str s else value in
  (ok, s, value).

(** The [for] loop shared by the [\u] escape check: up to [n] more
    hexadecimal digits, stopping at the first byte that is not one. *)
Fixpoint consume_xdigits (n : nat) (ok : bool) (s : mxstr_t) (c : Z)
  : bool * mxstr_t * Z :=
  match n with
  | O => (ok, s, c)
  | S n' =>
      if ok then
        let '(ok, s, c) := mxstr_consume_char isxdigit s c in
        consume_xdigits n' ok s c
      else (ok, s, c)
  end.

Definition is_simple_escape (c : Z) : bool :=
  (c =? DQUOTE) || (c =? BACKSLASH) || (c =? chr "/") || (c =? chr "b") ||
  (c =? chr "f") || (c =? chr "n") || (c =? chr "r") || (c =? chr "t").

Definition mxjson_parse_escaped_char (str : mxstr_t) (esc_flag : bool)
  : bool * mxstr_t * bool :=
  let s := str in
  let '(ok, c) := mxstr_getchar s 0 in
  if ok then
    if is_simple_escape c then
      (ok, snd (mxstr_consume s 1), true)
    else if c =? chr "u" then
      let s := snd (mxstr_consume s 1) in
      let '(ok, s, _) := consume_xdigits 4 ok s c in
      (ok, s, true)
    else (false, s, esc_flag)
  else (ok, s, esc_flag).

(** The [while] loop of [mxjson_parse_string].  Every turn consumes at
    least one byte; [None] is the answer only when [fuel] turns were not
    enough. *)
Fixpoint parse_string_loop (fuel : nat) (ok : bool) (s : mxstr_t) (c : Z)
  (esc_flag : bool) : option (bool * mxstr_t * Z * bool) :=
  match fuel with
  | O => None
  | S fuel' =>
      if ok then
        let '(more, s, c) :=
          mxstr_consume_char
            (fun c => (chr " " <=? c) && negb (c =? DQUOTE)) s c in
        if more then
          if negb (c =? BACKSLASH) then parse_string_loop fuel' true s c esc_flag
          else
            let '(ok, s, esc_flag) := mxjson_parse_escaped_char s esc_flag in
            parse_string_loop fuel' ok s c esc_flag
        else Some (ok, s, c, esc_flag)
      else Some (ok, s, c, esc_flag)
  end.

Definition mxjson_parse_string (str : mxstr_t) (value : mxstr_t)
  (esc_flag : bool) : bool * mxstr_t * mxstr_t * bool :=
  let s := str in
  let c := 0 in
  let '(ok, s, c) := mxstr_consume_char (fun c => c =? DQUOTE) s c in
  let ok := ok && negb (mxstr_empty s) in
  let start := s in
  match parse_string_loop (S (length (data s))) ok s c esc_flag with
  | Some (ok, s, c, esc_flag) =>
      if ok && (c =? DQUOTE) then
        (true, snd (mxstr_consume s 1), mxstr_prefix start s, esc_flag)
      else (false, s, value, esc_flag)
  | None => (false, s, value, esc_flag)
  end.

(** ** Tokens and the parser context *)

Inductive mxjson_type : Type :=
| MXJSON_NONE | MXJSON_NULL | MXJSON_BOOL | MXJSON_NUMBER | MXJSON_STRING
| MXJSON_OBJECT | MXJSON_ARRAY | MXJSON_COUNT.

Definition mxjson_type_eqb (a b : mxjson_type) : bool :=
  match a, b with
  | MXJSON_NONE, MXJSON_NONE | MXJSON_NULL, MXJSON_NULL
  | MXJSON_BOOL, MXJSON_BOOL | MXJSON_NUMBER, MXJSON_NUMBER
  | MXJSON_STRING, MXJSON_STRING | MXJSON_OBJECT, MXJSON_OBJECT
  | MXJSON_ARRAY, MXJSON_ARRAY | MXJSON_COUNT, MXJSON_COUNT => true
  | _, _ => false
  end.

Definition is_container (ty : mxjson_type) : bool :=
  match ty with
  | MXJSON_OBJECT | MXJSON_ARRAY => true
  | _ => false
  end.

(** Index into the token array ([uint32_t]); 0 is the sentinel. *)
Abbreviation mxjson_idx_t := Z (only parsing).
Definition MXJSON_IDX_NONE : mxjson_idx_t := 0.

(** The token record.  The anonymous union of the source is the pair of
    32-bit words [u0], [u1]: [str]/[str_size] and [children]/[next] are
    the two words, and [boolean] is the first byte of [u0] (the layout
    of the little-endian targets the code is built for). *)
Record mxjson_token_t : Type := mktoken {
  name : Z;
  name_size : Z;
  name_esc : bool;
  value_esc : bool;
  value_type : mxjson_type;
  parent : mxjson_idx_t;
  u0 : Z;
  u1 : Z
}.

Definition boolean (t : mxjson_token_t) : bool := negb (u0 t mod 256 =? 0).
Definition str (t : mxjson_token_t) : Z := u0 t.
Definition str_size (t : mxjson_token_t) : Z := u1 t.
Definition children (t : mxjson_token_t) : Z := u0 t.
Definition next (t : mxjson_token_t) : mxjson_idx_t := u1 t.

(** What the [memset] of a token to zero leaves. *)
Definition zero_token : mxjson_token_t :=
  mktoken 0 0 false false MXJSON_NONE 0 0 0.

Definition set_name (v : Z) (t : mxjson_token_t) : mxjson_token_t :=
  mktoken v (name_size t) (name_esc t) (value_esc t) (value_type t)
          (parent t) (u0 t) (u1 t).
Definition set_name_size (v : Z) (t : mxjson_token_t) : mxjson_token_t :=
  mktoken (name t) v (name_esc t) (value_esc t) (value_type t)
          (parent t) (u0 t) (u1 t).
Definition set_name_esc (v : bool) (t : mxjson_token_t) : mxjson_token_t :=
  mktoken (name t) (name_size t) v (value_esc t) (value_type t)
          (parent t) (u0 t) (u1 t).
Definition set_value_esc (v : bool) (t : mxjson_token_t) : mxjson_token_t :=
  mktoken (name t) (name_size t) (name_esc t) v (value_type t)
          (parent t) (u0 t) (u1 t).
Definition set_value_type (v : mxjson_type) (t : mxjson_token_t)
  : mxjson_token_t :=
  mktoken (name t) (name_size t) (name_esc t) (value_esc t) v
          (parent t) (u0 t) (u1 t).
Definition set_parent (v : mxjson_idx_t) (t : mxjson_token_t)
  : mxjson_token_t :=
  mktoken (name t) (name_size t) (name_esc t) (value_esc t) (value_type t)
          v (u0 t) (u1 t).
Definition set_u0 (v : Z) (t : mxjson_token_t) : mxjson_token_t :=
  mktoken (name t) (name_size t) (name_esc t) (value_esc t) (value_type t)
          (parent t) v (u1 t).
Definition set_u1 (v : Z) (t : mxjson_token_t) : mxjson_token_t :=
  mktoken (name t) (name_size t) (name_esc t) (value_esc t) (value_type t)
          (parent t) (u0 t) v.

Definition set_boolean (b : bool) (t : mxjson_token_t) : mxjson_token_t :=
  set_u0 (u0 t - u0 t mod 256 + (if b then 1 else 0)) t.
Definition set_str : Z -> mxjson_token_t -> mxjson_token_t := set_u0.
Definition set_str_size : Z -> mxjson_token_t -> mxjson_token_t := set_u1.
Definition set_children : Z -> mxjson_token_t -> mxjson_token_t := set_u0.
Definition set_next : mxjson_idx_t -> mxjson_token_t -> mxjson_token_t :=
  set_u1.

(** A token array: [None] is the NULL pointer. *)
Abbreviation token_array := (option (list mxjson_token_t)) (only parsing).

(** [tokens[i]] read and written in place.  An index outside the array
    (which the C code never uses; its [assert] guards the one place
    where it could) reads the zero token and writes nothing. *)
Definition tok_at (toks : token_array) (i : mxjson_idx_t) : mxjson_token_t :=
  default zero_token (toks ≫= (fun l => l !! Z.to_nat i)).

Definition tok_upd (f : mxjson_token_t -> mxjson_token_t) (i : mxjson_idx_t)
  (toks : token_array) : token_array :=
  (fun l => alter f (Z.to_nat i) l) <$> toks.

(** The resize callback [mxjson_resize_cb].  It sees the [count] and
    [tokens] fields of the context and the size hint, and either refuses
    ([None], the C [false]) or leaves new values for the two fields. *)
Definition mxjson_resize_cb : Type :=
  mxjson_idx_t -> token_array -> mxjson_idx_t ->
  option (mxjson_idx_t * token_array).

Record mxjson_parser_t : Type := mkparser {
  json : mxstr_t;
  unparsed : mxstr_t;
  idx : mxjson_idx_t;
  count : mxjson_idx_t;
  tokens : token_array;
  token : option mxjson_idx_t;
  current_parent : mxjson_idx_t;
  init_count : mxjson_idx_t;
  init_tokens : token_array;
  resize_fn : option mxjson_resize_cb
}.

Definition set_json (v : mxstr_t) (p : mxjson_parser_t) : mxjson_parser_t :=
  mkparser v (unparsed p) (idx p) (count p) (tokens p) (token p)
           (current_parent p) (init_count p) (init_tokens p) (resize_fn p).
Definition set_unparsed (v : mxstr_t) (p : mxjson_parser_t)
  : mxjson_parser_t :=
  mkparser (json p) v (idx p) (count p) (tokens p) (token p)
           (current_parent p) (init_count p) (init_tokens p) (resize_fn p).
Definition set_idx (v : mxjson_idx_t) (p : mxjson_parser_t)
  : mxjson_parser_t :=
  mkparser (json p) (unparsed p) v (count p) (tokens p) (token p)
           (current_parent p) (init_count p) (init_tokens p) (resize_fn p).
Definition set_count (v : mxjson_idx_t) (p : mxjson_parser_t)
  : mxjson_parser_t :=
  mkparser (json p) (unparsed p) (idx p) v (tokens p) (token p)
           (current_parent p) (init_count p) (init_tokens p) (resize_fn p).
Definition set_tokens (v : token_array) (p : mxjson_parser_t)
  : mxjson_parser_t :=
  mkparser (json p) (unparsed p) (idx p) (count p) v (token p)
           (current_parent p) (init_count p) (init_tokens p) (resize_fn p).
Definition set_init_tokens (v : token_array) (p : mxjson_parser_t)
  : mxjson_parser_t :=
  mkparser (json p) (unparsed p) (idx p) (count p) (tokens p) (token p)
           (current_parent p) (init_count p) v (resize_fn p).
Definition set_token (v : option mxjson_idx_t) (p : mxjson_parser_t)
  : mxjson_parser_t :=
  mkparser (json p) (unparsed p) (idx p) (count p) (tokens p) v
           (current_parent p) (init_count p) (init_tokens p) (resize_fn p).
Definition set_current_parent (v : mxjson_idx_t) (p : mxjson_parser_t)
  : mxjson_parser_t :=
  mkparser (json p) (unparsed p) (idx p) (count p) (tokens p) (token p)
           v (init_count p) (init_tokens p) (resize_fn p).

(** A rewrite of a token that leaves its parent link and its name alone. *)
Definition keeps_links (f : mxjson_token_t -> mxjson_token_t) : Prop :=
  forall t, parent (f t) = parent t /\ name (f t) = name t /\
            name_size (f t) = name_size t /\ name_esc (f t) = name_esc t.

(** A write through the current-token pointer [p->token]. *)
Definition upd_token (f : mxjson_token_t -> mxjson_token_t)
  (p : mxjson_parser_t) : mxjson_parser_t :=
  match token p with
  | Some i => set_tokens (tok_upd f i (tokens p)) p
  | None => p
  end.

(** ** The token allocator *)

(** Modelled from the spec: [mxutil_size_p2] of the missing [mxutil.h],
    which the header describes as the first power of 2 larger than the
    current array size; the result is passed on as a [uint32_t]. *)
Definition mxutil_size_p2 (n : Z) : Z := u32 (2 ^ Z.log2_up (n + 1)).

(** The call [p->resize_fn != NULL && p->resize_fn(p, size_hint)]. *)
Definition call_resize (p : mxjson_parser_t) (size_hint : mxjson_idx_t)
  : bool * mxjson_parser_t :=
  match resize_fn p with
  | None => (false, p)
  | Some f =>
      match f (count p) (tokens p) size_hint with
      | Some (c, t) => (true, set_tokens t (set_count c p))
      | None => (false, p)
      end
  end.

(** The first half of [mxjson_token]: make sure that the array has a
    slot for the index [idx], which has just been incremented.

    In C the array of the caller is adopted by reference
    ([p->tokens = p->init_tokens]): the tokens of a parse are written
    into the array of the caller itself.  Here [tokens] receives the
    value of [init_tokens], and [init_tokens] keeps the contents that
    [mxjson_init] was given.  The two agree as long as the array of the
    caller is adopted once; where a context adopts it again, after
    [mxjson_free], the contents it has come to hold are supplied by
    [caller_array] below. *)
Definition ensure_capacity (p : mxjson_parser_t) : bool * mxjson_parser_t :=
  if count p <=? idx p then
    match tokens p with
    | None =>
        let '(ok, p) :=
          match init_tokens p with
          | Some it =>
              if idx p <? init_count p
              then (true, set_count (init_count p) (set_tokens (Some it) p))
              else call_resize p (Z.max (u32 (idx p + 1)) (init_count p))
          | None => call_resize p (Z.max (u32 (idx p + 1)) (init_count p))
          end in
        if ok
        then (ok, set_tokens (tok_upd (fun _ => zero_token) 0 (tokens p)) p)
        else (ok, p)
    | Some _ => call_resize p (mxutil_size_p2 (count p))
    end
  else (true, p).

(** The two writes [mxjson_token] makes for a new token: the token is
    zeroed and given its parent, and the parent counts one more child. *)
Definition new_token (cp : Z) : mxjson_token_t -> mxjson_token_t :=
  fun _ => set_parent cp zero_token.
Definition add_child : mxjson_token_t -> mxjson_token_t :=
  fun t => set_children (u32 (children t + 1)) t.

(** The second half of [mxjson_token]: set up the token at [idx]. *)
Definition link_token (p : mxjson_parser_t) : mxjson_parser_t :=
  let i := idx p in
  let p :=
    set_tokens (tok_upd (new_token (current_parent p)) i (tokens p)) p in
  let p :=
    set_tokens (tok_upd add_child (current_parent p) (tokens p)) p in
  set_token (Some i) p.

Definition mxjson_token (p : mxjson_parser_t) : bool * mxjson_parser_t :=
  let p := set_idx (u32 (idx p + 1)) p in
  let '(ok, p) := ensure_capacity p in
  if ok then (ok, link_token p) else (ok, p).

(** ** The parser *)

Definition mxjson_parse_name (p : mxjson_parser_t) (str : mxstr_t)
  : bool * mxjson_parser_t * mxstr_t :=
  let s := str in
  let '(ok, s, nm, esc_flag) := mxjson_parse_string s mxstr_null false in
  let '(ok, s) :=
    if ok then
      let s := mxjson_consume_ws s in
      let '(ok, s, _) := mxstr_consume_char (fun c => c =? chr ":") s 0 in
      (ok, s)
    else (ok, s) in
  let p :=
    if ok then
      upd_token
        (fun t =>
           set_name_esc esc_flag
             (set_name_size (u27 (mxstr_len nm))
                (set_name (u32 (mxstr_substr_offset (json p) nm)) t))) p
    else p in
  (ok, p, s).

Definition mxjson_parse_value (p : mxjson_parser_t) (str : mxstr_t)
  : bool * mxjson_parser_t * mxstr_t :=
  let s := str in
  let '(ok, c) := mxstr_getchar s 0 in
  if ok then
    if c =? DQUOTE then
      let p := upd_token (set_value_type MXJSON_STRING) p in
      let '(ok, s, value, esc_flag) := mxjson_parse_string s mxstr_null false in
      let p :=
        if ok then
          upd_token
            (fun t =>
               set_value_esc esc_flag
                 (set_str_size (u32 (mxstr_len value))
                    (set_str (u32 (mxstr_substr_offset (json p) value)) t))) p
        else p in
      (ok, p, s)
    else if c =? chr "{" then
      let s := snd (mxstr_consume s 1) in
      let p := upd_token (set_value_type MXJSON_OBJECT) p in
      (ok, set_current_parent (idx p) p, s)
    else if c =? chr "[" then
      let s := snd (mxstr_consume s 1) in
      let p := upd_token (set_value_type MXJSON_ARRAY) p in
      (ok, set_current_parent (idx p) p, s)
    else if c =? chr "t" then
      let p := upd_token (set_value_type MXJSON_BOOL) p in
      let p := upd_token (set_boolean true) p in
      let '(ok, s) := mxstr_consume_str s (mxstr_literal "true") in
      (ok, p, s)
    else if c =? chr "f" then
      let p := upd_token (set_value_type MXJSON_BOOL) p in
      let p := upd_token (set_boolean false) p in
      let '(ok, s) := mxstr_consume_str s (mxstr_literal "false") in
      (ok, p, s)
    else if c =? chr "n" then
      let p := upd_token (set_value_type MXJSON_NULL) p in
      let '(ok, s) := mxstr_consume_str s (mxstr_literal "null") in
      (ok, p, s)
    else if (c =? chr "-") || isdigit c then
      let p := upd_token (set_value_type MXJSON_NUMBER) p in
      let '(ok, s, value) := mxjson_parse_number s mxstr_null in
      let p :=
        if ok then
          upd_token
            (fun t =>
               set_str_size (u32 (mxstr_len value))
                 (set_str (u32 (mxstr_substr_offset (json p) value)) t)) p
        else p in
      (ok, p, s)
    else (false, p, s)
  else (ok, p, s).

(** The [do ... while (ascend)] loop of [mxjson_ascend].  A turn that
    goes round again has consumed a closing bracket. *)
Fixpoint ascend_loop (fuel : nat) (p : mxjson_parser_t) (s : mxstr_t)
  (parent_ : mxjson_idx_t) : option (mxjson_parser_t * mxstr_t * mxjson_idx_t) :=
  match fuel with
  | O => None
  | S fuel' =>
      let tk := tok_at (tokens p) parent_ in
      let s := mxjson_consume_ws s in
      let '(closed, s, _) :=
        match value_type tk with
        | MXJSON_ARRAY => mxstr_consume_char (fun c => c =? chr "]") s 0
        | MXJSON_OBJECT => mxstr_consume_char (fun c => c =? chr "}") s 0
        | _ => (false, s, 0)
        end in
      if closed then
        let p :=
          set_tokens
            (tok_upd (set_next (u32 (idx p + 1))) parent_ (tokens p)) p in
        ascend_loop fuel' p s (parent (tok_at (tokens p) parent_))
      else Some (p, s, parent_)
  end.

Definition mxjson_ascend (p : mxjson_parser_t) (str : mxstr_t)
  : mxjson_parser_t * mxstr_t * mxjson_idx_t :=
  let parent_ := current_parent p in
  if negb (parent_ =? MXJSON_IDX_NONE) then
    match ascend_loop (S (length (data str))) p str parent_ with
    | Some r => r
    | None => (p, str, parent_)
    end
  else (p, str, parent_).

(** One turn of the [do ... while] loop of [mxjson_parse_json]: a value,
    the brackets that close after it, and the token (with its name, inside
    an object) of the value that follows. *)
Definition parse_json_turn (p : mxjson_parser_t) (s : mxstr_t)
  : bool * mxjson_parser_t * mxstr_t :=
  let s := mxjson_consume_ws s in
  let '(ok, p, s) := mxjson_parse_value p s in
  if ok then
    let '(p, s, parent_) := mxjson_ascend p s in
    let p := set_current_parent parent_ p in
    if negb (parent_ =? MXJSON_IDX_NONE) then
      let s := mxjson_consume_ws s in
      let '(ok, s) :=
        if parent_ =? idx p then (true, s)
        else
          let '(ok, s, _) :=
            mxstr_consume_char (fun c => c =? chr ",") s 0 in
          (ok, s) in
      let '(ok, p) := if ok then mxjson_token p else (ok, p) in
      if ok && mxjson_type_eqb (value_type (tok_at (tokens p) parent_))
                 MXJSON_OBJECT
      then
        let s := mxjson_consume_ws s in
        mxjson_parse_name p s
      else (ok, p, s)
    else (ok, p, s)
  else (ok, p, s).

(** The loop itself.  A turn that goes round again has parsed a value,
    so has consumed at least a byte. *)
Fixpoint parse_json_loop (fuel : nat) (p : mxjson_parser_t) (s : mxstr_t)
  : option (bool * mxjson_parser_t * mxstr_t) :=
  match fuel with
  | O => None
  | S fuel' =>
      let '(ok, p, s) := parse_json_turn p s in
      if ok && negb (current_parent p =? MXJSON_IDX_NONE)
      then parse_json_loop fuel' p s
      else Some (ok, p, s)
  end.

Definition mxjson_parse_json (p : mxjson_parser_t) : bool * mxjson_parser_t :=
  let s := unparsed p in
  match parse_json_loop (S (length (data s))) p s with
  | Some (ok, p, s) =>
      let '(ok, s) :=
        if ok then
          let s := mxjson_consume_ws s in
          (mxstr_empty s, s)
        else (ok, s) in
      (ok, set_unparsed s p)
  | None => (false, p)
  end.

(** ** The API *)

Definition mxjson_resize : mxjson_resize_cb :=
  fun count_ tokens_ size_hint =>
    let tokens' :=
      if size_hint =? 0 then None
      else Some (take (Z.to_nat count_) (default [] tokens_) ++
                 replicate (Z.to_nat (size_hint - count_)) zero_token) in
    Some (size_hint, tokens').

(** The callback of the test program, which refuses to grow the array. *)
Definition mxjson_test_resize : mxjson_resize_cb :=
  fun count_ tokens_ size_hint =>
    if size_hint =? 0 then Some (count_, tokens_) else None.


(** The context as [mxjson_parse] sets it up before it asks for the root
    token: the input recorded, the cursors reset, an optional UTF-8 byte
    order mark consumed. *)
Definition parse_reset (p : mxjson_parser_t) (json_ : mxstr_t)
  : mxjson_parser_t :=
  let p := set_json json_ p in
  let p := set_unparsed json_ p in
  let p := set_token None p in
  let p := set_current_parent MXJSON_IDX_NONE p in
  let p := set_idx MXJSON_IDX_NONE p in
  set_unparsed
    (snd (mxstr_consume_str (unparsed p) (mkstr BLiteral 0 [239; 187; 191])))
    p.

Definition mxjson_parse (p : mxjson_parser_t) (json_ : mxstr_t)
  : bool * mxjson_parser_t :=
  let p := parse_reset p json_ in
  let '(ok, p) := mxjson_token p in
  if ok then mxjson_parse_json p else (ok, p).

Definition mxjson_free (p : mxjson_parser_t) : mxjson_parser_t :=
  let p :=
    match resize_fn p with
    | Some _ => snd (call_resize p 0)
    | None => p
    end in
  set_tokens None (set_count 0 p).

Definition mxjson_init (init_count_ : mxjson_idx_t) (tokens_ : token_array)
  (resize_fn_ : option mxjson_resize_cb) : mxjson_parser_t :=
  mkparser mxstr_null mxstr_null 0 0 None None 0
           init_count_ tokens_ resize_fn_.

Definition mxjson_first (p : mxjson_parser_t) (i : mxjson_idx_t)
  : mxjson_idx_t := u32 (i + 1).

Definition mxjson_next (p : mxjson_parser_t) (i : mxjson_idx_t)
  : mxjson_idx_t :=
  let tk := tok_at (tokens p) i in
  match value_type tk with
  | MXJSON_OBJECT | MXJSON_ARRAY => next tk
  | _ => u32 (i + 1)
  end.

(** The input slice of a byte string, as a caller hands it over. *)
Definition input (l : list Z) : mxstr_t := mkstr BInput 0 l.

Definition default_parser : mxjson_parser_t :=
  mxjson_init 0 None (Some mxjson_resize).

Definition toks_of (r : bool * mxjson_parser_t) : list mxjson_token_t :=
  default [] (tokens (snd r)).

(** ** The unescape pass *)

(** Modelled from the spec: the growable byte buffer [mxbuf_t] of the
    missing [mxstr.h], with the operations the core invokes.  The buffer
    is the list of bytes written so far; [available] is the slice of its
    unfilled tail, which starts where the written bytes end.
    [mxbuf_put_utf8] encodes a scalar value as UTF-8 in one to four bytes
    and appends it; a surrogate code point or a value above 0x10FFFF has
    no encoding and is refused. *)
Record mxbuf_t : Type := mkbuf { contents : list Z }.

Definition available (b : mxbuf_t) : mxstr_t :=
  mkstr BBuffer (Z.of_nat (length (contents b))) [].

Definition mxbuf_write (b : mxbuf_t) (s : mxstr_t) : mxbuf_t :=
  mkbuf (contents b ++ data s).

Definition mxbuf_putc (b : mxbuf_t) (c : Z) : mxbuf_t :=
  mkbuf (contents b ++ [c]).

Definition utf8_encode (v : Z) : option (list Z) :=
  if v <? 128 then Some [v]
  else if v <? 2048 then
    Some [Z.lor 192 (Z.shiftr v 6); Z.lor 128 (Z.land v 63)]
  else if v <? 65536 then
    if (55296 <=? v) && (v <? 57344) then None
    else Some [Z.lor 224 (Z.shiftr v 12);
               Z.lor 128 (Z.land (Z.shiftr v 6) 63);
               Z.lor 128 (Z.land v 63)]
  else if v <? 1114112 then
    Some [Z.lor 240 (Z.shiftr v 18);
          Z.lor 128 (Z.land (Z.shiftr v 12) 63);
          Z.lor 128 (Z.land (Z.shiftr v 6) 63);
          Z.lor 128 (Z.land v 63)]
  else None.

Definition mxbuf_put_utf8 (b : mxbuf_t) (v : Z) : bool * mxbuf_t :=
  match utf8_encode v with
  | Some l => (true, mkbuf (contents b ++ l))
  | None => (false, b)
  end.

(** The bytes of the buffer from the start of [s] to the start of the
    unfilled tail: [mxstr_prefix(s, buffer->available)] for an [s] that was
    the unfilled tail earlier on. *)
Definition mxbuf_since (b : mxbuf_t) (s : mxstr_t) : mxstr_t :=
  mkstr (blk s) (ptr s) (drop (Z.to_nat (ptr s)) (contents b)).

(** The [for] loop of [mxjson_hex]. *)
Fixpoint hex_loop (n : nat) (ok : bool) (s : mxstr_t) (v : Z)
  : bool * mxstr_t * Z :=
  match n with
  | O => (ok, s, v)
  | S n' =>
      if ok then
        let '(ok, s, c) := mxstr_consume_char isxdigit s 0 in
        if ok then
          let c :=
            if chr "9" <? c then u8 (Z.land c (Z.lnot 32) - chr "A" + 10)
            else u8 (c - chr "0") in
          hex_loop n' ok s (u32 (Z.shiftl v 4 + c))
        else hex_loop n' ok s v
      else (ok, s, v)
  end.

Definition mxjson_hex (str : mxstr_t) : bool * mxstr_t * Z :=
  hex_loop 4 true str 0.

(** One turn of the [while] loop of [mxjson_unescape], entered with a
    slice that is not empty. *)
Definition unescape_step (buffer : mxbuf_t) (s : mxstr_t) (c : Z)
  : bool * mxbuf_t * mxstr_t * Z :=
  let start := s in
  let '(s, c) := mxstr_consume_chars (fun c => negb (c =? BACKSLASH)) s c in
  let buffer := mxbuf_write buffer (mxstr_prefix start s) in
  let s := snd (mxstr_consume s 1) in
  let '(ok, s, c) := mxstr_consume_char (fun _ => true) s c in
  if ok then
    if (c =? DQUOTE) || (c =? BACKSLASH) || (c =? chr "/") then
      (ok, mxbuf_putc buffer c, s, c)
    else if c =? chr "b" then (ok, mxbuf_putc buffer 8, s, c)
    else if c =? chr "f" then (ok, mxbuf_putc buffer 12, s, c)
    else if c =? chr "n" then (ok, mxbuf_putc buffer 10, s, c)
    else if c =? chr "r" then (ok, mxbuf_putc buffer 13, s, c)
    else if c =? chr "t" then (ok, mxbuf_putc buffer 9, s, c)
    else if c =? chr "u" then
      let '(ok, s, v1) := mxjson_hex s in
      let '(ok, s, c, v1) :=
        if ok && (55296 <=? v1) && (v1 <? 56320) then
          let '(ok, s, c) := mxstr_consume_char (fun c => c =? BACKSLASH) s c in
          let '(ok, s, c) :=
            if ok then mxstr_consume_char (fun c => c =? chr "u") s c
            else (ok, s, c) in
          let '(ok, s, v2) := if ok then mxjson_hex s else (ok, s, 0) in
          let ok := ok && (56320 <=? v2) && (v2 <? 57344) in
          if ok
          then (ok, s, c,
                u32 (65536 + u32 (Z.shiftl (u32 (v1 - 55296)) 10)
                     + u32 (v2 - 56320)))
          else (ok, s, c, v1)
        else (ok, s, c, v1) in
      if ok then
        let '(ok, buffer) := mxbuf_put_utf8 buffer v1 in
        (ok, buffer, s, c)
      else (ok, buffer, s, c)
    else (false, buffer, s, c)
  else (ok, buffer, s, c).

Fixpoint unescape_loop (fuel : nat) (ok : bool) (buffer : mxbuf_t)
  (s : mxstr_t) (c : Z) : option (bool * mxbuf_t) :=
  match fuel with
  | O => None
  | S fuel' =>
      if ok && negb (mxstr_empty s) then
        let '(ok, buffer, s, c) := unescape_step buffer s c in
        unescape_loop fuel' ok buffer s c
      else Some (ok, buffer)
  end.

Definition mxjson_unescape (buffer : mxbuf_t) (str_ : mxstr_t)
  : bool * mxbuf_t :=
  match unescape_loop (S (length (data str_))) true buffer str_ 0 with
  | Some r => r
  | None => (false, buffer)
  end.

(** [mxstr((char * )&p->json.ptr[off], size)]: the slice of the input
    that a token records. *)
Definition json_slice (p : mxjson_parser_t) (off size : Z) : mxstr_t :=
  mkstr (blk (json p)) (ptr (json p) + off)
        (take (Z.to_nat size) (drop (Z.to_nat off) (data (json p)))).


Definition mxjson_token_string (p : mxjson_parser_t) (i : mxjson_idx_t)
  (buffer : mxbuf_t) : mxstr_t * mxbuf_t * bool :=
  let tk := tok_at (tokens p) i in
  match value_type tk with
  | MXJSON_NULL => (mxstr_literal "null", buffer, true)
  | MXJSON_BOOL =>
      if boolean tk then (mxstr_literal "true", buffer, true)
      else (mxstr_literal "false", buffer, true)
  | MXJSON_NUMBER | MXJSON_STRING =>
      let str_ := json_slice p (str tk) (str_size tk) in
      if value_esc tk then
        let s := available buffer in
        let '(ok, buffer) := mxjson_unescape buffer str_ in
        (if ok then mxbuf_since buffer s else str_, buffer, ok)
      else (str_, buffer, true)
  | MXJSON_OBJECT => (mxstr_literal "object", buffer, true)
  | MXJSON_ARRAY => (mxstr_literal "array", buffer, true)
  | _ => (mxstr_null, buffer, true)
  end.

(** ** Inputs of the worked scenarios *)

(** A [\u] escape with the four hexadecimal digits [hex]. *)
Definition esc_u (hex : string) : list Z := BACKSLASH :: chr "u" :: bytes hex.

(** The object with members a and b of the second end-to-end scenario. *)
Definition scenario_object : list Z :=
  bytes "{" ++ quoted "a" ++ bytes ":1," ++ quoted "b" ++ bytes ":[true,null]}".

(** The eight opening brackets, the number 0 and the eight closing
    brackets of the capacity scenario. *)
Definition nested8 : list Z := bytes "[[[[[[[[0]]]]]]]]".

(** The token array of the test program: eight tokens, no callback. *)
Definition fixed8_parser : mxjson_parser_t :=
  mxjson_init 8 (Some (replicate 8 zero_token)) None.

(** What the second scenario says about the parse result [r]. *)
Definition scenario_object_result (r : bool * mxjson_parser_t) : Prop :=
  let p := snd r in
  let t := tok_at (tokens p) in
  fst r = true /\ idx p = 5 /\
  (value_type (t 1) = MXJSON_OBJECT /\ children (t 1) = 2 /\
   next (t 1) = 6 /\ parent (t 1) = 0) /\
  (value_type (t 2) = MXJSON_NUMBER /\ parent (t 2) = 1 /\
   data (json_slice p (name (t 2)) (name_size (t 2))) = bytes "a" /\
   data (json_slice p (str (t 2)) (str_size (t 2))) = bytes "1") /\
  (value_type (t 3) = MXJSON_ARRAY /\ children (t 3) = 2 /\
   next (t 3) = 6 /\ parent (t 3) = 1 /\
   data (json_slice p (name (t 3)) (name_size (t 3))) = bytes "b") /\
  (value_type (t 4) = MXJSON_BOOL /\ boolean (t 4) = true /\
   parent (t 4) = 3) /\
  (value_type (t 5) = MXJSON_NULL /\ parent (t 5) = 3).


(** ** Notions the theorems are stated with *)

(** The number of tokens an array holds (0 for the NULL pointer). *)
Definition tok_len (t : option (list mxjson_token_t)) : Z :=
  match t with
  | Some l => Z.of_nat (length l)
  | None => 0
  end.

(** A rewrite of a token that leaves everything but its name alone. *)
Definition keeps_value (f : mxjson_token_t -> mxjson_token_t) : Prop :=
  forall t, parent (f t) = parent t /\ value_type (f t) = value_type t /\
            value_esc (f t) = value_esc t /\ u0 (f t) = u0 t /\ u1 (f t) = u1 t.

(** What the header asks of a resize callback that agrees to grow the
    array: at least one token more than before, at least two tokens in
    all, the old tokens kept, and the [count] and [tokens] fields brought
    up to date.  The hints [mxjson_token] passes are larger than the
    current size and at least 2. *)
Definition resize_contract (f : mxjson_resize_cb) : Prop :=
  forall c t h c' t',
    tok_len t = c -> c < h -> 2 <= h -> h < 4294967296 ->
    f c t h = Some (c', t') ->
    tok_len t' = c' /\ c < c' /\ 2 <= c' /\ c' < 4294967296 /\
    forall i, 0 <= i < c -> tok_at t' i = tok_at t i.

Definition policy_ok (rf : option mxjson_resize_cb) : Prop :=
  match rf with
  | None => True
  | Some f => resize_contract f
  end.

(** A token array in use has [count] tokens, at least two of them, with
    a sentinel of kind NONE in front; the NULL pointer goes with a count
    of 0. *)
Definition store_ok (c : Z) (t : option (list mxjson_token_t)) : Prop :=
  match t with
  | None => c = 0
  | Some _ =>
      tok_len t = c /\ 2 <= c < 4294967296 /\
      value_type (tok_at t 0) = MXJSON_NONE
  end.

(** A context as [mxjson_init] and any number of parses leave it: the
    initial array has the announced size, the callback keeps its contract,
    and the token array is in order. *)
Definition ctx_ok (p : mxjson_parser_t) : Prop :=
  0 <= init_count p < 4294967296 /\
  (forall l, init_tokens p = Some l -> Z.of_nat (length l) = init_count p) /\
  policy_ok (resize_fn p) /\
  store_ok (count p) (tokens p).

(** Inputs of less than 2 GiB, for which the size hints of the allocator
    do not wrap around. *)
Definition short_input (l : list Z) : Prop :=
  Z.of_nat (length l) < 2147483647.

(** *** The ways out of one turn of the parse loop

    [mxjson_parse_value] and [mxjson_parse_name] decide from the input
    alone whether they succeed, what is left of the input and how the
    current token is rewritten; the context only receives the result. *)
Definition after_value (f : mxjson_token_t -> mxjson_token_t) (opens : bool)
  (p : mxjson_parser_t) : mxjson_parser_t :=
  if opens then set_current_parent (idx p) (upd_token f p) else upd_token f p.

Definition value_effect (js s : mxstr_t) (ok : bool)
  (f : mxjson_token_t -> mxjson_token_t) (opens : bool) (s' : mxstr_t) : Prop :=
  (forall q, json q = js ->
     mxjson_parse_value q s = (ok, after_value f opens q, s')) /\
  (dlen s' <= dlen s)%nat /\ (ok = true -> (dlen s' < dlen s)%nat) /\
  keeps_links f /\
  (opens = true ->
   ok = true /\ exists ty, is_container ty = true /\
                           forall t, f t = set_value_type ty t) /\
  (opens = false -> ok = true ->
   forall t, is_container (value_type (f t)) = false /\
             value_type (f t) <> MXJSON_NONE).

Definition name_effect (js s : mxstr_t) (ok : bool)
  (g : mxjson_token_t -> mxjson_token_t) (s' : mxstr_t) : Prop :=
  (forall q, json q = js -> mxjson_parse_name q s = (ok, upd_token g q, s')) /\
  (dlen s' <= dlen s)%nat /\ keeps_value g.

(** The separator test of the loop: no comma before the first member of a
    container that has just been opened, one comma before any other. *)
Definition comma_effect (par i : Z) (s : mxstr_t) (ok : bool) (s' : mxstr_t)
  : Prop :=
  (if par =? i then (true, mxjson_consume_ws s)
   else (mxstr_consume_char (fun c => c =? chr ",") (mxjson_consume_ws s) 0).1)
  = (ok, s').

Inductive turn_exit (p : mxjson_parser_t) (s : mxstr_t)
  : bool -> mxjson_parser_t -> mxstr_t -> Prop :=
| exit_value f opens s1 :
    value_effect (json p) (mxjson_consume_ws s) false f opens s1 ->
    turn_exit p s false (after_value f opens p) s1
| exit_root f opens s1 p2 s2 :
    value_effect (json p) (mxjson_consume_ws s) true f opens s1 ->
    mxjson_ascend (after_value f opens p) s1 = (p2, s2, 0) ->
    turn_exit p s true (set_current_parent 0 p2) s2
| exit_comma f opens s1 p2 s2 par s4 :
    value_effect (json p) (mxjson_consume_ws s) true f opens s1 ->
    mxjson_ascend (after_value f opens p) s1 = (p2, s2, par) ->
    par <> 0 -> comma_effect par (idx p2) s2 false s4 ->
    turn_exit p s false (set_current_parent par p2) s4
| exit_token f opens s1 p2 s2 par s4 p5 :
    value_effect (json p) (mxjson_consume_ws s) true f opens s1 ->
    mxjson_ascend (after_value f opens p) s1 = (p2, s2, par) ->
    par <> 0 -> comma_effect par (idx p2) s2 true s4 ->
    mxjson_token (set_current_parent par p2) = (false, p5) ->
    turn_exit p s false p5 s4
| exit_next f opens s1 p2 s2 par s4 p5 :
    value_effect (json p) (mxjson_consume_ws s) true f opens s1 ->
    mxjson_ascend (after_value f opens p) s1 = (p2, s2, par) ->
    par <> 0 -> comma_effect par (idx p2) s2 true s4 ->
    mxjson_token (set_current_parent par p2) = (true, p5) ->
    value_type (tok_at (tokens p5) par) <> MXJSON_OBJECT ->
    turn_exit p s true p5 s4
| exit_member f opens s1 p2 s2 par s4 p5 ok g s6 :
    value_effect (json p) (mxjson_consume_ws s) true f opens s1 ->
    mxjson_ascend (after_value f opens p) s1 = (p2, s2, par) ->
    par <> 0 -> comma_effect par (idx p2) s2 true s4 ->
    mxjson_token (set_current_parent par p2) = (true, p5) ->
    value_type (tok_at (tokens p5) par) = MXJSON_OBJECT ->
    name_effect (json p5) (mxjson_consume_ws s4) ok g s6 ->
    turn_exit p s ok (upd_token g p5) s6.

(** *** Invariants of the parse loop *)

(** Two contexts set up the same way. *)
Definition same_setup (p q : mxjson_parser_t) : Prop :=
  json q = json p /\ init_count q = init_count p /\
  init_tokens q = init_tokens p /\ resize_fn q = resize_fn p.

(** Every token allocated so far has its parent before it; the root has
    the sentinel for parent and no other token has. *)
Definition parents_ok (p : mxjson_parser_t) : Prop :=
  forall i, 1 <= i <= idx p ->
    (i = 1 -> parent (tok_at (tokens p) i) = 0) /\
    (1 < i -> 1 <= parent (tok_at (tokens p) i) < i).

(** The context at the head of the loop, about to parse the value of the
    token [idx], which has just been allocated under [current_parent].
    [B] bounds the index of the last token by the number of bytes still
    to read. *)
Definition head_ok (B : Z) (p : mxjson_parser_t) (s : mxstr_t) : Prop :=
  ctx_ok p /\ 1 <= idx p < count p /\ token p = Some (idx p) /\
  0 <= current_parent p < idx p /\ parents_ok p /\
  idx p + Z.of_nat (dlen s) <= B /\ B < 2147483648.

(** The address just past the last byte of a slice; consuming bytes from
    the front of a slice never moves it. *)
Definition end_ptr (s : mxstr_t) : Z := ptr s + Z.of_nat (dlen s).

(** The byte a character operation leaves in [c]. *)
Definition peek (l : list Z) (c : Z) : Z :=
  match l with x :: _ => x | [] => c end.

(** *** Number syntax

    The pieces of the RFC 8259 number grammar, as byte strings:
    [number = [ '-' ] int [ frac ] [ exp ]]. *)
Definition starts_with_digit (l : list Z) : bool :=
  match l with
  | x :: _ => isdigit x
  | [] => false
  end.

Definition all_digits (l : list Z) : Prop := Forall (fun x => isdigit x = true) l.

Definition is_sign (l : list Z) : Prop := l = [] \/ l = [chr "-"].

Definition is_int (l : list Z) : Prop :=
  l = [chr "0"] \/
  exists d ds, l = d :: ds /\ isdigit d = true /\ d <> chr "0" /\ all_digits ds.

Definition is_frac (l : list Z) : Prop :=
  l = [] \/ exists d ds, l = chr "." :: d :: ds /\ isdigit d = true /\ all_digits ds.

Definition is_exp_mark (e : Z) : Prop := e = chr "e" \/ e = chr "E".

Definition is_exp_sign (l : list Z) : Prop :=
  l = [] \/ l = [chr "+"] \/ l = [chr "-"].

(** An exponent is missing its digits: what follows the exponent mark is
    neither a digit nor a sign with a digit after it. *)
Definition exp_missing_digit (l : list Z) : bool :=
  match l with
  | x :: r =>
      if (x =? chr "+") || (x =? chr "-") then negb (starts_with_digit r)
      else negb (isdigit x)
  | [] => true
  end.

Definition is_exp (l : list Z) : Prop :=
  l = [] \/
  exists e sg d ds, l = e :: sg ++ d :: ds /\ is_exp_mark e /\ is_exp_sign sg /\
                    isdigit d = true /\ all_digits ds.

(** A well-formed number lexeme. *)
Definition valid_number (l : list Z) : Prop :=
  exists sg i fr ex, l = sg ++ i ++ fr ++ ex /\
                     is_sign sg /\ is_int i /\ is_frac fr /\ is_exp ex.

(** What may follow a number without being taken for a part of it. *)
Definition delimited (rest : list Z) : Prop :=
  match rest with
  | x :: _ => isdigit x = false /\ x <> chr "." /\ x <> chr "e" /\ x <> chr "E"
  | [] => True
  end.

(** The input at a place where a value is expected begins with one of the
    ill-formed number lexemes: a minus sign without a digit after it, a
    leading zero with more digits, a hexadecimal literal, a decimal point
    or an exponent mark without a digit after it, a plus sign or a decimal
    point in front, or one of the words Infinity and NaN. *)
Inductive bad_number : list Z -> Prop :=
| bad_minus rest :
    starts_with_digit rest = false -> bad_number (chr "-" :: rest)
| bad_leading_zero sg d rest :
    is_sign sg -> isdigit d = true -> bad_number (sg ++ chr "0" :: d :: rest)
| bad_hex sg x rest :
    is_sign sg -> x = chr "x" \/ x = chr "X" ->
    bad_number (sg ++ chr "0" :: x :: rest)
| bad_fraction sg i rest :
    is_sign sg -> is_int i -> starts_with_digit rest = false ->
    bad_number (sg ++ i ++ chr "." :: rest)
| bad_exponent sg i fr e rest :
    is_sign sg -> is_int i -> is_frac fr -> is_exp_mark e ->
    exp_missing_digit rest = true ->
    bad_number (sg ++ i ++ fr ++ e :: rest)
| bad_plus rest : bad_number (chr "+" :: rest)
| bad_point rest : bad_number (chr "." :: rest)
| bad_infinity rest : bad_number (bytes "Infinity" ++ rest)
| bad_nan rest : bad_number (bytes "NaN" ++ rest).

(** *** Value positions

    The loop of [mxjson_parse_json] goes from the head [(p, s)] to the
    head [(q, t)] by turns that succeed and leave a parent to return to. *)
Inductive turns : mxjson_parser_t -> mxstr_t -> mxjson_parser_t -> mxstr_t -> Prop :=
| turns_here p s : turns p s p s
| turns_on p s p1 s1 q t :
    parse_json_turn p s = (true, p1, s1) ->
    current_parent p1 <> MXJSON_IDX_NONE ->
    turns p1 s1 q t -> turns p s q t.

(** In the parse of [js] from the context [p], the parser comes to expect
    a value with the context [q] and the input [t] left. *)
Definition value_position (p : mxjson_parser_t) (js : mxstr_t)
  (q : mxjson_parser_t) (t : mxstr_t) : Prop :=
  exists p1, mxjson_token (parse_reset p js) = (true, p1) /\
             turns p1 (unparsed p1) q t.

(** The ill-formed numbers the specification lists, each as the only
    member of an array. *)
Definition rejected_numbers : list string :=
  ["[-]"; "[012]"; "[1.]"; "[1e]"; "[1e+]"; "[1.e3]"; "[+1]"; "[.5]";
   "[-.5]"; "[0x1F]"; "[Infinity]"; "[NaN]"; "[-Infinity]"; "[-012]";
   "[1.5e]"; "[0.e1]"]%string.

(** *** Escapes and surrogates

    The lexeme of a string, piece by piece: a byte that stands for
    itself, a two-byte escape, or a [\u] escape with four hexadecimal
    digits. *)
Inductive lexeme_item : Type :=
| Plain (c : Z)
| Esc (c : Z)
| EscU (a b c d : Z).

Definition item_ok (it : lexeme_item) : Prop :=
  match it with
  | Plain c => c <> BACKSLASH
  | Esc c => is_simple_escape c = true
  | EscU a b c d =>
      isxdigit a = true /\ isxdigit b = true /\
      isxdigit c = true /\ isxdigit d = true
  end.

Definition render_item (it : lexeme_item) : list Z :=
  match it with
  | Plain c => [c]
  | Esc c => [BACKSLASH; c]
  | EscU a b c d => [BACKSLASH; chr "u"; a; b; c; d]
  end.

Fixpoint render (items : list lexeme_item) : list Z :=
  match items with
  | [] => []
  | it :: rest => render_item it ++ render rest
  end.

(** The value of a hexadecimal digit, and of four of them. *)
Definition hex_digit (c : Z) : Z :=
  if isdigit c then c - 48
  else if (65 <=? c) && (c <=? 70) then c - 55
  else c - 87.

Definition hex4 (a b c d : Z) : Z :=
  ((hex_digit a * 16 + hex_digit b) * 16 + hex_digit c) * 16 + hex_digit d.

(** The code unit a [\u] escape decodes to. *)
Definition code_unit (it : lexeme_item) : option Z :=
  match it with
  | EscU a b c d => Some (hex4 a b c d)
  | _ => None
  end.

Definition is_high (v : Z) : bool := (55296 <=? v) && (v <=? 56319).
Definition is_low (v : Z) : bool := (56320 <=? v) && (v <=? 57343).

(** The scalar value of a surrogate pair. *)
Definition surrogate_scalar (hi lo : Z) : Z :=
  65536 + Z.shiftl (hi - 55296) 10 + (lo - 56320).

(** The four-byte UTF-8 encoding of a scalar value of 17 to 21 bits. *)
Definition utf8_four (v : Z) : list Z :=
  [Z.lor 240 (Z.shiftr v 18);
   Z.lor 128 (Z.land (Z.shiftr v 12) 63);
   Z.lor 128 (Z.land (Z.shiftr v 6) 63);
   Z.lor 128 (Z.land v 63)].

(** Every surrogate of the lexeme is one of a pair, high then low, read
    from the left. *)
Fixpoint surrogates_ok (items : list lexeme_item) : bool :=
  match items with
  | [] => true
  | EscU a b c d :: rest =>
      if is_high (hex4 a b c d) then
        match rest with
        | EscU a' b' c' d' :: rest' =>
            is_low (hex4 a' b' c' d') && surrogates_ok rest'
        | _ => false
        end
      else negb (is_low (hex4 a b c d)) && surrogates_ok rest
  | _ :: rest => surrogates_ok rest
  end.

(** An escape of the lexeme decodes to a high surrogate and what comes
    next is not an escape that decodes to a low surrogate. *)
Definition high_unpaired (items : list lexeme_item) : Prop :=
  exists pre it rest v,
    items = pre ++ it :: rest /\ code_unit it = Some v /\ is_high v = true /\
    forall w, head rest ≫= code_unit = Some w -> is_low w = false.

(** An escape of the lexeme decodes to a low surrogate and what comes
    before it is not an escape that decodes to a high surrogate. *)
Definition low_lone (items : list lexeme_item) : Prop :=
  exists pre it rest v,
    items = pre ++ it :: rest /\ code_unit it = Some v /\ is_low v = true /\
    forall w, last pre ≫= code_unit = Some w -> is_high w = false.

(** *** The shape of the token tree

    [n] subtrees in a row, from the token [j] up to the token [e], each
    of them with the parent [par]; the subtree of a token ends where
    [mxjson_next] says. *)
Fixpoint walk (p : mxjson_parser_t) (par : Z) (n : nat) (j e : Z) : Prop :=
  match n with
  | O => j = e
  | S n' =>
      j < e /\ parent (tok_at (tokens p) j) = par /\
      j < mxjson_next p j /\ walk p par n' (mxjson_next p j) e
  end.

(** What the specification says of an object or array token [i]. *)
Definition children_ok (p : mxjson_parser_t) (i : Z) : Prop :=
  let t := tok_at (tokens p) i in
  (children t = 0 /\ next t = i + 1) \/
  (0 < children t /\ walk p i (Z.to_nat (children t)) (i + 1) (next t)).

(** A token whose value is complete: if it is a container, it has been
    closed, its subtree ends at [m] or before, its children are all
    there, and none of the containers [anc] still open lies inside. *)
Definition closed (p : mxjson_parser_t) (m : Z) (anc : list Z) (i : Z) : Prop :=
  let t := tok_at (tokens p) i in
  is_container (value_type t) = true ->
  i < next t <= m /\ 0 <= children t /\
  walk p i (Z.to_nat (children t)) (i + 1) (next t) /\
  forall a, In a anc -> i < a -> next t <= a.

(** The containers still open, innermost first, above the token [c]:
    each is the parent of the one before, and its children so far are
    complete subtrees up to the child that is open. *)
Fixpoint chain_ok (p : mxjson_parser_t) (c : Z) (anc : list Z) : Prop :=
  match anc with
  | [] => parent (tok_at (tokens p) c) = 0
  | a :: anc' =>
      1 <= a < c /\ parent (tok_at (tokens p) c) = a /\
      is_container (value_type (tok_at (tokens p) a)) = true /\
      1 <= children (tok_at (tokens p) a) /\
      walk p a (Z.to_nat (children (tok_at (tokens p) a) - 1)) (a + 1) c /\
      chain_ok p a anc'
  end.

(** The tree at the head of the loop: the token [idx] has been allocated
    under the innermost open container and has no value yet. *)
Definition tree_head (p : mxjson_parser_t) (anc : list Z) : Prop :=
  current_parent p = hd 0 anc /\ chain_ok p (idx p) anc /\
  children (tok_at (tokens p) (idx p)) = 0 /\
  forall i, 1 <= i < idx p -> ~ In i anc -> closed p (idx p) anc i.

(** The tree while the brackets after a value are being closed: every
    child of the innermost open container is complete. *)
Definition tree_up (p : mxjson_parser_t) (anc : list Z) : Prop :=
  match anc with
  | [] => True
  | a :: anc' =>
      1 <= a <= idx p /\
      is_container (value_type (tok_at (tokens p) a)) = true /\
      0 <= children (tok_at (tokens p) a) /\
      walk p a (Z.to_nat (children (tok_at (tokens p) a))) (a + 1) (idx p + 1) /\
      chain_ok p a anc'
  end /\
  forall i, 1 <= i <= idx p -> ~ In i anc -> closed p (idx p + 1) anc i.

(** *** Reusing a context

    The allocation policies of the library and of its test program: no
    callback, a callback that never grows the array, or one that grows it
    whenever it is asked to. *)
Definition never_grows (f : mxjson_resize_cb) : Prop :=
  forall c t h, 2 <= h -> f c t h = None.

Definition always_grows (f : mxjson_resize_cb) : Prop :=
  resize_contract f /\
  forall c t h, tok_len t = c -> c < h -> 2 <= h -> h < 4294967296 ->
                f c t h <> None.

Definition fixed_policy (rf : option mxjson_resize_cb) : Prop :=
  match rf with
  | None => True
  | Some f => never_grows f
  end.

Definition growing_policy (rf : option mxjson_resize_cb) : Prop :=
  match rf with
  | None => False
  | Some f => always_grows f
  end.

Definition steady_policy (rf : option mxjson_resize_cb) : Prop :=
  fixed_policy rf \/ growing_policy rf.

(** Under a policy that never grows the array, the array in use is the
    one the caller gave to [mxjson_init]. *)
Definition cap_ok (p : mxjson_parser_t) : Prop :=
  fixed_policy (resize_fn p) -> tokens p <> None ->
  count p = init_count p /\ init_tokens p <> None /\ 1 < init_count p.

(** Two token arrays with the same tokens from 1 to [k]. *)
Definition agree (tF tR : token_array) (k : Z) : Prop :=
  forall i, 1 <= i <= k -> tok_at tR i = tok_at tF i.

(** Two contexts at the same point of a parse of the same input, set up
    with an array of the same size from the caller, or none, and with
    the same callback: they differ in the size of the token array, in
    the tokens not in use and in what the array of the caller holds. *)
Definition reuse_sim (F R : mxjson_parser_t) : Prop :=
  json R = json F /\ idx R = idx F /\
  token R = token F /\ current_parent R = current_parent F /\
  init_count R = init_count F /\
  (init_tokens R = None <-> init_tokens F = None) /\
  resize_fn R = resize_fn F /\
  ctx_ok F /\ ctx_ok R /\ cap_ok F /\ cap_ok R /\
  agree (tokens F) (tokens R) (idx F).

(** The context after the inputs [As] have been parsed with it, one
    after the other. *)
Definition parse_all (p : mxjson_parser_t) (As : list mxstr_t) : mxjson_parser_t :=
  fold_left (fun q a => snd (mxjson_parse q a)) As p.

(** ** The tree display program ([mxjson-tree.c]) *)

Definition u16 (z : Z) : Z := z mod 65536.

(** The [do ... while] loop of [token_depth]: one turn for the token and
    one for each of its ancestors.  [None] is the answer only when [fuel]
    turns were not enough. *)
Fixpoint depth_loop (fuel : nat) (p : mxjson_parser_t) (i : mxjson_idx_t)
  (depth : Z) : option Z :=
  match fuel with
  | O => None
  | S fuel' =>
      let depth := u16 (depth + 1) in
      let i := parent (tok_at (tokens p) i) in
      if negb (i =? MXJSON_IDX_NONE) then depth_loop fuel' p i depth
      else Some depth
  end.

(** [token_depth]: the number of object and array values a token is
    inside, as a [uint16_t].  The loop follows parent links, which go
    down after a parse, so as many turns as the index says are enough. *)
Definition token_depth (p : mxjson_parser_t) (i : mxjson_idx_t) : option Z :=
  match depth_loop (Z.to_nat i) p i 0 with
  | Some depth => Some (u16 (depth - 1))
  | None => None
  end.

(** *** Notions the further theorems are stated with *)

(** The callback, if there is one, agrees to release the token array, as
    the assertion of [mxjson_free] expects. *)
Definition releases (p : mxjson_parser_t) : Prop :=
  match resize_fn p with
  | Some f => f (count p) (tokens p) 0 <> None
  | None => True
  end.

(** The context [p] when the array of the caller, if there is one, holds
    the tokens [a]: what earlier parses have written into it, which
    [init_tokens] does not record (see [ensure_capacity]). *)
Definition caller_array (a : list mxjson_token_t) (p : mxjson_parser_t)
  : mxjson_parser_t :=
  match init_tokens p with
  | Some _ => set_init_tokens (Some a) p
  | None => p
  end.

(** The token [a] is the token [k] or one of its ancestors. *)
Inductive ancestor (p : mxjson_parser_t) (a : Z) : Z -> Prop :=
| ancestor_self : ancestor p a a
| ancestor_up k :
    ancestor p a (parent (tok_at (tokens p) k)) -> a < k -> ancestor p a k.

(** The token [i] is inside [n] object and array values: its chain of
    parent links has [n] steps before it reaches the root. *)
Inductive nesting (p : mxjson_parser_t) : Z -> nat -> Prop :=
| nesting_root i :
    parent (tok_at (tokens p) i) = MXJSON_IDX_NONE -> nesting p i 0
| nesting_child i n :
    parent (tok_at (tokens p) i) <> MXJSON_IDX_NONE ->
    nesting p (parent (tok_at (tokens p) i)) n -> nesting p i (S n).

(** The bytes a JSON value can begin with: a quote, a bracket, the first
    letter of [true], [false] or [null], a minus sign or a digit. *)
Definition starts_value (l : list Z) : bool :=
  match l with
  | c :: _ =>
      (c =? DQUOTE) || (c =? chr "{") || (c =? chr "[") || (c =? chr "t") ||
      (c =? chr "f") || (c =? chr "n") || (c =? chr "-") || isdigit c
  | [] => false
  end.

(** A piece of a string lexeme that the string grammar allows: a byte
    from the space on that is neither the quote nor the backslash, or a
    well-formed escape. *)
Definition string_item_ok (it : lexeme_item) : Prop :=
  match it with
  | Plain c => 32 <= c /\ c <> DQUOTE /\ c <> BACKSLASH
  | _ => item_ok it
  end.

Definition is_escape (it : lexeme_item) : bool :=
  match it with
  | Plain _ => false
  | _ => true
  end.

Definition has_escape (items : list lexeme_item) : bool := existsb is_escape items.

(** The byte a two-byte escape stands for. *)
Definition unescape_byte (c : Z) : Z :=
  if c =? chr "b" then 8
  else if c =? chr "f" then 12
  else if c =? chr "n" then 10
  else if c =? chr "r" then 13
  else if c =? chr "t" then 9
  else c.

(** The bytes a lexeme stands for: plain bytes as they are, two-byte
    escapes as their byte, a [\u] escape as the UTF-8 encoding of its
    code point, and a surrogate pair as the four bytes of its scalar
    value.  A surrogate that is not one of a pair has no decoding. *)
Fixpoint decode (items : list lexeme_item) : option (list Z) :=
  match items with
  | [] => Some []
  | Plain c :: rest => option_map (cons c) (decode rest)
  | Esc c :: rest => option_map (cons (unescape_byte c)) (decode rest)
  | EscU a b c d :: rest =>
      if is_high (hex4 a b c d) then
        match rest with
        | EscU a' b' c' d' :: rest' =>
            if is_low (hex4 a' b' c' d') then
              option_map
                (app (utf8_four (surrogate_scalar (hex4 a b c d) (hex4 a' b' c' d'))))
                (decode rest')
            else None
        | _ => None
        end
      else
        match utf8_encode (hex4 a b c d), decode rest with
        | Some l, Some r => Some (l ++ r)
        | _, _ => None
        end
  end.

(** The lexeme is empty or its last piece is an escape. *)
Definition ends_in_escape (items : list lexeme_item) : Prop :=
  match last items with
  | Some (Plain _) => False
  | _ => True
  end.

(** ** The report of [mxjson-tree]

    [main] of [mxjson-tree.c] parses its input with a context that has
    no array of its own and the [realloc] policy, and sorts the result
    into three cases, each with an assertion on the value [mxjson_parse]
    returned.  An assertion that fails ends the program: [None].  The
    number of bytes parsed is a [size_t]. *)
Definition tree_parser : mxjson_parser_t :=
  mxjson_init 1024 None (Some mxjson_resize).

Definition tree_status (ok : bool) (p : mxjson_parser_t) : option string :=
  if count p <=? idx p then
    if negb ok then Some "Insufficient token memory"%string else None
  else if negb (mxstr_empty (unparsed p)) then
    if negb ok then Some "Invalid JSON"%string else None
  else
    if ok then Some "Valid JSON"%string else None.

Definition tree_report (json_ : mxstr_t) : option (string * Z) :=
  let '(ok, p) := mxjson_parse tree_parser json_ in
  match tree_status ok p with
  | Some status =>
      Some (status, (mxstr_len (json p) - mxstr_len (unparsed p)) mod 2 ^ 64)
  | None => None
  end.

(** *** The lexemes of the tokens

    A token records its value and its name by an offset into the input
    and a size.  The definitions below say where in the document these
    bytes are: the value is the string or the number that the input
    begins with where the parser came to expect the value of the token,
    and the name is the string in front of the colon before it. *)
Definition slice (js : mxstr_t) (off size : Z) : list Z :=
  take (Z.to_nat size) (drop (Z.to_nat off) (data js)).

(** What comes after a value: white space, and then a comma or a
    closing bracket, or, where [last] holds, nothing more. *)
Definition followed_by (last : Prop) (rest : list Z) : Prop :=
  exists w tl,
    rest = w ++ tl /\ Forall (fun c => is_ws c = true) w /\
    match tl with
    | [] => last
    | c :: _ => c = chr "," \/ c = chr "]" \/ c = chr "}"
    end.

(** The bytes [rest] are white space and then the input [s]. *)
Definition pending (s : mxstr_t) (rest : list Z) : Prop :=
  exists w, rest = w ++ data s /\ Forall (fun c => is_ws c = true) w.

(** The token [t] records the value that the input [v] left of the
    document [js] begins with.  A string: [v] begins with a quote,
    well-formed pieces and the closing quote; the token has the offset
    of the byte after the opening quote, the number of bytes between
    the quotes, and its escape flag set exactly when one of the pieces
    is an escape.  A number: [v] begins with a well-formed number; the
    token has its offset and size, and its escape flag is not set.
    [F] is what is known of the input after the value. *)
Definition records_value (js v : mxstr_t) (F : list Z -> Prop)
  (t : mxjson_token_t) : Prop :=
  match value_type t with
  | MXJSON_NUMBER =>
      exists pre n rest,
        valid_number n /\
        data js = pre ++ n ++ rest /\ data v = n ++ rest /\
        str t = Z.of_nat (length pre) /\
        str_size t = Z.of_nat (length n) /\
        value_esc t = false /\ F rest
  | MXJSON_STRING =>
      exists pre items rest,
        Forall string_item_ok items /\
        data js = pre ++ DQUOTE :: render items ++ DQUOTE :: rest /\
        data v = DQUOTE :: render items ++ DQUOTE :: rest /\
        str t = Z.of_nat (length pre) + 1 /\
        str_size t = Z.of_nat (length (render items)) /\
        value_esc t = has_escape items /\ F rest
  | _ => True
  end.

(** The token [t] records the name in front of the input [s] left of
    the document [js]: [s] comes after a quote, well-formed pieces, the
    closing quote, white space and a colon; the token has the offset of
    the byte after the opening quote, the number of bytes between the
    quotes, and its [name_esc] flag set exactly when one of the pieces
    is an escape. *)
Definition records_name (js s : mxstr_t) (t : mxjson_token_t) : Prop :=
  exists pre items w,
    Forall string_item_ok items /\ Forall (fun c => is_ws c = true) w /\
    data js = pre ++ DQUOTE :: render items ++ DQUOTE :: w ++ chr ":" :: data s /\
    name t = Z.of_nat (length pre) + 1 /\
    name_size t = Z.of_nat (length (render items)) /\
    name_esc t = has_escape items.

(** A token without a name, as [mxjson_token] leaves it. *)
Definition no_name (t : mxjson_token_t) : Prop :=
  name t = 0 /\ name_size t = 0 /\ name_esc t = false.

(** The name of the token [i] of the array [T]: that of a member of an
    object is the one in front of [s], any other token has none. *)
Definition name_of (js s : mxstr_t) (T : token_array) (i : Z) : Prop :=
  let t := tok_at T i in
  match value_type (tok_at T (parent t)) with
  | MXJSON_OBJECT => records_name js s t
  | _ => no_name t
  end.

(** What closing a container and counting a child leave of a token:
    its kind, its parent and its name, and all of it unless it is a
    container. *)
Definition kept (t t' : mxjson_token_t) : Prop :=
  value_type t' = value_type t /\ parent t' = parent t /\
  name t' = name t /\ name_size t' = name_size t /\
  name_esc t' = name_esc t /\
  (is_container (value_type t) = false -> t' = t).

(** The slice [s'] is what is left of the slice [s] after some bytes
    have been consumed from its front. *)
Definition tail_of (s s' : mxstr_t) : Prop :=
  blk s' = blk s /\
  exists pre, data s = pre ++ data s' /\ ptr s' = ptr s + Z.of_nat (length pre).

(** A token that has been allocated and has no value yet. *)
Definition fresh_token (p : mxjson_parser_t) : Prop :=
  value_type (tok_at (tokens p) (idx p)) = MXJSON_NONE /\
  value_esc (tok_at (tokens p) (idx p)) = false.

(** Every token [i] from 1 to [k], in the loop that started from the
    context [p1], was the current token at a head [(q0, t0)] of the
    loop; it records the value that the input [t0] begins with after
    its white space, with [F] known of what comes after it, and the
    name in front of [t0].  For the names this takes an input of less
    than 2^27 bytes, the most the 27 bits of [name_size] can count. *)
Definition lexemes_ok (F : list Z -> Prop) (p1 p : mxjson_parser_t) (k : Z)
  : Prop :=
  forall i, 1 <= i <= k ->
    exists q0 t0,
      turns p1 (unparsed p1) q0 t0 /\ idx q0 = i /\
      records_value (json p) (mxjson_consume_ws t0) F (tok_at (tokens p) i) /\
      (Z.of_nat (length (data (json p))) < 134217728 ->
       name_of (json p) t0 (tokens p) i).

(** *** The calls of the token allocator in a parse

    The context with which a turn of the loop of [mxjson_parse_json]
    calls [mxjson_token], if the turn gets that far: the value has been
    parsed, the brackets after it have been closed, a parent is left,
    and the comma is there where one is due.  This is [parse_json_turn]
    up to that call. *)
Definition turn_request (p : mxjson_parser_t) (s : mxstr_t)
  : option mxjson_parser_t :=
  let s := mxjson_consume_ws s in
  let '(ok, p, s) := mxjson_parse_value p s in
  if ok then
    let '(p, s, parent_) := mxjson_ascend p s in
    let p := set_current_parent parent_ p in
    if negb (parent_ =? MXJSON_IDX_NONE) then
      let s := mxjson_consume_ws s in
      let '(ok, s) :=
        if parent_ =? idx p then (true, s)
        else
          let '(ok, s, _) :=
            mxstr_consume_char (fun c => c =? chr ",") s 0 in
          (ok, s) in
      if ok then Some p else None
    else None
  else None.

(** The parse of [js] with the context [p] runs out of tokens: one of
    the calls of [mxjson_token] that it makes, for the root token in
    [mxjson_parse] or for the token of the next value in a turn of the
    loop, returns false. *)
Definition store_exhausted (p : mxjson_parser_t) (js : mxstr_t) : Prop :=
  fst (mxjson_token (parse_reset p js)) = false \/
  exists q t r,
    value_position p js q t /\ turn_request q t = Some r /\
    fst (mxjson_token r) = false.
(** ** Theorems *)

(** C1: the object with members a (the number 1) and b (the array of
    true and null) parses successfully into exactly five tokens: the
    OBJECT at 1 with two children, next 6 and parent 0; the NUMBER at 2
    named a with lexeme 1 and parent 1; the ARRAY at 3 named b with two
    children, next 6 and parent 1; the BOOL true at 4 and the NULL at 5,
    both with parent 3.  This holds with the default reallocating context
    and with the fixed eight-token array of the test program. *)
Theorem scenario_object_tokens :
  scenario_object_result (mxjson_parse default_parser (input scenario_object)) /\
  scenario_object_result (mxjson_parse fixed8_parser (input scenario_object)).
Proof. vm_compute. repeat split; reflexivity. Qed.

(** *** The allocator leaves the cursor fields alone *)

Lemma call_resize_fields p h :
  let r := snd (call_resize p h) in
  idx r = idx p /\ current_parent r = current_parent p /\
  token r = token p /\ json r = json p /\ unparsed r = unparsed p /\
  init_count r = init_count p /\ init_tokens r = init_tokens p /\
  resize_fn r = resize_fn p.
Proof.
  unfold call_resize. destruct (resize_fn p) as [f|] eqn:Hf; simpl; [|by rewrite Hf].
  destruct (f (count p) (tokens p) h) as [[c t]|]; simpl; by rewrite ?Hf.
Qed.

Lemma ensure_capacity_fields p :
  let r := snd (ensure_capacity p) in
  idx r = idx p /\ current_parent r = current_parent p /\
  token r = token p /\ json r = json p /\ unparsed r = unparsed p /\
  init_count r = init_count p /\ init_tokens r = init_tokens p /\
  resize_fn r = resize_fn p.
Proof.
  unfold ensure_capacity.
  destruct (count p <=? idx p); [|simpl; tauto].
  destruct (tokens p) eqn:Ht; [apply call_resize_fields|].
  assert (forall r : bool * mxjson_parser_t,
    (idx r.2 = idx p /\ current_parent r.2 = current_parent p /\
     token r.2 = token p /\ json r.2 = json p /\ unparsed r.2 = unparsed p /\
     init_count r.2 = init_count p /\ init_tokens r.2 = init_tokens p /\
     resize_fn r.2 = resize_fn p) ->
    let r' := (let '(ok, p0) := r in
      if ok then (ok, set_tokens (tok_upd (fun _ => zero_token) 0 (tokens p0)) p0)
      else (ok, p0)).2 in
    idx r' = idx p /\ current_parent r' = current_parent p /\
    token r' = token p /\ json r' = json p /\ unparsed r' = unparsed p /\
    init_count r' = init_count p /\ init_tokens r' = init_tokens p /\
    resize_fn r' = resize_fn p) as Hk.
  { intros [[] q] H; exact H. }
  destruct (init_tokens p) eqn:Hi.
  - destruct (idx p <? init_count p).
    + simpl. by rewrite Hi.
    + apply Hk. pose proof (call_resize_fields p (Z.max (u32 (idx p + 1)) (init_count p))) as H.
      by rewrite Hi in H.
  - apply Hk. pose proof (call_resize_fields p (Z.max (u32 (idx p + 1)) (init_count p))) as H.
    by rewrite Hi in H.
Qed.

Lemma mxjson_token_fields p :
  let r := snd (mxjson_token p) in
  idx r = u32 (idx p + 1) /\ current_parent r = current_parent p /\
  json r = json p /\ unparsed r = unparsed p /\
  init_count r = init_count p /\ init_tokens r = init_tokens p /\
  resize_fn r = resize_fn p /\
  (fst (mxjson_token p) = true -> token r = Some (u32 (idx p + 1))).
Proof.
  unfold mxjson_token.
  pose proof (ensure_capacity_fields (set_idx (u32 (idx p + 1)) p)) as H.
  destruct (ensure_capacity (set_idx (u32 (idx p + 1)) p)) as [[] q];
    cbn [fst snd] in *; destruct H as (?&?&?&?&?&?&?&?);
    unfold link_token; simpl in *; repeat split; intros; congruence.
Qed.

(** C10: for a token that is neither a NUMBER nor a STRING,
    [mxjson_token_string] reports valid and returns a fixed literal,
    leaving the caller buffer as it was: null for NULL, true or false for
    BOOL according to the boolean field, object for OBJECT, array for
    ARRAY, and the null slice of length 0 for any other kind. *)
Theorem token_string_fixed_literals p i buffer :
  let tk := tok_at (tokens p) i in
  match value_type tk with
  | MXJSON_NUMBER | MXJSON_STRING => True
  | MXJSON_NULL =>
      mxjson_token_string p i buffer = (mxstr_literal "null", buffer, true)
  | MXJSON_BOOL =>
      mxjson_token_string p i buffer =
      (mxstr_literal (if boolean tk then "true" else "false"), buffer, true)
  | MXJSON_OBJECT =>
      mxjson_token_string p i buffer = (mxstr_literal "object", buffer, true)
  | MXJSON_ARRAY =>
      mxjson_token_string p i buffer = (mxstr_literal "array", buffer, true)
  | MXJSON_NONE | MXJSON_COUNT =>
      mxjson_token_string p i buffer = (mxstr_null, buffer, true)
  end.
Proof.
  unfold mxjson_token_string.
  destruct (value_type (tok_at (tokens p) i)); simpl; try reflexivity.
  destruct (boolean (tok_at (tokens p) i)); reflexivity.
Qed.

(** C9: for a STRING token whose [value_esc] flag is false,
    [mxjson_token_string] returns the recorded range of the input itself,
    byte for byte, reports valid, and appends nothing to the caller
    buffer. *)
Theorem token_string_unescaped_identity p i buffer :
  value_type (tok_at (tokens p) i) = MXJSON_STRING ->
  value_esc (tok_at (tokens p) i) = false ->
  mxjson_token_string p i buffer =
  (json_slice p (str (tok_at (tokens p) i)) (str_size (tok_at (tokens p) i)),
   buffer, true).
Proof.
  intros Hty Hesc. unfold mxjson_token_string. by rewrite Hty, Hesc.
Qed.

Lemma token_string_unescaped_identity_witness :
  let p := snd (mxjson_parse default_parser (input (quoted "abc"))) in
  mxjson_token_string p 1 (mkbuf [7]) =
  (mkstr BInput 1 (bytes "abc"), mkbuf [7], true).
Proof.
  intros p.
  exact (token_string_unescaped_identity p 1 (mkbuf [7]) eq_refl eq_refl).
Defined.

(** *** How much input the lexer functions consume *)


Lemma consume_char_len cond s c ok s' c' :
  mxstr_consume_char cond s c = (ok, s', c') ->
  (dlen s' <= dlen s)%nat /\ (ok = true -> (dlen s' < dlen s)%nat) /\
  (ok = false -> s' = s).
Proof.
  unfold mxstr_consume_char. destruct (data s) as [|x r] eqn:E.
  - intros [= <- <- <-]. rewrite E. simpl. repeat split; auto; discriminate.
  - destruct (cond x); intros [= <- <- <-]; rewrite ?E; simpl;
      repeat split; auto; try lia; discriminate.
Qed.

Lemma consume_chars_from_len cond b o l c :
  (dlen (consume_chars_from cond b o l c).1 <= length l)%nat.
Proof.
  revert o c. induction l as [|x r IH]; intros o c; cbn [consume_chars_from].
  - simpl. lia.
  - destruct (cond x); [specialize (IH (o + 1) x)|]; simpl in *; lia.
Qed.

Lemma consume_chars_len cond s c :
  (dlen (mxstr_consume_chars cond s c).1 <= dlen s)%nat.
Proof. apply consume_chars_from_len. Qed.

Lemma consume_ws_len s : (dlen (mxjson_consume_ws s) <= dlen s)%nat.
Proof. apply consume_chars_len. Qed.

Lemma consume_len s n :
  (dlen (mxstr_consume s n).2 <= dlen s)%nat /\
  ((0 < n <= dlen s)%nat -> (dlen (mxstr_consume s n).2 < dlen s)%nat).
Proof.
  unfold mxstr_consume. destruct (n <=? dlen s)%nat eqn:E; simpl.
  - rewrite length_drop. apply Nat.leb_le in E. lia.
  - apply Nat.leb_gt in E. lia.
Qed.

Lemma consume_str_len s lit ok s' :
  mxstr_consume_str s lit = (ok, s') ->
  (dlen s' <= dlen s)%nat /\
  (ok = true -> data lit <> [] -> (dlen s' < dlen s)%nat) /\
  (ok = false -> s' = s).
Proof.
  unfold mxstr_consume_str.
  destruct (is_prefix (data lit) (data s)) eqn:E; intros [= <- <-]; simpl.
  - rewrite length_drop. repeat split; try lia; try discriminate.
    intros _ Hne.
    assert (Hl : forall a b, is_prefix a b = true -> (length a <= length b)%nat).
    { induction a as [|x a IH]; intros [|y b]; simpl; try lia; try discriminate.
      intros [_ H]%andb_true_iff. apply IH in H. lia. }
    apply Hl in E. destruct (data lit); [done|]. simpl in *. lia.
  - repeat split; auto; discriminate.
Qed.

Lemma consume_xdigits_len n ok s c :
  (dlen (consume_xdigits n ok s c).1.2 <= dlen s)%nat.
Proof.
  revert ok s c. induction n as [|n IH]; intros ok s c; simpl; [lia|].
  destruct ok; simpl; [|lia].
  destruct (mxstr_consume_char isxdigit s c) as [[ok' s'] c'] eqn:E.
  apply consume_char_len in E as (H & _). specialize (IH ok' s' c'). lia.
Qed.

Lemma parse_escaped_char_len s e :
  (dlen (mxjson_parse_escaped_char s e).1.2 <= dlen s)%nat.
Proof.
  unfold mxjson_parse_escaped_char.
  destruct (mxstr_getchar s 0) as [[] c]; cbn [fst snd]; [|lia].
  destruct (is_simple_escape c); cbn [fst snd]; [apply consume_len|].
  destruct (c =? chr "u"); cbn [fst snd]; [|lia].
  pose proof (consume_xdigits_len 4 true (mxstr_consume s 1).2 c) as H.
  destruct (consume_xdigits 4 true (mxstr_consume s 1).2 c) as [[ok' s'] c'].
  cbn [fst snd] in *. pose proof (consume_len s 1) as [H1 _]. lia.
Qed.

(** The string loop ends within as many turns as there are bytes left,
    and never gives bytes back. *)
Lemma parse_string_loop_total fuel ok s c e :
  (dlen s < fuel)%nat ->
  exists ok' s' c' e',
    parse_string_loop fuel ok s c e = Some (ok', s', c', e') /\
    (dlen s' <= dlen s)%nat.
Proof.
  revert ok s c e. induction fuel as [|fuel IH]; intros ok s c e Hf; [lia|].
  simpl. destruct ok; [|eauto 10].
  destruct (mxstr_consume_char _ s c) as [[more s1] c1] eqn:E.
  apply consume_char_len in E as (Hl & Hlt & Heq).
  destruct more; [|rewrite (Heq eq_refl); eauto 10].
  specialize (Hlt eq_refl).
  destruct (negb (c1 =? BACKSLASH)).
  - destruct (IH true s1 c1 e) as (ok' & s' & c' & e' & -> & H); [lia|].
    exists ok', s', c', e'. split; [done|lia].
  - pose proof (parse_escaped_char_len s1 e) as H1.
    destruct (mxjson_parse_escaped_char s1 e) as [[ok2 s2] e2]. simpl in H1.
    destruct (IH ok2 s2 c1 e2) as (ok' & s' & c' & e' & -> & H); [lia|].
    exists ok', s', c', e'. split; [done|lia].
Qed.

Lemma parse_string_len str v e ok s' v' e' :
  mxjson_parse_string str v e = (ok, s', v', e') ->
  (dlen s' <= dlen str)%nat /\ (ok = true -> (dlen s' < dlen str)%nat).
Proof.
  unfold mxjson_parse_string.
  destruct (mxstr_consume_char _ str 0) as [[ok1 s1] c1] eqn:E1.
  apply consume_char_len in E1 as (Hl & Hlt & Heq).
  destruct ok1; cbn [andb].
  - specialize (Hlt eq_refl).
    destruct (parse_string_loop_total (S (dlen s1))
                (negb (mxstr_empty s1)) s1 c1 e)
      as (ok2 & s2 & c2 & e2 & -> & H2); [lia|].
    pose proof (consume_len s2 1) as [H3 _].
    destruct (ok2 && (c2 =? DQUOTE)); intros [= <- <- <- <-]; split; lia.
  - cbn [parse_string_loop andb]. intros [= <- <- <- <-]. split; [lia|done].
Qed.

Ltac step_char :=
  match goal with
  | |- context [mxstr_consume_char ?f ?s ?c] =>
      let E := fresh "E" in
      destruct (mxstr_consume_char f s c) as [[? ?] ?] eqn:E;
      apply consume_char_len in E as (? & ? & ?)
  end.

Ltac step_chars :=
  match goal with
  | |- context [mxstr_consume_chars ?f ?s ?c] =>
      let H := fresh "H" in
      pose proof (consume_chars_len f s c) as H;
      destruct (mxstr_consume_chars f s c) as [? ?]; cbn [fst] in H
  end.

Lemma number_int_len s c ok s' c' :
  number_int s c = (ok, s', c') ->
  (dlen s' <= dlen s)%nat /\ (ok = true -> (dlen s' < dlen s)%nat).
Proof.
  unfold number_int. step_char. step_char.
  match goal with b : bool |- context [if ?b then _ else (?b, _, _)] =>
    destruct b end.
  - match goal with |- context [if ?c then _ else _] => destruct c end;
      [step_chars|]; intros [= <- <- <-]; split; intros;
      repeat match goal with H : true = true -> _ |- _ => specialize (H eq_refl) end;
      lia.
  - intros [= <- <- <-]. split; [lia|discriminate].
Qed.

Lemma number_frac_len s c ok s' c' :
  number_frac s c = (ok, s', c') -> (dlen s' <= dlen s)%nat.
Proof.
  unfold number_frac. step_char.
  match goal with |- context [if ?b then _ else _] => destruct b end.
  - step_char. step_chars. intros [= <- <- <-]. lia.
  - intros [= <- <- <-]. lia.
Qed.

Lemma number_exp_len s c ok s' c' :
  number_exp s c = (ok, s', c') -> (dlen s' <= dlen s)%nat.
Proof.
  unfold number_exp. step_char.
  match goal with |- context [if ?b then _ else _] => destruct b end.
  - step_char. step_char. step_chars. intros [= <- <- <-]. lia.
  - intros [= <- <- <-]. lia.
Qed.

Lemma parse_number_len str v ok s' v' :
  mxjson_parse_number str v = (ok, s', v') ->
  (dlen s' <= dlen str)%nat /\ (ok = true -> (dlen s' < dlen str)%nat).
Proof.
  unfold mxjson_parse_number.
  destruct (number_int str 0) as [[ok1 s1] c1] eqn:E1.
  apply number_int_len in E1 as [H1 H1'].
  destruct ok1.
  - specialize (H1' eq_refl).
    destruct (number_frac s1 c1) as [[ok2 s2] c2] eqn:E2.
    apply number_frac_len in E2.
    destruct ok2.
    + destruct (number_exp s2 c2) as [[ok3 s3] c3] eqn:E3.
      apply number_exp_len in E3. intros [= <- <- <-]. split; intros; lia.
    + intros [= <- <- <-]. split; [lia|discriminate].
  - intros [= <- <- <-]. split; [lia|discriminate].
Qed.

(** *** Writes through the current-token pointer *)

Lemma upd_token_fields f p :
  let r := upd_token f p in
  idx r = idx p /\ current_parent r = current_parent p /\
  token r = token p /\ json r = json p /\ unparsed r = unparsed p /\
  count r = count p /\ init_count r = init_count p /\
  init_tokens r = init_tokens p /\ resize_fn r = resize_fn p.
Proof. unfold upd_token. destruct (token p) eqn:E; simpl; by rewrite ?E. Qed.

Lemma upd_token_idx f p : idx (upd_token f p) = idx p.
Proof. apply upd_token_fields. Qed.

Lemma upd_token_json f p : json (upd_token f p) = json p.
Proof. apply upd_token_fields. Qed.

Lemma tok_upd_compose f g i t :
  tok_upd g i (tok_upd f i t) = tok_upd (g ∘ f) i t.
Proof.
  destruct t as [l|]; simpl; [|done]. f_equal.
  apply list_alter_alter_eq.
Qed.

Lemma upd_token_compose f g p :
  upd_token g (upd_token f p) = upd_token (g ∘ f) p.
Proof.
  unfold upd_token. destruct (token p) eqn:E; simpl; rewrite E; [|done].
  simpl. by rewrite tok_upd_compose.
Qed.

Lemma tok_upd_id i (t : option (list mxjson_token_t)) :
  tok_upd (fun x => x) i t = t.
Proof.
  destruct t as [l|]; simpl; [|done]. f_equal. by apply list_alter_id.
Qed.

Lemma upd_token_id p : upd_token (fun x => x) p = p.
Proof.
  unfold upd_token. destruct (token p); [|done].
  rewrite tok_upd_id. by destruct p.
Qed.

(** *** What a value does to the context

    [mxjson_parse_value] decides everything from the input alone: whether
    it succeeds, what is left, how the current token is rewritten, and
    whether the token becomes the new parent. *)
Lemma keeps_links_compose f g :
  keeps_links f -> keeps_links g -> keeps_links (g ∘ f).
Proof.
  intros Hf Hg t. specialize (Hf t). specialize (Hg (f t)). simpl. intuition congruence.
Qed.

Lemma parse_value_effect js s :
  exists ok f opens s', value_effect js s ok f opens s'.
Proof.
  unfold value_effect, after_value.
  unfold mxjson_parse_value.
  destruct (mxstr_getchar s 0) as [ok0 c] eqn:Eg.
  assert (Hne : ok0 = true -> (0 < dlen s)%nat).
  { unfold mxstr_getchar in Eg. destruct (data s); simpl; [|lia].
    injection Eg as <- <-. discriminate. }
  destruct ok0.
  2:{ exists false, (fun t => t), false, s. split_and!; try done; try lia.
      intros q _. by rewrite upd_token_id. }
  specialize (Hne eq_refl).
  destruct (c =? DQUOTE).
  { destruct (mxjson_parse_string s mxstr_null false) as [[[ok s'] v] e] eqn:E.
    apply parse_string_len in E as [Hl Hlt].
    exists ok,
      ((fun t => if ok then set_value_esc e
                   (set_str_size (u32 (mxstr_len v))
                      (set_str (u32 (mxstr_substr_offset js v)) t)) else t)
         ∘ set_value_type MXJSON_STRING), false, s'.
    split_and!; try done.
    - intros q Hq. rewrite upd_token_json, Hq. f_equal. f_equal.
      destruct ok; rewrite <- upd_token_compose; [done|]. by rewrite upd_token_id.
    - intros t. by destruct ok.
    - intros _ -> t. done. }
  destruct (c =? chr "{").
  { exists true, (set_value_type MXJSON_OBJECT), true, (mxstr_consume s 1).2.
    pose proof (consume_len s 1) as [H1 H2].
    split_and!; try done; try lia.
    - intros q _. by rewrite upd_token_idx.
    - intros _. split; [done|]. by exists MXJSON_OBJECT. }
  destruct (c =? chr "[").
  { exists true, (set_value_type MXJSON_ARRAY), true, (mxstr_consume s 1).2.
    pose proof (consume_len s 1) as [H1 H2].
    split_and!; try done; try lia.
    - intros q _. by rewrite upd_token_idx.
    - intros _. split; [done|]. by exists MXJSON_ARRAY. }
  destruct (c =? chr "t").
  { destruct (mxstr_consume_str s (mxstr_literal "true")) as [ok s'] eqn:E.
    apply consume_str_len in E as (Hl & Hlt & _).
    exists ok, (set_boolean true ∘ set_value_type MXJSON_BOOL), false, s'.
    split_and!; try done.
    - intros q _. by rewrite upd_token_compose.
    - intros ->. by apply Hlt. }
  destruct (c =? chr "f").
  { destruct (mxstr_consume_str s (mxstr_literal "false")) as [ok s'] eqn:E.
    apply consume_str_len in E as (Hl & Hlt & _).
    exists ok, (set_boolean false ∘ set_value_type MXJSON_BOOL), false, s'.
    split_and!; try done.
    - intros q _. by rewrite upd_token_compose.
    - intros ->. by apply Hlt. }
  destruct (c =? chr "n").
  { destruct (mxstr_consume_str s (mxstr_literal "null")) as [ok s'] eqn:E.
    apply consume_str_len in E as (Hl & Hlt & _).
    exists ok, (set_value_type MXJSON_NULL), false, s'.
    split_and!; try done.
    intros ->. by apply Hlt. }
  destruct ((c =? chr "-") || isdigit c).
  { destruct (mxjson_parse_number s mxstr_null) as [[ok s'] v] eqn:E.
    apply parse_number_len in E as [Hl Hlt].
    exists ok,
      ((fun t => if ok then set_str_size (u32 (mxstr_len v))
                      (set_str (u32 (mxstr_substr_offset js v)) t) else t)
         ∘ set_value_type MXJSON_NUMBER), false, s'.
    split_and!; try done.
    - intros q Hq. rewrite upd_token_json, Hq. f_equal. f_equal.
      destruct ok; rewrite <- upd_token_compose; [done|]. by rewrite upd_token_id.
    - intros t. by destruct ok.
    - intros _ -> t. done. }
  exists false, (fun t => t), false, s. split_and!; try done; try lia.
  intros q _. by rewrite upd_token_id.
Qed.

(** *** Reading and writing the token array *)

Lemma tok_len_upd f i t : tok_len (tok_upd f i t) = tok_len t.
Proof. destruct t; simpl; [|done]. by rewrite length_alter. Qed.

Lemma tok_at_upd_eq f i t :
  0 <= i < tok_len t -> tok_at (tok_upd f i t) i = f (tok_at t i).
Proof.
  destruct t as [l|]; simpl; [|lia]. intros H. unfold tok_at. simpl.
  rewrite list_lookup_alter_eq.
  destruct (lookup_lt_is_Some_2 l (Z.to_nat i)) as [x ->]; [lia|done].
Qed.

Lemma tok_at_upd_ne f i j t :
  0 <= i -> 0 <= j -> i <> j -> tok_at (tok_upd f i t) j = tok_at t j.
Proof.
  destruct t as [l|]; [|done]. intros Hi Hj Hne. unfold tok_at. simpl.
  rewrite list_lookup_alter_ne; [done|lia].
Qed.

Lemma tok_at_upd f i j t :
  0 <= i < tok_len t -> 0 <= j ->
  tok_at (tok_upd f i t) j = if decide (j = i) then f (tok_at t i) else tok_at t j.
Proof.
  intros Hi Hj. case_decide as E.
  - subst. by apply tok_at_upd_eq.
  - apply tok_at_upd_ne; lia.
Qed.

Lemma tok_at_oob t i : tok_len t <= i -> tok_at t i = zero_token.
Proof.
  destruct t as [l|]; [|done]. simpl. intros H. unfold tok_at. simpl.
  rewrite lookup_ge_None_2; [done|lia].
Qed.

Lemma tok_upd_oob f t i : tok_len t <= i -> tok_upd f i t = t.
Proof.
  destruct t as [l|]; [|done]. simpl. intros H. f_equal.
  apply list_eq. intros j. destruct (decide (Z.to_nat i = j)) as [<-|].
  - rewrite list_lookup_alter_eq, lookup_ge_None_2; [done|lia].
  - by rewrite list_lookup_alter_ne.
Qed.

(** *** What a member name does to the context *)

Lemma parse_name_effect js s :
  exists ok g s', name_effect js s ok g s'.
Proof.
  unfold name_effect.
  unfold mxjson_parse_name.
  destruct (mxjson_parse_string s mxstr_null false) as [[[ok1 s1] nm] e] eqn:E.
  apply parse_string_len in E as [Hl _].
  destruct ok1.
  - pose proof (consume_ws_len s1) as Hw.
    destruct (mxstr_consume_char _ (mxjson_consume_ws s1) 0) as [[ok2 s2] c2] eqn:E2.
    apply consume_char_len in E2 as (Hl2 & _ & _).
    exists ok2,
      (fun t => if ok2 then set_name_esc e
                  (set_name_size (u27 (mxstr_len nm))
                     (set_name (u32 (mxstr_substr_offset js nm)) t)) else t), s2.
    split_and!; [|lia|].
    + intros q ->. destruct ok2; [done|]. by rewrite upd_token_id.
    + intros t. by destruct ok2.
  - exists false, (fun t => t), s1. split_and!; [|lia|done].
    intros q _. by rewrite upd_token_id.
Qed.

Lemma tok_at_upd_field {A} (g : mxjson_token_t -> A) f i j t :
  (forall x, g (f x) = g x) ->
  g (tok_at (tok_upd f i t) j) = g (tok_at t j).
Proof.
  intros Hg. destruct t as [l|]; [|done]. unfold tok_at. simpl.
  rewrite list_lookup_alter. case_decide as E; [|done].
  rewrite E. destruct (l !! Z.to_nat j); simpl; [apply Hg|done].
Qed.

(** *** The allocator *)

Lemma u32_small z : 0 <= z < 4294967296 -> u32 z = z.
Proof. apply Z.mod_small. Qed.

Lemma size_p2_spec n :
  0 < n < 2147483648 ->
  n < mxutil_size_p2 n /\ mxutil_size_p2 n < 4294967296.
Proof.
  intros Hn. unfold mxutil_size_p2.
  pose proof (Z.log2_up_spec (n + 1) ltac:(lia)) as [_ Hup].
  assert (Z.log2_up (n + 1) <= 31) as Hle.
  { apply Z.log2_up_le_pow2; lia. }
  pose proof (Z.log2_up_nonneg (n + 1)).
  assert (2 ^ Z.log2_up (n + 1) <= 2 ^ 31) by (apply Z.pow_le_mono_r; lia).
  rewrite u32_small; lia.
Qed.

Lemma store_ok_upd f i c t :
  (forall x, value_type (f x) = value_type x) ->
  store_ok c t -> store_ok c (tok_upd f i t).
Proof.
  intros Hf. destruct t as [l|]; [|done]. intros (Hl & Hc & H0).
  pose proof (tok_len_upd f i (Some l)) as E1.
  pose proof (tok_at_upd_field value_type f i 0 (Some l) Hf) as E2.
  unfold store_ok. cbn [tok_upd fmap option_fmap option_map] in *.
  split_and!; try lia; congruence.
Qed.

Lemma store_ok_upd_pos f i c t :
  1 <= i -> store_ok c t -> store_ok c (tok_upd f i t).
Proof.
  intros Hi. destruct t as [l|]; [|done]. intros (Hl & Hc & H0).
  pose proof (tok_len_upd f i (Some l)) as E1.
  pose proof (tok_at_upd_ne f i 0 (Some l) ltac:(lia) ltac:(lia) ltac:(lia)) as E2.
  unfold store_ok. cbn [tok_upd fmap option_fmap option_map] in *.
  split_and!; try lia; congruence.
Qed.

Lemma call_resize_spec p h :
  policy_ok (resize_fn p) -> tok_len (tokens p) = count p ->
  count p < h -> 2 <= h < 4294967296 ->
  match call_resize p h with
  | (false, q) => q = p
  | (true, q) =>
      exists c' t',
        q = set_tokens t' (set_count c' p) /\ tok_len t' = c' /\
        count p < c' /\ 2 <= c' < 4294967296 /\
        forall i, 0 <= i < count p -> tok_at t' i = tok_at (tokens p) i
  end.
Proof.
  intros Hpol Hlen Hlt Hh. unfold call_resize.
  destruct (resize_fn p) as [f|]; [|done].
  destruct (f (count p) (tokens p) h) as [[c' t']|] eqn:E; [|done].
  destruct (Hpol (count p) (tokens p) h c' t') as (H1 & H2 & H3 & H4 & H5);
    try done; try lia.
  exists c', t'. split_and!; try done; lia.
Qed.

Lemma ensure_capacity_spec p :
  ctx_ok p -> 1 <= idx p < 2147483648 ->
  (tokens p = None /\ idx p = 1 \/ idx p <= count p) ->
  match ensure_capacity p with
  | (false, q) =>
      q = p /\ count p <= idx p /\ (tokens p <> None -> count p = idx p)
  | (true, q) =>
      ctx_ok q /\ idx p < count q /\
      (tokens p <> None ->
       forall i, 0 <= i < count p -> tok_at (tokens q) i = tok_at (tokens p) i)
  end.
Proof.
  intros (Hic & Hit & Hpol & Hst) Hidx Hcap. unfold ensure_capacity.
  destruct (count p <=? idx p) eqn:Ecnt.
  2:{ apply Z.leb_gt in Ecnt. split_and!; try done. }
  apply Z.leb_le in Ecnt.
  destruct (tokens p) as [l|] eqn:Et.
  - destruct Hst as (Hlen & Hc & H0).
    destruct Hcap as [[? _]|Hcap]; [done|].
    pose proof (size_p2_spec (count p) ltac:(lia)) as [Hs1 Hs2].
    pose proof (call_resize_spec p (mxutil_size_p2 (count p))) as Hr.
    rewrite Et in Hr. specialize (Hr Hpol Hlen Hs1 ltac:(lia)).
    destruct (call_resize p (mxutil_size_p2 (count p))) as [[] q].
    + destruct Hr as (c' & t' & -> & Hl' & Hlt' & Hc' & Hag).
      split_and!; [|simpl; lia|done].
      refine (conj Hic (conj Hit (conj Hpol _))). simpl.
      destruct t' as [l'|]; [|simpl in Hl'; lia].
      split_and!; try done; try lia. rewrite Hag by lia. done.
    + split_and!; try done. intros; lia.
  - simpl in Hst. destruct Hcap as [[_ Hidx1]|?]; [|lia].
    assert (Hh : 2 <= Z.max (u32 (idx p + 1)) (init_count p) < 4294967296).
    { rewrite u32_small by lia. lia. }
    assert (Hres :
      match (let '(ok, q) := call_resize p (Z.max (u32 (idx p + 1)) (init_count p)) in
             if ok then (ok, set_tokens (tok_upd (fun _ => zero_token) 0 (tokens q)) q)
             else (ok, q)) with
      | (false, q) =>
          q = p /\ count p <= idx p /\ (@None (list mxjson_token_t) <> None -> count p = idx p)
      | (true, q) =>
          ctx_ok q /\ idx p < count q /\
          (@None (list mxjson_token_t) <> None ->
           forall i, 0 <= i < count p -> tok_at (tokens q) i = tok_at None i)
      end).
    { pose proof (call_resize_spec p (Z.max (u32 (idx p + 1)) (init_count p))) as Hr.
      rewrite Et in Hr. specialize (Hr Hpol ltac:(simpl; lia) ltac:(lia) Hh).
      destruct (call_resize p _) as [[] q].
      - destruct Hr as (c' & t' & -> & Hl' & Hlt' & Hc' & Hag).
        split_and!; [|simpl; lia|done].
        refine (conj Hic (conj Hit (conj Hpol _))). simpl.
        destruct t' as [l'|]; [|simpl in Hl'; lia].
        pose proof (tok_len_upd (fun _ => zero_token) 0 (Some l')) as E2.
        pose proof (tok_at_upd_eq (fun _ => zero_token) 0 (Some l') ltac:(lia)) as E3.
        cbn [tok_upd fmap option_fmap option_map] in *.
        split_and!; try lia. by rewrite E3.
      - split_and!; try done; try lia. }
    destruct (init_tokens p) as [it|] eqn:Eit; [|exact Hres].
    destruct (idx p <? init_count p) eqn:Elt; [|exact Hres].
    apply Z.ltb_lt in Elt. specialize (Hit it eq_refl).
    split_and!; [|simpl; lia|done].
    refine (conj Hic (conj _ (conj Hpol _))); simpl.
    { intros l' E. rewrite Eit in E. injection E as E. by subst. }
    pose proof (tok_len_upd (fun _ => zero_token) 0 (Some it)) as E2.
    pose proof (tok_at_upd_eq (fun _ => zero_token) 0 (Some it) ltac:(simpl; lia)) as E3.
    cbn [tok_upd fmap option_fmap option_map tok_len] in *.
    split_and!; try lia. by rewrite E3.
Qed.

Lemma store_ok_len c t : store_ok c t -> tok_len t = c.
Proof. destruct t; simpl; [tauto|lia]. Qed.

Lemma mxjson_token_spec p :
  ctx_ok p -> 0 <= idx p -> idx p + 1 < 2147483648 ->
  (tokens p = None /\ idx p = 0 \/ idx p < count p) ->
  match mxjson_token p with
  | (false, q) =>
      q = set_idx (idx p + 1) p /\ count p <= idx p + 1 /\
      (tokens p <> None -> count p = idx p + 1)
  | (true, q) =>
      ctx_ok q /\ idx q = idx p + 1 /\ idx p + 1 < count q /\
      token q = Some (idx p + 1) /\
      current_parent q = current_parent p /\ json q = json p /\
      exists base,
        tok_len base = count q /\
        (tokens p <> None ->
         forall i, 0 <= i < count p -> tok_at base i = tok_at (tokens p) i) /\
        value_type (tok_at base 0) = MXJSON_NONE /\
        tokens q =
        tok_upd add_child (current_parent p)
          (tok_upd (new_token (current_parent p)) (idx p + 1) base)
  end.
Proof.
  intros Hok Hi0 Hi31 Hcap. unfold mxjson_token.
  rewrite u32_small by lia.
  set (p1 := set_idx (idx p + 1) p).
  pose proof (ensure_capacity_spec p1) as Hs.
  pose proof (ensure_capacity_fields p1) as Hf.
  destruct (ensure_capacity p1) as [[] q]; cbn [fst snd] in Hf.
  - destruct Hs as (Hq & Hlt & Hag); try done.
    { simpl. lia. } { simpl. destruct Hcap as [[? ->]|?]; [by left|right; lia]. }
    destruct Hf as (Hfi & Hfc & _ & Hfj & _ & Hfic & Hfit & Hfrf).
    simpl in Hfi, Hfc, Hfj, Hlt, Hag.
    destruct Hq as (Hic & Hit & Hpol & Hst).
    unfold link_token. cbn [idx count token tokens current_parent json
                            set_token set_tokens].
    rewrite Hfi, Hfc. split_and!; try done.
    + refine (conj Hic (conj Hit (conj Hpol _))).
      apply store_ok_upd; [done|]. apply store_ok_upd_pos; [lia|done].
    + exists (tokens q). split_and!; try done.
      * by apply store_ok_len.
      * destruct (tokens q); [apply Hst|]. simpl in Hst. lia.
  - destruct Hs as (-> & Hle & He); try done.
    { simpl. lia. } { simpl. destruct Hcap as [[? ->]|?]; [by left|right; lia]. }
Qed.

(** *** Ascent *)

(** The context with another token array. *)
Lemma set_tokens_fields t p :
  let r := set_tokens t p in
  idx r = idx p /\ current_parent r = current_parent p /\
  token r = token p /\ json r = json p /\ unparsed r = unparsed p /\
  count r = count p /\ init_count r = init_count p /\
  init_tokens r = init_tokens p /\ resize_fn r = resize_fn p.
Proof. done. Qed.

(** One turn of the ascent loop, spelled out. *)
Lemma ascend_loop_unfold fuel p s par :
  ascend_loop (S fuel) p s par =
  let s1 := mxjson_consume_ws s in
  let r :=
    match value_type (tok_at (tokens p) par) with
    | MXJSON_ARRAY => mxstr_consume_char (fun c => c =? chr "]") s1 0
    | MXJSON_OBJECT => mxstr_consume_char (fun c => c =? chr "}") s1 0
    | _ => (false, s1, 0)
    end in
  if r.1.1 then
    ascend_loop fuel
      (set_tokens (tok_upd (set_next (u32 (idx p + 1))) par (tokens p)) p)
      r.1.2 (parent (tok_at (tokens p) par))
  else Some (p, s1, par).
Proof.
  cbn [ascend_loop]. cbv zeta.
  destruct (value_type (tok_at (tokens p) par));
    try reflexivity.
  - destruct (mxstr_consume_char _ (mxjson_consume_ws s) 0) as [[[] s2] c2] eqn:E;
      cbn [fst snd tokens set_tokens].
    + by rewrite (tok_at_upd_field parent).
    + by apply consume_char_len in E as (_ & _ & ->).
  - destruct (mxstr_consume_char _ (mxjson_consume_ws s) 0) as [[[] s2] c2] eqn:E;
      cbn [fst snd tokens set_tokens].
    + by rewrite (tok_at_upd_field parent).
    + by apply consume_char_len in E as (_ & _ & ->).
Qed.

Lemma ascend_loop_total fuel p s par :
  (dlen s < fuel)%nat ->
  exists p' s' par',
    ascend_loop fuel p s par = Some (p', s', par') /\
    (dlen s' <= dlen s)%nat /\
    idx p' = idx p /\ count p' = count p /\ token p' = token p /\
    json p' = json p /\ init_count p' = init_count p /\
    init_tokens p' = init_tokens p /\ resize_fn p' = resize_fn p /\
    tok_len (tokens p') = tok_len (tokens p) /\
    forall i, value_type (tok_at (tokens p') i) = value_type (tok_at (tokens p) i) /\
              parent (tok_at (tokens p') i) = parent (tok_at (tokens p) i).
Proof.
  revert p s par. induction fuel as [|fuel IH]; intros p s par Hf; [lia|].
  rewrite ascend_loop_unfold. cbv zeta.
  pose proof (consume_ws_len s) as Hw.
  set (r := match value_type (tok_at (tokens p) par) with
            | MXJSON_ARRAY => _ | MXJSON_OBJECT => _ | _ => _ end).
  assert (Hr : (dlen r.1.2 <= dlen (mxjson_consume_ws s))%nat /\
               (r.1.1 = true -> (dlen r.1.2 < dlen (mxjson_consume_ws s))%nat)).
  { subst r. destruct (value_type (tok_at (tokens p) par));
      try (simpl; split; [lia|discriminate]).
    - destruct (mxstr_consume_char _ _ 0) as [[ok s2] c2] eqn:E.
      apply consume_char_len in E as (? & ? & ?). done.
    - destruct (mxstr_consume_char _ _ 0) as [[ok s2] c2] eqn:E.
      apply consume_char_len in E as (? & ? & ?). done. }
  destruct Hr as [Hr1 Hr2].
  destruct (r.1.1).
  - specialize (Hr2 eq_refl).
    destruct (IH (set_tokens (tok_upd (set_next (u32 (idx p + 1))) par (tokens p)) p)
                r.1.2 (parent (tok_at (tokens p) par)))
      as (p' & s' & par' & -> & Hl & H1 & H2 & H3 & H4 & H5 & H6 & H7 & H8 & H9); [lia|].
    exists p', s', par'. cbn [tokens set_tokens] in H8, H9.
    rewrite tok_len_upd in H8.
    split_and!; try done; try lia.
    intros i. destruct (H9 i) as [-> ->].
    by rewrite (tok_at_upd_field value_type), (tok_at_upd_field parent).
  - exists p, (mxjson_consume_ws s), par. split_and!; try done.
Qed.

Lemma mxjson_ascend_spec p s :
  exists p' s' par',
    mxjson_ascend p s = (p', s', par') /\
    (dlen s' <= dlen s)%nat /\
    idx p' = idx p /\ count p' = count p /\ token p' = token p /\
    json p' = json p /\ init_count p' = init_count p /\
    init_tokens p' = init_tokens p /\ resize_fn p' = resize_fn p /\
    tok_len (tokens p') = tok_len (tokens p) /\
    (forall i, value_type (tok_at (tokens p') i) = value_type (tok_at (tokens p) i) /\
               parent (tok_at (tokens p') i) = parent (tok_at (tokens p) i)) /\
    ((current_parent p =? MXJSON_IDX_NONE) = true ->
     p' = p /\ s' = s /\ par' = 0) /\
    ((current_parent p =? MXJSON_IDX_NONE) = false ->
     ascend_loop (S (dlen s)) p s (current_parent p) = Some (p', s', par')).
Proof.
  unfold mxjson_ascend.
  destruct (current_parent p =? MXJSON_IDX_NONE) eqn:E; cbn [negb].
  - apply Z.eqb_eq in E. exists p, s, (current_parent p).
    split_and!; try done; intros _; by rewrite E.
  - destruct (ascend_loop_total (S (dlen s)) p s (current_parent p))
      as (p' & s' & par' & Hs & H); [lia|].
    rewrite Hs. exists p', s', par'. split_and!; try tauto. done.
Qed.

(** *** Every turn of the loop leaves by one of the six exits *)

Lemma turn_exits p s ok p' s' :
  parse_json_turn p s = (ok, p', s') -> turn_exit p s ok p' s'.
Proof.
  unfold parse_json_turn.
  destruct (parse_value_effect (json p) (mxjson_consume_ws s))
    as (ok1 & f & opens & s1 & Hv).
  rewrite (proj1 Hv p eq_refl).
  destruct ok1.
  2:{ intros [= <- <- <-]. by apply exit_value. }
  destruct (mxjson_ascend (after_value f opens p) s1) as [[p2 s2] par] eqn:Ea.
  destruct (par =? MXJSON_IDX_NONE) eqn:Ep; cbn [negb].
  { apply Z.eqb_eq in Ep. subst par. intros [= <- <- <-]. by eapply exit_root. }
  apply Z.eqb_neq in Ep.
  cbn [idx set_current_parent].
  set (cm := if par =? idx p2 then (true, mxjson_consume_ws s2)
             else (mxstr_consume_char (fun c => c =? chr ",") (mxjson_consume_ws s2) 0).1).
  assert (Hcm : (if par =? idx p2 then (true, mxjson_consume_ws s2)
     else let '(ok, s, _) := mxstr_consume_char (fun c => c =? chr ",") (mxjson_consume_ws s2) 0 in (ok, s)) = cm).
  { subst cm. destruct (par =? idx p2); [done|].
    by destruct (mxstr_consume_char _ _ 0) as [[? ?] ?]. }
  rewrite Hcm. destruct cm as [ok3 s4] eqn:Ecm.
  destruct ok3.
  2:{ intros [= <- <- <-]. by eapply exit_comma. }
  destruct (mxjson_token (set_current_parent par p2)) as [ok5 p5] eqn:Et.
  destruct ok5; cbn [andb].
  2:{ intros [= <- <- <-]. by eapply exit_token. }
  destruct (mxjson_type_eqb (value_type (tok_at (tokens p5) par)) MXJSON_OBJECT) eqn:Ety.
  - destruct (parse_name_effect (json p5) (mxjson_consume_ws s4)) as (ok6 & g & s6 & Hn).
    rewrite (proj1 Hn p5 eq_refl). intros [= <- <- <-].
    eapply exit_member; try done.
    by destruct (value_type (tok_at (tokens p5) par)).
  - intros [= <- <- <-]. eapply exit_next; try done.
    by destruct (value_type (tok_at (tokens p5) par)).
Qed.

(** *** The loop invariant *)

Lemma store_ok_intro c t :
  2 <= c < 4294967296 -> tok_len t = c ->
  value_type (tok_at t 0) = MXJSON_NONE -> store_ok c t.
Proof. intros Hc Hl H0. destruct t; simpl in *; [done|lia]. Qed.

Lemma store_ok_some c t : store_ok c t -> 0 < c ->
  2 <= c < 4294967296 /\ tok_len t = c /\ value_type (tok_at t 0) = MXJSON_NONE.
Proof. destruct t; simpl; [tauto|lia]. Qed.

Lemma ascend_loop_par fuel p s par p' s' par' K :
  value_type (tok_at (tokens p) 0) = MXJSON_NONE ->
  (forall i, 1 <= i <= K -> 0 <= parent (tok_at (tokens p) i) < i) ->
  0 <= par <= K ->
  ascend_loop fuel p s par = Some (p', s', par') ->
  0 <= par' <= par.
Proof.
  revert p s par. induction fuel as [|fuel IH]; intros p s par H0 Hp Hpar; [done|].
  rewrite ascend_loop_unfold. cbv zeta.
  set (r := match value_type (tok_at (tokens p) par) with
            | MXJSON_ARRAY => _ | MXJSON_OBJECT => _ | _ => _ end).
  destruct (r.1.1) eqn:Er.
  - assert (par <> 0) as Hne.
    { intros ->. subst r. rewrite H0 in Er. done. }
    intros Hl. apply IH in Hl.
    + specialize (Hp par ltac:(lia)). lia.
    + cbn [tokens set_tokens]. by rewrite (tok_at_upd_field value_type).
    + intros i Hi. cbn [tokens set_tokens].
      rewrite (tok_at_upd_field parent) by done. by apply Hp.
    + specialize (Hp par ltac:(lia)). lia.
  - intros [= <- <- <-]. lia.
Qed.

Lemma after_value_fields f opens p :
  let r := after_value f opens p in
  idx r = idx p /\ token r = token p /\ json r = json p /\
  count r = count p /\ init_count r = init_count p /\
  init_tokens r = init_tokens p /\ resize_fn r = resize_fn p /\
  tokens r = tokens (upd_token f p) /\
  current_parent r = (if opens then idx p else current_parent p).
Proof.
  unfold after_value. pose proof (upd_token_fields f p) as H.
  destruct H as (?&?&?&?&?&?&?&?&?).
  destruct opens; simpl in *; repeat split; congruence.
Qed.

Lemma upd_token_tokens f p i :
  token p = Some i -> tokens (upd_token f p) = tok_upd f i (tokens p).
Proof. unfold upd_token. by intros ->. Qed.

Lemma head_ok_store B p s :
  head_ok B p s ->
  2 <= count p < 4294967296 /\ tok_len (tokens p) = count p /\
  value_type (tok_at (tokens p) 0) = MXJSON_NONE.
Proof.
  intros ((_ & _ & _ & Hst) & Hi & _). apply store_ok_some; [done|lia].
Qed.

(** The context after the value of the current token has been parsed. *)
Lemma value_state B p s ok1 f opens s1 :
  head_ok B p s ->
  value_effect (json p) (mxjson_consume_ws s) ok1 f opens s1 ->
  let p1 := after_value f opens p in
  ctx_ok p1 /\ same_setup p p1 /\ idx p1 = idx p /\ count p1 = count p /\
  token p1 = token p /\ 0 <= current_parent p1 <= idx p /\ parents_ok p1 /\
  (dlen s1 <= dlen s)%nat /\
  (ok1 = true -> idx p + 1 + Z.of_nat (dlen s1) <= B /\ (dlen s1 < dlen s)%nat) /\
  tokens p1 = tok_upd f (idx p) (tokens p).
Proof.
  intros Hh (_ & Hl & Hlt & Hk & _) p1.
  pose proof (head_ok_store _ _ _ Hh) as (Hc & Hlen & H0).
  destruct Hh as ((Hic & Hit & Hpol & Hst) & Hi & Htok & Hcp & Hpar & HB & HB2).
  pose proof (after_value_fields f opens p) as (E1 & E2 & E3 & E4 & E5 & E6 & E7 & E8 & E9).
  fold p1 in E1, E2, E3, E4, E5, E6, E7, E8, E9.
  rewrite (upd_token_tokens _ _ _ Htok) in E8.
  pose proof (consume_ws_len s) as Hw.
  split_and!; try done; try lia.
  - unfold ctx_ok. rewrite E4, E5, E6, E7, E8.
    refine (conj Hic (conj Hit (conj Hpol _))).
    apply store_ok_upd_pos; [lia|done].
  - rewrite E9. destruct opens; lia.
  - rewrite E9. destruct opens; lia.
  - intros i Hi'. rewrite E1 in Hi'. rewrite E8.
    destruct (Hk (tok_at (tokens p) i)) as (Hkp & _).
    rewrite (tok_at_upd _ _ i) by lia. case_decide as Ei.
    + subst i. rewrite Hkp. by apply Hpar.
    + by apply Hpar.
  - intros ->. specialize (Hlt eq_refl). lia.
Qed.

(** The context after the closing brackets that follow the value. *)
Lemma ascend_state p1 s1 p2 s2 par K :
  ctx_ok p1 -> 1 <= K < count p1 -> idx p1 = K ->
  0 <= current_parent p1 <= K -> parents_ok p1 ->
  mxjson_ascend p1 s1 = (p2, s2, par) ->
  ctx_ok p2 /\ same_setup p1 p2 /\ idx p2 = K /\ count p2 = count p1 /\
  token p2 = token p1 /\ 0 <= par <= current_parent p1 /\ parents_ok p2 /\
  (dlen s2 <= dlen s1)%nat.
Proof.
  intros (Hic & Hit & Hpol & Hst) HK Hidx Hcp Hpar Ha.
  destruct (store_ok_some _ _ Hst ltac:(lia)) as (Hc & Hlen & H0).
  destruct (mxjson_ascend_spec p1 s1)
    as (p' & s' & par' & E & Hl & E1 & E2 & E3 & E4 & E5 & E6 & E7 & E8 & E9 & Hz & Hnz).
  rewrite E in Ha. injection Ha as -> -> ->.
  split_and!; try done; try lia.
  - unfold ctx_ok. rewrite E2, E5, E6, E7.
    refine (conj Hic (conj Hit (conj Hpol _))).
    apply store_ok_intro; [done|lia|]. by rewrite (proj1 (E9 0)).
  - destruct (current_parent p1 =? MXJSON_IDX_NONE) eqn:E0.
    + destruct (Hz eq_refl) as (_ & _ & ->). lia.
    + eapply (ascend_loop_par _ _ _ _ _ _ _ K) in Hnz; try done; try lia.
      intros i Hi. rewrite <- Hidx in Hi. destruct (Hpar i Hi) as [Ha Hb].
      destruct (decide (i = 1)) as [->|]; [rewrite Ha by done; lia|].
      specialize (Hb ltac:(lia)). lia.
  - destruct (current_parent p1 =? MXJSON_IDX_NONE) eqn:E0.
    + destruct (Hz eq_refl) as (_ & _ & ->). apply Z.eqb_eq in E0. unfold MXJSON_IDX_NONE in E0. lia.
    + eapply (ascend_loop_par _ _ _ _ _ _ _ K) in Hnz; try done; try lia.
      intros i Hi. rewrite <- Hidx in Hi. destruct (Hpar i Hi) as [Ha Hb].
      destruct (decide (i = 1)) as [->|]; [rewrite Ha by done; lia|].
      specialize (Hb ltac:(lia)). lia.
  - intros i Hi. rewrite E1 in Hi. rewrite (proj2 (E9 i)). by apply Hpar.
Qed.

Lemma same_setup_refl p : same_setup p p.
Proof. done. Qed.

Lemma same_setup_trans p q r : same_setup p q -> same_setup q r -> same_setup p r.
Proof. unfold same_setup. intuition congruence. Qed.

Lemma ctx_ok_set_cp c p : ctx_ok p -> ctx_ok (set_current_parent c p).
Proof. done. Qed.

Lemma ctx_ok_set_idx i p : ctx_ok p -> ctx_ok (set_idx i p).
Proof. done. Qed.

Lemma comma_effect_len par i s ok s' :
  comma_effect par i s ok s' -> (dlen s' <= dlen s)%nat.
Proof.
  unfold comma_effect. pose proof (consume_ws_len s).
  destruct (par =? i); [intros [= <- <-]; lia|].
  destruct (mxstr_consume_char _ _ 0) as [[ok2 s2] c2] eqn:E.
  apply consume_char_len in E as (? & _). intros [= <- <-]. lia.
Qed.

Lemma ctx_ok_upd_token g p :
  (forall t, value_type (g t) = value_type t) -> ctx_ok p -> ctx_ok (upd_token g p).
Proof.
  intros Hg (Hic & Hit & Hpol & Hst).
  pose proof (upd_token_fields g p) as (E1 & E2 & E3 & E4 & E5 & E6 & E7 & E8 & E9).
  unfold ctx_ok. rewrite E6, E7, E8, E9.
  refine (conj Hic (conj Hit (conj Hpol _))).
  unfold upd_token. destruct (token p); [|done]. simpl. by apply store_ok_upd.
Qed.

(** The context after the token of the next value has been allocated. *)
Lemma token_state p2 par K p5 :
  ctx_ok p2 -> 1 <= K < count p2 -> idx p2 = K -> K + 1 < 2147483648 ->
  1 <= par <= K -> parents_ok p2 ->
  mxjson_token (set_current_parent par p2) = (true, p5) ->
  ctx_ok p5 /\ same_setup p2 p5 /\ idx p5 = K + 1 /\ K + 1 < count p5 /\
  token p5 = Some (K + 1) /\ current_parent p5 = par /\ parents_ok p5 /\
  exists base,
    tok_len base = count p5 /\
    (forall i, 0 <= i < count p2 -> tok_at base i = tok_at (tokens p2) i) /\
    tokens p5 = tok_upd add_child par (tok_upd (new_token par) (K + 1) base).
Proof.
  intros Hok HK Hidx HK31 Hpar Hpo Ht.
  pose proof (mxjson_token_spec (set_current_parent par p2)) as Hs.
  pose proof (mxjson_token_fields (set_current_parent par p2)) as Hf.
  rewrite Ht in Hs, Hf. cbn [fst snd] in Hf.
  cbn [idx count tokens current_parent json set_current_parent
       init_count init_tokens resize_fn] in Hs, Hf.
  assert (tokens p2 <> None) as Hne.
  { destruct Hok as (_ & _ & _ & Hst). destruct (tokens p2); [done|]. simpl in Hst. lia. }
  specialize (Hs (ctx_ok_set_cp _ _ Hok) ltac:(lia) ltac:(lia) ltac:(right; lia)).
  destruct Hs as (Hok5 & Hi5 & Hc5 & Ht5 & Hcp5 & Hj5 & base & Hb1 & Hb2 & Hb3 & Hb4).
  destruct Hf as (_ & _ & _ & _ & Hf1 & Hf2 & Hf3 & _).
  rewrite Hidx in *.
  split_and!; try done.
  - intros i Hi. rewrite Hi5 in Hi. rewrite Hb4.
    rewrite (tok_at_upd_field parent) by done.
    destruct (decide (i = K + 1)) as [->|Hne'].
    + rewrite tok_at_upd_eq by lia. simpl. lia.
    + rewrite tok_at_upd_ne by lia. rewrite Hb2 by (try done; lia).
      apply Hpo. lia.
  - exists base. split_and!; try done. by apply Hb2.
Qed.

Lemma turn_head B p s ok p' s' :
  head_ok B p s -> turn_exit p s ok p' s' ->
  ctx_ok p' /\ same_setup p p' /\ (dlen s' <= dlen s)%nat /\ 1 <= idx p' /\
  (ok = false -> idx p' < count p' \/ idx p' = count p') /\
  (ok = true ->
   (dlen s' < dlen s)%nat /\ parents_ok p' /\ idx p' < count p' /\
   (current_parent p' = 0 -> idx p' = idx p) /\
   (current_parent p' <> 0 -> head_ok B p' s')).
Proof.
  intros Hh Hx.
  assert (HB : B < 2147483648) by apply Hh.
  assert (Hi : 1 <= idx p < count p) by apply Hh.
  assert (Htk : token p = Some (idx p)) by apply Hh.
  destruct Hx as [f opens s1 Hv | f opens s1 p2 s2 Hv Ha
    | f opens s1 p2 s2 par s4 Hv Ha Hpar Hc
    | f opens s1 p2 s2 par s4 p5 Hv Ha Hpar Hc Ht
    | f opens s1 p2 s2 par s4 p5 Hv Ha Hpar Hc Ht Hty
    | f opens s1 p2 s2 par s4 p5 ok g s6 Hv Ha Hpar Hc Ht Hty Hn];
    pose proof (value_state _ _ _ _ _ _ _ Hh Hv)
      as (Hok1 & Hs1 & Hi1 & Hc1 & Ht1 & Hcp1 & Hp1 & Hl1 & HB1 & Hk1).
  - split_and!; try done; try lia.
  - destruct (ascend_state _ _ _ _ _ (idx p) Hok1 ltac:(lia) Hi1 Hcp1 Hp1 Ha)
      as (Hok2 & Hs2 & Hi2 & Hc2 & Ht2 & Hpar2 & Hp2 & Hl2).
    split_and!; try done; try lia.
    + by eapply same_setup_trans.
    + simpl. lia.
    + intros _. destruct (HB1 eq_refl). split_and!; try done; simpl; try lia.
  - destruct (ascend_state _ _ _ _ _ (idx p) Hok1 ltac:(lia) Hi1 Hcp1 Hp1 Ha)
      as (Hok2 & Hs2 & Hi2 & Hc2 & Ht2 & Hpar2 & Hp2 & Hl2).
    apply comma_effect_len in Hc.
    split_and!; try done; simpl; try lia.
    by eapply same_setup_trans.
  - destruct (ascend_state _ _ _ _ _ (idx p) Hok1 ltac:(lia) Hi1 Hcp1 Hp1 Ha)
      as (Hok2 & Hs2 & Hi2 & Hc2 & Ht2 & Hpar2 & Hp2 & Hl2).
    apply comma_effect_len in Hc.
    pose proof (mxjson_token_spec (set_current_parent par p2)) as Hs.
    rewrite Ht in Hs.
    cbn [idx count tokens current_parent json set_current_parent] in Hs.
    destruct (HB1 eq_refl) as [HB1' HB1'']. clear HB1.
    specialize (Hs (ctx_ok_set_cp _ _ Hok2) ltac:(lia) ltac:(lia) ltac:(right; lia)).
    destruct Hs as (-> & Hle & Heq).
    assert (tokens p2 <> None) as Hne.
    { destruct Hok2 as (_ & _ & _ & Hst). destruct (tokens p2); [done|]. simpl in Hst. lia. }
    specialize (Heq Hne).
    split_and!; try done; simpl; try lia.
    by eapply same_setup_trans.
  - destruct (ascend_state _ _ _ _ _ (idx p) Hok1 ltac:(lia) Hi1 Hcp1 Hp1 Ha)
      as (Hok2 & Hs2 & Hi2 & Hc2 & Ht2 & Hpar2 & Hp2 & Hl2).
    apply comma_effect_len in Hc. destruct (HB1 eq_refl) as [HB1' HB1'']. clear HB1.
    destruct (token_state p2 par (idx p) p5) as
      (Hok5 & Hs5 & Hi5 & Hc5 & Ht5 & Hcp5 & Hp5 & _); try done; try lia.
    split_and!; try done; try lia.
    + eapply same_setup_trans; [|done]. by eapply same_setup_trans.
    + intros _. split_and!; try done; try lia.
      intros _. unfold head_ok. rewrite Hi5, Hcp5. split_and!; try done; lia.
  - destruct (ascend_state _ _ _ _ _ (idx p) Hok1 ltac:(lia) Hi1 Hcp1 Hp1 Ha)
      as (Hok2 & Hs2 & Hi2 & Hc2 & Ht2 & Hpar2 & Hp2 & Hl2).
    apply comma_effect_len in Hc. destruct (HB1 eq_refl) as [HB1' HB1'']. clear HB1.
    destruct (token_state p2 par (idx p) p5) as
      (Hok5 & Hs5 & Hi5 & Hc5 & Ht5 & Hcp5 & Hp5 & _); try done; try lia.
    destruct Hn as (_ & Hl6 & Hkv).
    pose proof (consume_ws_len s4) as Hw4.
    pose proof (upd_token_fields g p5) as (E1 & E2 & E3 & E4 & E5 & E6 & E7 & E8 & E9).
    assert (Hp6 : parents_ok (upd_token g p5)).
    { intros i Hi'. rewrite E1 in Hi'. rewrite (upd_token_tokens _ _ _ Ht5).
      rewrite (tok_at_upd_field parent); [by apply Hp5|]. intros x. apply Hkv. }
    assert (Hok6 : ctx_ok (upd_token g p5)).
    { apply ctx_ok_upd_token; [|done]. intros x. apply Hkv. }
    split_and!; rewrite ?E1, ?E2, ?E6; try done; try lia.
    + eapply same_setup_trans; [by eapply same_setup_trans|].
      eapply same_setup_trans; [done|]. unfold same_setup. by rewrite E4, E7, E8, E9.
    + intros _. split_and!; rewrite ?E1, ?E2, ?E6; try done; try lia.
      intros _. unfold head_ok. rewrite E1, E2, E3, E6, Hi5, Hcp5.
      split_and!; try done; lia.
Qed.

(** The loop ends within as many turns as there are bytes left, and the
    context it leaves is in order. *)
Lemma loop_head B fuel p s :
  head_ok B p s -> (dlen s < fuel)%nat ->
  exists ok p' s',
    parse_json_loop fuel p s = Some (ok, p', s') /\
    ctx_ok p' /\ same_setup p p' /\ (dlen s' <= dlen s)%nat /\ 1 <= idx p' /\
    (ok = false -> idx p' < count p' \/ idx p' = count p') /\
    (ok = true ->
     parents_ok p' /\ idx p' < count p' /\ current_parent p' = 0).
Proof.
  revert p s. induction fuel as [|fuel IH]; intros p s Hh Hf; [lia|].
  cbn [parse_json_loop].
  destruct (parse_json_turn p s) as [[ok p1] s1] eqn:Et.
  apply turn_exits in Et.
  destruct (turn_head _ _ _ _ _ _ Hh Et) as (Hok & Hs & Hl & Hi & Hfl & Htr).
  destruct ok; cbn [andb].
  - destruct (Htr eq_refl) as (Hlt & Hpo & Hic & Hz & Hnz).
    destruct (current_parent p1 =? MXJSON_IDX_NONE) eqn:E; cbn [negb].
    + apply Z.eqb_eq in E. exists true, p1, s1. split_and!; try done.
    + apply Z.eqb_neq in E.
      destruct (IH p1 s1 (Hnz E) ltac:(lia))
        as (ok' & p' & s' & -> & H1 & H2 & H3 & H4 & H5 & H6).
      exists ok', p', s'. split_and!; try done; try lia.
      by eapply same_setup_trans.
  - exists false, p1, s1. split_and!; try done.
Qed.

Lemma parse_reset_fields p js :
  let r := parse_reset p js in
  json r = js /\ idx r = 0 /\ current_parent r = 0 /\ token r = None /\
  count r = count p /\ tokens r = tokens p /\
  init_count r = init_count p /\ init_tokens r = init_tokens p /\
  resize_fn r = resize_fn p /\ (dlen (unparsed r) <= dlen js)%nat.
Proof.
  unfold parse_reset. simpl. split_and!; try done.
  destruct (mxstr_consume_str js _) as [ok s'] eqn:E.
  apply consume_str_len in E as (H & _). done.
Qed.

(** What any parse leaves behind, in a context that was in order. *)
Lemma parse_spec p js :
  ctx_ok p -> short_input (data js) ->
  exists ok p',
    mxjson_parse p js = (ok, p') /\ ctx_ok p' /\
    json p' = js /\ init_count p' = init_count p /\
    init_tokens p' = init_tokens p /\ resize_fn p' = resize_fn p /\
    1 <= idx p' /\
    (ok = false ->
     idx p' < count p' \/ idx p' = count p' \/
     (tokens p' = None /\ idx p' = 1 /\ count p' = 0 /\ tokens p = None)) /\
    (ok = true ->
     parents_ok p' /\ idx p' < count p' /\ current_parent p' = 0).
Proof.
  intros Hok Hshort. unfold mxjson_parse.
  pose proof (parse_reset_fields p js) as (R1 & R2 & R3 & R4 & R5 & R6 & R7 & R8 & R9 & R10).
  set (p0 := parse_reset p js) in *.
  assert (Hok0 : ctx_ok p0).
  { exact Hok. }
  pose proof (mxjson_token_spec p0 Hok0) as Hs.
  pose proof (mxjson_token_fields p0) as Hf.
  rewrite R2, R3 in Hs.
  assert (Hcap : tokens p0 = None /\ 0 = 0 \/ 0 < count p0).
  { destruct Hok0 as (_ & _ & _ & Hst). destruct (tokens p0); [|by left].
    right. simpl in Hst. lia. }
  specialize (Hs ltac:(lia) ltac:(lia) Hcap).
  destruct (mxjson_token p0) as [[] p1]; cbn [fst snd] in Hf.
  - destruct Hs as (Hok1 & Hi1 & Hc1 & Ht1 & Hcp1 & Hj1 & base & Hb1 & Hb2 & Hb3 & Hb4).
    destruct Hf as (_ & _ & _ & Hun & Hf1 & Hf2 & Hf3 & _).
    assert (Hh : head_ok (Z.of_nat (dlen js) + 1) p1 (unparsed p1)).
    { unfold head_ok. rewrite Hi1, Hcp1, Hun. unfold short_input in Hshort.
      split_and!; try done; try lia.
      intros i Hi. assert (i = 1) as -> by lia. split; [|lia]. intros _.
      rewrite Hb4. rewrite (tok_at_upd_field parent) by done.
      rewrite tok_at_upd_eq by lia. done. }
    unfold mxjson_parse_json.
    destruct (loop_head _ (S (dlen (unparsed p1))) _ _ Hh ltac:(lia))
      as (ok & p' & s' & -> & H1 & H2 & H3 & H4 & H5 & H6).
    destruct H2 as (J1 & J2 & J3 & J4).
    destruct ok.
    + exists (mxstr_empty (mxjson_consume_ws s')), (set_unparsed (mxjson_consume_ws s') p').
      destruct (H6 eq_refl) as (K1 & K2 & K3).
      split_and!; try done; simpl; try congruence. intros _. by left.
    + exists false, (set_unparsed s' p'). split_and!; try done; simpl; try congruence.
      intros _. destruct (H5 eq_refl); [by left|right; by left].
  - destruct Hs as (-> & Hle & Heq). exists false, (set_idx (0 + 1) p0).
    cbn [idx count tokens json init_count init_tokens resize_fn set_idx].
    split_and!; try done; try lia. intros _.
    destruct (tokens p0) eqn:Et.
    + right. left. rewrite Heq; [lia|done].
    + right. right. destruct Hok0 as (_ & _ & _ & Hst). rewrite Et in Hst.
      simpl in Hst. rewrite <- R6. split_and!; try done; lia.
Qed.

(** *** Capacity exhaustion *)

Lemma call_resize_refused p h q : call_resize p h = (false, q) -> q = p.
Proof.
  unfold call_resize. destruct (resize_fn p) as [f|]; [|by intros [= <-]].
  destruct (f (count p) (tokens p) h) as [[c t]|]; [done|by intros [= <-]].
Qed.

Lemma ensure_capacity_refused p q :
  ensure_capacity p = (false, q) -> q = p /\ count p <= idx p.
Proof.
  unfold ensure_capacity. destruct (count p <=? idx p) eqn:E; [|done].
  apply Z.leb_le in E. intros H. split; [|done]. revert H.
  destruct (tokens p); [apply call_resize_refused|].
  assert (forall r : bool * mxjson_parser_t,
            (r.1 = false -> r.2 = p) ->
            (let '(ok, p0) := r in
             if ok then (ok, set_tokens (tok_upd (fun _ => zero_token) 0 (tokens p0)) p0)
             else (ok, p0)) = (false, q) -> q = p) as Hk.
  { intros [[] r] Hr; [done|]. intros [= <-]. by apply Hr. }
  assert (forall h r, call_resize p h = r -> r.1 = false -> r.2 = p) as Hc.
  { intros h [b r] Hr Hb. simpl in *. subst b. by apply call_resize_refused in Hr. }
  destruct (init_tokens p).
  - destruct (idx p <? init_count p); [done|]. apply Hk. by eapply Hc.
  - apply Hk. by eapply Hc.
Qed.

Lemma mxjson_token_refused p q :
  mxjson_token p = (false, q) ->
  q = set_idx (u32 (idx p + 1)) p /\ count q <= idx q.
Proof.
  unfold mxjson_token.
  destruct (ensure_capacity (set_idx (u32 (idx p + 1)) p)) as [[] r] eqn:E; [done|].
  intros [= <-]. apply ensure_capacity_refused in E as [-> H]. done.
Qed.

Lemma ctx_ok_init ic it rf :
  0 <= ic < 4294967296 ->
  (forall l, it = Some l -> Z.of_nat (length l) = ic) ->
  policy_ok rf -> ctx_ok (mxjson_init ic it rf).
Proof. intros. by unfold ctx_ok, mxjson_init. Qed.

(** C6, as stated, fails: with no token memory at all (no initial array,
    no callback) the first allocation is refused and the parse returns
    false with the index at 1 and the capacity at 0. *)
Lemma no_token_memory_idx_is_not_count :
  let p := mxjson_init 0 None None in
  let r := mxjson_parse p (input (bytes "[]")) in
  fst (mxjson_token (parse_reset p (input (bytes "[]")))) = false /\
  fst r = false /\ idx (snd r) <> count (snd r).
Proof. vm_compute. repeat split; discriminate. Qed.

Lemma ctx_ok_fixed8 : ctx_ok fixed8_parser.
Proof.
  apply ctx_ok_init; [lia| |done]. by intros l [= <-].
Qed.

(** *** The unfinished array *)







(** *** Stepping the lexer through known bytes *)

Lemma consume_char_cons cond b o x r c :
  mxstr_consume_char cond (mkstr b o (x :: r)) c =
  if cond x then (true, mkstr b (o + 1) r, x) else (false, mkstr b o (x :: r), x).
Proof. done. Qed.

Lemma consume_char_hit cond b o x r c :
  cond x = true ->
  mxstr_consume_char cond (mkstr b o (x :: r)) c = (true, mkstr b (o + 1) r, x).
Proof. intros H. by rewrite consume_char_cons, H. Qed.

Lemma consume_char_miss cond b o x r c :
  cond x = false ->
  mxstr_consume_char cond (mkstr b o (x :: r)) c = (false, mkstr b o (x :: r), x).
Proof. intros H. by rewrite consume_char_cons, H. Qed.

Lemma consume_char_fail cond s c :
  match data s with x :: _ => cond x | [] => false end = false ->
  mxstr_consume_char cond s c = (false, s, peek (data s) c).
Proof.
  unfold mxstr_consume_char. destruct (data s) as [|x r]; [done|].
  by intros ->.
Qed.

Lemma consume_chars_run cond b o ds rest c :
  Forall (fun x => cond x = true) ds ->
  match rest with x :: _ => cond x | [] => false end = false ->
  exists c', mxstr_consume_chars cond (mkstr b o (ds ++ rest)) c =
             (mkstr b (o + Z.of_nat (length ds)) rest, c').
Proof.
  intros Hds Hr. unfold mxstr_consume_chars. cbn [data blk ptr].
  revert o c. induction Hds as [|x ds Hx Hds IH]; intros o c.
  - cbn [app length]. replace (o + Z.of_nat 0) with o by lia.
    destruct rest as [|y r]; [by exists c|]. cbn [consume_chars_from].
    rewrite Hr. by exists y.
  - cbn [app consume_chars_from]. rewrite Hx.
    destruct (IH (o + 1) x) as [c' ->]. exists c'. f_equal. f_equal.
    cbn [length]. lia.
Qed.

Lemma consume_chars_none cond b o rest c :
  match rest with x :: _ => cond x | [] => false end = false ->
  exists c', mxstr_consume_chars cond (mkstr b o rest) c = (mkstr b o rest, c').
Proof.
  intros Hr. destruct (consume_chars_run cond b o [] rest c) as [c' E]; [done..|].
  exists c'. cbn [app length] in E. rewrite E. f_equal. f_equal. lia.
Qed.

Lemma digit_facts d :
  isdigit d = true ->
  (d =? chr "-") = false /\ (d =? chr ".") = false /\
  (d =? chr "e") = false /\ (d =? chr "E") = false /\
  (d =? chr "+") = false /\ (d =? DQUOTE) = false /\ (d =? chr "{") = false /\
  (d =? chr "[") = false /\ (d =? chr "t") = false /\ (d =? chr "f") = false /\
  (d =? chr "n") = false /\ (d =? chr "]") = false /\ (d =? chr "}") = false /\
  (d =? chr ",") = false /\ is_ws d = false.
Proof.
  unfold isdigit, is_ws, chr, DQUOTE. cbn. intros H.
  apply andb_true_iff in H as [H1%Z.leb_le H2%Z.leb_le].
  repeat split; try (apply Z.eqb_neq; lia).
  repeat (apply orb_false_iff; split); apply Z.eqb_neq; lia.
Qed.

(** *** The three parts of the number recognizer on known input *)

Lemma number_int_ok b o sg i rest c :
  is_sign sg -> is_int i ->
  (i = [chr "0"] \/ starts_with_digit rest = false) ->
  exists o' c', number_int (mkstr b o (sg ++ i ++ rest)) c = (true, mkstr b o' rest, c').
Proof.
  intros Hsg Hi Hrest.
  assert (Hgo : forall o1 c1, exists o' c',
    (let '(ok, s, c) := mxstr_consume_char isdigit (mkstr b o1 (i ++ rest)) c1 in
     if ok then
       let '(s, c) :=
         if negb (c =? chr "0") then mxstr_consume_chars isdigit s c else (s, c) in
       (ok, s, c)
     else (ok, s, c)) = (true, mkstr b o' rest, c')).
  { intros o1 c1. destruct Hi as [-> | (d & ds & -> & Hd & Hnz & Hds)].
    - exists (o1 + 1), (chr "0"). reflexivity.
    - destruct Hrest as [[= -> ->]|Hrest]; [done|].
      cbn [app]. rewrite consume_char_cons, Hd.
      apply Z.eqb_neq in Hnz. rewrite Hnz. cbn [negb].
      destruct (consume_chars_run isdigit b (o1 + 1) ds rest d Hds Hrest) as (c' & ->).
      by eexists _, _. }
  unfold number_int.
  destruct Hsg as [-> | ->]; cbn [app].
  - assert (Hm : match i ++ rest with x :: _ => x =? chr "-" | [] => false end = false).
    { destruct Hi as [-> | (d & ds & -> & Hd & _)]; [done|]. cbn [app].
      by apply digit_facts. }
    rewrite (consume_char_fail (fun c => c =? chr "-") (mkstr b o (i ++ rest)) c Hm).
    apply Hgo.
  - rewrite consume_char_hit by reflexivity. apply Hgo.
Qed.

Lemma number_int_fail b o rest c :
  starts_with_digit rest = false ->
  (number_int (mkstr b o (chr "-" :: rest)) c).1.1 = false.
Proof.
  intros Hr. unfold number_int. rewrite consume_char_hit by reflexivity.
  by rewrite (consume_char_fail isdigit (mkstr b (o + 1) rest) _ Hr).
Qed.

Lemma number_frac_none b o rest c :
  match rest with x :: _ => x =? chr "." | [] => false end = false ->
  exists c', number_frac (mkstr b o rest) c = (true, mkstr b o rest, c').
Proof.
  intros Hr. unfold number_frac.
  rewrite (consume_char_fail (fun c => c =? chr ".") (mkstr b o rest) c Hr). eauto.
Qed.

Lemma number_frac_ok b o d ds rest c :
  isdigit d = true -> all_digits ds -> starts_with_digit rest = false ->
  exists o' c', number_frac (mkstr b o (chr "." :: d :: ds ++ rest)) c =
                (true, mkstr b o' rest, c').
Proof.
  intros Hd Hds Hr. unfold number_frac.
  rewrite consume_char_hit by reflexivity.
  rewrite consume_char_hit by done.
  destruct (consume_chars_run isdigit b (o + 1 + 1) ds rest d Hds Hr) as (c' & ->).
  by eexists _, _.
Qed.

Lemma number_frac_fail b o rest c :
  starts_with_digit rest = false ->
  (number_frac (mkstr b o (chr "." :: rest)) c).1.1 = false.
Proof.
  intros Hr. unfold number_frac. rewrite consume_char_hit by reflexivity.
  rewrite (consume_char_fail isdigit (mkstr b (o + 1) rest) _ Hr).
  by destruct (mxstr_consume_chars _ _ _).
Qed.

Lemma number_exp_none b o rest c :
  match rest with x :: _ => (x =? chr "e") || (x =? chr "E") | [] => false end = false ->
  exists c', number_exp (mkstr b o rest) c = (true, mkstr b o rest, c').
Proof.
  intros Hr. unfold number_exp.
  rewrite (consume_char_fail (fun c => (c =? chr "e") || (c =? chr "E"))
             (mkstr b o rest) c Hr). eauto.
Qed.

Lemma exp_sign_step b o es l c :
  is_exp_sign es ->
  match l with x :: _ => (x =? chr "+") || (x =? chr "-") | [] => false end = false ->
  exists ok o' c',
    mxstr_consume_char (fun c => (c =? chr "+") || (c =? chr "-"))
      (mkstr b o (es ++ l)) c = (ok, mkstr b o' l, c').
Proof.
  intros [-> | [-> | ->]] Hl; cbn [app].
  - rewrite (consume_char_fail (fun c => (c =? chr "+") || (c =? chr "-"))
               (mkstr b o l) c Hl). by eexists _, _, _.
  - by eexists _, _, _.
  - by eexists _, _, _.
Qed.

Lemma no_digit_no_sign l :
  starts_with_digit l = true ->
  match l with x :: _ => (x =? chr "+") || (x =? chr "-") | [] => false end = false.
Proof.
  destruct l as [|x r]; [done|]. simpl. intros Hd.
  destruct (digit_facts x Hd) as (-> & _ & _ & _ & -> & _). done.
Qed.

Lemma number_exp_ok b o e es d ds rest c :
  is_exp_mark e -> is_exp_sign es -> isdigit d = true -> all_digits ds ->
  starts_with_digit rest = false ->
  exists o' c', number_exp (mkstr b o (e :: es ++ d :: ds ++ rest)) c =
                (true, mkstr b o' rest, c').
Proof.
  intros He Hes Hd Hds Hr. unfold number_exp.
  rewrite consume_char_cons.
  assert ((e =? chr "e") || (e =? chr "E") = true) as ->.
  { destruct He as [-> | ->]; done. }
  cbv iota beta.
  destruct (exp_sign_step b (o + 1) es (d :: ds ++ rest) e Hes) as (ok & o1 & c1 & ->).
  { by apply (no_digit_no_sign (d :: ds ++ rest)). }
  rewrite consume_char_hit by done.
  destruct (consume_chars_run isdigit b (o1 + 1) ds rest d Hds Hr) as (c' & ->).
  by eexists _, _.
Qed.

Lemma number_exp_fail b o e rest c :
  is_exp_mark e -> exp_missing_digit rest = true ->
  (number_exp (mkstr b o (e :: rest)) c).1.1 = false.
Proof.
  intros He Hr. unfold number_exp.
  rewrite consume_char_cons.
  assert ((e =? chr "e") || (e =? chr "E") = true) as ->.
  { destruct He as [-> | ->]; done. }
  cbv iota beta.
  assert (Hk : forall o1 c1 l, starts_with_digit l = false ->
    (let '(ok, s, c) := mxstr_consume_char isdigit (mkstr b o1 l) c1 in
     let '(s0, c0) := mxstr_consume_chars isdigit s c in (ok, s0, c0)).1.1 = false).
  { intros o1 c1 l Hl. rewrite (consume_char_fail isdigit (mkstr b o1 l) _ Hl).
    by destruct (mxstr_consume_chars _ _ _). }
  destruct rest as [|x r].
  - by apply (Hk (o + 1) e []).
  - rewrite consume_char_cons. cbn [exp_missing_digit] in Hr.
    destruct ((x =? chr "+") || (x =? chr "-")).
    + apply Hk. by apply negb_true_iff.
    + apply Hk. by apply negb_true_iff.
Qed.

(** *** Pointers: the end of the slice stays where it is *)

Lemma consume_char_end cond s c ok s' c' :
  mxstr_consume_char cond s c = (ok, s', c') ->
  end_ptr s' = end_ptr s /\ blk s' = blk s.
Proof.
  unfold mxstr_consume_char, end_ptr. destruct (data s) as [|x r] eqn:E.
  - intros [= <- <- <-]. by rewrite E.
  - destruct (cond x); intros [= <- <- <-]; cbn [ptr data blk]; rewrite ?E;
      cbn [length]; split; try done; lia.
Qed.

Lemma consume_chars_from_end cond b o l c :
  end_ptr (consume_chars_from cond b o l c).1 = o + Z.of_nat (length l) /\
  blk (consume_chars_from cond b o l c).1 = b.
Proof.
  revert o c. induction l as [|x r IH]; intros o c; cbn [consume_chars_from].
  - done.
  - destruct (cond x); [|done].
    destruct (IH (o + 1) x) as [-> ->]. cbn [length]. split; [lia|done].
Qed.

Lemma consume_chars_end cond s c s' c' :
  mxstr_consume_chars cond s c = (s', c') ->
  end_ptr s' = end_ptr s /\ blk s' = blk s.
Proof.
  unfold mxstr_consume_chars. intros E.
  pose proof (consume_chars_from_end cond (blk s) (ptr s) (data s) c) as H.
  rewrite E in H. done.
Qed.

Ltac end_char :=
  match goal with
  | |- context [mxstr_consume_char ?f ?s ?c] =>
      let E := fresh "E" in
      destruct (mxstr_consume_char f s c) as [[? ?] ?] eqn:E;
      apply consume_char_end in E as [? ?]
  end.

Ltac end_chars :=
  match goal with
  | |- context [mxstr_consume_chars ?f ?s ?c] =>
      let E := fresh "E" in
      destruct (mxstr_consume_chars f s c) as [? ?] eqn:E;
      apply consume_chars_end in E as [? ?]
  end.

Lemma number_int_end s c ok s' c' :
  number_int s c = (ok, s', c') -> end_ptr s' = end_ptr s /\ blk s' = blk s.
Proof.
  unfold number_int. end_char. end_char.
  match goal with |- context [if ?b then _ else (?b, _, _)] => destruct b end.
  - match goal with |- context [if ?c then _ else _] => destruct c end;
      [end_chars|]; intros [= <- <- <-]; split; congruence.
  - intros [= <- <- <-]. split; congruence.
Qed.

Lemma number_frac_end s c ok s' c' :
  number_frac s c = (ok, s', c') -> end_ptr s' = end_ptr s /\ blk s' = blk s.
Proof.
  unfold number_frac. end_char.
  match goal with |- context [if ?b then _ else _] => destruct b end.
  - end_char. end_chars. intros [= <- <- <-]. split; congruence.
  - intros [= <- <- <-]. split; congruence.
Qed.

Lemma number_exp_end s c ok s' c' :
  number_exp s c = (ok, s', c') -> end_ptr s' = end_ptr s /\ blk s' = blk s.
Proof.
  unfold number_exp. end_char.
  match goal with |- context [if ?b then _ else _] => destruct b end.
  - end_char. end_char. end_chars. intros [= <- <- <-]. split; congruence.
  - intros [= <- <- <-]. split; congruence.
Qed.

Lemma parse_number_end str v ok s' v' :
  mxjson_parse_number str v = (ok, s', v') ->
  end_ptr s' = end_ptr str /\ blk s' = blk str /\
  (ok = true -> v' = mxstr_prefix str s').
Proof.
  unfold mxjson_parse_number.
  destruct (number_int str 0) as [[ok1 s1] c1] eqn:E1.
  apply number_int_end in E1 as [H1 H1'].
  destruct ok1.
  - destruct (number_frac s1 c1) as [[ok2 s2] c2] eqn:E2.
    apply number_frac_end in E2 as [H2 H2'].
    destruct ok2.
    + destruct (number_exp s2 c2) as [[ok3 s3] c3] eqn:E3.
      apply number_exp_end in E3 as [H3 H3']. intros [= <- <- <-].
      split_and!; try congruence. by intros ->.
    + intros [= <- <- <-]. split_and!; congruence.
  - intros [= <- <- <-]. split_and!; congruence.
Qed.

(** *** The recognizer on each shape of lexeme *)

Lemma is_int_not_point i rest :
  is_int i -> match i ++ rest with x :: _ => isdigit x | [] => false end = true.
Proof. intros [-> | (d & ds & -> & Hd & _)]; done. Qed.

Lemma parse_number_zero b o sg x rest v :
  is_sign sg -> isdigit x = true \/ x = chr "x" \/ x = chr "X" ->
  exists o' v',
    mxjson_parse_number (mkstr b o (sg ++ chr "0" :: x :: rest)) v =
    (true, mkstr b o' (x :: rest), v').
Proof.
  intros Hsg Hx. unfold mxjson_parse_number.
  change (sg ++ chr "0" :: x :: rest) with (sg ++ [chr "0"] ++ x :: rest).
  destruct (number_int_ok b o sg [chr "0"] (x :: rest) 0 Hsg ltac:(by left) ltac:(by left))
    as (o1 & c1 & ->).
  assert (Hp : (x =? chr ".") = false /\ (x =? chr "e") || (x =? chr "E") = false).
  { destruct Hx as [Hd | [-> | ->]]; [|done..].
    destruct (digit_facts x Hd) as (_ & -> & -> & -> & _). done. }
  destruct Hp as [Hp He].
  destruct (number_frac_none b o1 (x :: rest) c1 Hp) as (c2 & ->).
  destruct (number_exp_none b o1 (x :: rest) c2 He) as (c3 & ->).
  by eexists _, _.
Qed.

Lemma frac_head fr e rest :
  is_frac fr -> is_exp_mark e -> starts_with_digit (fr ++ e :: rest) = false.
Proof.
  intros [-> | (d & ds & -> & _)] He; [|done].
  destruct He as [-> | ->]; done.
Qed.

Lemma number_frac_part b o fr rest c :
  is_frac fr ->
  match rest with x :: _ => isdigit x || (x =? chr ".") | [] => false end = false ->
  exists o' c', number_frac (mkstr b o (fr ++ rest)) c = (true, mkstr b o' rest, c').
Proof.
  intros [-> | (d & ds & -> & Hd & Hds)] Hr.
  - cbn [app]. destruct (number_frac_none b o rest c) as (c' & ->); [|by eexists _, _].
    destruct rest as [|x r]; [done|]. by apply orb_false_iff in Hr as [_ Hr].
  - cbn [app]. apply number_frac_ok; try done.
    destruct rest as [|x r]; [done|]. by apply orb_false_iff in Hr as [Hr _].
Qed.

Lemma parse_number_bad b o l v :
  bad_number l ->
  (mxjson_parse_number (mkstr b o l) v).1.1 = false \/
  exists sg x rest o' v',
    l = sg ++ chr "0" :: x :: rest /\ is_sign sg /\
    (isdigit x = true \/ x = chr "x" \/ x = chr "X") /\
    mxjson_parse_number (mkstr b o l) v = (true, mkstr b o' (x :: rest), v').
Proof.
  intros Hbad. unfold mxjson_parse_number.
  destruct Hbad as [rest Hr | sg d rest Hsg Hd | sg x rest Hsg Hx
    | sg i rest Hsg Hi Hr | sg i fr e rest Hsg Hi Hfr He Hr
    | rest | rest | rest | rest].
  - left. pose proof (number_int_fail b o rest 0 Hr) as H.
    by destruct (number_int _ 0) as [[[] ?] ?].
  - right. destruct (parse_number_zero b o sg d rest v Hsg ltac:(by left)) as (o' & v' & E).
    exists sg, d, rest, o', v'. split_and!; try done. by left.
  - right. destruct (parse_number_zero b o sg x rest v Hsg ltac:(by right)) as (o' & v' & E).
    exists sg, x, rest, o', v'. split_and!; try done. by right.
  - left.
    destruct (number_int_ok b o sg i (chr "." :: rest) 0 Hsg Hi ltac:(by right))
      as (o1 & c1 & ->).
    pose proof (number_frac_fail b o1 rest c1 Hr) as H.
    by destruct (number_frac _ c1) as [[[] ?] ?].
  - left.
    destruct (number_int_ok b o sg i (fr ++ e :: rest) 0 Hsg Hi) as (o1 & c1 & ->).
    { right. by apply frac_head. }
    destruct (number_frac_part b o1 fr (e :: rest) c1 Hfr) as (o2 & c2 & ->).
    { destruct He as [-> | ->]; done. }
    pose proof (number_exp_fail b o2 e rest c2 He Hr) as H.
    by destruct (number_exp _ c2) as [[[] ?] ?].
  - by left.
  - by left.
  - by left.
  - by left.
Qed.

(** *** Values that begin like a number *)

Lemma parse_value_number p s x r :
  data s = x :: r -> x = chr "-" \/ isdigit x = true ->
  exists g,
    mxjson_parse_value p s =
    ((mxjson_parse_number s mxstr_null).1.1, upd_token g p,
     (mxjson_parse_number s mxstr_null).1.2).
Proof.
  intros Hd Hx. unfold mxjson_parse_value, mxstr_getchar. rewrite Hd.
  assert ((x =? DQUOTE) = false /\ (x =? chr "{") = false /\
          (x =? chr "[") = false /\ (x =? chr "t") = false /\
          (x =? chr "f") = false /\ (x =? chr "n") = false /\
          (x =? chr "-") || isdigit x = true) as (-> & -> & -> & -> & -> & -> & ->).
  { destruct Hx as [-> | Hx]; [done|].
    destruct (digit_facts x Hx) as (_ & _ & _ & _ & _ & -> & -> & -> & -> & -> & -> & _).
    rewrite Hx, orb_true_r. done. }
  destruct (mxjson_parse_number s mxstr_null) as [[ok s'] v].
  cbn [fst snd]. rewrite upd_token_json.
  destruct ok.
  - rewrite upd_token_compose. by eexists.
  - by eexists.
Qed.

Lemma bad_number_head l :
  bad_number l ->
  exists x r, l = x :: r /\
    (x = chr "-" \/ isdigit x = true \/ x = chr "+" \/ x = chr "." \/
     x = chr "I" \/ x = chr "N").
Proof.
  intros [rest Hr | sg d rest Hsg Hd | sg x rest Hsg Hx
    | sg i rest Hsg Hi Hr | sg i fr e rest Hsg Hi Hfr He Hr
    | rest | rest | rest | rest]; try (eexists _, _; split; [reflexivity|]; tauto).
  - destruct Hsg as [-> | ->]; eexists _, _; (split; [reflexivity|]); [right; by left|by left].
  - destruct Hsg as [-> | ->]; eexists _, _; (split; [reflexivity|]); [right; by left|by left].
  - destruct Hsg as [-> | ->]; [|eexists _, _; split; [reflexivity|by left]].
    destruct Hi as [-> | (d & ds & -> & Hd & _)]; eexists _, _;
      (split; [reflexivity|]); right; by left.
  - destruct Hsg as [-> | ->]; [|eexists _, _; split; [reflexivity|by left]].
    destruct Hi as [-> | (d & ds & -> & Hd & _)]; eexists _, _;
      (split; [reflexivity|]); right; by left.
Qed.

(** At a value that begins with an ill-formed number, either the value
    is refused, or the recognizer stops after a zero and leaves a digit or
    the x of a hexadecimal literal as the next byte. *)
Lemma parse_value_bad p s :
  bad_number (data s) ->
  (mxjson_parse_value p s).1.1 = false \/
  exists g x rest s',
    mxjson_parse_value p s = (true, upd_token g p, s') /\
    data s' = x :: rest /\
    (isdigit x = true \/ x = chr "x" \/ x = chr "X").
Proof.
  intros Hbad.
  destruct (bad_number_head _ Hbad) as (x & r & Hd & Hx).
  destruct Hx as [Hx | [Hx | Hx]].
  - destruct (parse_value_number p s x r Hd ltac:(by left)) as (g & ->).
    destruct s as [b o l]. cbn [data] in *.
    destruct (parse_number_bad b o l mxstr_null Hbad)
      as [Hf | (sg & y & rest & o' & v' & _ & _ & Hy & ->)]; [by left|].
    right. by exists g, y, rest, (mkstr b o' (y :: rest)).
  - destruct (parse_value_number p s x r Hd ltac:(by right)) as (g & ->).
    destruct s as [b o l]. cbn [data] in *.
    destruct (parse_number_bad b o l mxstr_null Hbad)
      as [Hf | (sg & y & rest & o' & v' & _ & _ & Hy & ->)]; [by left|].
    right. by exists g, y, rest, (mkstr b o' (y :: rest)).
  - left. unfold mxjson_parse_value, mxstr_getchar. rewrite Hd.
    destruct Hx as [-> | [-> | [-> | ->]]]; done.
Qed.

Lemma consume_ws_data s x r :
  data s = x :: r -> is_ws x = false -> data (mxjson_consume_ws s) = x :: r.
Proof.
  intros Hd Hx. unfold mxjson_consume_ws, mxstr_consume_chars.
  rewrite Hd. cbn [consume_chars_from]. by rewrite Hx.
Qed.

Lemma consume_ws_idem s :
  data (mxjson_consume_ws (mxjson_consume_ws s)) = data (mxjson_consume_ws s).
Proof.
  unfold mxjson_consume_ws, mxstr_consume_chars.
  assert (forall l b o c b' o' c',
    data (consume_chars_from is_ws b' o' (data (consume_chars_from is_ws b o l c).1) c').1 =
    data (consume_chars_from is_ws b o l c).1) as H.
  { induction l as [|y l IH]; intros b o c b' o' c'; [done|].
    cbn [consume_chars_from]. destruct (is_ws y) eqn:Ey; [apply IH|].
    cbn [fst data consume_chars_from]. by rewrite Ey. }
  apply H.
Qed.

Lemma not_number_follow x :
  isdigit x = true \/ x = chr "x" \/ x = chr "X" ->
  is_ws x = false /\ (x =? chr "]") = false /\ (x =? chr "}") = false /\
  (x =? chr ",") = false.
Proof.
  intros [Hd | [-> | ->]]; [|done..].
  destruct (digit_facts x Hd) as (_&_&_&_&_&_&_&_&_&_&_& -> & -> & -> & ->). done.
Qed.

(** A turn of the loop that meets an ill-formed number either fails or
    ends the loop with input left over. *)
Lemma turn_bad p s :
  current_parent p <> idx p ->
  bad_number (data (mxjson_consume_ws s)) ->
  (parse_json_turn p s).1.1 = false \/
  ((parse_json_turn p s).1.1 = true /\
   current_parent (parse_json_turn p s).1.2 = 0 /\
   mxstr_empty (mxjson_consume_ws (parse_json_turn p s).2) = false).
Proof.
  intros Hcp Hbad. unfold parse_json_turn.
  destruct (parse_value_bad p _ Hbad) as [Hf | (g & x & rest & s1 & -> & Hd & Hx)].
  { left. by destruct (mxjson_parse_value p _) as [[[] ?] ?]. }
  destruct (not_number_follow x Hx) as (Hws & Hb1 & Hb2 & Hcm).
  pose proof (upd_token_fields g p) as (E1 & E2 & _).
  destruct (mxjson_ascend_spec (upd_token g p) s1)
    as (p2 & s2 & par & -> & _ & E3 & _ & _ & _ & _ & _ & _ & _ & _ & Hz & Hnz).
  destruct (current_parent (upd_token g p) =? MXJSON_IDX_NONE) eqn:E0.
  - destruct (Hz eq_refl) as (-> & -> & ->). right. cbn.
    unfold mxstr_empty. by rewrite (consume_ws_data _ _ _ Hd Hws).
  - left. specialize (Hnz eq_refl). rewrite ascend_loop_unfold in Hnz. cbv zeta in Hnz.
    pose proof (consume_ws_data _ _ _ Hd Hws) as Hd1.
    assert (Hstop : forall c, (mxstr_consume_char (fun c => c =? chr "]") (mxjson_consume_ws s1) c).1.1 = false /\
                              (mxstr_consume_char (fun c => c =? chr "}") (mxjson_consume_ws s1) c).1.1 = false).
    { intros c. unfold mxstr_consume_char. rewrite Hd1, Hb1, Hb2. done. }
    destruct (Hstop 0) as [Hs1 Hs2].
    assert (Hr : (match value_type (tok_at (tokens (upd_token g p)) (current_parent (upd_token g p))) with
            | MXJSON_ARRAY => mxstr_consume_char (fun c => c =? chr "]") (mxjson_consume_ws s1) 0
            | MXJSON_OBJECT => mxstr_consume_char (fun c => c =? chr "}") (mxjson_consume_ws s1) 0
            | _ => (false, mxjson_consume_ws s1, 0)
            end).1.1 = false).
    { by destruct (value_type _). }
    rewrite Hr in Hnz. injection Hnz as <- <- <-.
    apply Z.eqb_neq in E0. rewrite E2 in *.
    assert (negb (current_parent p =? MXJSON_IDX_NONE) = true) as ->.
    { apply negb_true_iff. by apply Z.eqb_neq. }
    cbn [idx set_current_parent]. rewrite E1.
    assert ((current_parent p =? idx p) = false) as -> by (by apply Z.eqb_neq).
    assert (Hd2 : data (mxjson_consume_ws (mxjson_consume_ws s1)) = x :: rest).
    { by rewrite consume_ws_idem. }
    unfold mxstr_consume_char. rewrite Hd2, Hcm. done.
Qed.

(** *** From one value position to the next *)

Lemma turn_len p s ok p' s' :
  parse_json_turn p s = (ok, p', s') ->
  (dlen s' <= dlen s)%nat /\ (ok = true -> (dlen s' < dlen s)%nat).
Proof.
  intros Ht. apply turn_exits in Ht. pose proof (consume_ws_len s) as Hw.
  destruct Ht as [f opens s1 Hv | f opens s1 p2 s2 Hv Ha
    | f opens s1 p2 s2 par s4 Hv Ha Hpar Hc
    | f opens s1 p2 s2 par s4 p5 Hv Ha Hpar Hc Ht
    | f opens s1 p2 s2 par s4 p5 Hv Ha Hpar Hc Ht Hty
    | f opens s1 p2 s2 par s4 p5 ok g s6 Hv Ha Hpar Hc Ht Hty Hn];
    destruct Hv as (_ & Hl & Hlt & _);
    try (destruct (mxjson_ascend_spec (after_value f opens p) s1)
           as (p2' & s2' & par' & Ea & Hl2 & _); rewrite Ea in Ha;
         injection Ha as -> -> ->);
    try apply comma_effect_len in Hc;
    try (destruct Hn as (_ & Hl6 & _); pose proof (consume_ws_len s4));
    try specialize (Hlt eq_refl); split; intros; try done; lia.
Qed.

Lemma loop_turns p s q t :
  turns p s q t ->
  forall fuel, (dlen s < fuel)%nat ->
  exists fuel', (dlen t < fuel')%nat /\
                parse_json_loop fuel p s = parse_json_loop fuel' q t.
Proof.
  induction 1 as [p s | p s p1 s1 q t Ht Hcp _ IH]; intros fuel Hf.
  - by exists fuel.
  - destruct fuel as [|fuel]; [lia|]. cbn [parse_json_loop]. rewrite Ht.
    apply turn_len in Ht as [_ Hlt]. specialize (Hlt eq_refl).
    assert (negb (current_parent p1 =? MXJSON_IDX_NONE) = true) as ->.
    { apply negb_true_iff. by apply Z.eqb_neq. }
    cbn [andb]. apply IH. lia.
Qed.

Lemma root_head p js p1 :
  ctx_ok p -> short_input (data js) ->
  mxjson_token (parse_reset p js) = (true, p1) ->
  head_ok (Z.of_nat (dlen js) + 1) p1 (unparsed p1) /\ json p1 = js /\
  init_count p1 = init_count p /\ init_tokens p1 = init_tokens p /\
  resize_fn p1 = resize_fn p.
Proof.
  intros Hok Hshort Ht.
  pose proof (parse_reset_fields p js) as (R1 & R2 & R3 & R4 & R5 & R6 & R7 & R8 & R9 & R10).
  set (p0 := parse_reset p js) in *.
  assert (Hok0 : ctx_ok p0) by exact Hok.
  pose proof (mxjson_token_spec p0 Hok0) as Hs.
  pose proof (mxjson_token_fields p0) as Hf.
  rewrite R2, R3 in Hs.
  assert (Hcap : tokens p0 = None /\ 0 = 0 \/ 0 < count p0).
  { destruct Hok0 as (_ & _ & _ & Hst). destruct (tokens p0); [|by left].
    right. simpl in Hst. lia. }
  specialize (Hs ltac:(lia) ltac:(lia) Hcap).
  rewrite Ht in Hs, Hf. cbn [fst snd] in Hf.
  destruct Hs as (Hok1 & Hi1 & Hc1 & Ht1 & Hcp1 & Hj1 & base & Hb1 & Hb2 & Hb3 & Hb4).
  destruct Hf as (_ & _ & _ & Hun & Hf1 & Hf2 & Hf3 & _).
  split_and!; try congruence.
  unfold head_ok. rewrite Hi1, Hcp1, Hun. unfold short_input in Hshort.
  split_and!; try done; try lia.
  intros i Hi. assert (i = 1) as -> by lia. split; [|lia]. intros _.
  rewrite Hb4. rewrite (tok_at_upd_field parent) by done.
  rewrite tok_at_upd_eq by lia. done.
Qed.

Lemma turns_head B p s q t :
  head_ok B p s -> turns p s q t -> head_ok B q t /\ same_setup p q.
Proof.
  intros Hh Ht. induction Ht as [p s | p s p1 s1 q t Ht Hcp _ IH]; [done|].
  apply turn_exits in Ht.
  destruct (turn_head _ _ _ _ _ _ Hh Ht) as (_ & Hs & _ & _ & _ & Htr).
  destruct (Htr eq_refl) as (_ & _ & _ & _ & Hnz).
  destruct (IH (Hnz Hcp)) as [H1 H2]. split; [done|].
  by eapply same_setup_trans.
Qed.

Lemma parse_at_bad_number p js q t :
  ctx_ok p -> short_input (data js) ->
  value_position p js q t ->
  bad_number (data (mxjson_consume_ws t)) ->
  fst (mxjson_parse p js) = false.
Proof.
  intros Hok Hshort (p1 & Hroot & Ht) Hbad.
  unfold mxjson_parse. rewrite Hroot.
  destruct (root_head _ _ _ Hok Hshort Hroot) as (Hh & _).
  destruct (turns_head _ _ _ _ _ Hh Ht) as [Hq _].
  unfold mxjson_parse_json.
  destruct (loop_turns _ _ _ _ Ht (S (dlen (unparsed p1))) ltac:(lia))
    as (fuel & Hfuel & ->).
  destruct fuel as [|fuel]; [lia|]. cbn [parse_json_loop].
  assert (Hcp : current_parent q <> idx q).
  { destruct Hq as (_ & _ & _ & ? & _). lia. }
  destruct (turn_bad q t Hcp Hbad) as [Hf | (Hk & Hz & He)];
    destruct (parse_json_turn q t) as [[ok q'] t']; cbn [fst snd] in *.
  - subst ok. done.
  - subst ok. rewrite Hz. cbn. done.
Qed.

(** *** Well-formed numbers *)

Lemma is_exp_head ex rest :
  is_exp ex -> delimited rest ->
  match ex ++ rest with x :: _ => isdigit x || (x =? chr ".") | [] => false end = false.
Proof.
  intros [-> | (e & sg & d & ds & -> & He & _)] Hr.
  - destruct rest as [|x r]; [done|]. cbn [app]. destruct Hr as (-> & Hp & _).
    by apply Z.eqb_neq in Hp as ->.
  - destruct He as [-> | ->]; done.
Qed.

Lemma number_exp_part b o ex rest c :
  is_exp ex -> delimited rest ->
  exists o' c', number_exp (mkstr b o (ex ++ rest)) c = (true, mkstr b o' rest, c').
Proof.
  intros [-> | (e & sg & d & ds & -> & He & Hsg & Hd & Hds)] Hr.
  - cbn [app]. destruct (number_exp_none b o rest c) as (c' & ->); [|by eexists _, _].
    destruct rest as [|x r]; [done|]. destruct Hr as (_ & _ & H1 & H2).
    apply Z.eqb_neq in H1, H2. by rewrite H1, H2.
  - replace ((e :: sg ++ d :: ds) ++ rest) with (e :: sg ++ d :: ds ++ rest)
      by (cbn [app]; by rewrite <- app_assoc).
    apply number_exp_ok; try done.
    destruct rest as [|x r]; [done|]. exact (proj1 Hr).
Qed.

Lemma parse_number_valid b o l rest v :
  valid_number l -> delimited rest ->
  mxjson_parse_number (mkstr b o (l ++ rest)) v =
  (true, mkstr b (o + Z.of_nat (length l)) rest, mkstr b o l).
Proof.
  intros (sg & i & fr & ex & -> & Hsg & Hi & Hfr & Hex) Hr.
  assert (exists o' v', mxjson_parse_number (mkstr b o ((sg ++ i ++ fr ++ ex) ++ rest)) v =
                        (true, mkstr b o' rest, v')) as (o' & v' & E).
  { unfold mxjson_parse_number.
    replace ((sg ++ i ++ fr ++ ex) ++ rest) with (sg ++ i ++ fr ++ ex ++ rest)
      by (by rewrite <- !app_assoc).
    pose proof (is_exp_head ex rest Hex Hr) as Hh.
    destruct (number_int_ok b o sg i (fr ++ ex ++ rest) 0 Hsg Hi) as (o1 & c1 & ->).
    { right. destruct Hfr as [-> | (d & ds & -> & _)]; [|done]. cbn [app].
      destruct (ex ++ rest) as [|x r]; [done|]. by apply orb_false_iff in Hh as [Hh _]. }
    destruct (number_frac_part b o1 fr (ex ++ rest) c1 Hfr Hh) as (o2 & c2 & ->).
    destruct (number_exp_part b o2 ex rest c2 Hex Hr) as (o3 & c3 & ->).
    by eexists _, _. }
  rewrite E. apply parse_number_end in E as (He & _ & Hv).
  specialize (Hv eq_refl). unfold end_ptr in He. cbn [ptr data] in He.
  rewrite length_app in He.
  assert (o' = o + Z.of_nat (length (sg ++ i ++ fr ++ ex))) as -> by lia.
  f_equal. rewrite Hv. unfold mxstr_prefix. cbn [blk ptr data]. f_equal.
  replace (Z.to_nat (o + Z.of_nat (length (sg ++ i ++ fr ++ ex)) - o))
    with (length (sg ++ i ++ fr ++ ex)) by lia.
  by rewrite take_app_length.
Qed.

Lemma valid_number_head l :
  valid_number l ->
  exists x r, l = x :: r /\ (x = chr "-" \/ isdigit x = true).
Proof.
  intros (sg & i & fr & ex & -> & Hsg & Hi & _).
  destruct Hsg as [-> | ->]; [|eexists _, _; split; [reflexivity|by left]].
  destruct Hi as [-> | (d & ds & -> & Hd & _)]; eexists _, _;
    (split; [reflexivity|]); by right.
Qed.

Lemma parse_value_valid q b o l rest :
  valid_number l -> delimited rest ->
  mxjson_parse_value q (mkstr b o (l ++ rest)) =
  (true,
   upd_token
     ((fun t => set_str_size (u32 (Z.of_nat (length l)))
                  (set_str (u32 (o - ptr (json q))) t))
        ∘ set_value_type MXJSON_NUMBER) q,
   mkstr b (o + Z.of_nat (length l)) rest).
Proof.
  intros Hv Hr. destruct (valid_number_head l Hv) as (x & r & Hl & Hx).
  unfold mxjson_parse_value, mxstr_getchar. cbn [data].
  rewrite parse_number_valid by done. rewrite Hl at 1. cbn [app].
  assert ((x =? DQUOTE) = false /\ (x =? chr "{") = false /\
          (x =? chr "[") = false /\ (x =? chr "t") = false /\
          (x =? chr "f") = false /\ (x =? chr "n") = false /\
          (x =? chr "-") || isdigit x = true) as (-> & -> & -> & -> & -> & -> & ->).
  { destruct Hx as [-> | Hx]; [done|].
    destruct (digit_facts x Hx) as (_ & _ & _ & _ & _ & -> & -> & -> & -> & -> & -> & _).
    rewrite Hx, orb_true_r. done. }
  rewrite upd_token_json, upd_token_compose. done.
Qed.

Lemma valid_number_start l :
  valid_number l ->
  exists x r, l = x :: r /\ is_ws x = false /\ (239 =? x) = false.
Proof.
  intros Hv. destruct (valid_number_head l Hv) as (x & r & -> & [-> | Hx]);
    eexists _, _; (split; [reflexivity|]); [done|].
  destruct (digit_facts x Hx) as (_&_&_&_&_&_&_&_&_&_&_&_&_&_&Hw).
  split_and!; try done. unfold isdigit, chr in Hx. cbn in Hx.
  apply andb_true_iff in Hx as [_ H%Z.leb_le]. apply Z.eqb_neq. lia.
Qed.

(** A well-formed number as the whole JSON text. *)
Lemma parse_valid_number p l :
  ctx_ok p -> short_input l -> valid_number l ->
  fst (mxjson_token (parse_reset p (input l))) = true ->
  let r := mxjson_parse p (input l) in
  let t := tok_at (tokens (snd r)) 1 in
  fst r = true /\ idx (snd r) = 1 /\
  value_type t = MXJSON_NUMBER /\ str t = 0 /\
  str_size t = Z.of_nat (length l) /\
  data (json_slice (snd r) (str t) (str_size t)) = l.
Proof.
  intros Hok Hs Hv Ht.
  destruct (valid_number_start l Hv) as (x & r0 & Hl & Hw & Hb).
  pose proof (parse_reset_fields p (input l)) as Hr. cbv zeta in Hr.
  assert (unparsed (parse_reset p (input l)) = input l) as Hu.
  { assert (is_prefix [239; 187; 191] l = false) as Hp.
    { rewrite Hl. cbn [is_prefix]. by rewrite Hb. }
    unfold parse_reset, mxstr_consume_str. cbn -[is_prefix]. by rewrite Hp. }
  set (p0 := parse_reset p (input l)) in *.
  destruct Hr as (Hj & Hi & Hcp & Htk & Hc & Hts & Hic & Hit & Hrf & _).
  assert (ctx_ok p0) as Hok0.
  { destruct Hok as (H1 & H2 & H3 & H4).
    refine (conj _ (conj _ (conj _ _))); by rewrite ?Hic, ?Hit, ?Hrf, ?Hc, ?Hts. }
  pose proof (mxjson_token_spec p0 Hok0) as Hsp.
  unfold mxjson_parse. fold p0.
  destruct (mxjson_token p0) as [ok p1] eqn:E. cbn [fst] in Ht. subst ok.
  destruct Hsp as (Hok1 & Hi1 & Hc1 & Htk1 & Hcp1 & Hj1 & base & Hb1 & _ & _ & Hts1).
  { lia. } { lia. }
  { destruct Hok0 as (_ & _ & _ & Hst). destruct (tokens p0) eqn:Et; [right|by left].
    destruct Hst as (? & ? & _). lia. }
  assert (unparsed p1 = input l) as Hu1.
  { pose proof (mxjson_token_fields p0) as Hf. rewrite E in Hf. cbn [fst snd] in Hf.
    destruct Hf as (_ & _ & _ & Hf & _). by rewrite Hf. }
  unfold mxjson_parse_json. rewrite Hu1.
  cbn [parse_json_loop]. unfold parse_json_turn.
  assert (mxjson_consume_ws (input l) = input l) as ->.
  { unfold mxjson_consume_ws, mxstr_consume_chars, input. cbn [blk ptr data].
    rewrite Hl. cbn [consume_chars_from]. by rewrite Hw. }
  pose proof (parse_value_valid p1 BInput 0 l [] Hv I) as Hpv.
  rewrite app_nil_r in Hpv. fold (input l) in Hpv. rewrite Hpv. clear Hpv.
  set (g := _ ∘ set_value_type MXJSON_NUMBER).
  unfold mxjson_ascend. rewrite (proj1 (proj2 (upd_token_fields g p1))).
  rewrite Hcp1, Hcp. change (negb (0 =? MXJSON_IDX_NONE)) with false.
  cbv iota beta. change (negb (0 =? MXJSON_IDX_NONE)) with false.
  cbv iota beta. cbn [current_parent set_current_parent andb negb].
  change (0 =? MXJSON_IDX_NONE) with true. cbn [andb negb fst snd].
  unfold mxjson_consume_ws, mxstr_consume_chars. cbn [blk ptr data consume_chars_from fst].
  unfold mxstr_empty. cbn [data fst snd].
  unfold upd_token. rewrite Htk1. cbn [tokens set_tokens idx set_unparsed set_current_parent json].
  split; [done|]. split; [lia|].
  assert (0 <= 1 < tok_len (tokens p1)) as Hin.
  { rewrite Hts1, !tok_len_upd. lia. }
  rewrite Hi. change (0 + 1) with 1. rewrite tok_at_upd_eq by done.
  subst g. unfold json_slice. cbn. rewrite Hj1, Hj. cbn.
  assert (u32 (Z.of_nat (length l)) = Z.of_nat (length l)) as Hu32.
  { apply u32_small. unfold short_input in Hs. lia. }
  split_and!; try done. rewrite Hu32, Nat2Z.id.
  change (Z.to_nat (0 - 0)) with 0%nat. rewrite drop_0. by apply take_ge.
Qed.

(** The [realloc] policy keeps the contract of a resize callback. *)
Lemma mxjson_resize_contract : resize_contract mxjson_resize.
Proof.
  intros c t h c' t' Hc Hch Hh2 Hh [= <- <-].
  assert ((h =? 0) = false) as -> by (apply Z.eqb_neq; lia).
  assert (0 <= c) as Hc0 by (unfold tok_len in Hc; destruct t; lia).
  assert (length (default [] t) = Z.to_nat c) as Hl.
  { unfold tok_len in Hc. destruct t as [l|]; subst c; cbn [default];
      [by rewrite Nat2Z.id|done]. }
  split_and!; try lia.
  - cbn. rewrite length_app, length_take, length_replicate. lia.
  - intros i Hi. unfold tok_at. cbn [mbind option_bind].
    rewrite lookup_app_l by (rewrite length_take; lia).
    rewrite lookup_take_lt by lia.
    destruct t as [l|]; [done|]. cbn in Hl. lia.
Qed.

Lemma ctx_ok_default : ctx_ok default_parser.
Proof.
  apply ctx_ok_init; [lia|done|]. exact mxjson_resize_contract.
Qed.

(** C2: the number recognizer keeps to the number syntax of RFC 8259.
    Wherever the parser comes to expect a value and finds one of the
    ill-formed lexemes (a lone minus sign, a leading zero before more
    digits, a decimal point or an exponent mark without a digit after it,
    a plus sign or a decimal point in front, a hexadecimal literal,
    Infinity, NaN), [mxjson_parse] returns false; each of the lexemes the
    specification lists is rejected as the member of an array.  A
    well-formed number of any magnitude is parsed, and its token records
    the offset and the size of the whole lexeme, sign included; so it is
    for 1e9999 inside an array. *)
Theorem number_syntax_strict p js l :
  ctx_ok p -> short_input (data js) -> short_input l ->
  (forall q t,
     value_position p js q t ->
     bad_number (data (mxjson_consume_ws t)) ->
     fst (mxjson_parse p js) = false) /\
  Forall (fun s => fst (mxjson_parse default_parser (input (bytes s))) = false)
         rejected_numbers /\
  (valid_number l ->
   fst (mxjson_token (parse_reset p (input l))) = true ->
   let r := mxjson_parse p (input l) in
   let t := tok_at (tokens (snd r)) 1 in
   fst r = true /\ idx (snd r) = 1 /\
   value_type t = MXJSON_NUMBER /\ str t = 0 /\
   str_size t = Z.of_nat (length l) /\
   data (json_slice (snd r) (str t) (str_size t)) = l) /\
  (let r := mxjson_parse default_parser (input (bytes "[-1e9999]")) in
   let t := tok_at (tokens (snd r)) 2 in
   fst r = true /\ idx (snd r) = 2 /\ value_type t = MXJSON_NUMBER /\
   str t = 1 /\ str_size t = 7 /\
   data (json_slice (snd r) (str t) (str_size t)) = bytes "-1e9999").
Proof.
  intros Hok Hjs Hl. split_and!.
  - intros q t Hq Hb. by apply (parse_at_bad_number p js q t).
  - unfold rejected_numbers. repeat constructor; by vm_compute.
  - intros Hv Ht. by apply parse_valid_number.
  - vm_compute. by split_and!.
Qed.

Lemma number_syntax_strict_witness :
  fst (mxjson_parse default_parser (input (bytes "[012]"))) = false /\
  (let r := mxjson_parse default_parser (input (bytes "-1e9999")) in
   let t := tok_at (tokens (snd r)) 1 in
   fst r = true /\ idx (snd r) = 1 /\
   value_type t = MXJSON_NUMBER /\ str t = 0 /\ str_size t = 7 /\
   data (json_slice (snd r) (str t) (str_size t)) = bytes "-1e9999").
Proof.
  destruct (number_syntax_strict default_parser (input (bytes "[012]"))
              (bytes "-1e9999") ctx_ok_default
              ltac:(by vm_compute) ltac:(by vm_compute)) as (Hbad & _ & Hgood & _).
  split.
  - set (p1 := snd (mxjson_token (parse_reset default_parser (input (bytes "[012]"))))).
    set (r := parse_json_turn p1 (unparsed p1)).
    apply (Hbad (snd (fst r)) (snd r)).
    + exists p1. split; [by vm_compute|].
      apply (turns_on _ _ (snd (fst r)) (snd r)); [by vm_compute|by vm_compute|].
      apply turns_here.
    + assert (data (mxjson_consume_ws (snd r)) = [] ++ chr "0" :: chr "1" :: bytes "2]")
        as -> by (by vm_compute).
      apply bad_leading_zero; [by left|done].
  - apply Hgood; [|by vm_compute].
    exists [chr "-"], [chr "1"], [], (bytes "e9999"). split_and!.
    + done.
    + by right.
    + right. exists (chr "1"), []. split_and!; try done. constructor.
    + by left.
    + right. exists (chr "e"), [], (chr "9"), (bytes "999"). split_and!; try done.
      * by left.
      * by left.
      * repeat constructor.
Defined.

(** *** Capacity exhaustion, in a parse *)

(** A turn that gets as far as its call of [mxjson_token] and is
    refused ends there, with what the call left. *)
Lemma turn_request_refused p s r r' :
  turn_request p s = Some r -> mxjson_token r = (false, r') ->
  exists s', parse_json_turn p s = (false, r', s').
Proof.
  unfold turn_request, parse_json_turn.
  destruct (mxjson_parse_value p (mxjson_consume_ws s)) as [[[] p1] s1]; [|done].
  destruct (mxjson_ascend p1 s1) as [[p2 s2] par].
  destruct (negb (par =? MXJSON_IDX_NONE)); [|done].
  destruct (if par =? idx (set_current_parent par p2) then _ else _) as [[] s4]; [|done].
  intros [= <-] ->. cbn [andb]. by eexists.
Qed.

(** A turn that fails with the index at the capacity has been refused a
    token: every other way to fail leaves the index below the capacity. *)
Lemma turn_refusal B p s p' s' :
  head_ok B p s -> parse_json_turn p s = (false, p', s') ->
  count p' <= idx p' ->
  exists r, turn_request p s = Some r /\ fst (mxjson_token r) = false.
Proof.
  intros Hh Et Hle.
  assert (HB : B < 2147483648) by apply Hh.
  assert (Hi : 1 <= idx p < count p) by apply Hh.
  pose proof (turn_exits _ _ _ _ _ Et) as Hx.
  inversion Hx as [f opens s1 Hv | f opens s1 p2 s2 Hv Ha
    | f opens s1 p2 s2 par s4 Hv Ha Hpar Hc
    | f opens s1 p2 s2 par s4 p5 Hv Ha Hpar Hc Ht
    | f opens s1 p2 s2 par s4 p5 Hv Ha Hpar Hc Ht Hty
    | f opens s1 p2 s2 par s4 p5 ok g s6 Hv Ha Hpar Hc Ht Hty Hn]; subst;
    pose proof (value_state _ _ _ _ _ _ _ Hh Hv)
      as (Hok1 & Hs1 & Hi1 & Hc1 & Ht1 & Hcp1 & Hp1 & Hl1 & HB1 & Hk1).
  - lia.
  - destruct (ascend_state _ _ _ _ _ (idx p) Hok1 ltac:(lia) Hi1 Hcp1 Hp1 Ha)
      as (Hok2 & Hs2 & Hi2 & Hc2 & _).
    cbn [idx count set_current_parent] in Hle. lia.
  - exists (set_current_parent par p2). rewrite Ht. split; [|done].
    unfold turn_request. rewrite (proj1 Hv p eq_refl), Ha.
    assert (negb (par =? MXJSON_IDX_NONE) = true) as ->
      by (by apply negb_true_iff, Z.eqb_neq).
    unfold comma_effect in Hc. cbn [idx set_current_parent].
    destruct (par =? idx p2); [done|].
    destruct (mxstr_consume_char _ (mxjson_consume_ws s2) 0) as [[ok3 s3] c3].
    cbn [fst] in Hc. by injection Hc as -> ->.
  - destruct (ascend_state _ _ _ _ _ (idx p) Hok1 ltac:(lia) Hi1 Hcp1 Hp1 Ha)
      as (Hok2 & Hs2 & Hi2 & Hc2 & Ht2 & Hpar2 & Hp2 & Hl2).
    destruct (HB1 eq_refl) as [HB1' _].
    destruct (token_state p2 par (idx p) p5) as
      (Hok5 & Hs5 & Hi5 & Hc5 & _); try done; try lia.
    pose proof (upd_token_fields g p5) as (E1 & E2 & E3 & E4 & E5 & E6 & _).
    rewrite E1, E6 in Hle. lia.
Qed.

Lemma turns_snoc p s q t q' t' :
  turns p s q t -> parse_json_turn q t = (true, q', t') ->
  current_parent q' <> MXJSON_IDX_NONE -> turns p s q' t'.
Proof.
  induction 1 as [p s | p s p1 s1 q t Ht Hcp _ IH]; intros Hq Hne.
  - eapply turns_on; [exact Hq|exact Hne|apply turns_here].
  - eapply turns_on; [exact Ht|exact Hcp|by apply IH].
Qed.

Lemma loop_refusal B fuel :
  forall p0 s0 p s ok p' s',
    turns p0 s0 p s -> head_ok B p s -> (dlen s < fuel)%nat ->
    parse_json_loop fuel p s = Some (ok, p', s') -> count p' <= idx p' ->
    exists q t r,
      turns p0 s0 q t /\ turn_request q t = Some r /\
      fst (mxjson_token r) = false.
Proof.
  induction fuel as [|fuel IH]; intros p0 s0 p s ok p' s' Hreach Hh Hf; [lia|].
  cbn [parse_json_loop].
  destruct (parse_json_turn p s) as [[ok1 p1] s1] eqn:Et.
  pose proof (turn_exits _ _ _ _ _ Et) as Hx.
  destruct (turn_head _ _ _ _ _ _ Hh Hx) as (_ & _ & _ & _ & _ & Htr).
  destruct ok1; cbn [andb].
  - destruct (Htr eq_refl) as (Hlt & _ & Hic & _ & Hnz).
    destruct (current_parent p1 =? MXJSON_IDX_NONE) eqn:E; cbn [negb].
    + intros [= <- <- <-] Hle. lia.
    + apply Z.eqb_neq in E. apply IH; [|by apply Hnz|lia].
      by eapply turns_snoc.
  - intros [= <- <- <-] Hle.
    destruct (turn_refusal _ _ _ _ _ Hh Et Hle) as (r & Hr & Hfl).
    by exists p, s, r.
Qed.

(** With an array from the caller that has room for the root token, the
    root token is had from it, whatever the callback. *)
Lemma root_adopted p js l :
  ctx_ok p -> tokens p = None -> init_tokens p = Some l -> 1 < init_count p ->
  fst (mxjson_token (parse_reset p js)) = true.
Proof.
  intros (_ & _ & _ & Hst) Hn Hit Hic. rewrite Hn in Hst. simpl in Hst.
  unfold mxjson_token, ensure_capacity, parse_reset.
  cbn [idx count tokens init_tokens init_count set_idx set_unparsed set_json
       set_token set_current_parent].
  rewrite Hst, Hn, Hit. change (u32 (MXJSON_IDX_NONE + 1)) with 1.
  change (0 <=? 1) with true. cbv iota.
  by assert ((1 <? init_count p) = true) as -> by (by apply Z.ltb_lt).
Qed.

(** C6, amended: capacity exhaustion is detectable as the index having
    reached the capacity, [count <= idx], which is the test the callers
    of the parser make.  A parse ends in that state exactly when one of
    its calls of [mxjson_token] was refused: the store was full, and
    reallocation was not configured or was refused.  The parse has then
    returned false, and the index equals the capacity, unless no token
    array was in place before the parse and none could be had for the
    root token (no array from the caller, or one of fewer than two
    tokens); then the index is 1 and the capacity 0. *)
Theorem capacity_exhaustion_detectable p js :
  ctx_ok p -> short_input (data js) ->
  let r := mxjson_parse p js in
  (store_exhausted p js <-> count (snd r) <= idx (snd r)) /\
  (count (snd r) <= idx (snd r) ->
   fst r = false /\
   (idx (snd r) = count (snd r) \/
    tokens (snd r) = None /\ idx (snd r) = 1 /\ count (snd r) = 0 /\
    tokens p = None /\ (init_tokens p = None \/ init_count p <= 1))).
Proof.
  intros Hok Hshort r. split; [split|].
  - intros [Hroot | (q & t & r0 & (p1 & Hroot & Hturns) & Hreq & Href)]; subst r;
      unfold mxjson_parse.
    + destruct (mxjson_token (parse_reset p js)) as [[] p1] eqn:E; [done|].
      cbn [snd]. by apply mxjson_token_refused in E as [_ H].
    + rewrite Hroot. unfold mxjson_parse_json.
      destruct (loop_turns _ _ _ _ Hturns (S (dlen (unparsed p1))) ltac:(lia))
        as (fuel & Hfuel & ->).
      destruct fuel as [|fuel]; [lia|]. cbn [parse_json_loop].
      destruct (mxjson_token r0) as [[] r'] eqn:E; [done|].
      destruct (turn_request_refused _ _ _ _ Hreq E) as [s' ->].
      cbn [andb snd idx count set_unparsed].
      by apply mxjson_token_refused in E as [_ H].
  - subst r. unfold mxjson_parse.
    destruct (mxjson_token (parse_reset p js)) as [[] p1] eqn:E;
      [|intros _; left; by rewrite E].
    destruct (root_head _ _ _ Hok Hshort E) as (Hh & _).
    unfold mxjson_parse_json.
    destruct (loop_head _ (S (dlen (unparsed p1))) _ _ Hh ltac:(lia))
      as (ok & p' & s' & El & _).
    rewrite El. intros Hle.
    assert (count p' <= idx p') as Hle'.
    { by destruct ok; cbn [snd idx count set_unparsed] in Hle. }
    destruct (loop_refusal _ (S (dlen (unparsed p1))) _ _ _ _ _ _ _
                (turns_here p1 (unparsed p1)) Hh
                ltac:(lia) El Hle') as (q & t & r0 & Hq & Hreq & Href).
    right. exists q, t, r0. split_and!; try done. by exists p1.
  - destruct (parse_spec p js Hok Hshort)
      as (ok & p' & E & Hok' & _ & _ & _ & _ & Hi & Hf & Ht).
    subst r. rewrite E. cbn [fst snd]. intros Hle. destruct ok.
    { destruct (Ht eq_refl) as (_ & Hlt & _). lia. }
    split; [done|].
    destruct (Hf eq_refl) as [?|[?|(Hn & Hi1 & Hc0 & Hpn)]]; [lia|by left|right].
    split_and!; try done.
    destruct (init_tokens p) as [l|] eqn:Eit; [|by left]. right.
    destruct (decide (init_count p <= 1)) as [|Hgt]; [done|]. exfalso.
    pose proof (root_adopted p js l Hok Hpn Eit ltac:(lia)) as Hroot.
    revert E. unfold mxjson_parse.
    destruct (mxjson_token (parse_reset p js)) as [[] p1] eqn:Et; [|done].
    destruct (root_head _ _ _ Hok Hshort Et) as (Hh & _).
    unfold mxjson_parse_json.
    destruct (loop_head _ (S (dlen (unparsed p1))) _ _ Hh ltac:(lia))
      as (ok' & p2 & s2 & El & Hok2 & _ & _ & Hi2 & Hf2 & Ht2).
    rewrite El. intros E. apply (f_equal snd) in E. simpl in E. subst p'.
    assert (tokens p2 = None) as Hn2.
    { by destruct ok'; cbn [tokens set_unparsed] in Hn. }
    destruct Hok2 as (_ & _ & _ & Hst). rewrite Hn2 in Hst. simpl in Hst.
    destruct ok'; [destruct (Ht2 eq_refl) as (_ & ? & _)|destruct (Hf2 eq_refl)]; lia.
Qed.

Lemma capacity_exhaustion_detectable_witness :
  let r := mxjson_parse fixed8_parser (input nested8) in
  store_exhausted fixed8_parser (input nested8) /\
  fst r = false /\ idx (snd r) = count (snd r) /\ count (snd r) = 8.
Proof.
  pose proof (capacity_exhaustion_detectable fixed8_parser (input nested8)
                ctx_ok_fixed8 ltac:(by vm_compute)) as [Hiff H].
  cbv zeta in Hiff, H |- *.
  assert (Hc : count (mxjson_parse fixed8_parser (input nested8)).2 = 8) by (by vm_compute).
  assert (Hi : idx (mxjson_parse fixed8_parser (input nested8)).2 = 8) by (by vm_compute).
  destruct H as [Hf _]; [lia|].
  split_and!; [apply Hiff; lia|done|lia|done].
Defined.

(** ** Unescaping: surrogate pairs *)

Lemma all_in_range (f : Z -> bool) (lo n : nat) :
  forallb f (map Z.of_nat (seq lo n)) = true ->
  forall c, Z.of_nat lo <= c < Z.of_nat (lo + n) -> f c = true.
Proof.
  intros H c Hc. rewrite forallb_forall in H. apply H.
  apply in_map_iff. exists (Z.to_nat c). split; [lia|].
  apply in_seq. lia.
Qed.

Lemma hex_digit_code c :
  isxdigit c = true ->
  (if chr "9" <? c then u8 (Z.land c (Z.lnot 32) - chr "A" + 10)
   else u8 (c - chr "0")) = hex_digit c /\
  0 <= hex_digit c < 16.
Proof.
  intros Hx.
  assert (48 <= c < 103) as Hc.
  { unfold isxdigit, isdigit in Hx.
    repeat (apply orb_true_iff in Hx as [Hx | Hx]);
      apply andb_true_iff in Hx as [H1%Z.leb_le H2%Z.leb_le]; lia. }
  pose proof (all_in_range
    (fun c => implb (isxdigit c)
      (((if chr "9" <? c then u8 (Z.land c (Z.lnot 32) - chr "A" + 10)
         else u8 (c - chr "0")) =? hex_digit c) &&
       (0 <=? hex_digit c) && (hex_digit c <? 16))) 48 55 eq_refl c) as H.
  cbv beta in H. rewrite Hx in H. cbn [implb] in H.
  specialize (H ltac:(lia)).
  apply andb_true_iff in H as [H H3%Z.ltb_lt].
  apply andb_true_iff in H as [H1%Z.eqb_eq H2%Z.leb_le]. lia.
Qed.

Lemma hex_acc v d :
  0 <= v < 4096 -> 0 <= d < 16 -> u32 (Z.shiftl v 4 + d) = v * 16 + d.
Proof.
  intros Hv Hd. rewrite Z.shiftl_mul_pow2 by lia. change (2 ^ 4) with 16.
  apply u32_small. lia.
Qed.

Lemma mxjson_hex_ok b o a1 a2 a3 a4 rest :
  isxdigit a1 = true -> isxdigit a2 = true ->
  isxdigit a3 = true -> isxdigit a4 = true ->
  mxjson_hex (mkstr b o (a1 :: a2 :: a3 :: a4 :: rest)) =
  (true, mkstr b (o + 4) rest, hex4 a1 a2 a3 a4).
Proof.
  intros H1 H2 H3 H4. unfold mxjson_hex. cbn [hex_loop].
  destruct (hex_digit_code a1 H1) as [E1 B1].
  destruct (hex_digit_code a2 H2) as [E2 B2].
  destruct (hex_digit_code a3 H3) as [E3 B3].
  destruct (hex_digit_code a4 H4) as [E4 B4].
  rewrite (consume_char_hit isxdigit b o a1 _ 0 H1), E1, hex_acc by lia.
  rewrite (consume_char_hit isxdigit b _ a2 _ 0 H2), E2, hex_acc by lia.
  rewrite (consume_char_hit isxdigit b _ a3 _ 0 H3), E3, hex_acc by lia.
  rewrite (consume_char_hit isxdigit b _ a4 _ 0 H4), E4, hex_acc by lia.
  unfold hex4. replace (o + 1 + 1 + 1 + 1) with (o + 4) by lia.
  by rewrite Z.mul_0_l, Z.add_0_l.
Qed.

Lemma hex4_range a b c d :
  isxdigit a = true -> isxdigit b = true ->
  isxdigit c = true -> isxdigit d = true ->
  0 <= hex4 a b c d < 65536.
Proof.
  intros Ha Hb Hc Hd.
  destruct (hex_digit_code a Ha) as [_ ?], (hex_digit_code b Hb) as [_ ?],
    (hex_digit_code c Hc) as [_ ?], (hex_digit_code d Hd) as [_ ?].
  unfold hex4. lia.
Qed.

Lemma prefix_run b o ps tl :
  mxstr_prefix (mkstr b o (ps ++ tl)) (mkstr b (o + Z.of_nat (length ps)) tl) =
  mkstr b o ps.
Proof.
  unfold mxstr_prefix. cbn [blk ptr data]. f_equal.
  replace (Z.to_nat (o + Z.of_nat (length ps) - o)) with (length ps) by lia.
  by rewrite take_app_length.
Qed.

Lemma plain_run ps :
  Forall (fun x => x <> BACKSLASH) ps ->
  Forall (fun x => negb (x =? BACKSLASH) = true) ps.
Proof.
  intros H. eapply Forall_impl; [exact H|].
  intros x Hx. by apply negb_true_iff, Z.eqb_neq.
Qed.

(** A turn of the loop on plain bytes with nothing after them fails: the
    byte after the backslash is missing. *)
Lemma unescape_step_plain buf b o ps c :
  Forall (fun x => x <> BACKSLASH) ps ->
  exists buf' s' c', unescape_step buf (mkstr b o ps) c = (false, buf', s', c').
Proof.
  intros Hps%plain_run. unfold unescape_step.
  destruct (consume_chars_run _ b o ps [] c Hps eq_refl) as [c0 E].
  rewrite app_nil_r in E. rewrite E. cbn. eauto.
Qed.

(** The turn up to the byte after the backslash. *)
Lemma unescape_step_front buf b o ps x tl c :
  Forall (fun x => x <> BACKSLASH) ps ->
  unescape_step buf (mkstr b o (ps ++ BACKSLASH :: x :: tl)) c =
  (let buffer := mkbuf (contents buf ++ ps) in
   let s := mkstr b (o + Z.of_nat (length ps) + 1 + 1) tl in
   let c := x in
   let ok := true in
    if (c =? DQUOTE) || (c =? BACKSLASH) || (c =? chr "/") then
      (ok, mxbuf_putc buffer c, s, c)
    else if c =? chr "b" then (ok, mxbuf_putc buffer 8, s, c)
    else if c =? chr "f" then (ok, mxbuf_putc buffer 12, s, c)
    else if c =? chr "n" then (ok, mxbuf_putc buffer 10, s, c)
    else if c =? chr "r" then (ok, mxbuf_putc buffer 13, s, c)
    else if c =? chr "t" then (ok, mxbuf_putc buffer 9, s, c)
    else if c =? chr "u" then
      let '(ok, s, v1) := mxjson_hex s in
      let '(ok, s, c, v1) :=
        if ok && (55296 <=? v1) && (v1 <? 56320) then
          let '(ok, s, c) := mxstr_consume_char (fun c => c =? BACKSLASH) s c in
          let '(ok, s, c) :=
            if ok then mxstr_consume_char (fun c => c =? chr "u") s c
            else (ok, s, c) in
          let '(ok, s, v2) := if ok then mxjson_hex s else (ok, s, 0) in
          let ok := ok && (56320 <=? v2) && (v2 <? 57344) in
          if ok
          then (ok, s, c,
                u32 (65536 + u32 (Z.shiftl (u32 (v1 - 55296)) 10)
                     + u32 (v2 - 56320)))
          else (ok, s, c, v1)
        else (ok, s, c, v1) in
      if ok then
        let '(ok, buffer) := mxbuf_put_utf8 buffer v1 in
        (ok, buffer, s, c)
      else (ok, buffer, s, c)
    else (false, buffer, s, c)).
Proof.
  intros Hps%plain_run. unfold unescape_step.
  destruct (consume_chars_run _ b o ps (BACKSLASH :: x :: tl) c Hps eq_refl) as [c0 ->].
  rewrite prefix_run. unfold mxstr_consume, mxstr_advance.
  cbn [data blk ptr length Nat.leb snd drop].
  rewrite consume_char_hit by done. reflexivity.
Qed.

Lemma simple_escape_not_u x : is_simple_escape x = true -> (x =? chr "u") = false.
Proof.
  unfold is_simple_escape. intros H. apply Z.eqb_neq. intros ->. discriminate H.
Qed.

Lemma unescape_step_esc buf b o ps x tl c :
  Forall (fun x => x <> BACKSLASH) ps -> is_simple_escape x = true ->
  exists buf' c',
    unescape_step buf (mkstr b o (ps ++ BACKSLASH :: x :: tl)) c =
    (true, buf', mkstr b (o + Z.of_nat (length ps) + 1 + 1) tl, c').
Proof.
  intros Hps Hx. rewrite unescape_step_front by done. cbv zeta.
  unfold is_simple_escape in Hx.
  destruct ((x =? DQUOTE) || (x =? BACKSLASH) || (x =? chr "/")) eqn:E1; [eauto|].
  cbn [orb] in Hx.
  destruct (x =? chr "b"); [eauto|]. destruct (x =? chr "f"); [eauto|].
  destruct (x =? chr "n"); [eauto|]. destruct (x =? chr "r"); [eauto|].
  destruct (x =? chr "t"); [eauto|]. discriminate Hx.
Qed.

(** The turn up to the first code unit of a [\u] escape. *)
Lemma unescape_step_u buf b o ps a1 a2 a3 a4 tl c :
  Forall (fun x => x <> BACKSLASH) ps ->
  isxdigit a1 = true -> isxdigit a2 = true ->
  isxdigit a3 = true -> isxdigit a4 = true ->
  unescape_step buf
    (mkstr b o (ps ++ BACKSLASH :: chr "u" :: a1 :: a2 :: a3 :: a4 :: tl)) c =
  (let buffer := mkbuf (contents buf ++ ps) in
   let s := mkstr b (o + Z.of_nat (length ps) + 1 + 1 + 4) tl in
   let c := chr "u" in
   let v1 := hex4 a1 a2 a3 a4 in
   let ok := true in
      let '(ok, s, c, v1) :=
        if ok && (55296 <=? v1) && (v1 <? 56320) then
          let '(ok, s, c) := mxstr_consume_char (fun c => c =? BACKSLASH) s c in
          let '(ok, s, c) :=
            if ok then mxstr_consume_char (fun c => c =? chr "u") s c
            else (ok, s, c) in
          let '(ok, s, v2) := if ok then mxjson_hex s else (ok, s, 0) in
          let ok := ok && (56320 <=? v2) && (v2 <? 57344) in
          if ok
          then (ok, s, c,
                u32 (65536 + u32 (Z.shiftl (u32 (v1 - 55296)) 10)
                     + u32 (v2 - 56320)))
          else (ok, s, c, v1)
        else (ok, s, c, v1) in
      if ok then
        let '(ok, buffer) := mxbuf_put_utf8 buffer v1 in
        (ok, buffer, s, c)
      else (ok, buffer, s, c)).
Proof.
  intros Hps H1 H2 H3 H4. rewrite unescape_step_front by done. cbv zeta.
  change ((chr "u" =? DQUOTE) || (chr "u" =? BACKSLASH) || (chr "u" =? chr "/")) with false.
  change (chr "u" =? chr "b") with false. change (chr "u" =? chr "f") with false.
  change (chr "u" =? chr "n") with false. change (chr "u" =? chr "r") with false.
  change (chr "u" =? chr "t") with false. change (chr "u" =? chr "u") with true.
  cbv iota. by rewrite mxjson_hex_ok.
Qed.

Lemma is_high_code v : is_high v = (55296 <=? v) && (v <? 56320).
Proof. unfold is_high. f_equal. apply eq_true_iff_eq. rewrite Z.leb_le, Z.ltb_lt. lia. Qed.

Lemma is_low_code v : is_low v = (56320 <=? v) && (v <? 57344).
Proof. unfold is_low. f_equal. apply eq_true_iff_eq. rewrite Z.leb_le, Z.ltb_lt. lia. Qed.

Lemma is_high_range v : is_high v = true <-> 55296 <= v <= 56319.
Proof. unfold is_high. rewrite andb_true_iff, !Z.leb_le. done. Qed.

Lemma is_low_range v : is_low v = true <-> 56320 <= v <= 57343.
Proof. unfold is_low. rewrite andb_true_iff, !Z.leb_le. done. Qed.

Lemma scalar_u32 v1 v2 :
  is_high v1 = true -> is_low v2 = true ->
  u32 (65536 + u32 (Z.shiftl (u32 (v1 - 55296)) 10) + u32 (v2 - 56320)) =
  surrogate_scalar v1 v2 /\
  65536 <= surrogate_scalar v1 v2 < 1114112.
Proof.
  intros H1%is_high_range H2%is_low_range. unfold surrogate_scalar.
  rewrite (u32_small (v1 - 55296)), (u32_small (v2 - 56320)) by lia.
  rewrite Z.shiftl_mul_pow2 by lia. change (2 ^ 10) with 1024.
  rewrite (u32_small ((v1 - 55296) * 1024)) by lia.
  rewrite u32_small by lia. lia.
Qed.

Lemma put_utf8_four buf v :
  65536 <= v < 1114112 ->
  mxbuf_put_utf8 buf v = (true, mkbuf (contents buf ++ utf8_four v)).
Proof.
  intros Hv. unfold mxbuf_put_utf8, utf8_encode.
  assert ((v <? 128) = false) as -> by (apply Z.ltb_ge; lia).
  assert ((v <? 2048) = false) as -> by (apply Z.ltb_ge; lia).
  assert ((v <? 65536) = false) as -> by (apply Z.ltb_ge; lia).
  assert ((v <? 1114112) = true) as -> by (apply Z.ltb_lt; lia).
  done.
Qed.

Lemma put_utf8_low buf v : is_low v = true -> mxbuf_put_utf8 buf v = (false, buf).
Proof.
  intros Hv%is_low_range. unfold mxbuf_put_utf8, utf8_encode.
  assert ((v <? 128) = false) as -> by (apply Z.ltb_ge; lia).
  assert ((v <? 2048) = false) as -> by (apply Z.ltb_ge; lia).
  assert ((v <? 65536) = true) as -> by (apply Z.ltb_lt; lia).
  assert ((55296 <=? v) = true) as -> by (apply Z.leb_le; lia).
  assert ((v <? 57344) = true) as -> by (apply Z.ltb_lt; lia).
  done.
Qed.

(** A [\u] escape that is not a high surrogate: the code unit goes to the
    buffer as it is, if it has an encoding. *)
Lemma unescape_step_u_single buf b o ps a1 a2 a3 a4 tl c :
  Forall (fun x => x <> BACKSLASH) ps ->
  isxdigit a1 = true -> isxdigit a2 = true ->
  isxdigit a3 = true -> isxdigit a4 = true ->
  is_high (hex4 a1 a2 a3 a4) = false ->
  unescape_step buf
    (mkstr b o (ps ++ BACKSLASH :: chr "u" :: a1 :: a2 :: a3 :: a4 :: tl)) c =
  (let '(ok, bf) := mxbuf_put_utf8 (mkbuf (contents buf ++ ps)) (hex4 a1 a2 a3 a4) in
   (ok, bf, mkstr b (o + Z.of_nat (length ps) + 1 + 1 + 4) tl, chr "u")).
Proof.
  intros Hps H1 H2 H3 H4 Hh. rewrite unescape_step_u by done. cbv zeta.
  rewrite is_high_code in Hh. cbn [andb]. by rewrite Hh.
Qed.

(** A surrogate pair: one scalar value goes to the buffer, in four bytes. *)
Lemma unescape_step_u_pair buf b o ps a1 a2 a3 a4 b1 b2 b3 b4 tl c :
  Forall (fun x => x <> BACKSLASH) ps ->
  isxdigit a1 = true -> isxdigit a2 = true ->
  isxdigit a3 = true -> isxdigit a4 = true ->
  isxdigit b1 = true -> isxdigit b2 = true ->
  isxdigit b3 = true -> isxdigit b4 = true ->
  is_high (hex4 a1 a2 a3 a4) = true -> is_low (hex4 b1 b2 b3 b4) = true ->
  unescape_step buf
    (mkstr b o (ps ++ BACKSLASH :: chr "u" :: a1 :: a2 :: a3 :: a4 ::
                      BACKSLASH :: chr "u" :: b1 :: b2 :: b3 :: b4 :: tl)) c =
  (true,
   mkbuf ((contents buf ++ ps) ++
          utf8_four (surrogate_scalar (hex4 a1 a2 a3 a4) (hex4 b1 b2 b3 b4))),
   mkstr b (o + Z.of_nat (length ps) + 1 + 1 + 4 + 1 + 1 + 4) tl, chr "u").
Proof.
  intros Hps H1 H2 H3 H4 G1 G2 G3 G4 Hh Hl. rewrite unescape_step_u by done.
  cbv zeta. pose proof Hh as Hh'. pose proof Hl as Hl'.
  rewrite is_high_code in Hh'. rewrite is_low_code in Hl'.
  cbn [andb]. rewrite Hh'.
  rewrite consume_char_hit by done. rewrite consume_char_hit by done.
  rewrite mxjson_hex_ok by done. cbn [andb]. rewrite Hl'.
  destruct (scalar_u32 _ _ Hh Hl) as [-> Hr].
  by rewrite put_utf8_four.
Qed.

(** C4: a [\u] escape that decodes to a high surrogate, followed by one
    that decodes to a low surrogate, is unescaped to the four bytes of the
    UTF-8 encoding of the scalar value of the pair, appended to the
    buffer, and the unescape reports success.  For the escapes D83D and
    DE39 the bytes are F0 9F 98 B9, also through [mxjson_token_string] on
    the string token of the parsed input. *)
Theorem surrogate_pair_unescape buf b o a1 a2 a3 a4 b1 b2 b3 b4 :
  item_ok (EscU a1 a2 a3 a4) -> item_ok (EscU b1 b2 b3 b4) ->
  is_high (hex4 a1 a2 a3 a4) = true -> is_low (hex4 b1 b2 b3 b4) = true ->
  let scalar := surrogate_scalar (hex4 a1 a2 a3 a4) (hex4 b1 b2 b3 b4) in
  mxjson_unescape buf (mkstr b o (render [EscU a1 a2 a3 a4; EscU b1 b2 b3 b4])) =
  (true, mkbuf (contents buf ++ utf8_four scalar)) /\
  utf8_encode scalar = Some (utf8_four scalar) /\
  length (utf8_four scalar) = 4%nat /\
  mxjson_unescape buf (mkstr b o (esc_u "D83D" ++ esc_u "DE39")) =
  (true, mkbuf (contents buf ++ [240; 159; 152; 185])) /\
  (let r := mxjson_parse default_parser
              (input (DQUOTE :: esc_u "D83D" ++ esc_u "DE39" ++ [DQUOTE])) in
   fst r = true /\ value_esc (tok_at (tokens (snd r)) 1) = true /\
   mxjson_token_string (snd r) 1 (mkbuf []) =
   (mkstr BBuffer 0 [240; 159; 152; 185], mkbuf [240; 159; 152; 185], true)).
Proof.
  intros (H1 & H2 & H3 & H4) (G1 & G2 & G3 & G4) Hh Hl scalar.
  assert (forall c1 c2 c3 c4 d1 d2 d3 d4,
    item_ok (EscU c1 c2 c3 c4) -> item_ok (EscU d1 d2 d3 d4) ->
    is_high (hex4 c1 c2 c3 c4) = true -> is_low (hex4 d1 d2 d3 d4) = true ->
    mxjson_unescape buf (mkstr b o (render [EscU c1 c2 c3 c4; EscU d1 d2 d3 d4])) =
    (true, mkbuf (contents buf ++
                  utf8_four (surrogate_scalar (hex4 c1 c2 c3 c4) (hex4 d1 d2 d3 d4)))))
    as Hgen.
  { intros c1 c2 c3 c4 d1 d2 d3 d4 (C1 & C2 & C3 & C4) (D1 & D2 & D3 & D4) Ch Dl.
    unfold mxjson_unescape. cbn [render render_item app data length unescape_loop].
    unfold mxstr_empty at 1. cbn [data andb negb].
    pose proof (unescape_step_u_pair buf b o [] c1 c2 c3 c4 d1 d2 d3 d4 [] 0
                  ltac:(constructor) C1 C2 C3 C4 D1 D2 D3 D4 Ch Dl) as E.
    cbn [app length] in E. rewrite E. unfold mxstr_empty. cbn [data andb negb].
    by rewrite app_nil_r. }
  split_and!.
  - by apply Hgen.
  - destruct (scalar_u32 _ _ Hh Hl) as [_ Hr]. fold scalar in Hr.
    pose proof (put_utf8_four (mkbuf []) scalar Hr) as E.
    unfold mxbuf_put_utf8 in E. destruct (utf8_encode scalar); [|done].
    by injection E as ->.
  - done.
  - apply (Hgen (chr "D") (chr "8") (chr "3") (chr "D")
                (chr "D") (chr "E") (chr "3") (chr "9")); by vm_compute.
  - by vm_compute.
Qed.

Lemma surrogate_pair_unescape_witness :
  mxjson_unescape (mkbuf (bytes "x"))
    (mkstr BInput 1 (render [EscU (chr "d") (chr "8") (chr "0") (chr "0");
                             EscU (chr "D") (chr "F") (chr "f") (chr "F")])) =
  (true, mkbuf (bytes "x" ++ [240; 144; 143; 191])).
Proof.
  exact (proj1 (surrogate_pair_unescape (mkbuf (bytes "x")) BInput 1
                  (chr "d") (chr "8") (chr "0") (chr "0")
                  (chr "D") (chr "F") (chr "f") (chr "F")
                  ltac:(by vm_compute) ltac:(by vm_compute) eq_refl eq_refl)).
Defined.

(** ** Unescaping: surrogates without a partner *)

Lemma render_app l1 l2 : render (l1 ++ l2) = render l1 ++ render l2.
Proof. induction l1 as [|x l1 IH]; [done|]. cbn [app render]. by rewrite IH, app_assoc. Qed.

Lemma render_plains ps : render (map Plain ps) = ps.
Proof. induction ps as [|x ps IH]; [done|]. cbn. by rewrite IH. Qed.

(** A lexeme is a run of plain bytes and then nothing or an escape. *)
Lemma split_plains items :
  exists ps rest,
    items = map Plain ps ++ rest /\
    match rest with Plain _ :: _ => False | _ => True end.
Proof.
  induction items as [|it items (ps & rest & -> & Hr)].
  - by exists [], [].
  - destruct it as [c|c|a b c d].
    + by exists (c :: ps), rest.
    + by exists [], (Esc c :: map Plain ps ++ rest).
    + by exists [], (EscU a b c d :: map Plain ps ++ rest).
Qed.

Lemma surrogates_ok_plains ps rest :
  surrogates_ok (map Plain ps ++ rest) = surrogates_ok rest.
Proof. induction ps as [|x ps IH]; [done|]. exact IH. Qed.

Lemma plains_ok ps rest :
  Forall item_ok (map Plain ps ++ rest) ->
  Forall (fun x => x <> BACKSLASH) ps /\ Forall item_ok rest.
Proof.
  intros [H1 H2]%Forall_app. split; [|done].
  induction ps as [|x ps IH]; [constructor|].
  apply Forall_cons in H1 as [Hx H1]. constructor; [exact Hx|by apply IH].
Qed.

(** A high surrogate with no low surrogate after it: the turn fails. *)
Lemma unescape_step_u_unpaired buf b o ps a1 a2 a3 a4 rest c :
  Forall (fun x => x <> BACKSLASH) ps ->
  item_ok (EscU a1 a2 a3 a4) -> Forall item_ok rest ->
  is_high (hex4 a1 a2 a3 a4) = true ->
  (forall w, head rest ≫= code_unit = Some w -> is_low w = false) ->
  exists buf' s' c',
    unescape_step buf
      (mkstr b o (ps ++ BACKSLASH :: chr "u" :: a1 :: a2 :: a3 :: a4 :: render rest)) c =
    (false, buf', s', c').
Proof.
  intros Hps (H1 & H2 & H3 & H4) Hrest Hh Hnext.
  rewrite unescape_step_u by done. cbv zeta.
  rewrite is_high_code in Hh. cbn [andb]. rewrite Hh.
  destruct rest as [|[x|x|b1 b2 b3 b4] rest]; cbn [render render_item app].
  - cbn. eauto.
  - apply Forall_cons in Hrest as [Hx _]. cbn in Hx.
    rewrite consume_char_miss by (by apply Z.eqb_neq). cbn. eauto.
  - apply Forall_cons in Hrest as [Hx _]. cbn in Hx.
    rewrite consume_char_hit by done.
    rewrite consume_char_miss by (by apply simple_escape_not_u). cbn. eauto.
  - apply Forall_cons in Hrest as [(G1 & G2 & G3 & G4) _].
    rewrite consume_char_hit by done. rewrite consume_char_hit by done.
    rewrite mxjson_hex_ok by done.
    specialize (Hnext _ eq_refl). rewrite is_low_code in Hnext.
    cbn [andb]. rewrite Hnext. eauto.
Qed.

Lemma unescape_loop_false fuel buf s c r :
  unescape_loop fuel false buf s c = Some r -> fst r = false.
Proof. destruct fuel; [done|]. cbn. by intros [= <-]. Qed.

(** A lexeme that the loop unescapes with success has its surrogates in
    pairs. *)
Lemma unescape_loop_paired fuel :
  forall items buf b o c r,
    Forall item_ok items ->
    unescape_loop fuel true buf (mkstr b o (render items)) c = Some (true, r) ->
    surrogates_ok items = true.
Proof.
  induction fuel as [|fuel IH]; intros items buf b o c r Hok E; [done|].
  destruct (split_plains items) as (ps & rest & -> & Hrest).
  rewrite surrogates_ok_plains. apply plains_ok in Hok as [Hps Hok].
  rewrite render_app, render_plains in E. cbn [unescape_loop] in E.
  destruct (mxstr_empty _) eqn:Hem in E.
  { unfold mxstr_empty in Hem. cbn [data] in Hem.
    destruct ps; [|done]. destruct rest as [|[] ?]; try done. }
  cbn [andb negb] in E.
  destruct rest as [|[x|x|a1 a2 a3 a4] rest]; [|done|..].
  - cbn [render] in E. rewrite app_nil_r in E.
    destruct (unescape_step_plain buf b o ps c Hps) as (buf' & s' & c' & Es).
    rewrite Es in E. by apply unescape_loop_false in E.
  - apply Forall_cons in Hok as [Hx Hok]. cbn [render render_item app] in E.
    destruct (unescape_step_esc buf b o ps x (render rest) c Hps Hx) as (buf' & c' & Es).
    rewrite Es in E. cbn [surrogates_ok]. by eapply IH.
  - pose proof Hok as Hok0. apply Forall_cons in Hok as [Hx Hok].
    cbn [render render_item app] in E. cbn [surrogates_ok].
    pose proof Hx as (H1 & H2 & H3 & H4).
    destruct (is_high (hex4 a1 a2 a3 a4)) eqn:Hh.
    + destruct rest as [|[y|y|b1 b2 b3 b4] rest].
      * destruct (unescape_step_u_unpaired buf b o ps a1 a2 a3 a4 [] c Hps Hx Hok Hh)
          as (buf' & s' & c' & Es); [done|].
        rewrite Es in E. by apply unescape_loop_false in E.
      * destruct (unescape_step_u_unpaired buf b o ps a1 a2 a3 a4 _ c Hps Hx Hok Hh)
          as (buf' & s' & c' & Es); [done|].
        rewrite Es in E. by apply unescape_loop_false in E.
      * destruct (unescape_step_u_unpaired buf b o ps a1 a2 a3 a4 _ c Hps Hx Hok Hh)
          as (buf' & s' & c' & Es); [done|].
        rewrite Es in E. by apply unescape_loop_false in E.
      * destruct (is_low (hex4 b1 b2 b3 b4)) eqn:Hl.
        -- apply Forall_cons in Hok as [(G1 & G2 & G3 & G4) Hok].
           cbn [render render_item app] in E.
           rewrite unescape_step_u_pair in E by done. cbn [andb]. by eapply IH.
        -- destruct (unescape_step_u_unpaired buf b o ps a1 a2 a3 a4 _ c Hps Hx Hok Hh)
             as (buf' & s' & c' & Es).
           { cbn. by intros w [= <-]. }
           rewrite Es in E. by apply unescape_loop_false in E.
    + rewrite unescape_step_u_single in E by done.
      destruct (is_low (hex4 a1 a2 a3 a4)) eqn:Hl.
      * rewrite put_utf8_low in E by done. by apply unescape_loop_false in E.
      * cbn [negb andb]. destruct (mxbuf_put_utf8 _ _) as [[] bf] in E.
        -- by eapply IH.
        -- by apply unescape_loop_false in E.
Qed.

(** *** The loop ends *)

Lemma hex_loop_len n ok s v : (dlen (hex_loop n ok s v).1.2 <= dlen s)%nat.
Proof.
  revert ok s v. induction n as [|n IH]; intros ok s v; cbn [hex_loop]; [done|].
  destruct ok; [|done].
  destruct (mxstr_consume_char isxdigit s 0) as [[ok' s'] c'] eqn:E.
  apply consume_char_len in E as (H & _).
  destruct ok'; [etrans; [apply IH|done]|etrans; [apply IH|done]].
Qed.

(** A turn that succeeds has consumed at least the byte after the
    backslash. *)
Lemma unescape_step_len buf s c ok buf' s' c' :
  unescape_step buf s c = (ok, buf', s', c') ->
  ok = true -> (dlen s' < dlen s)%nat.
Proof.
  unfold unescape_step.
  pose proof (consume_chars_len (fun c => negb (c =? BACKSLASH)) s c) as L1.
  destruct (mxstr_consume_chars _ s c) as [s1 c1]. cbn [fst] in L1.
  pose proof (proj1 (consume_len s1 1)) as L2.
  destruct (mxstr_consume_char _ (mxstr_consume s1 1).2 c1) as [[ok3 s3] c3] eqn:E3.
  apply consume_char_len in E3 as (_ & L3 & _).
  destruct ok3; [|by intros [= <- _ _ _]]. specialize (L3 eq_refl).
  assert (dlen s3 < dlen s)%nat as L by lia. clear L1 L2 L3.
  destruct (_ || _); [by intros [= _ _ <- _]|].
  destruct (c3 =? chr "b"); [by intros [= _ _ <- _]|].
  destruct (c3 =? chr "f"); [by intros [= _ _ <- _]|].
  destruct (c3 =? chr "n"); [by intros [= _ _ <- _]|].
  destruct (c3 =? chr "r"); [by intros [= _ _ <- _]|].
  destruct (c3 =? chr "t"); [by intros [= _ _ <- _]|].
  destruct (c3 =? chr "u"); [|by intros [= <- _ _ _]].
  pose proof (hex_loop_len 4 true s3 0) as L4. fold (mxjson_hex s3) in L4.
  destruct (mxjson_hex s3) as [[ok4 s4] v1]. cbn [fst snd] in L4.
  assert (forall (ok : bool) s5 c5 v5,
            (dlen s5 <= dlen s4)%nat ->
            (if ok
             then let '(ok, buffer) := mxbuf_put_utf8 (mxbuf_write buf (mxstr_prefix s s1)) v5 in
                  (ok, buffer, s5, c5)
             else (ok, mxbuf_write buf (mxstr_prefix s s1), s5, c5)) = (true, buf', s', c') ->
            (dlen s' < dlen s)%nat) as Hfin.
  { intros ok5 s5 c5 v5 L5. destruct ok5; [|done].
    destruct (mxbuf_put_utf8 _ _) as [ok6 b6]. intros [= _ _ <- _]. lia. }
  destruct (ok4 && (55296 <=? v1) && (v1 <? 56320)).
  - destruct (mxstr_consume_char (fun c => c =? BACKSLASH) s4 c3) as [[ok5 s5] c5] eqn:E5.
    apply consume_char_len in E5 as (L5 & _).
    assert (exists ok6 s6 c6,
      (if ok5 then mxstr_consume_char (fun c => c =? chr "u") s5 c5 else (ok5, s5, c5)) =
      (ok6, s6, c6) /\ (dlen s6 <= dlen s4)%nat) as (ok6 & s6 & c6 & -> & L6).
    { destruct ok5; [|by eexists _, _, _].
      destruct (mxstr_consume_char (fun c => c =? chr "u") s5 c5) as [[ok6 s6] c6] eqn:E6.
      apply consume_char_len in E6 as (L6 & _). eexists _, _, _. split; [done|lia]. }
    assert (exists ok7 s7 v7,
      (if ok6 then mxjson_hex s6 else (ok6, s6, 0)) = (ok7, s7, v7) /\
      (dlen s7 <= dlen s4)%nat) as (ok7 & s7 & v7 & -> & L7).
    { destruct ok6; [|by eexists _, _, _].
      pose proof (hex_loop_len 4 true s6 0) as L7. fold (mxjson_hex s6) in L7.
      destruct (mxjson_hex s6) as [[ok7 s7] v7]. cbn [fst snd] in L7.
      eexists _, _, _. split; [done|lia]. }
    cbv zeta. intros E ->.
    destruct (ok7 && (56320 <=? v7) && (v7 <? 57344)).
    + exact (Hfin true s7 c6 _ L7 E).
    + exact (Hfin false s7 c6 v1 L7 E).
  - intros E ->. exact (Hfin ok4 s4 c3 v1 (le_n _) E).
Qed.

Lemma unescape_loop_total fuel ok buf s c :
  (dlen s < fuel)%nat -> exists r, unescape_loop fuel ok buf s c = Some r.
Proof.
  revert ok buf s c. induction fuel as [|fuel IH]; intros ok buf s c Hf; [lia|].
  cbn [unescape_loop]. destruct ok; [|by eexists]. cbn [andb].
  destruct (mxstr_empty s) eqn:Hem; [by eexists|]. cbn [negb].
  destruct (unescape_step buf s c) as [[[ok1 buf1] s1] c1] eqn:E.
  destruct ok1.
  - apply IH. apply unescape_step_len in E; [lia|done].
  - destruct fuel; [|cbn; by eexists].
    assert (dlen s = 0)%nat as Hz by lia. unfold mxstr_empty in Hem.
    by destruct (data s).
Qed.

(** *** Pairs, seen from a place in the lexeme *)

Lemma high_not_low v : is_high v = true -> is_low v = false.
Proof. intros H%is_high_range. apply not_true_iff_false. rewrite is_low_range. lia. Qed.

Lemma last_cons_keep {A} (x : A) l (f : A -> option Z) w :
  last l ≫= f = Some w -> last (x :: l) ≫= f = Some w.
Proof. rewrite last_cons. by destruct (last l). Qed.

(** In a lexeme whose surrogates are in pairs, a high surrogate has a low
    one right after it and a low surrogate has a high one right before
    it. *)
Lemma surrogates_ok_at n :
  forall pre it rest v,
    (length pre <= n)%nat ->
    surrogates_ok (pre ++ it :: rest) = true -> code_unit it = Some v ->
    (is_high v = true ->
     exists w, head rest ≫= code_unit = Some w /\ is_low w = true) /\
    (is_low v = true ->
     exists w, last pre ≫= code_unit = Some w /\ is_high w = true).
Proof.
  induction n as [n IH] using lt_wf_ind. intros pre it rest v Hn Hok Hv.
  destruct pre as [|x pre].
  - destruct it as [| |a b c d]; try done. injection Hv as <-.
    cbn [app surrogates_ok] in Hok.
    destruct (is_high (hex4 a b c d)) eqn:Hh.
    + split; [intros _|by rewrite (high_not_low _ Hh)].
      destruct rest as [|[| |a' b' c' d'] rest]; try done.
      apply andb_true_iff in Hok as [Hl _]. by eexists.
    + split; [done|]. apply andb_true_iff in Hok as [Hl%negb_true_iff _].
      by rewrite Hl.
  - assert (surrogates_ok (pre ++ it :: rest) = true ->
            (is_high v = true ->
             exists w, head rest ≫= code_unit = Some w /\ is_low w = true) /\
            (is_low v = true ->
             exists w, last (x :: pre) ≫= code_unit = Some w /\ is_high w = true))
      as Hskip.
    { intros Hok'.
      destruct (IH (length pre) ltac:(cbn in Hn; lia) pre it rest v (le_n _) Hok' Hv)
        as [H1 H2].
      split; [done|]. intros Hl. destruct (H2 Hl) as (w & Hw & Hhw).
      exists w. split; [|done]. by apply last_cons_keep. }
    destruct x as [c|c|a b c d]; [by apply Hskip..|].
    cbn [app surrogates_ok] in Hok.
    destruct (is_high (hex4 a b c d)) eqn:Hh;
      [|apply andb_true_iff in Hok as [_ Hok]; by apply Hskip].
    destruct pre as [|y pre]; cbn [app] in Hok.
    + destruct it as [| |a' b' c' d']; try done. injection Hv as <-.
      apply andb_true_iff in Hok as [Hl _]. split.
      * intros Hh'. by rewrite (high_not_low _ Hh') in Hl.
      * intros _. by exists (hex4 a b c d).
    + destruct y as [| |a' b' c' d']; try done.
      apply andb_true_iff in Hok as [_ Hok].
      destruct (IH (length pre) ltac:(cbn in Hn; lia) pre it rest v (le_n _) Hok Hv)
        as [H1 H2].
      split; [done|]. intros Hl. destruct (H2 Hl) as (w & Hw & Hhw).
      exists w. split; [|done]. by do 2 apply last_cons_keep.
Qed.

Lemma unpaired_not_ok items :
  high_unpaired items \/ low_lone items -> surrogates_ok items = false.
Proof.
  intros H. apply not_true_iff_false. intros Hok.
  destruct H as [(pre & it & rest & v & -> & Hv & Hh & Hno) |
                 (pre & it & rest & v & -> & Hv & Hl & Hno)].
  - destruct (surrogates_ok_at _ pre it rest v (le_n _) Hok Hv) as [H _].
    destruct (H Hh) as (w & Hw & Hlw). by rewrite (Hno w Hw) in Hlw.
  - destruct (surrogates_ok_at _ pre it rest v (le_n _) Hok Hv) as [_ H].
    destruct (H Hl) as (w & Hw & Hhw). by rewrite (Hno w Hw) in Hhw.
Qed.

(** C5: unescaping fails for every lexeme in which a [\u] escape decodes
    to a high surrogate that is not followed at once by a [\u] escape
    decoding to a low surrogate, and for every lexeme in which a [\u]
    escape decodes to a low surrogate that no high surrogate precedes: the
    loop of [mxjson_unescape] comes to an end and reports failure.  The
    input of the escape D800 alone, in quotes, is parsed with success, and
    [mxjson_token_string] then reports the string as invalid. *)
Theorem unpaired_surrogate_invalid buf b o items :
  Forall item_ok items ->
  high_unpaired items \/ low_lone items ->
  (exists buf',
     unescape_loop (S (length (render items))) true buf
       (mkstr b o (render items)) 0 = Some (false, buf') /\
     mxjson_unescape buf (mkstr b o (render items)) = (false, buf')) /\
  (let r := mxjson_parse default_parser (input (DQUOTE :: esc_u "D800" ++ [DQUOTE])) in
   let t := tok_at (tokens (snd r)) 1 in
   fst r = true /\ value_type t = MXJSON_STRING /\ value_esc t = true /\
   data (json_slice (snd r) (str t) (str_size t)) = esc_u "D800" /\
   snd (mxjson_token_string (snd r) 1 (mkbuf [])) = false).
Proof.
  intros Hok Hbad. split; [|by vm_compute].
  destruct (unescape_loop_total (S (length (render items))) true buf
              (mkstr b o (render items)) 0) as [[ok buf'] E]; [cbn; lia|].
  exists buf'. unfold mxjson_unescape. cbn [data]. rewrite E.
  destruct ok; [|done].
  apply unescape_loop_paired in E; [|done].
  by rewrite (unpaired_not_ok items Hbad) in E.
Qed.

Lemma unpaired_surrogate_invalid_witness :
  fst (mxjson_unescape (mkbuf [])
         (mkstr BInput 1
            (render [Plain (chr "a"); EscU (chr "D") (chr "8") (chr "0") (chr "0");
                     Esc (chr "n"); EscU (chr "D") (chr "C") (chr "0") (chr "0")]))) =
  false.
Proof.
  destruct (unpaired_surrogate_invalid (mkbuf []) BInput 1
              [Plain (chr "a"); EscU (chr "D") (chr "8") (chr "0") (chr "0");
               Esc (chr "n"); EscU (chr "D") (chr "C") (chr "0") (chr "0")])
    as [(buf' & _ & E) _].
  - repeat constructor; by vm_compute.
  - left. exists [Plain (chr "a")], (EscU (chr "D") (chr "8") (chr "0") (chr "0")),
      [Esc (chr "n"); EscU (chr "D") (chr "C") (chr "0") (chr "0")], 55296.
    split_and!; [done|done|done|]. by intros w [=].
  - by rewrite E.
Defined.

(** ** The shape of the token tree *)

(** *** Walks *)

Lemma next_frame p q j :
  tok_at (tokens q) j = tok_at (tokens p) j -> mxjson_next q j = mxjson_next p j.
Proof. unfold mxjson_next. by intros ->. Qed.

Lemma walk_le p par n j e : walk p par n j e -> j + Z.of_nat n <= e.
Proof.
  revert j. induction n as [|n IH]; intros j; cbn [walk]; [lia|].
  intros (H1 & _ & H2 & H3%IH). lia.
Qed.

(** A walk only looks at the tokens it passes. *)
Lemma walk_frame p q par n j e :
  (forall h, j <= h < e -> tok_at (tokens q) h = tok_at (tokens p) h) ->
  walk p par n j e -> walk q par n j e.
Proof.
  revert j. induction n as [|n IH]; intros j Hag; cbn [walk]; [done|].
  intros (H1 & H2 & H3 & H4).
  rewrite (next_frame p q j), Hag by (try apply Hag; lia).
  split_and!; try done. apply IH; [|done]. intros h Hh. apply Hag. lia.
Qed.

(** One more subtree at the end of a walk. *)
Lemma walk_snoc p par n j c e :
  walk p par n j c -> c < e -> parent (tok_at (tokens p) c) = par ->
  mxjson_next p c = e -> walk p par (S n) j e.
Proof.
  revert j. induction n as [|n IH]; intros j.
  - cbn [walk]. intros -> Hc Hp He. rewrite He. split_and!; try done.
  - intros (H1 & H2 & H3 & H4) Hc Hp He.
    change (walk p par (S (S n)) j e) with
      (j < e /\ parent (tok_at (tokens p) j) = par /\
       j < mxjson_next p j /\ walk p par (S n) (mxjson_next p j) e).
    split_and!; try done; [lia|]. by apply IH.
Qed.

Lemma chain_lt p c anc a : chain_ok p c anc -> In a anc -> 1 <= a < c.
Proof.
  revert c. induction anc as [|b anc IH]; intros c; [done|].
  cbn [chain_ok]. intros (Hb & _ & _ & _ & _ & Hch) [->|Hin]; [done|].
  specialize (IH b Hch Hin). lia.
Qed.

(** The chain above [c] only looks at the parent of [c] and at the tokens
    before it. *)
Lemma chain_frame p q c anc :
  (forall h, 1 <= h < c -> tok_at (tokens q) h = tok_at (tokens p) h) ->
  parent (tok_at (tokens q) c) = parent (tok_at (tokens p) c) ->
  chain_ok p c anc -> chain_ok q c anc.
Proof.
  revert c. induction anc as [|a anc IH]; intros c Hag Hpc; cbn [chain_ok].
  - by rewrite Hpc.
  - intros (Ha & Hp & Hty & Hch & Hw & Hrest).
    rewrite Hpc, (Hag a) by lia. split_and!; try done; try lia.
    + eapply walk_frame; [|done]. intros h Hh. apply Hag. lia.
    + apply IH; [| |done].
      * intros h Hh. apply Hag. lia.
      * by rewrite (Hag a) by lia.
Qed.

(** A complete token stays complete under writes to the containers still
    open and to the tokens from [m] on. *)
Lemma closed_keep p q m m' anc anc' i :
  1 <= i < m -> ~ In i anc ->
  (forall h, 1 <= h -> tok_at (tokens q) h = tok_at (tokens p) h \/ m <= h \/ In h anc) ->
  m <= m' ->
  (forall a, In a anc' -> In a anc \/ m <= a) ->
  closed p m anc i -> closed q m' anc' i.
Proof.
  intros Hi Hni Hag Hm Hanc Hcl.
  assert (tok_at (tokens q) i = tok_at (tokens p) i) as Hti.
  { destruct (Hag i ltac:(lia)) as [H|[H|H]]; [done|lia|done]. }
  unfold closed. rewrite Hti. intros Hty.
  destruct (Hcl Hty) as (Hn & Hc0 & Hw & Hno).
  split_and!; try done; try lia.
  - eapply walk_frame; [|done]. intros h Hh.
    destruct (Hag h ltac:(lia)) as [H|[H|H]]; [done|lia|].
    specialize (Hno h H ltac:(lia)). lia.
  - intros a Ha Hia. destruct (Hanc a Ha) as [Hin|Hge]; [by apply Hno|lia].
Qed.

Lemma next_scalar p i :
  is_container (value_type (tok_at (tokens p) i)) = false ->
  mxjson_next p i = u32 (i + 1).
Proof. unfold mxjson_next. by destruct (value_type _). Qed.

Lemma next_container p i :
  is_container (value_type (tok_at (tokens p) i)) = true ->
  mxjson_next p i = next (tok_at (tokens p) i).
Proof. unfold mxjson_next. by destruct (value_type _). Qed.

(** *** The tree through one turn of the loop *)

(** After the value of the current token: a scalar completes one more
    child of the innermost open container; an opening bracket makes the
    token the innermost open container, with no child yet. *)
Lemma value_tree B p s f opens s1 anc :
  head_ok B p s -> tree_head p anc ->
  value_effect (json p) (mxjson_consume_ws s) true f opens s1 ->
  let anc1 := if opens then idx p :: anc else anc in
  tree_up (after_value f opens p) anc1 /\
  current_parent (after_value f opens p) = hd 0 anc1.
Proof.
  intros Hh (Hcp & Hch & Hfresh & Hcl) Hv anc1.
  pose proof (value_state _ _ _ _ _ _ _ Hh Hv)
    as (_ & _ & Hi1 & _ & _ & _ & _ & _ & _ & Hk1).
  pose proof (after_value_fields f opens p) as (_ & _ & _ & _ & _ & _ & _ & _ & Hcp1).
  pose proof (head_ok_store _ _ _ Hh) as (Hc & Hlen & H0).
  destruct Hh as (_ & Hi & _ & _ & _ & HB & HB2).
  destruct Hv as (_ & _ & _ & Hkl & Hopen & Hscal).
  set (p1 := after_value f opens p) in *. set (K := idx p) in *.
  assert (forall h, 0 <= h -> h <> K -> tok_at (tokens p1) h = tok_at (tokens p) h) as Hne.
  { intros h Hh Hhk. rewrite Hk1. by apply tok_at_upd_ne; [lia|..]. }
  assert (tok_at (tokens p1) K = f (tok_at (tokens p) K)) as Heq.
  { rewrite Hk1. apply tok_at_upd_eq. lia. }
  assert (forall i, 1 <= i < K -> ~ In i anc ->
            closed p1 (K + 1) anc1 i) as Hcl1.
  { intros i Hik Hni. apply (closed_keep p p1 K (K + 1) anc anc1); try done; try lia.
    - intros h Hh. destruct (decide (h = K)) as [->|]; [right; left; lia|].
      left. apply Hne; [lia|done].
    - intros a Ha. subst anc1. destruct opens; [|by left].
      destruct Ha as [<-|Ha]; [right; lia|by left].
    - by apply Hcl. }
  split; [|subst anc1; rewrite Hcp1; by destruct opens].
  subst anc1. destruct opens.
  - destruct (Hopen eq_refl) as (_ & ty & Hty & Hf).
    rewrite Hf in Heq. split.
    + rewrite Hi1. fold K. rewrite Heq. cbn [value_type set_value_type].
      change (children (set_value_type ty (tok_at (tokens p) K)))
        with (children (tok_at (tokens p) K)).
      rewrite Hfresh. split_and!; try done; try lia.
      eapply chain_frame; [| |exact Hch].
      * intros h Hh. apply Hne; lia.
      * by rewrite Heq.
    + intros i Hik Hni. rewrite Hi1 in Hik |- *. fold K in Hik |- *.
      apply Hcl1; [|by intros ?; apply Hni; right].
      destruct (decide (i = K)) as [->|]; [|lia]. destruct Hni. by left.
  - destruct (Hscal eq_refl eq_refl (tok_at (tokens p) K)) as [Hnc _].
    assert (mxjson_next p1 K = K + 1) as Hnx.
    { rewrite next_scalar by (by rewrite Heq). apply u32_small. lia. }
    split.
    + destruct anc as [|a anc']; [done|].
      destruct Hch as (Ha & Hpa & Hty & Hc1 & Hw & Hch).
      rewrite Hi1. fold K. rewrite (Hne a) by lia.
      split_and!; try done; try lia.
      * replace (Z.to_nat (children (tok_at (tokens p) a)))
          with (S (Z.to_nat (children (tok_at (tokens p) a) - 1))) by lia.
        eapply (walk_snoc p1 a _ _ K); try done; try lia.
        -- eapply walk_frame; [|exact Hw]. intros h Hh. apply Hne; lia.
        -- rewrite Heq. by rewrite (proj1 (Hkl _)).
      * eapply chain_frame; [| |exact Hch].
        -- intros h Hh. apply Hne; lia.
        -- by rewrite (Hne a) by lia.
    + intros i Hik Hni. rewrite Hi1 in Hik |- *. fold K in Hik |- *.
      destruct (decide (i = K)) as [->|]; [|apply Hcl1; [lia|done]].
      unfold closed. rewrite Heq, Hnc. done.
Qed.

Lemma chain_parent p c anc : chain_ok p c anc -> parent (tok_at (tokens p) c) = hd 0 anc.
Proof. destruct anc; [done|]. by intros (_ & H & _). Qed.

(** Closing brackets complete the open containers from the innermost
    outwards. *)
Lemma ascend_loop_tree fuel :
  forall p s anc p' s' par',
    value_type (tok_at (tokens p) 0) = MXJSON_NONE ->
    idx p < tok_len (tokens p) -> idx p + 1 < 2147483648 ->
    tree_up p anc ->
    ascend_loop fuel p s (hd 0 anc) = Some (p', s', par') ->
    exists anc', tree_up p' anc' /\ par' = hd 0 anc'.
Proof.
  induction fuel as [|fuel IH]; intros p s anc p' s' par' H0 Hlen HB Hup; [done|].
  rewrite ascend_loop_unfold. cbv zeta.
  set (r := match value_type (tok_at (tokens p) (hd 0 anc)) with
            | MXJSON_ARRAY => _ | MXJSON_OBJECT => _ | _ => _ end).
  destruct (r.1.1) eqn:Er.
  2:{ intros [= <- <- <-]. by exists anc. }
  destruct anc as [|a anc'].
  { subst r. cbn [hd] in Er. by rewrite H0 in Er. }
  cbn [hd]. destruct Hup as ((Ha & Hty & Hc0 & Hw & Hch) & Hcl).
  set (K := idx p) in *.
  set (p1 := set_tokens (tok_upd (set_next (u32 (K + 1))) a (tokens p)) p).
  rewrite (chain_parent _ _ _ Hch). intros Hl.
  apply (IH p1 _ anc') in Hl; try done.
  - cbn [p1 tokens set_tokens]. by rewrite (tok_at_upd_field value_type).
  - cbn [p1 tokens set_tokens idx]. by rewrite tok_len_upd.
  - assert (forall h, 0 <= h -> h <> a -> tok_at (tokens p1) h = tok_at (tokens p) h) as Hne.
    { intros h Hh Hha. cbn [p1 tokens set_tokens]. by apply tok_at_upd_ne; [lia|..]. }
    assert (tok_at (tokens p1) a = set_next (K + 1) (tok_at (tokens p) a)) as Heq.
    { cbn [p1 tokens set_tokens]. rewrite tok_at_upd_eq by lia.
      by rewrite u32_small by lia. }
    assert (mxjson_next p1 a = K + 1) as Hnx.
    { rewrite next_container by (by rewrite Heq). by rewrite Heq. }
    assert (forall b, In b anc' -> 1 <= b < a) as Hlt
      by (intros b; by apply (chain_lt p)).
    split.
    + destruct anc' as [|a' anc'']; [done|].
      destruct Hch as (Ha' & Hpa & Hty' & Hc1 & Hw' & Hch').
      change (idx p1) with K. rewrite (Hne a') by lia.
      split_and!; try done; try lia.
      * replace (Z.to_nat (children (tok_at (tokens p) a')))
          with (S (Z.to_nat (children (tok_at (tokens p) a') - 1))) by lia.
        eapply (walk_snoc p1 a' _ _ a); try done; try lia.
        -- eapply walk_frame; [|exact Hw']. intros h Hh. apply Hne; lia.
        -- by rewrite Heq.
      * eapply chain_frame; [| |exact Hch'].
        -- intros h Hh. apply Hne; lia.
        -- by rewrite (Hne a') by lia.
    + intros i Hi Hni. change (idx p1) with K in Hi |- *.
      destruct (decide (i = a)) as [->|Hia].
      * unfold closed. rewrite Heq. intros _.
        change (next (set_next (K + 1) (tok_at (tokens p) a))) with (K + 1).
        change (children (set_next (K + 1) (tok_at (tokens p) a)))
          with (children (tok_at (tokens p) a)).
        split_and!; try done; try lia.
        -- eapply walk_frame; [|exact Hw]. intros h Hh. apply Hne; lia.
        -- intros b Hb Hab. specialize (Hlt b Hb). lia.
      * apply (closed_keep p p1 (K + 1) (K + 1) (a :: anc') anc'); try done; try lia.
        -- by intros [?|?].
        -- intros h Hh. destruct (decide (h = a)) as [->|]; [right; right; by left|].
           left. apply Hne; [lia|done].
        -- intros b Hb. left. by right.
        -- apply Hcl; [done|]. by intros [?|?].
Qed.

Lemma ascend_tree p s anc p' s' par :
  value_type (tok_at (tokens p) 0) = MXJSON_NONE ->
  idx p < tok_len (tokens p) -> idx p + 1 < 2147483648 ->
  tree_up p anc -> current_parent p = hd 0 anc ->
  mxjson_ascend p s = (p', s', par) ->
  exists anc', tree_up p' anc' /\ par = hd 0 anc'.
Proof.
  intros H0 Hlen HB Hup Hcp Ha.
  destruct (mxjson_ascend_spec p s)
    as (p2 & s2 & par2 & E & _ & _ & _ & _ & _ & _ & _ & _ & _ & _ & Hz & Hnz).
  rewrite E in Ha. injection Ha as -> -> ->.
  destruct (current_parent p =? MXJSON_IDX_NONE) eqn:E0.
  - destruct (Hz eq_refl) as (-> & -> & ->). apply Z.eqb_eq in E0.
    exists anc. split; [done|]. rewrite <- Hcp. done.
  - specialize (Hnz eq_refl). rewrite Hcp in Hnz.
    by apply (ascend_loop_tree _ _ _ _ _ _ _ H0 Hlen HB Hup Hnz).
Qed.

(** The token of the next value becomes the open child of the innermost
    open container. *)
Lemma token_tree p2 par anc' K p5 :
  ctx_ok p2 -> 1 <= K < count p2 -> idx p2 = K -> K + 1 < 2147483648 ->
  parents_ok p2 -> tree_up p2 (par :: anc') ->
  mxjson_token (set_current_parent par p2) = (true, p5) ->
  tree_head p5 (par :: anc').
Proof.
  intros Hok HK Hidx HB Hpo (Hup & Hcl) Ht.
  destruct Hup as (Ha & Hty & Hc0 & Hw & Hch). rewrite Hidx in Ha, Hw, Hcl.
  destruct (token_state p2 par K p5 Hok HK Hidx HB ltac:(lia) Hpo Ht)
    as (Hok5 & _ & Hi5 & Hc5 & _ & Hcp5 & _ & base & Hb1 & Hb2 & Hb3).
  assert (forall h, 0 <= h <= K -> h <> par ->
            tok_at (tokens p5) h = tok_at (tokens p2) h) as Hne.
  { intros h Hh Hhp. rewrite Hb3. rewrite tok_at_upd_ne by lia.
    rewrite tok_at_upd_ne by lia. apply Hb2. lia. }
  assert (tok_at (tokens p5) par = add_child (tok_at (tokens p2) par)) as Heq.
  { rewrite Hb3. rewrite tok_at_upd_eq by (rewrite tok_len_upd; lia).
    rewrite tok_at_upd_ne by lia. f_equal. apply Hb2. lia. }
  assert (tok_at (tokens p5) (K + 1) = set_parent par zero_token) as Hnew.
  { rewrite Hb3. rewrite tok_at_upd_ne by lia. by rewrite tok_at_upd_eq by lia. }
  pose proof (walk_le _ _ _ _ _ Hw) as Hwl.
  assert (children (add_child (tok_at (tokens p2) par)) =
          children (tok_at (tokens p2) par) + 1) as Hch1.
  { unfold add_child. cbn. apply u32_small. lia. }
  unfold tree_head. rewrite Hi5, Hcp5. split_and!.
  - done.
  - cbn [chain_ok]. rewrite Hnew, Heq, Hch1. split_and!; try done; try lia.
    + replace (children (tok_at (tokens p2) par) + 1 - 1)
        with (children (tok_at (tokens p2) par)) by lia.
      eapply walk_frame; [|exact Hw]. intros h Hh. apply Hne; lia.
    + eapply chain_frame; [| |exact Hch].
      * intros h Hh. apply Hne; lia.
      * by rewrite Heq.
  - by rewrite Hnew.
  - intros i Hi Hni.
    apply (closed_keep p2 p5 (K + 1) (K + 1) (par :: anc') (par :: anc'));
      try done; try lia.
    + intros h Hh. destruct (decide (h = par)) as [->|]; [right; right; by left|].
      destruct (decide (K + 1 <= h)); [right; by left|].
      left. apply Hne; [lia|done].
    + intros a Ha'. by left.
    + apply Hcl; [lia|done].
Qed.

(** The name of a member leaves the tree as it is. *)
Lemma name_tree p anc g :
  token p = Some (idx p) -> 0 <= idx p < tok_len (tokens p) ->
  keeps_value g -> tree_head p anc -> tree_head (upd_token g p) anc.
Proof.
  intros Htk Hlen Hg (Hcp & Hch & Hfresh & Hcl).
  pose proof (upd_token_fields g p) as (E1 & E2 & _).
  pose proof (upd_token_tokens g p _ Htk) as Et.
  assert (forall h, 0 <= h -> h <> idx p ->
            tok_at (tokens (upd_token g p)) h = tok_at (tokens p) h) as Hne.
  { intros h Hh Hhk. rewrite Et. by apply tok_at_upd_ne; [lia|..]. }
  assert (tok_at (tokens (upd_token g p)) (idx p) = g (tok_at (tokens p) (idx p))) as Heq.
  { rewrite Et. by apply tok_at_upd_eq. }
  destruct (Hg (tok_at (tokens p) (idx p))) as (Hgp & _ & _ & Hg0 & _).
  unfold tree_head. rewrite E1, E2. split_and!; try done.
  - eapply chain_frame; [| |exact Hch].
    + intros h Hh. apply Hne; lia.
    + by rewrite Heq.
  - rewrite Heq. unfold children. by rewrite Hg0.
  - intros i Hi Hni.
    apply (closed_keep p (upd_token g p) (idx p) (idx p) anc anc); try done; try lia.
    + intros h Hh. destruct (decide (h = idx p)) as [->|]; [right; left; lia|].
      left. apply Hne; [lia|done].
    + intros a Ha. by left.
    + by apply Hcl.
Qed.

(** The tree is a matter of the token array and the index alone. *)
Lemma tree_up_ext p q anc :
  tokens q = tokens p -> idx q = idx p -> tree_up p anc -> tree_up q anc.
Proof.
  intros Ht Hi (Hup & Hcl).
  assert (forall h, tok_at (tokens q) h = tok_at (tokens p) h) as Hag
    by (intros h; by rewrite Ht).
  split.
  - destruct anc as [|a anc']; [done|]. destruct Hup as (Ha & Hty & Hc0 & Hw & Hch).
    rewrite Hi, Hag. split_and!; try done; try lia.
    + eapply walk_frame; [|exact Hw]. intros h _. apply Hag.
    + eapply chain_frame; [| |exact Hch]; [intros h _; apply Hag|by rewrite Hag].
  - intros i Hik Hni. rewrite Hi in Hik |- *.
    apply (closed_keep p q (idx p + 1) (idx p + 1) anc anc); try done; try lia.
    + intros h _. by left.
    + intros a Ha. by left.
    + by apply Hcl.
Qed.

Lemma tree_up_root p anc : tree_up p anc -> hd 0 anc = 0 -> anc = [].
Proof. destruct anc as [|a anc]; [done|]. cbn. intros ((Ha & _) & _) ->. lia. Qed.

(** A turn that succeeds leaves every token complete, if it has closed
    the root, and the tree as it is at the head of the loop, if not. *)
Lemma turn_tree B p s anc p' s' :
  head_ok B p s -> tree_head p anc -> turn_exit p s true p' s' ->
  (current_parent p' = 0 -> tree_up p' []) /\
  (current_parent p' <> 0 -> exists anc', tree_head p' anc').
Proof.
  intros Hh Htree Hx.
  assert (HB : B < 2147483648) by apply Hh.
  assert (Hi : 1 <= idx p < count p) by apply Hh.
  pose proof (head_ok_store _ _ _ Hh) as (Hc & Hlen & H0).
  inversion Hx as [ | f opens s1 p2 s2 Hv Ha
    | | | f opens s1 p2 s2 par s4 p5 Hv Ha Hpar Hcm Ht Hty
    | f opens s1 p2 s2 par s4 p5 ok g s6 Hv Ha Hpar Hcm Ht Hty Hn]; subst;
    pose proof (value_state _ _ _ _ _ _ _ Hh Hv)
      as (Hok1 & Hs1 & Hi1 & Hc1 & Ht1 & Hcp1 & Hp1 & Hl1 & HB1 & Hk1);
    destruct (HB1 eq_refl) as [HB1' _];
    destruct (value_tree _ _ _ _ _ _ _ Hh Htree Hv) as [Hup1 Hcpa];
    destruct (ascend_state _ _ _ _ _ (idx p) Hok1 ltac:(lia) Hi1 Hcp1 Hp1 Ha)
      as (Hok2 & Hs2 & Hi2 & Hc2 & Ht2 & Hpar2 & Hp2 & Hl2);
    assert (value_type (tok_at (tokens (after_value f opens p)) 0) = MXJSON_NONE)
      as H01 by (rewrite Hk1, tok_at_upd_ne by lia; exact H0);
    assert (idx (after_value f opens p) < tok_len (tokens (after_value f opens p)))
      as Hlen1 by (rewrite Hi1, Hk1, tok_len_upd; lia);
    assert (idx (after_value f opens p) + 1 < 2147483648)
      as HB2 by (rewrite Hi1; lia);
    destruct (ascend_tree _ _ _ _ _ _ H01 Hlen1 HB2 Hup1 Hcpa Ha)
      as (anc2 & Hup2 & Hpar'').
  - symmetry in Hpar''. apply (tree_up_root _ _ Hup2) in Hpar''. subst anc2.
    split; [|done]. intros _. by apply (tree_up_ext p2).
  - destruct anc2 as [|a anc2]; [done|]. cbn [hd] in Hpar''. subst a.
    pose proof (token_tree p2 par anc2 (idx p) p' Hok2 ltac:(lia) Hi2 ltac:(lia) Hp2 Hup2 Ht)
      as Hth.
    split; [|by intros _; eexists].
    intros Hz. destruct Hth as (Hcp5 & _). rewrite Hz in Hcp5. done.
  - destruct anc2 as [|a anc2]; [done|]. cbn [hd] in Hpar''. subst a.
    pose proof (token_tree p2 par anc2 (idx p) p5 Hok2 ltac:(lia) Hi2 ltac:(lia) Hp2 Hup2 Ht)
      as Hth.
    destruct (token_state p2 par (idx p) p5) as
      (Hok5 & Hs5 & Hi5 & Hc5 & Ht5 & Hcp5 & Hp5 & _); try done; try lia.
    assert (tree_head (upd_token g p5) (par :: anc2)) as Hth6.
    { apply name_tree; try done.
      - by rewrite Hi5.
      - destruct Hok5 as (_ & _ & _ & Hst).
        destruct (store_ok_some _ _ Hst ltac:(lia)) as (_ & Hl5 & _). lia.
      - apply Hn. }
    split; [|by intros _; eexists].
    intros Hz. destruct Hth6 as (Hcp6 & _). rewrite Hz in Hcp6. done.
Qed.

Lemma loop_tree B fuel :
  forall p s anc p' s',
    head_ok B p s -> tree_head p anc ->
    parse_json_loop fuel p s = Some (true, p', s') -> tree_up p' [].
Proof.
  induction fuel as [|fuel IH]; intros p s anc p' s' Hh Htree; [done|].
  cbn [parse_json_loop].
  destruct (parse_json_turn p s) as [[ok p1] s1] eqn:Et.
  apply turn_exits in Et.
  destruct (turn_head _ _ _ _ _ _ Hh Et) as (_ & _ & _ & _ & _ & Htr).
  destruct ok; cbn [andb]; [|done].
  destruct (Htr eq_refl) as (_ & _ & _ & _ & Hnz).
  destruct (turn_tree _ _ _ _ _ _ Hh Htree Et) as [Hz Hnz'].
  destruct (current_parent p1 =? MXJSON_IDX_NONE) eqn:E; cbn [negb].
  - apply Z.eqb_eq in E. intros [= <- <-]. by apply Hz.
  - apply Z.eqb_neq in E. destruct (Hnz' E) as [anc' Htree'].
    intros El. exact (IH p1 s1 anc' p' s' (Hnz E) Htree' El).
Qed.

(** The tree when the root token has just been allocated. *)
Lemma root_tree p js p1 :
  ctx_ok p -> short_input (data js) ->
  mxjson_token (parse_reset p js) = (true, p1) -> tree_head p1 [].
Proof.
  intros Hok Hshort Ht.
  pose proof (parse_reset_fields p js) as (R1 & R2 & R3 & R4 & R5 & R6 & R7 & R8 & R9 & R10).
  set (p0 := parse_reset p js) in *.
  assert (Hok0 : ctx_ok p0) by exact Hok.
  pose proof (mxjson_token_spec p0 Hok0) as Hs.
  rewrite R2, R3 in Hs.
  assert (Hcap : tokens p0 = None /\ 0 = 0 \/ 0 < count p0).
  { destruct Hok0 as (_ & _ & _ & Hst). destruct (tokens p0); [|by left].
    right. simpl in Hst. lia. }
  specialize (Hs ltac:(lia) ltac:(lia) Hcap). rewrite Ht in Hs.
  destruct Hs as (Hok1 & Hi1 & Hc1 & Ht1 & Hcp1 & Hj1 & base & Hb1 & Hb2 & Hb3 & Hb4).
  assert (tok_at (tokens p1) 1 = set_parent 0 zero_token) as Hnew.
  { rewrite Hb4. rewrite tok_at_upd_ne by lia. by rewrite tok_at_upd_eq by lia. }
  unfold tree_head. rewrite Hi1, Hcp1. change (0 + 1) with 1.
  split_and!; try done.
  - cbn [chain_ok]. by rewrite Hnew.
  - by rewrite Hnew.
  - intros i Hi. lia.
Qed.

(** C3: after a parse that succeeds, every token but the root has its
    parent before it, from index 1 on; and every object or array token
    either has no children and ends at the next index, or has children
    and the tokens between it and its [next] index are that many
    subtrees one after the other, each with the token for parent.  The
    subtree of a container token ends no later than the token array in
    use. *)
Theorem token_tree_shape p js :
  ctx_ok p -> short_input (data js) ->
  fst (mxjson_parse p js) = true ->
  let q := snd (mxjson_parse p js) in
  (forall i, 1 < i <= idx q ->
     1 <= parent (tok_at (tokens q) i) < i) /\
  (forall i, 1 <= i <= idx q ->
     is_container (value_type (tok_at (tokens q) i)) = true ->
     children_ok q i /\ i < next (tok_at (tokens q) i) <= idx q + 1).
Proof.
  intros Hok Hshort Hres q.
  destruct (parse_spec p js Hok Hshort) as (ok & p' & E & _ & _ & _ & _ & _ & _ & _ & Htr).
  assert (ok = true) as -> by (by rewrite E in Hres).
  destruct (Htr eq_refl) as (Hpo & _ & _).
  assert (q = p') as Hq by (subst q; by rewrite E).
  split.
  { intros i Hi. rewrite Hq in Hi |- *. apply Hpo; lia. }
  assert (tree_up q []) as [_ Hcl].
  { clear Hq. subst q. clear E Htr Hpo p'. unfold mxjson_parse in Hres |- *.
    destruct (mxjson_token (parse_reset p js)) as [[] p1] eqn:Et; [|done].
    destruct (root_head _ _ _ Hok Hshort Et) as (Hh & _).
    pose proof (root_tree _ _ _ Hok Hshort Et) as Htree.
    unfold mxjson_parse_json in Hres |- *.
    destruct (parse_json_loop _ p1 (unparsed p1)) as [[[ok p'] s']|] eqn:El; [|done].
    destruct ok; [|done]. cbn [snd].
    apply (tree_up_ext p'); [done..|].
    by apply (loop_tree _ _ _ _ _ _ _ Hh Htree El). }
  intros i Hi Hty. destruct (Hcl i Hi ltac:(by intros []) Hty) as (Hn & Hc0 & Hw & _).
  split; [|done]. unfold children_ok.
  destruct (decide (children (tok_at (tokens q) i) = 0)) as [Hz|Hnz].
  - left. split; [done|]. rewrite Hz in Hw. cbn in Hw. by rewrite <- Hw.
  - right. split; [lia|done].
Qed.

Lemma token_tree_shape_witness :
  let q := snd (mxjson_parse default_parser (input scenario_object)) in
  children_ok q 1 /\ children_ok q 3 /\
  parent (tok_at (tokens q) 4) = 3 /\ next (tok_at (tokens q) 3) = 6.
Proof.
  intros q.
  destruct (token_tree_shape default_parser (input scenario_object)
              ctx_ok_default ltac:(by vm_compute) ltac:(by vm_compute)) as [Hp Hc].
  fold q in Hp, Hc.
  destruct (Hc 1 ltac:(by vm_compute) ltac:(by vm_compute)) as [H1 _].
  destruct (Hc 3 ltac:(by vm_compute) ltac:(by vm_compute)) as [H3 _].
  split_and!; [done|done|by vm_compute|by vm_compute].
Defined.

(** ** Reusing a context *)

(** *** The allocation policies *)

Lemma fixed_not_growing rf : fixed_policy rf -> growing_policy rf -> False.
Proof.
  destruct rf as [f|]; [|done]. cbn. intros Hn (_ & Hg).
  apply (Hg 0 None 2); try done. by apply Hn.
Qed.

Lemma steady_policy_ok rf : steady_policy rf -> policy_ok rf.
Proof.
  destruct rf as [f|]; [|done]. cbn. intros [Hn|[Hc _]]; [|done].
  intros c t h c' t' _ _ Hh _ E. rewrite Hn in E by done. done.
Qed.

Lemma mxjson_resize_grows : always_grows mxjson_resize.
Proof. split; [exact mxjson_resize_contract|]. by intros c t h _ _ _ _. Qed.

Lemma mxjson_test_resize_fixed : never_grows mxjson_test_resize.
Proof.
  intros c t h Hh. unfold mxjson_test_resize.
  by assert ((h =? 0) = false) as -> by (apply Z.eqb_neq; lia).
Qed.

Lemma call_resize_fixed p h :
  fixed_policy (resize_fn p) -> 2 <= h -> call_resize p h = (false, p).
Proof.
  unfold call_resize, fixed_policy. destruct (resize_fn p) as [f|]; [|done].
  intros Hn Hh. by rewrite Hn.
Qed.

Lemma call_resize_grows p h :
  growing_policy (resize_fn p) -> tok_len (tokens p) = count p ->
  count p < h -> 2 <= h < 4294967296 ->
  fst (call_resize p h) = true.
Proof.
  unfold call_resize, growing_policy. destruct (resize_fn p) as [f|]; [|done].
  intros (_ & Hg) Hl Hc Hh.
  specialize (Hg (count p) (tokens p) h Hl Hc ltac:(lia) ltac:(lia)).
  by destruct (f (count p) (tokens p) h) as [[c t]|].
Qed.

(** Under a policy that never grows the array, the only array there is
    to have is the caller's. *)
Lemma ensure_capacity_fixed p :
  fixed_policy (resize_fn p) -> ctx_ok p -> 1 <= idx p < 2147483648 ->
  (tokens p = None /\ idx p = 1 \/ idx p <= count p) ->
  ensure_capacity p =
  if count p <=? idx p then
    match tokens p, init_tokens p with
    | None, Some it =>
        if idx p <? init_count p
        then (true, set_tokens (tok_upd (fun _ => zero_token) 0 (Some it))
                      (set_count (init_count p) (set_tokens (Some it) p)))
        else (false, p)
    | _, _ => (false, p)
    end
  else (true, p).
Proof.
  intros Hfx (Hic & Hit & Hpol & Hst) Hidx Hcap. unfold ensure_capacity.
  destruct (count p <=? idx p) eqn:Ecnt; [|done]. apply Z.leb_le in Ecnt.
  destruct (tokens p) as [l|] eqn:Et.
  - destruct Hst as (Hlen & Hc & _). destruct Hcap as [[? _]|Hcap]; [done|].
    pose proof (size_p2_spec (count p) ltac:(lia)) as [Hs1 Hs2].
    rewrite call_resize_fixed by (try done; lia). by destruct (init_tokens p).
  - assert (2 <= Z.max (u32 (idx p + 1)) (init_count p)) as Hh.
    { rewrite u32_small by lia. lia. }
    rewrite call_resize_fixed by done.
    destruct (init_tokens p) as [it|]; [|done].
    by destruct (idx p <? init_count p).
Qed.

Lemma ensure_capacity_grows p :
  growing_policy (resize_fn p) -> ctx_ok p -> 1 <= idx p < 2147483648 ->
  (tokens p = None /\ idx p = 1 \/ idx p <= count p) ->
  fst (ensure_capacity p) = true.
Proof.
  intros Hg (Hic & Hit & Hpol & Hst) Hidx Hcap. unfold ensure_capacity.
  destruct (count p <=? idx p) eqn:Ecnt; [|done]. apply Z.leb_le in Ecnt.
  destruct (tokens p) as [l|] eqn:Et.
  - destruct Hst as (Hlen & Hc & _). destruct Hcap as [[? _]|Hcap]; [done|].
    pose proof (size_p2_spec (count p) ltac:(lia)) as [Hs1 Hs2].
    apply call_resize_grows; try done; try lia. by rewrite Et.
  - simpl in Hst.
    assert (2 <= Z.max (u32 (idx p + 1)) (init_count p) < 4294967296) as Hh.
    { rewrite u32_small by lia. lia. }
    pose proof (call_resize_grows p (Z.max (u32 (idx p + 1)) (init_count p)) Hg
                  ltac:(by rewrite Et) ltac:(lia) Hh) as Hr.
    destruct (init_tokens p) as [it|].
    + destruct (idx p <? init_count p); [done|].
      by destruct (call_resize p _) as [[] q].
    + by destruct (call_resize p _) as [[] q].
Qed.

(** *** Contexts in step *)

Lemma agree_upd f j tF tR k :
  agree tF tR k -> 0 <= j < tok_len tF -> j < tok_len tR ->
  agree (tok_upd f j tF) (tok_upd f j tR) k.
Proof.
  intros Hag HjF HjR i Hi. rewrite !tok_at_upd by lia.
  case_decide as E; [|by apply Hag]. subst i. f_equal. by apply Hag.
Qed.

Lemma ctx_ok_len p : ctx_ok p -> tok_len (tokens p) = count p.
Proof. intros (_ & _ & _ & Hst). by apply store_ok_len. Qed.

Lemma ctx_ok_none p : ctx_ok p -> 0 < count p -> tokens p <> None.
Proof. intros (_ & _ & _ & Hst) Hc Hn. rewrite Hn in Hst. simpl in Hst. lia. Qed.

Lemma reuse_sim_set_cp c F R :
  reuse_sim F R -> reuse_sim (set_current_parent c F) (set_current_parent c R).
Proof. intros (?&?&?&?&?&?&?&?&?&?&?&?). by split_and!. Qed.

Lemma reuse_sim_set_unparsed s F R :
  reuse_sim F R -> reuse_sim (set_unparsed s F) (set_unparsed s R).
Proof. intros (?&?&?&?&?&?&?&?&?&?&?&?). by split_and!. Qed.

Lemma cap_ok_upd g p : cap_ok p -> cap_ok (upd_token g p).
Proof.
  intros Hc. pose proof (upd_token_fields g p) as (_ & _ & _ & _ & _ & E6 & E7 & E8 & E9).
  unfold cap_ok. rewrite E6, E7, E8, E9. intros Hfx Hne. apply Hc; [done|].
  intros Hn. apply Hne. unfold upd_token. destruct (token p); [|done].
  cbn. by rewrite Hn.
Qed.

(** A write through the current-token pointer, in both contexts. *)
Lemma reuse_sim_upd g F R :
  reuse_sim F R -> token F = Some (idx F) ->
  1 <= idx F < count F -> idx F < count R ->
  reuse_sim (upd_token g F) (upd_token g R).
Proof.
  intros (E1 & E3 & E4 & E5 & E6 & E7 & E8 & HokF & HokR & HcF & HcR & Hag)
    Htk Hi HiR.
  pose proof (upd_token_fields g F) as (F1 & F2 & F3 & F4 & F5 & F6 & F7 & F8 & F9).
  pose proof (upd_token_fields g R) as (R1 & R2 & R3 & R4 & R5 & R6 & R7 & R8 & R9).
  assert (token R = Some (idx F)) as HtkR by congruence.
  assert (forall p, ctx_ok p -> token p = Some (idx F) -> ctx_ok (upd_token g p)) as Hctx.
  { intros p (Hic & Hit & Hpol & Hst) Hp.
    pose proof (upd_token_fields g p) as (_ & _ & _ & _ & _ & P6 & P7 & P8 & P9).
    unfold ctx_ok. rewrite P6, P7, P8, P9. refine (conj Hic (conj Hit (conj Hpol _))).
    rewrite (upd_token_tokens _ _ _ Hp). apply store_ok_upd_pos; [lia|done]. }
  unfold reuse_sim. rewrite F1, (upd_token_tokens _ _ _ Htk), (upd_token_tokens _ _ _ HtkR).
  split_and!; try congruence.
  - by apply Hctx.
  - by apply Hctx.
  - by apply cap_ok_upd.
  - by apply cap_ok_upd.
  - apply agree_upd; [done|..].
    + rewrite (ctx_ok_len _ HokF). lia.
    + rewrite (ctx_ok_len _ HokR). lia.
Qed.

Lemma reuse_sim_after f opens F R :
  reuse_sim F R -> token F = Some (idx F) ->
  1 <= idx F < count F -> idx F < count R ->
  reuse_sim (after_value f opens F) (after_value f opens R).
Proof.
  intros Hs Htk Hi HiR. pose proof (reuse_sim_upd f F R Hs Htk Hi HiR) as Hu.
  unfold after_value. destruct opens; [|done].
  destruct Hs as (_ & -> & _). by apply reuse_sim_set_cp.
Qed.

Lemma head_sim B F R s :
  head_ok B F s -> reuse_sim F R -> idx R < count R -> head_ok B R s.
Proof.
  intros (_ & Hi & Htk & Hcp & Hpo & HB)
    (E1 & E3 & E4 & E5 & E6 & E7 & E8 & HokF & HokR & HcF & HcR & Hag) HiR.
  unfold head_ok. rewrite E3, E4, E5. split_and!; try done; try lia.
  intros i Hi'. rewrite E3 in Hi'. rewrite (Hag i Hi'). by apply Hpo.
Qed.

(** The closing brackets after a value do the same to both contexts. *)
Lemma ascend_loop_rel fuel :
  forall F R s par F' s' par' K,
    idx F = K -> idx R = K -> agree (tokens F) (tokens R) K ->
    value_type (tok_at (tokens F) 0) = MXJSON_NONE ->
    value_type (tok_at (tokens R) 0) = MXJSON_NONE ->
    K < tok_len (tokens F) -> K < tok_len (tokens R) ->
    (forall i, 1 <= i <= K -> 0 <= parent (tok_at (tokens F) i) < i) ->
    0 <= par <= K ->
    ascend_loop fuel F s par = Some (F', s', par') ->
    exists R', ascend_loop fuel R s par = Some (R', s', par') /\
               agree (tokens F') (tokens R') K.
Proof.
  induction fuel as [|fuel IH];
    intros F R s par F' s' par' K HiF HiR Hag H0F H0R HlF HlR Hpar Hp; [done|].
  rewrite !ascend_loop_unfold. cbv zeta.
  assert (tok_at (tokens R) par = tok_at (tokens F) par \/ par = 0) as Hsame.
  { destruct (decide (par = 0)) as [->|]; [by right|]. left. apply Hag. lia. }
  assert (value_type (tok_at (tokens R) par) = value_type (tok_at (tokens F) par)) as ->.
  { destruct Hsame as [->| ->]; [done|congruence]. }
  set (r := match value_type (tok_at (tokens F) par) with
            | MXJSON_ARRAY => _ | MXJSON_OBJECT => _ | _ => _ end).
  destruct (r.1.1) eqn:Er.
  2:{ intros [= <- <- <-]. by exists R. }
  assert (par <> 0) as Hne.
  { intros ->. subst r. by rewrite H0F in Er. }
  destruct Hsame as [Hsame|?]; [|done]. rewrite Hsame, HiF, HiR.
  intros Hl. eapply IH in Hl as (R' & HR & Hag'); [by exists R'|..]; try done.
  - cbn [tokens set_tokens]. apply agree_upd; [done|lia|lia].
  - cbn [tokens set_tokens]. by rewrite (tok_at_upd_field value_type).
  - cbn [tokens set_tokens]. by rewrite (tok_at_upd_field value_type).
  - cbn [tokens set_tokens]. by rewrite tok_len_upd.
  - cbn [tokens set_tokens]. by rewrite tok_len_upd.
  - intros i Hi. cbn [tokens set_tokens]. rewrite (tok_at_upd_field parent) by done.
    by apply Hpar.
  - specialize (Hpar par ltac:(lia)). lia.
Qed.

Lemma parents_bound p K :
  idx p = K -> parents_ok p ->
  forall i, 1 <= i <= K -> 0 <= parent (tok_at (tokens p) i) < i.
Proof.
  intros Hidx Hpo i Hi. rewrite <- Hidx in Hi. destruct (Hpo i Hi) as [Ha Hb].
  destruct (decide (i = 1)) as [->|]; [rewrite Ha by done; lia|].
  specialize (Hb ltac:(lia)). lia.
Qed.

Lemma ascend_sim F1 R1 s1 F2 s2 par K :
  reuse_sim F1 R1 -> idx F1 = K -> 1 <= K < count F1 -> K < count R1 ->
  K + 1 < 2147483648 ->
  0 <= current_parent F1 <= K -> parents_ok F1 -> parents_ok R1 ->
  mxjson_ascend F1 s1 = (F2, s2, par) ->
  exists R2, mxjson_ascend R1 s1 = (R2, s2, par) /\
             reuse_sim (set_current_parent par F2) (set_current_parent par R2) /\
             idx R2 = K /\ count R2 = count R1 /\ parents_ok R2.
Proof.
  intros Hs HiF HK HKR HB Hcp HpF HpR Ha.
  pose proof Hs as (E1 & E3 & E4 & E5 & E6 & E7 & E8 & HokF & HokR & HcF & HcR & Hag).
  rewrite HiF in Hag, E3.
  destruct (ascend_state _ _ _ _ _ K HokF HK HiF Hcp HpF Ha)
    as (HokF2 & (SF1 & SF2 & SF3 & SF4) & HiF2 & HcF2 & HtF2 & HparF & HpF2 & _).
  destruct (mxjson_ascend R1 s1) as [[R2 s2'] par'] eqn:Er.
  destruct (ascend_state _ _ _ _ _ K HokR ltac:(lia) ltac:(congruence)
              ltac:(rewrite E5; lia) HpR Er)
    as (HokR2 & (SR1 & SR2 & SR3 & SR4) & HiR2 & HcR2 & HtR2 & HparR & HpR2 & _).
  assert (s2' = s2 /\ par' = par /\ agree (tokens F2) (tokens R2) K) as (-> & -> & Hag2).
  { destruct (mxjson_ascend_spec F1 s1)
      as (F' & sF & pF & EF & _ & _ & _ & _ & _ & _ & _ & _ & _ & _ & HzF & HnzF).
    destruct (mxjson_ascend_spec R1 s1)
      as (R' & sR & pR & ER & _ & _ & _ & _ & _ & _ & _ & _ & _ & _ & HzR & HnzR).
    rewrite EF in Ha. rewrite ER in Er.
    injection Ha as -> -> ->. injection Er as -> -> ->. rewrite E5 in HzR, HnzR.
    destruct (current_parent F1 =? MXJSON_IDX_NONE) eqn:E0.
    - destruct (HzF eq_refl) as (-> & -> & ->).
      destruct (HzR eq_refl) as (-> & -> & ->). done.
    - specialize (HnzF eq_refl). specialize (HnzR eq_refl).
      destruct (store_ok_some _ _ (proj2 (proj2 (proj2 HokF))) ltac:(lia)) as (_ & HlF & H0F).
      destruct (store_ok_some _ _ (proj2 (proj2 (proj2 HokR))) ltac:(lia)) as (_ & HlR & H0R).
      eapply (ascend_loop_rel _ F1 R1 _ _ _ _ _ K) in HnzF as (R'' & HR & Hag'');
        try done; try lia; try congruence.
      + rewrite HR in HnzR. by injection HnzR as -> -> ->.
      + by apply parents_bound. }
  exists R2. split; [done|]. split; [|done].
  unfold reuse_sim, cap_ok.
  cbn [json idx token current_parent init_count init_tokens resize_fn
       tokens count set_current_parent].
  rewrite HiF2.
  split_and!; try congruence; try (by apply ctx_ok_set_cp).
  - rewrite HcF2, SF2, SF3, SF4. intros Hfx _.
    apply HcF; [done|]. apply ctx_ok_none; [done|lia].
  - rewrite HcR2, SR2, SR3, SR4. intros Hfx _.
    apply HcR; [done|]. apply ctx_ok_none; [done|lia].
  - exact Hag2.
Qed.

(** *** The allocator in both contexts *)

Lemma cap_ok_growing p : growing_policy (resize_fn p) -> cap_ok p.
Proof. intros Hg Hfx. destruct (fixed_not_growing _ Hfx Hg). Qed.

(** Under a policy that never grows the array, whether a token can be
    had depends on the array of the caller alone. *)
Lemma token_fixed p :
  fixed_policy (resize_fn p) -> ctx_ok p -> cap_ok p ->
  0 <= idx p -> idx p + 1 < 2147483648 ->
  (tokens p = None /\ idx p = 0 \/ idx p < count p) ->
  fst (mxjson_token p) =
  match init_tokens p with
  | Some _ => idx p + 1 <? init_count p
  | None => false
  end /\
  cap_ok (snd (mxjson_token p)).
Proof.
  intros Hfx Hok Hcap Hi0 Hi31 Hpre. unfold mxjson_token.
  rewrite u32_small by lia.
  rewrite (ensure_capacity_fixed (set_idx (idx p + 1) p) Hfx (ctx_ok_set_idx _ _ Hok));
    cbn [idx set_idx tokens count];
    [|lia|destruct Hpre as [[? ->]|?]; [by left|right; lia]].
  cbn [count tokens init_tokens init_count set_idx].
  destruct (tokens p) as [l|] eqn:Et.
  - destruct (Hcap Hfx ltac:(by rewrite Et)) as (Hc & Hin & Hic).
    destruct (init_tokens p) as [it|] eqn:Ei; [|done]. rewrite Hc.
    destruct (init_count p <=? idx p + 1) eqn:E.
    + apply Z.leb_le in E. split; [symmetry; apply Z.ltb_ge; lia|].
      cbn [snd]. unfold cap_ok. cbn [count tokens init_tokens init_count resize_fn set_idx].
      rewrite Et, Ei. by intros _ _.
    + apply Z.leb_gt in E. split; [symmetry; by apply Z.ltb_lt|].
      cbn [snd]. unfold cap_ok, link_token.
      cbn [count tokens init_tokens init_count resize_fn set_idx set_tokens set_token].
      rewrite Ei. by intros _ _.
  - destruct Hok as (_ & _ & _ & Hst). rewrite Et in Hst. simpl in Hst. rewrite Hst.
    destruct Hpre as [[_ Hz]|?]; [|lia]. rewrite Hz. change (0 <=? 0 + 1) with true.
    cbv iota. destruct (init_tokens p) as [it|] eqn:Ei.
    + destruct (0 + 1 <? init_count p) eqn:E; cbn [fst snd].
      * split; [done|]. apply Z.ltb_lt in E. unfold cap_ok, link_token.
        cbn [count tokens init_tokens init_count resize_fn set_idx set_tokens
             set_token set_count].
        rewrite Ei. intros _ _. split_and!; try done; lia.
      * split; [done|]. unfold cap_ok.
        cbn [count tokens init_tokens init_count resize_fn set_idx]. by rewrite Et.
    + split; [done|]. cbn [snd]. unfold cap_ok.
      cbn [count tokens init_tokens init_count resize_fn set_idx]. by rewrite Et.
Qed.

Lemma token_grows p :
  growing_policy (resize_fn p) -> ctx_ok p ->
  0 <= idx p -> idx p + 1 < 2147483648 ->
  (tokens p = None /\ idx p = 0 \/ idx p < count p) ->
  fst (mxjson_token p) = true.
Proof.
  intros Hg Hok Hi0 Hi31 Hpre. unfold mxjson_token.
  rewrite u32_small by lia.
  pose proof (ensure_capacity_grows (set_idx (idx p + 1) p) Hg (ctx_ok_set_idx _ _ Hok)) as H.
  cbn [idx set_idx tokens count] in H.
  specialize (H ltac:(lia) ltac:(destruct Hpre as [[? ->]|?]; [by left|right; lia])).
  by destruct (ensure_capacity (set_idx (idx p + 1) p)) as [[] q].
Qed.

(** The token array after a token has been allocated, from what
    [mxjson_token_spec] says of it. *)
Lemma linked_tokens base cp K t old :
  tok_len base > K + 1 -> 0 <= K -> 0 <= cp <= K ->
  t = tok_upd add_child cp (tok_upd (new_token cp) (K + 1) base) ->
  (forall i, 1 <= i <= K -> tok_at base i = tok_at old i) ->
  forall i, 1 <= i <= K + 1 ->
    tok_at t i =
    if decide (i = K + 1) then set_parent cp zero_token
    else if decide (i = cp) then add_child (tok_at old i) else tok_at old i.
Proof.
  intros Hl HK Hcp -> Hb i Hi.
  destruct (decide (i = K + 1)) as [->|N1].
  - rewrite tok_at_upd_ne by lia. by rewrite tok_at_upd_eq by lia.
  - destruct (decide (i = cp)) as [->|N2].
    + rewrite tok_at_upd_eq by (rewrite tok_len_upd; lia).
      rewrite tok_at_upd_ne by lia. f_equal. apply Hb. lia.
    + rewrite !tok_at_upd_ne by lia. apply Hb. lia.
Qed.

Lemma token_sim F R K :
  reuse_sim F R -> steady_policy (resize_fn F) ->
  idx F = K -> 0 <= K -> K + 1 < 2147483648 ->
  (tokens F = None /\ K = 0 \/ K < count F) ->
  (tokens R = None /\ K = 0 \/ K < count R) ->
  0 <= current_parent F <= K ->
  exists ok F' R',
    mxjson_token F = (ok, F') /\ mxjson_token R = (ok, R') /\
    reuse_sim F' R' /\
    (ok = true -> idx F' < count F' /\ idx R' < count R').
Proof.
  intros (E1 & E3 & E4 & E5 & E6 & E7 & E8 & HokF & HokR & HcF & HcR & Hag)
    Hst HiF HK HB HpF HpR Hcp.
  rewrite HiF in E3, Hag.
  pose proof (mxjson_token_spec F HokF ltac:(lia) ltac:(lia)
                ltac:(rewrite HiF; exact HpF)) as SF.
  pose proof (mxjson_token_spec R HokR ltac:(lia) ltac:(lia)
                ltac:(rewrite E3; exact HpR)) as SR.
  pose proof (mxjson_token_fields F) as (FF1 & FF2 & FF3 & _ & FF5 & FF6 & FF7 & FF8).
  pose proof (mxjson_token_fields R) as (RF1 & RF2 & RF3 & _ & RF5 & RF6 & RF7 & RF8).
  assert (fst (mxjson_token R) = fst (mxjson_token F) /\
          cap_ok (snd (mxjson_token F)) /\ cap_ok (snd (mxjson_token R)))
    as (Hsame & HcF' & HcR').
  { destruct Hst as [Hfx|Hg].
    - destruct (token_fixed F Hfx HokF HcF ltac:(lia) ltac:(lia)
                  ltac:(rewrite HiF; exact HpF)) as [-> ?].
      destruct (token_fixed R ltac:(by rewrite E8) HokR HcR ltac:(lia) ltac:(lia)
                  ltac:(rewrite E3; exact HpR)) as [-> ?].
      rewrite E6, E3, HiF.
      destruct (init_tokens R) eqn:ER0, (init_tokens F) eqn:EF0; try done.
      * discriminate (proj2 E7 eq_refl).
      * discriminate (proj1 E7 eq_refl).
    - rewrite (token_grows F Hg HokF ltac:(lia) ltac:(lia)
                 ltac:(rewrite HiF; exact HpF)).
      rewrite (token_grows R ltac:(by rewrite E8) HokR ltac:(lia) ltac:(lia)
                 ltac:(rewrite E3; exact HpR)).
      split_and!; [done|apply cap_ok_growing|apply cap_ok_growing]; congruence. }
  destruct (mxjson_token F) as [okF F'] eqn:EF.
  destruct (mxjson_token R) as [okR R'] eqn:ER.
  cbn [fst snd] in *. subst okR.
  rewrite u32_small in FF1, FF8, RF1, RF8 by lia.
  exists okF, F', R'. split; [done|]. split; [done|].
  destruct okF.
  - destruct SF as (HokF' & HiF' & HcF1 & HtF' & HcpF' & HjF' & bF & HbF1 & HbF2 & _ & HbF4).
    destruct SR as (HokR' & HiR' & HcR1 & HtR' & HcpR' & HjR' & bR & HbR1 & HbR2 & _ & HbR4).
    split; [|intros _; lia].
    rewrite HiF in HbF4. rewrite E3 in HbR4.
    unfold reuse_sim. rewrite HiF', HiF.
    split_and!; try congruence; try done.
    assert (forall p b, (tokens p = None /\ K = 0 \/ K < count p) -> ctx_ok p ->
              (tokens p <> None ->
               forall i, 0 <= i < count p -> tok_at b i = tok_at (tokens p) i) ->
              forall i, 1 <= i <= K -> tok_at b i = tok_at (tokens p) i) as Hbase.
    { intros p b [[_ ->]|Hlt] Hokp Hb i Hi; [lia|].
      apply Hb; [|lia]. apply ctx_ok_none; [done|lia]. }
    intros i Hi.
    rewrite (linked_tokens bR (current_parent R) K (tokens R') (tokens R)); try done; try lia.
    2:{ intros j Hj. apply (Hbase R); try done. }
    rewrite (linked_tokens bF (current_parent F) K (tokens F') (tokens F)); try done; try lia.
    2:{ intros j Hj. apply (Hbase F); try done. }
    rewrite E5. case_decide; [done|]. case_decide; [f_equal|]; apply Hag; lia.
  - destruct SF as (-> & HleF & _). destruct SR as (-> & HleR & _).
    split; [|done].
    unfold reuse_sim, cap_ok in *.
    cbn [json idx token current_parent init_count init_tokens resize_fn
         tokens count set_idx] in *.
    split_and!; try congruence; try done.
    intros i Hi. destruct (decide (i = K + 1)) as [->|]; [|apply Hag; lia].
    rewrite !tok_at_oob; [done|..].
    + rewrite (ctx_ok_len _ HokF). lia.
    + rewrite (ctx_ok_len _ HokR). lia.
Qed.

(** *** The parse loop in both contexts *)

Lemma turn_sim B F R s :
  head_ok B F s -> head_ok B R s -> reuse_sim F R ->
  steady_policy (resize_fn F) ->
  exists ok F' R' s',
    parse_json_turn F s = (ok, F', s') /\
    parse_json_turn R s = (ok, R', s') /\ reuse_sim F' R'.
Proof.
  intros HhF HhR Hs Hst.
  pose proof Hs as (E1 & E3 & E4 & E5 & E6 & E7 & E8 & _).
  assert (HB : B < 2147483648) by apply HhF.
  assert (HiF : 1 <= idx F < count F) by apply HhF.
  assert (HiR : 1 <= idx R < count R) by apply HhR.
  assert (HtkF : token F = Some (idx F)) by apply HhF.
  unfold parse_json_turn.
  destruct (parse_value_effect (json F) (mxjson_consume_ws s))
    as (ok1 & f & opens & s1 & Hv).
  rewrite (proj1 Hv F eq_refl), (proj1 Hv R E1).
  pose proof (reuse_sim_after f opens F R Hs HtkF HiF ltac:(lia)) as Hs1.
  destruct ok1; [|by eexists _, _, _, _].
  pose proof (value_state _ _ _ _ _ _ _ HhF Hv)
    as (HokF1 & (_ & _ & _ & Hrf1) & HiF1 & HcF1 & _ & HcpF1 & HpF1 & _ & HB1 & _).
  pose proof Hv as HvR. rewrite <- E1 in HvR.
  pose proof (value_state _ _ _ _ _ _ _ HhR HvR)
    as (HokR1 & _ & HiR1 & HcR1 & _ & HcpR1 & HpR1 & _ & _ & _).
  destruct (HB1 eq_refl) as [HB1' _].
  destruct (mxjson_ascend (after_value f opens F) s1) as [[F2 s2] par] eqn:Ea.
  destruct (ascend_sim _ _ _ _ _ _ (idx F) Hs1 HiF1 ltac:(lia) ltac:(lia)
              ltac:(lia) HcpF1 HpF1 HpR1 Ea)
    as (R2 & -> & Hs2 & HiR2 & HcR2 & HpR2).
  destruct (ascend_state _ _ _ _ _ (idx F) HokF1 ltac:(lia) HiF1 HcpF1 HpF1 Ea)
    as (HokF2 & (_ & _ & _ & Hrf2) & HiF2 & HcF2 & _ & Hpar & HpF2 & _).
  destruct (par =? MXJSON_IDX_NONE) eqn:Ep; cbn [negb]; [by eexists _, _, _, _|].
  apply Z.eqb_neq in Ep. unfold MXJSON_IDX_NONE in Ep.
  cbn [idx set_current_parent]. rewrite HiF2, HiR2.
  set (cm := if par =? idx F then (true, mxjson_consume_ws s2)
             else let '(ok, s, _) :=
                    mxstr_consume_char (fun c => c =? chr ",") (mxjson_consume_ws s2) 0 in
                  (ok, s)).
  destruct cm as [ok3 s4]. destruct ok3; [|by eexists _, _, _, _].
  destruct (token_sim (set_current_parent par F2) (set_current_parent par R2) (idx F) Hs2)
    as (ok5 & F5 & R5 & EtF & EtR & Hs5 & Hi5);
    cbn [idx count tokens current_parent set_current_parent resize_fn];
    try done; try lia; try congruence.
  rewrite EtF, EtR.
  destruct ok5; cbn [andb]; [|by eexists _, _, _, _].
  destruct (Hi5 eq_refl) as [Hi5F Hi5R].
  pose proof Hs5 as (J1 & J3 & J4 & J5 & _ & _ & _ & HokF5 & HokR5 & _ & _ & Hag5).
  pose proof (mxjson_token_fields (set_current_parent par F2)) as Hf5.
  rewrite EtF in Hf5. cbn [fst snd idx set_current_parent] in Hf5.
  rewrite HiF2 in Hf5. rewrite u32_small in Hf5 by lia.
  destruct Hf5 as (Hi5' & _ & _ & _ & _ & _ & _ & Htk5). specialize (Htk5 eq_refl).
  assert (tok_at (tokens R5) par = tok_at (tokens F5) par) as ->.
  { apply Hag5. lia. }
  destruct (mxjson_type_eqb (value_type (tok_at (tokens F5) par)) MXJSON_OBJECT);
    [|by eexists _, _, _, _].
  destruct (parse_name_effect (json F5) (mxjson_consume_ws s4)) as (ok6 & g & s6 & Hn).
  rewrite (proj1 Hn F5 eq_refl), (proj1 Hn R5 J1).
  eexists _, _, _, _. split; [done|]. split; [done|].
  apply reuse_sim_upd; try done; try lia. by rewrite Hi5'.
Qed.


Lemma loop_sim B fuel :
  forall F R s,
    head_ok B F s -> head_ok B R s -> reuse_sim F R ->
    steady_policy (resize_fn F) -> (dlen s < fuel)%nat ->
    exists ok F' R' s',
      parse_json_loop fuel F s = Some (ok, F', s') /\
      parse_json_loop fuel R s = Some (ok, R', s') /\ reuse_sim F' R'.
Proof.
  induction fuel as [|fuel IH]; intros F R s HhF HhR Hs Hst Hf; [lia|].
  cbn [parse_json_loop].
  destruct (turn_sim _ _ _ _ HhF HhR Hs Hst) as (ok & F1 & R1 & s1 & EF & ER & Hs1).
  rewrite EF, ER.
  apply turn_exits in EF, ER.
  destruct (turn_head _ _ _ _ _ _ HhF EF) as (_ & (_ & _ & _ & Hrf) & _ & _ & _ & HtF).
  destruct (turn_head _ _ _ _ _ _ HhR ER) as (_ & _ & _ & _ & _ & HtR).
  pose proof Hs1 as (_ & _ & _ & Hcp & _).
  destruct ok; cbn [andb]; [|by eexists _, _, _, _].
  destruct (HtF eq_refl) as (Hlt & _ & _ & _ & HnF).
  destruct (HtR eq_refl) as (_ & _ & _ & _ & HnR).
  rewrite Hcp.
  destruct (current_parent F1 =? MXJSON_IDX_NONE) eqn:E; cbn [negb];
    [by eexists _, _, _, _|].
  apply Z.eqb_neq in E.
  apply IH; try done; try lia.
  - by apply HnF.
  - apply HnR. by rewrite Hcp.
  - by rewrite Hrf.
Qed.

(** Two contexts with an array of the same size from the caller, or
    none, and with the same callback parse an input alike, whatever
    the array of the caller holds. *)
Lemma parse_sim p q js :
  ctx_ok p -> ctx_ok q -> cap_ok p -> cap_ok q ->
  init_count q = init_count p ->
  (init_tokens q = None <-> init_tokens p = None) ->
  resize_fn q = resize_fn p -> steady_policy (resize_fn p) ->
  short_input (data js) ->
  exists ok p' q',
    mxjson_parse p js = (ok, p') /\ mxjson_parse q js = (ok, q') /\
    reuse_sim p' q'.
Proof.
  intros Hokp Hokq Hcp Hcq E6 E7 E8 Hst Hshort. unfold mxjson_parse.
  assert (reuse_sim (parse_reset p js) (parse_reset q js)) as Hs0.
  { unfold reuse_sim. split_and!; try done; try apply E7. intros i Hi.
    rewrite (proj1 (proj2 (parse_reset_fields p js))) in Hi. lia. }
  assert (forall r, ctx_ok r -> tokens r = None /\ 0 = 0 \/ 0 < count r) as Hpre.
  { intros r (_ & _ & _ & Hs). destruct (tokens r); [|by left].
    right. simpl in Hs. lia. }
  destruct (token_sim _ _ 0 Hs0 Hst eq_refl ltac:(lia) ltac:(lia)
              (Hpre p Hokp) (Hpre q Hokq) ltac:(done))
    as (ok & p1 & q1 & Ep & Eq & Hs1 & _).
  rewrite Ep, Eq. destruct ok; [|by eexists _, _, _].
  destruct (root_head _ _ _ Hokp Hshort Ep) as (Hhp & _ & _ & _ & Hrf).
  destruct (root_head _ _ _ Hokq Hshort Eq) as (Hhq & _).
  assert (unparsed q1 = unparsed p1) as Hun.
  { pose proof (mxjson_token_fields (parse_reset p js)) as Hf.
    pose proof (mxjson_token_fields (parse_reset q js)) as Hg.
    rewrite Ep in Hf. rewrite Eq in Hg. cbn [fst snd] in Hf, Hg.
    destruct Hf as (_ & _ & _ & -> & _). destruct Hg as (_ & _ & _ & -> & _). done. }
  unfold mxjson_parse_json. rewrite Hun. rewrite Hun in Hhq.
  destruct (loop_sim _ (S (dlen (unparsed p1))) _ _ _ Hhp Hhq Hs1
              ltac:(by rewrite Hrf) ltac:(lia))
    as (ok & p' & q' & s' & -> & -> & Hs').
  destruct ok; eexists _, _, _; (split; [done|]); (split; [done|]);
    by apply reuse_sim_set_unparsed.
Qed.

(** A context that parses an input stays one that [mxjson_init] and
    earlier parses can have left. *)
Lemma parse_keeps p js :
  ctx_ok p -> cap_ok p -> steady_policy (resize_fn p) -> short_input (data js) ->
  let p' := snd (mxjson_parse p js) in
  ctx_ok p' /\ cap_ok p' /\ init_count p' = init_count p /\
  init_tokens p' = init_tokens p /\ resize_fn p' = resize_fn p.
Proof.
  intros Hok Hcap Hst Hshort p'.
  destruct (parse_sim p p js Hok Hok Hcap Hcap eq_refl ltac:(done) eq_refl Hst Hshort)
    as (ok & p1 & q1 & E1 & E2 & Hs).
  destruct (parse_spec p js Hok Hshort) as (ok' & p2 & E3 & _ & _ & H1 & H2 & H3 & _).
  subst p'. rewrite E3. rewrite E3 in E1. injection E1 as -> ->. cbn [snd].
  destruct Hs as (_ & _ & _ & _ & _ & _ & _ & HokF & _ & HcF & _).
  by split_and!.
Qed.

Lemma parse_all_cons p a As :
  parse_all p (a :: As) = parse_all (snd (mxjson_parse p a)) As.
Proof. reflexivity. Qed.

Lemma parse_all_keeps As :
  forall p,
    ctx_ok p -> cap_ok p -> steady_policy (resize_fn p) ->
    Forall (fun a => short_input (data a)) As ->
    ctx_ok (parse_all p As) /\ cap_ok (parse_all p As) /\
    init_count (parse_all p As) = init_count p /\
    init_tokens (parse_all p As) = init_tokens p /\
    resize_fn (parse_all p As) = resize_fn p.
Proof.
  induction As as [|a As IH]; intros p Hok Hcap Hst Hall; [done|].
  apply Forall_cons in Hall as [Ha Hall]. rewrite parse_all_cons.
  destruct (parse_keeps p a Hok Hcap Hst Ha) as (H1 & H2 & H3 & H4 & H5).
  generalize dependent (snd (mxjson_parse p a)). intros p1 H1 H2 H3 H4 H5.
  destruct (IH p1 H1 H2 ltac:(by rewrite H5) Hall) as (K1 & K2 & K3 & K4 & K5).
  rewrite K3, K4, K5. by split_and!.
Qed.

(** X1: reusing a context is transparent.  For a context set up by
    [mxjson_init] with no resize callback, with a callback that never
    grows the token array or with one that always does, parsing any
    inputs and then the input B with the same context gives the same
    result, the same high-water index and the same tokens from 1 to that
    index as parsing B with a context fresh from [mxjson_init]. *)
Theorem context_reuse_transparent ic it rf As B :
  0 <= ic < 4294967296 ->
  (forall l, it = Some l -> Z.of_nat (length l) = ic) ->
  steady_policy rf ->
  Forall (fun a => short_input (data a)) As -> short_input (data B) ->
  let fresh := mxjson_init ic it rf in
  let used := parse_all fresh As in
  let rF := mxjson_parse fresh B in
  let rU := mxjson_parse used B in
  fst rU = fst rF /\ idx (snd rU) = idx (snd rF) /\
  forall i, 1 <= i <= idx (snd rF) ->
            tok_at (tokens (snd rU)) i = tok_at (tokens (snd rF)) i.
Proof.
  intros Hic Hit Hst HAs HB fresh used rF rU.
  assert (ctx_ok fresh) as Hok.
  { apply ctx_ok_init; try done. by apply steady_policy_ok. }
  assert (cap_ok fresh) as Hcap by (by intros _ Hn).
  destruct (parse_all_keeps As fresh Hok Hcap Hst HAs) as (K1 & K2 & K3 & K4 & K5).
  fold used in K1, K2, K3, K4, K5.
  destruct (parse_sim fresh used B Hok K1 Hcap K2 K3 ltac:(by rewrite K4) K5 Hst HB)
    as (ok & p' & q' & EF & EU & Hs).
  subst rF rU. rewrite EF, EU. cbn [fst snd].
  destruct Hs as (_ & Hi & _ & _ & _ & _ & _ & _ & _ & _ & _ & Hag).
  split_and!; try done.
Qed.

Lemma context_reuse_transparent_witness :
  let fresh := mxjson_init 8 (Some (replicate 8 zero_token)) None in
  let used := parse_all fresh [input nested8] in
  let rF := mxjson_parse fresh (input scenario_object) in
  let rU := mxjson_parse used (input scenario_object) in
  fst rU = fst rF /\ idx (snd rU) = idx (snd rF) /\
  forall i, 1 <= i <= idx (snd rF) ->
            tok_at (tokens (snd rU)) i = tok_at (tokens (snd rF)) i.
Proof.
  apply (context_reuse_transparent 8 (Some (replicate 8 zero_token)) None
           [input nested8] (input scenario_object)).
  - lia.
  - by intros l [= <-].
  - by left.
  - constructor; [by vm_compute|constructor].
  - by vm_compute.
Defined.

(** *** A callback that looks at the tokens *)





(** * Further properties of the code *)

(** ** Releasing a context *)

Lemma call_resize_init p h :
  let r := snd (call_resize p h) in
  init_count r = init_count p /\ init_tokens r = init_tokens p /\
  resize_fn r = resize_fn p.
Proof.
  unfold call_resize. destruct (resize_fn p) as [f|] eqn:E; [|done].
  destruct (f (count p) (tokens p) h) as [[c t]|]; cbn; by rewrite ?E.
Qed.

Lemma mxjson_free_fields p :
  count (mxjson_free p) = 0 /\ tokens (mxjson_free p) = None /\
  init_count (mxjson_free p) = init_count p /\
  init_tokens (mxjson_free p) = init_tokens p /\
  resize_fn (mxjson_free p) = resize_fn p.
Proof.
  unfold mxjson_free. pose proof (call_resize_init p 0) as (H1 & H2 & H3).
  destruct (resize_fn p) as [f|] eqn:E; cbn; by split_and!.
Qed.

Lemma parse_reset_ext p q js :
  count q = count p -> tokens q = tokens p -> init_count q = init_count p ->
  init_tokens q = init_tokens p -> resize_fn q = resize_fn p ->
  parse_reset q js = parse_reset p js.
Proof.
  destruct p, q. cbn. intros -> -> -> -> ->. reflexivity.
Qed.

Lemma caller_array_fields a p :
  json (caller_array a p) = json p /\ unparsed (caller_array a p) = unparsed p /\
  idx (caller_array a p) = idx p /\ count (caller_array a p) = count p /\
  tokens (caller_array a p) = tokens p /\ token (caller_array a p) = token p /\
  current_parent (caller_array a p) = current_parent p /\
  init_count (caller_array a p) = init_count p /\
  resize_fn (caller_array a p) = resize_fn p /\
  (init_tokens (caller_array a p) = None <-> init_tokens p = None) /\
  (forall l, init_tokens (caller_array a p) = Some l ->
             l = a /\ init_tokens p <> None).
Proof.
  unfold caller_array. destruct (init_tokens p) eqn:E; cbn; rewrite ?E;
    split_and!; try done.
  by intros ? [= <-].
Qed.

(** X2: [mxjson_free] takes a context back to where [mxjson_init] left
    it.  Whatever was parsed before, and whatever the array of the
    caller has come to hold (the tokens [dirty], as many as
    [mxjson_init] was told), a parse after [mxjson_free] gives the same
    result, the same high-water index and the same tokens from 1 to
    that index as the same parse with a context fresh from
    [mxjson_init]; without an array from the caller it gives the very
    same context. *)
Theorem free_restores_fresh ic it rf As B dirty :
  0 <= ic < 4294967296 ->
  (forall l, it = Some l -> Z.of_nat (length l) = ic) ->
  (it <> None -> Z.of_nat (length dirty) = ic) ->
  steady_policy rf ->
  Forall (fun a => short_input (data a)) As -> short_input (data B) ->
  let fresh := mxjson_init ic it rf in
  let used := parse_all fresh As in
  releases used ->
  let rF := mxjson_parse fresh B in
  let rU := mxjson_parse (caller_array dirty (mxjson_free used)) B in
  fst rU = fst rF /\ idx (snd rU) = idx (snd rF) /\
  (forall i, 1 <= i <= idx (snd rF) ->
             tok_at (tokens (snd rU)) i = tok_at (tokens (snd rF)) i) /\
  (it = None -> rU = rF).
Proof.
  intros Hic Hit Hd Hst HAs HB fresh used _ rF rU.
  assert (ctx_ok fresh) as Hok.
  { apply ctx_ok_init; try done. by apply steady_policy_ok. }
  assert (cap_ok fresh) as Hcap by (by intros _ Hn).
  destruct (parse_all_keeps As fresh Hok Hcap Hst HAs) as (K1 & _ & K3 & K4 & K5).
  fold used in K1, K3, K4, K5.
  destruct (mxjson_free_fields used) as (F1 & F2 & F3 & F4 & F5).
  destruct (caller_array_fields dirty (mxjson_free used))
    as (_ & _ & _ & Y1 & Y2 & _ & _ & Y3 & Y5 & Y4 & Y6).
  set (again := caller_array dirty (mxjson_free used)) in *.
  assert (ctx_ok again) as Hoka.
  { destruct K1 as (Q1 & Q2 & Q3 & Q4). unfold ctx_ok.
    rewrite Y1, Y2, Y3, Y5, F1, F2, F3, F5. split; [done|]. split; [|done].
    intros l Hl. destruct (Y6 l Hl) as [-> Hsome]. rewrite K3.
    apply Hd. intros Hn. apply Hsome. rewrite F4, K4. exact Hn. }
  assert (cap_ok again) as Hcapa.
  { intros _ Hn. by rewrite Y2, F2 in Hn. }
  split_and!.
  - destruct (parse_sim fresh again B Hok Hoka Hcap Hcapa
                ltac:(by rewrite Y3, F3, K3)
                ltac:(by rewrite Y4, F4, K4)
                ltac:(by rewrite Y5, F5, K5) Hst HB)
      as (ok & p' & q' & EF & EU & Hs).
    subst rF rU. by rewrite EF, EU.
  - destruct (parse_sim fresh again B Hok Hoka Hcap Hcapa
                ltac:(by rewrite Y3, F3, K3)
                ltac:(by rewrite Y4, F4, K4)
                ltac:(by rewrite Y5, F5, K5) Hst HB)
      as (ok & p' & q' & EF & EU & Hs).
    subst rF rU. rewrite EF, EU. cbn [fst snd]. apply Hs.
  - destruct (parse_sim fresh again B Hok Hoka Hcap Hcapa
                ltac:(by rewrite Y3, F3, K3)
                ltac:(by rewrite Y4, F4, K4)
                ltac:(by rewrite Y5, F5, K5) Hst HB)
      as (ok & p' & q' & EF & EU & Hs).
    subst rF rU. rewrite EF, EU. cbn [fst snd]. apply Hs.
  - intros ->. subst rF rU. unfold mxjson_parse.
    assert (parse_reset again B = parse_reset fresh B) as E; [|by rewrite E].
    assert (init_tokens (mxjson_free used) = None) as E0 by (by rewrite F4, K4).
    assert (again = mxjson_free used) as ->.
    { subst again. unfold caller_array. by rewrite E0. }
    apply parse_reset_ext; rewrite ?F1, ?F2, ?F3, ?F4, ?F5, ?K3, ?K4, ?K5; reflexivity.
Qed.

(** An array of 8 tokens from the caller, which holds the tokens of
    the first parse when the second parse adopts it again. *)
Lemma free_restores_fresh_witness :
  let fresh := mxjson_init 8 (Some (replicate 8 zero_token)) None in
  let used := parse_all fresh [input nested8] in
  let dirty := default [] (tokens used) in
  let rF := mxjson_parse fresh (input scenario_object) in
  let rU := mxjson_parse (caller_array dirty (mxjson_free used))
                         (input scenario_object) in
  dirty <> replicate 8 zero_token /\
  fst rU = fst rF /\ idx (snd rU) = idx (snd rF) /\
  (forall i, 1 <= i <= idx (snd rF) ->
             tok_at (tokens (snd rU)) i = tok_at (tokens (snd rF)) i).
Proof.
  split; [by vm_compute|].
  pose proof (free_restores_fresh 8 (Some (replicate 8 zero_token)) None
           [input nested8] (input scenario_object)
           (default [] (tokens (parse_all
              (mxjson_init 8 (Some (replicate 8 zero_token)) None)
              [input nested8])))) as H.
  cbn zeta in H |- *.
  destruct H as (H1 & H2 & H3 & _).
  - lia.
  - by intros l [= <-].
  - intros _. by vm_compute.
  - by left.
  - constructor; [by vm_compute|constructor].
  - by vm_compute.
  - by vm_compute.
  - by split_and!.
Defined.

(** ** Walking the token array *)

(** What a parse that succeeds leaves, for the theorems below. *)
Lemma parse_tree_eq p js q :
  ctx_ok p -> short_input (data js) ->
  mxjson_parse p js = (true, q) -> tree_up q [].
Proof.
  intros Hok Hshort. unfold mxjson_parse.
  destruct (mxjson_token (parse_reset p js)) as [[] p1] eqn:Et; [|done].
  destruct (root_head _ _ _ Hok Hshort Et) as (Hh & _).
  pose proof (root_tree _ _ _ Hok Hshort Et) as Htree.
  unfold mxjson_parse_json.
  destruct (parse_json_loop _ p1 (unparsed p1)) as [[[ok p'] s']|] eqn:El; [|done].
  destruct ok; [|done]. intros [= _ <-].
  apply (tree_up_ext p'); [done..|].
  by apply (loop_tree _ _ _ _ _ _ _ Hh Htree El).
Qed.

Lemma parse_success p js :
  ctx_ok p -> short_input (data js) ->
  fst (mxjson_parse p js) = true ->
  let q := snd (mxjson_parse p js) in
  tree_up q [] /\ parents_ok q /\ 1 <= idx q < count q /\
  count q < 4294967296 /\ ctx_ok q.
Proof.
  intros Hok Hshort Hres.
  destruct (parse_spec p js Hok Hshort)
    as (ok & p' & E & Hok' & _ & _ & _ & _ & Hi & _ & Htr).
  rewrite E in Hres |- *. cbn [fst snd] in Hres |- *. subst ok.
  destruct (Htr eq_refl) as (Hpo & Hic & _).
  pose proof (parse_tree_eq p js p' Hok Hshort E) as Hup.
  split_and!; try done; try lia.
  destruct Hok' as (_ & _ & _ & Hst).
  destruct (store_ok_some _ _ Hst ltac:(lia)) as (? & _). lia.
Qed.

(** X3: after a parse that succeeds, stepping through the token array
    stays inside it and moves forward: for every token, [mxjson_first]
    is the next index, and [mxjson_next] is an index after the token and
    at most one past the last token. *)
Theorem next_in_bounds p js i :
  ctx_ok p -> short_input (data js) ->
  fst (mxjson_parse p js) = true ->
  let q := snd (mxjson_parse p js) in
  1 <= i <= idx q ->
  mxjson_first q i = i + 1 /\ i < mxjson_next q i <= idx q + 1.
Proof.
  intros Hok Hshort Hres q Hi.
  destruct (parse_success p js Hok Hshort Hres) as ((_ & Hcl) & _ & Hidx & Hc & _).
  fold q in Hcl, Hidx, Hc.
  assert (u32 (i + 1) = i + 1) as Hu by (apply u32_small; lia).
  split; [exact Hu|].
  destruct (is_container (value_type (tok_at (tokens q) i))) eqn:Hty.
  - rewrite next_container by done.
    destruct (Hcl i Hi ltac:(by intros []) Hty) as (Hn & _). lia.
  - rewrite next_scalar by done. rewrite Hu. lia.
Qed.

Lemma next_in_bounds_witness :
  let q := snd (mxjson_parse default_parser (input scenario_object)) in
  mxjson_first q 3 = 4 /\ 3 < mxjson_next q 3 <= idx q + 1.
Proof.
  apply (next_in_bounds default_parser (input scenario_object) 3 ctx_ok_default);
    by vm_compute.
Defined.

(** *** The root spans every token *)

Lemma ascend_loop_root fuel :
  forall p s par p' s' K,
    (forall j, 1 <= j <= K ->
       (parent (tok_at (tokens p) j) = 0 -> j = 1) /\
       0 <= parent (tok_at (tokens p) j) < j) ->
    value_type (tok_at (tokens p) 0) = MXJSON_NONE ->
    idx p = K -> K < tok_len (tokens p) -> K + 1 < 4294967296 ->
    1 <= par <= K ->
    ascend_loop fuel p s par = Some (p', s', 0) ->
    is_container (value_type (tok_at (tokens p') 1)) = true /\
    next (tok_at (tokens p') 1) = K + 1.
Proof.
  induction fuel as [|fuel IH]; intros p s par p' s' K Hpar H0 Hidx Hlen HK Hp; [done|].
  rewrite ascend_loop_unfold. cbv zeta.
  set (r := match value_type (tok_at (tokens p) par) with
            | MXJSON_ARRAY => _ | MXJSON_OBJECT => _ | _ => _ end).
  destruct (r.1.1) eqn:Er.
  2:{ intros [= _ _ ->]. lia. }
  assert (is_container (value_type (tok_at (tokens p) par)) = true) as Hty.
  { subst r. by destruct (value_type (tok_at (tokens p) par)). }
  rewrite Hidx.
  set (p1 := set_tokens (tok_upd (set_next (u32 (K + 1))) par (tokens p)) p).
  destruct (Hpar par Hp) as [Hroot Hlt].
  destruct (decide (parent (tok_at (tokens p) par) = 0)) as [Hz|Hnz].
  - rewrite Hz. specialize (Hroot Hz). subst par.
    destruct fuel as [|fuel]; [done|]. rewrite ascend_loop_unfold. cbv zeta.
    cbn [tokens set_tokens p1]. rewrite (tok_at_upd_field value_type) by done.
    rewrite H0. cbn [fst]. intros [= <- _]. subst p1.
    cbn [tokens set_tokens]. rewrite tok_at_upd_eq by lia.
    split; [done|]. cbn. apply u32_small. lia.
  - intros Hl. apply (IH p1 _ _ _ _ K) in Hl; try done.
    + intros j Hj. cbn [tokens set_tokens p1].
      rewrite (tok_at_upd_field parent) by done. by apply Hpar.
    + cbn [tokens set_tokens p1]. by rewrite (tok_at_upd_field value_type).
    + cbn [tokens set_tokens p1]. by rewrite tok_len_upd.
    + lia.
Qed.

Lemma parents_root p K :
  idx p = K -> parents_ok p ->
  forall j, 1 <= j <= K ->
    (parent (tok_at (tokens p) j) = 0 -> j = 1) /\
    0 <= parent (tok_at (tokens p) j) < j.
Proof.
  intros Hidx Hpo j Hj. rewrite <- Hidx in Hj. destruct (Hpo j Hj) as [Ha Hb].
  destruct (decide (j = 1)) as [->|]; [rewrite Ha by done; split; [done|lia]|].
  specialize (Hb ltac:(lia)). split; lia.
Qed.

Lemma turn_root B p s anc p' s' :
  head_ok B p s -> tree_head p anc -> turn_exit p s true p' s' ->
  current_parent p' = 0 ->
  idx p' = 1 \/
  (is_container (value_type (tok_at (tokens p') 1)) = true /\
   next (tok_at (tokens p') 1) = idx p' + 1).
Proof.
  intros Hh Htree Hx Hcp0.
  assert (HB : B < 2147483648) by apply Hh.
  assert (Hi : 1 <= idx p < count p) by apply Hh.
  pose proof (head_ok_store _ _ _ Hh) as (Hc & Hlen & H0).
  inversion Hx as [ | f opens s1 p2 s2 Hv Ha
    | | | f opens s1 p2 s2 par s4 p5 Hv Ha Hpar Hcm Ht Hty
    | f opens s1 p2 s2 par s4 p5 ok g s6 Hv Ha Hpar Hcm Ht Hty Hn]; subst;
    pose proof (value_state _ _ _ _ _ _ _ Hh Hv)
      as (Hok1 & Hs1 & Hi1 & Hc1 & Ht1 & Hcp1 & Hp1 & Hl1 & HB1 & Hk1);
    destruct (HB1 eq_refl) as [HB1' _];
    destruct (ascend_state _ _ _ _ _ (idx p) Hok1 ltac:(lia) Hi1 Hcp1 Hp1 Ha)
      as (Hok2 & Hs2 & Hi2 & Hc2 & Ht2 & Hpar2 & Hp2 & Hl2).
  - cbn [idx tokens set_current_parent]. rewrite Hi2.
    destruct (mxjson_ascend_spec (after_value f opens p) s1)
      as (p2' & s2' & par' & E & _ & _ & _ & _ & _ & _ & _ & _ & _ & _ & Hz & Hnz).
    rewrite E in Ha. injection Ha as -> -> ->.
    pose proof (after_value_fields f opens p) as (_ & _ & _ & _ & _ & _ & _ & _ & Hcpa).
    destruct (current_parent (after_value f opens p) =? MXJSON_IDX_NONE) eqn:E0.
    + left. apply Z.eqb_eq in E0. rewrite Hcpa in E0. unfold MXJSON_IDX_NONE in E0.
      destruct opens; [lia|].
      destruct Htree as (Hcp & Hch & _). rewrite E0 in Hcp.
      destruct anc as [|a anc']; [|cbn in Hcp; destruct Hch as (? & _); lia].
      cbn in Hch. destruct Hh as (_ & _ & _ & _ & Hpo & _).
      destruct (Hpo (idx p) ltac:(lia)) as [_ Hgt].
      destruct (decide (idx p = 1)); [done|]. specialize (Hgt ltac:(lia)). lia.
    + right. apply Z.eqb_neq in E0. unfold MXJSON_IDX_NONE in E0.
      apply (ascend_loop_root _ _ _ _ _ _ (idx p)) in Hnz; try done; try lia.
      * by apply parents_root.
      * rewrite Hk1, tok_at_upd_ne by lia. exact H0.
      * rewrite Hk1, tok_len_upd. lia.
  - destruct (token_state p2 par (idx p) p') as
      (_ & _ & _ & _ & _ & Hcp5 & _); try done; lia.
  - destruct (token_state p2 par (idx p) p5) as
      (_ & _ & _ & _ & _ & Hcp5 & _); try done; try lia.
    pose proof (upd_token_fields g p5) as (_ & E2 & _). rewrite E2 in Hcp0. lia.
Qed.

Lemma loop_root B fuel :
  forall p s anc p' s',
    head_ok B p s -> tree_head p anc ->
    parse_json_loop fuel p s = Some (true, p', s') ->
    idx p' = 1 \/
    (is_container (value_type (tok_at (tokens p') 1)) = true /\
     next (tok_at (tokens p') 1) = idx p' + 1).
Proof.
  induction fuel as [|fuel IH]; intros p s anc p' s' Hh Htree; [done|].
  cbn [parse_json_loop].
  destruct (parse_json_turn p s) as [[ok p1] s1] eqn:Et.
  apply turn_exits in Et.
  destruct (turn_head _ _ _ _ _ _ Hh Et) as (_ & _ & _ & _ & _ & Htr).
  destruct ok; cbn [andb]; [|done].
  destruct (Htr eq_refl) as (_ & _ & _ & _ & Hnz).
  destruct (turn_tree _ _ _ _ _ _ Hh Htree Et) as [_ Hnz'].
  destruct (current_parent p1 =? MXJSON_IDX_NONE) eqn:E; cbn [negb].
  - apply Z.eqb_eq in E. intros [= <- <-]. by apply (turn_root B p s anc _ s1).
  - apply Z.eqb_neq in E. destruct (Hnz' E) as [anc' Htree'].
    intros El. exact (IH p1 s1 anc' p' s' (Hnz E) Htree' El).
Qed.

Lemma parse_root_eq p js q :
  ctx_ok p -> short_input (data js) ->
  mxjson_parse p js = (true, q) ->
  idx q = 1 \/
  (is_container (value_type (tok_at (tokens q) 1)) = true /\
   next (tok_at (tokens q) 1) = idx q + 1).
Proof.
  intros Hok Hshort. unfold mxjson_parse.
  destruct (mxjson_token (parse_reset p js)) as [[] p1] eqn:Et; [|done].
  destruct (root_head _ _ _ Hok Hshort Et) as (Hh & _).
  pose proof (root_tree _ _ _ Hok Hshort Et) as Htree.
  unfold mxjson_parse_json.
  destruct (parse_json_loop _ p1 (unparsed p1)) as [[[ok p'] s']|] eqn:El; [|done].
  destruct ok; [|done]. intros [= _ <-].
  cbn [idx tokens set_unparsed].
  by apply (loop_root _ _ _ _ _ _ _ Hh Htree El).
Qed.

(** *** Subtrees are index ranges *)

Lemma ancestor_le p a k : ancestor p a k -> a <= k.
Proof. induction 1; lia. Qed.

Lemma ancestor_trans p a b c : ancestor p a b -> ancestor p b c -> ancestor p a c.
Proof.
  intros Hab Hbc. induction Hbc as [|k Hbk IH Hlt]; [done|].
  apply ancestor_up; [done|]. apply ancestor_le in Hab. lia.
Qed.

Lemma walk_find p par n j e k :
  walk p par n j e -> j <= k < e ->
  exists h, j <= h <= k /\ k < mxjson_next p h /\ mxjson_next p h <= e /\
            parent (tok_at (tokens p) h) = par.
Proof.
  revert j. induction n as [|n IH]; intros j; cbn [walk]; [lia|].
  intros (H1 & H2 & H3 & H4) Hk. pose proof (walk_le _ _ _ _ _ H4) as Hle.
  destruct (decide (k < mxjson_next p j)) as [Hlt|Hge].
  - exists j. split_and!; try done; lia.
  - destruct (IH _ H4 ltac:(lia)) as (h & Hh & Hn1 & Hn2 & Hp).
    exists h. split_and!; try done; lia.
Qed.

Section Tree.
Variable q : mxjson_parser_t.
Hypothesis Hcl : forall i, 1 <= i <= idx q -> closed q (idx q + 1) [] i.
Hypothesis Hpo : parents_ok q.
Hypothesis Hidx : idx q + 1 < 4294967296.

(** Inside the subtree of a container: the way down to a token. *)
Lemma span_descend (n : nat) :
  forall i k,
    1 <= i <= idx q ->
    is_container (value_type (tok_at (tokens q) i)) = true ->
    (Z.to_nat (next (tok_at (tokens q) i) - i) <= n)%nat ->
    i < k < next (tok_at (tokens q) i) ->
    ancestor q i k /\ mxjson_next q k <= next (tok_at (tokens q) i) /\
    is_container (value_type (tok_at (tokens q) (parent (tok_at (tokens q) k)))) = true /\
    k < next (tok_at (tokens q) (parent (tok_at (tokens q) k))).
Proof.
  induction n as [|n IH]; intros i k Hi Hty Hn Hk; [lia|].
  destruct (Hcl i Hi Hty) as (Hnx & _ & Hw & _).
  destruct (walk_find _ _ _ _ _ k Hw ltac:(lia)) as (h & Hh & Hk1 & Hk2 & Hp).
  assert (ancestor q i h) as Hih.
  { apply ancestor_up; [rewrite Hp; constructor|lia]. }
  destruct (decide (k = h)) as [->|Hne].
  - rewrite Hp. split_and!; try done; lia.
  - destruct (is_container (value_type (tok_at (tokens q) h))) eqn:Hth.
    2:{ rewrite next_scalar in Hk1 by done. rewrite u32_small in Hk1 by lia. lia. }
    rewrite next_container in Hk1, Hk2 by done.
    destruct (IH h k ltac:(lia) Hth ltac:(lia) ltac:(lia)) as (Ha & Hb & Hc & Hd).
    split_and!; try done; [by eapply ancestor_trans|lia].
Qed.

Hypothesis Hroot :
  idx q = 1 \/
  (is_container (value_type (tok_at (tokens q) 1)) = true /\
   next (tok_at (tokens q) 1) = idx q + 1).

(** Every token but the root lies in the subtree of its parent, which
    is a container. *)
Lemma inside_parent k :
  2 <= k <= idx q ->
  is_container (value_type (tok_at (tokens q) (parent (tok_at (tokens q) k)))) = true /\
  k < next (tok_at (tokens q) (parent (tok_at (tokens q) k))).
Proof.
  intros Hk. destruct Hroot as [?|[Hty Hn]]; [lia|].
  destruct (span_descend _ 1 k ltac:(lia) Hty (le_n _) ltac:(lia)) as (_ & _ & H1 & H2).
  done.
Qed.

Lemma subtree_range i k :
  1 <= i <= idx q -> 1 <= k <= idx q ->
  ancestor q i k <-> i <= k < mxjson_next q i.
Proof.
  intros Hi Hk. split.
  - intros Ha. induction Ha as [|k Hjk IH Hlt].
    + split; [lia|].
      destruct (is_container (value_type (tok_at (tokens q) i))) eqn:Hty.
      * rewrite next_container by done. destruct (Hcl i Hi Hty) as (? & _). lia.
      * rewrite next_scalar by done. rewrite u32_small by lia. lia.
    + destruct (Hpo k ltac:(lia)) as [_ Hp]. specialize (Hp ltac:(lia)).
      specialize (IH ltac:(lia)).
      destruct (inside_parent k ltac:(lia)) as [Htj Hkj].
      split; [lia|].
      destruct (decide (parent (tok_at (tokens q) k) = i)) as [E|Hne].
      * rewrite E in Htj, Hkj. by rewrite next_container.
      * destruct (is_container (value_type (tok_at (tokens q) i))) eqn:Hty.
        2:{ rewrite next_scalar in IH by done. rewrite u32_small in IH by lia. lia. }
        rewrite next_container in IH |- * by done.
        destruct (span_descend _ i (parent (tok_at (tokens q) k)) Hi Hty (le_n _)
                    ltac:(lia)) as (_ & Hn & _).
        rewrite next_container in Hn by done. lia.
  - intros [H1 H2]. destruct (decide (k = i)) as [->|Hne]; [constructor|].
    destruct (is_container (value_type (tok_at (tokens q) i))) eqn:Hty.
    + rewrite next_container in H2 by done.
      by destruct (span_descend _ i k Hi Hty (le_n _) ltac:(lia)) as (Ha & _).
    + rewrite next_scalar in H2 by done. rewrite u32_small in H2 by lia. lia.
Qed.
End Tree.

(** X4: after a parse that succeeds, the subtree of a token is a range of
    indices: a token [k] is the token [i] or one of its descendants if
    and only if [k] lies from [i] up to, and not including,
    [mxjson_next] of [i]. *)
Theorem subtree_is_range p js i k :
  ctx_ok p -> short_input (data js) ->
  fst (mxjson_parse p js) = true ->
  let q := snd (mxjson_parse p js) in
  1 <= i <= idx q -> 1 <= k <= idx q ->
  ancestor q i k <-> i <= k < mxjson_next q i.
Proof.
  intros Hok Hshort Hres.
  destruct (parse_success p js Hok Hshort Hres) as ((_ & Hcl) & Hpo & Hidx & Hc & _).
  destruct (mxjson_parse p js) as [ok q] eqn:E. cbn [fst snd] in *. subst ok.
  pose proof (parse_root_eq p js q Hok Hshort E) as Hroot.
  intros Hi Hk. apply subtree_range; try done; try lia.
  intros j Hj. apply Hcl; [done|by intros []].
Qed.

Lemma subtree_is_range_witness :
  let q := snd (mxjson_parse default_parser (input scenario_object)) in
  ancestor q 3 5 <-> 3 <= 5 < mxjson_next q 3.
Proof.
  apply (subtree_is_range default_parser (input scenario_object) 3 5 ctx_ok_default);
    by vm_compute.
Defined.

(** X5: after a parse that succeeds, the root token spans the whole
    array: [mxjson_next] of the root is the index just past the last
    token, and every other token has a parent that is an object or an
    array and lies before the [next] index of that parent. *)
Theorem root_spans_all p js :
  ctx_ok p -> short_input (data js) ->
  fst (mxjson_parse p js) = true ->
  let q := snd (mxjson_parse p js) in
  mxjson_next q 1 = idx q + 1 /\
  forall k, 2 <= k <= idx q ->
    let j := parent (tok_at (tokens q) k) in
    is_container (value_type (tok_at (tokens q) j)) = true /\
    j < k < next (tok_at (tokens q) j).
Proof.
  intros Hok Hshort Hres.
  destruct (parse_success p js Hok Hshort Hres) as ((_ & Hcl) & Hpo & Hidx & Hc & _).
  destruct (mxjson_parse p js) as [ok q] eqn:E. cbn [fst snd] in *. subst ok.
  pose proof (parse_root_eq p js q Hok Hshort E) as Hroot.
  assert (forall i, 1 <= i <= idx q -> closed q (idx q + 1) [] i) as Hcl'.
  { intros j Hj. apply Hcl; [done|by intros []]. }
  split.
  - destruct Hroot as [H1|[Hty Hn]].
    + destruct (is_container (value_type (tok_at (tokens q) 1))) eqn:Hty.
      * rewrite next_container by done. destruct (Hcl' 1 ltac:(lia) Hty) as (? & _). lia.
      * rewrite next_scalar by done. rewrite H1. done.
    + by rewrite next_container.
  - intros k Hk. destruct (inside_parent q Hcl' ltac:(lia) Hroot k Hk) as [H1 H2].
    destruct (Hpo k ltac:(lia)) as [_ Hp]. specialize (Hp ltac:(lia)).
    split_and!; try done; lia.
Qed.

Lemma root_spans_all_witness :
  let q := snd (mxjson_parse default_parser (input scenario_object)) in
  mxjson_next q 1 = idx q + 1 /\
  forall k, 2 <= k <= idx q ->
    let j := parent (tok_at (tokens q) k) in
    is_container (value_type (tok_at (tokens q) j)) = true /\
    j < k < next (tok_at (tokens q) j).
Proof.
  apply (root_spans_all default_parser (input scenario_object) ctx_ok_default);
    by vm_compute.
Defined.

(** *** The depth of a token (mxjson-tree.c) *)

Lemma nesting_fun p i n m : nesting p i n -> nesting p i m -> n = m.
Proof.
  intros H. revert m. induction H as [i H0|i n Hne H IH]; intros m Hm.
  - by inversion Hm.
  - inversion Hm as [|? m' ? Hm']; subst; [done|]. f_equal. by apply IH.
Qed.

Lemma depth_loop_spec q (fuel : nat) :
  parents_ok q ->
  forall i depth, 1 <= i <= idx q -> (Z.to_nat i <= fuel)%nat ->
    exists n, nesting q i n /\ (n < Z.to_nat i)%nat /\
      depth_loop fuel q i depth = Some (u16 (depth + 1 + Z.of_nat n)).
Proof.
  intros Hpo. induction fuel as [|fuel IH]; intros i depth Hi Hf; [lia|].
  cbn [depth_loop]. cbv zeta.
  destruct (Hpo i Hi) as [H1 H2].
  destruct (decide (i = 1)) as [->|Hne].
  - rewrite (H1 eq_refl). cbn [negb Z.eqb MXJSON_IDX_NONE].
    exists 0%nat. split_and!; [by constructor; apply H1|lia|].
    by rewrite Z.add_0_r.
  - specialize (H2 ltac:(lia)).
    destruct (IH (parent (tok_at (tokens q) i)) (u16 (depth + 1)) ltac:(lia) ltac:(lia))
      as (n & Hn & Hlt & E).
    unfold MXJSON_IDX_NONE.
    destruct (Z.eqb_spec (parent (tok_at (tokens q) i)) 0) as [?|_]; [lia|].
    cbn [negb]. exists (S n). split_and!.
    + apply nesting_child; [unfold MXJSON_IDX_NONE; lia|done].
    + lia.
    + rewrite E. f_equal. unfold u16.
      rewrite <- Z.add_assoc, Zplus_mod_idemp_l. f_equal. lia.
Qed.

(** X6: after a parse that succeeds, [token_depth] returns for every
    token: its loop over the parent links ends, and the result is the
    number of objects and arrays the token is inside, reduced modulo
    2^16 as the [uint16_t] counter of the program wraps. *)
Theorem token_depth_counts p js i :
  ctx_ok p -> short_input (data js) ->
  fst (mxjson_parse p js) = true ->
  let q := snd (mxjson_parse p js) in
  1 <= i <= idx q ->
  exists n, nesting q i n /\ (n < Z.to_nat i)%nat /\
            token_depth q i = Some (Z.of_nat n mod 65536).
Proof.
  intros Hok Hshort Hres q Hi.
  destruct (parse_success p js Hok Hshort Hres) as (_ & Hpo & _).
  fold q in Hpo.
  destruct (depth_loop_spec q (Z.to_nat i) Hpo i 0 Hi (le_n _)) as (n & Hn & Hlt & E).
  exists n. split_and!; try done. unfold token_depth. rewrite E. f_equal. unfold u16.
  rewrite Zminus_mod_idemp_l. f_equal. lia.
Qed.

Lemma token_depth_counts_witness :
  let q := snd (mxjson_parse default_parser (input scenario_object)) in
  exists n, nesting q 4 n /\ (n < Z.to_nat 4)%nat /\
            token_depth q 4 = Some (Z.of_nat n mod 65536).
Proof.
  apply (token_depth_counts default_parser (input scenario_object) 4 ctx_ok_default);
    by vm_compute.
Defined.

(** *** What a parse consumes *)

Lemma loop_bound B fuel :
  forall p s p' s',
    head_ok B p s -> (dlen s < fuel)%nat ->
    parse_json_loop fuel p s = Some (true, p', s') ->
    idx p' + Z.of_nat (dlen s') < B.
Proof.
  induction fuel as [|fuel IH]; intros p s p' s' Hh Hf; [lia|].
  cbn [parse_json_loop].
  destruct (parse_json_turn p s) as [[ok p1] s1] eqn:Et.
  apply turn_exits in Et.
  destruct (turn_head _ _ _ _ _ _ Hh Et) as (_ & _ & _ & _ & _ & Htr).
  destruct ok; cbn [andb]; [|by intros [=]].
  destruct (Htr eq_refl) as (Hlt & _ & _ & Hz & Hnz).
  destruct (current_parent p1 =? MXJSON_IDX_NONE) eqn:E; cbn [negb].
  - apply Z.eqb_eq in E. intros [= <- <-]. rewrite (Hz E).
    destruct Hh as (_ & _ & _ & _ & _ & HB & _). lia.
  - apply Z.eqb_neq in E. apply IH; [by apply Hnz|lia].
Qed.

Lemma parse_consumed p js q :
  ctx_ok p -> short_input (data js) ->
  mxjson_parse p js = (true, q) ->
  data (unparsed q) = [] /\ 1 <= idx q <= Z.of_nat (length (data js)).
Proof.
  intros Hok Hshort. unfold mxjson_parse.
  destruct (mxjson_token (parse_reset p js)) as [[] p1] eqn:Et; [|done].
  destruct (root_head _ _ _ Hok Hshort Et) as (Hh & _).
  unfold mxjson_parse_json.
  destruct (loop_head _ (S (dlen (unparsed p1))) _ _ Hh ltac:(lia))
    as (ok & p' & s' & E & _ & _ & _ & Hi & _).
  rewrite E. destruct ok; [|done].
  pose proof (loop_bound _ (S (dlen (unparsed p1))) _ _ _ _ Hh ltac:(lia) E) as Hb.
  intros [= Hem <-]. cbn [unparsed set_unparsed idx].
  split; [|lia]. unfold mxstr_empty in Hem.
  by destruct (data (mxjson_consume_ws s')).
Qed.

(** X7: a parse that succeeds has consumed the whole input, and has
    produced at least one token and at most as many tokens as the input
    has bytes. *)
Theorem success_consumes_input p js :
  ctx_ok p -> short_input (data js) ->
  fst (mxjson_parse p js) = true ->
  let q := snd (mxjson_parse p js) in
  data (unparsed q) = [] /\ 1 <= idx q <= Z.of_nat (length (data js)).
Proof.
  intros Hok Hshort Hres.
  destruct (mxjson_parse p js) as [ok q] eqn:E. cbn [fst snd] in *. subst ok.
  by apply (parse_consumed p js).
Qed.

Lemma success_consumes_input_witness :
  let q := snd (mxjson_parse default_parser (input scenario_object)) in
  data (unparsed q) = [] /\ 1 <= idx q <= Z.of_nat (length (data (input scenario_object))).
Proof.
  apply (success_consumes_input default_parser (input scenario_object) ctx_ok_default);
    by vm_compute.
Defined.

(** *** Where a value is expected *)

Lemma value_needs_start p s :
  starts_value (data s) = false -> (mxjson_parse_value p s).1.1 = false.
Proof.
  unfold starts_value, mxjson_parse_value, mxstr_getchar.
  destruct (data s) as [|c r]; [done|]. intros H.
  repeat (apply orb_false_iff in H as [H ?]).
  by repeat match goal with E : _ = false |- _ => rewrite E; clear E end.
Qed.

Lemma turn_needs_start p s :
  starts_value (data (mxjson_consume_ws s)) = false ->
  (parse_json_turn p s).1.1 = false.
Proof.
  intros H. unfold parse_json_turn.
  pose proof (value_needs_start p _ H) as Hv.
  by destruct (mxjson_parse_value p (mxjson_consume_ws s)) as [[[] ?] ?].
Qed.

(** X8: wherever the parser expects a value, the input that is left,
    after white space, has to begin with a quote, an opening bracket,
    the first letter of [true], [false] or [null], a minus sign or a
    digit; with any other byte there, or with no input left, the parse
    fails.  This is so for an empty or blank input, after a comma, and
    after the colon of a member. *)
Theorem value_start_required p js q t :
  ctx_ok p -> short_input (data js) ->
  value_position p js q t ->
  starts_value (data (mxjson_consume_ws t)) = false ->
  fst (mxjson_parse p js) = false.
Proof.
  intros Hok Hshort (p1 & Hroot & Ht) Hbad.
  unfold mxjson_parse. rewrite Hroot. unfold mxjson_parse_json.
  destruct (loop_turns _ _ _ _ Ht (S (dlen (unparsed p1))) ltac:(lia))
    as (fuel & Hfuel & ->).
  destruct fuel as [|fuel]; [lia|]. cbn [parse_json_loop].
  pose proof (turn_needs_start q t Hbad) as Hf.
  destruct (parse_json_turn q t) as [[ok q'] t']. cbn [fst snd] in Hf. by subst ok.
Qed.

Lemma value_start_required_witness :
  fst (mxjson_parse default_parser (input (bytes "[1,]"))) = false.
Proof.
  set (p1 := snd (mxjson_token (parse_reset default_parser (input (bytes "[1,]"))))).
  set (r1 := parse_json_turn p1 (unparsed p1)).
  set (r2 := parse_json_turn (snd (fst r1)) (snd r1)).
  apply (value_start_required default_parser (input (bytes "[1,]"))
           (snd (fst r2)) (snd r2) ctx_ok_default).
  - by vm_compute.
  - exists p1. split; [by vm_compute|].
    apply (turns_on _ _ (snd (fst r1)) (snd r1)); [by vm_compute|by vm_compute|].
    apply (turns_on _ _ (snd (fst r2)) (snd r2)); [by vm_compute|by vm_compute|].
    apply turns_here.
  - by vm_compute.
Defined.

(** *** A callback that always grows the array *)

Lemma turn_grows B p s p' s' :
  head_ok B p s -> growing_policy (resize_fn p) ->
  turn_exit p s false p' s' -> idx p' < count p'.
Proof.
  intros Hh Hg Hx.
  assert (HB : B < 2147483648) by apply Hh.
  assert (Hi : 1 <= idx p < count p) by apply Hh.
  inversion Hx as [f opens s1 Hv | f opens s1 p2 s2 Hv Ha
    | f opens s1 p2 s2 par s4 Hv Ha Hpar Hc
    | f opens s1 p2 s2 par s4 p5 Hv Ha Hpar Hc Ht
    | f opens s1 p2 s2 par s4 p5 Hv Ha Hpar Hc Ht Hty
    | f opens s1 p2 s2 par s4 p5 ok g s6 Hv Ha Hpar Hc Ht Hty Hn]; subst;
    pose proof (value_state _ _ _ _ _ _ _ Hh Hv)
      as (Hok1 & Hs1 & Hi1 & Hc1 & Ht1 & Hcp1 & Hp1 & Hl1 & HB1 & Hk1).
  - lia.
  - destruct (ascend_state _ _ _ _ _ (idx p) Hok1 ltac:(lia) Hi1 Hcp1 Hp1 Ha)
      as (Hok2 & Hs2 & Hi2 & Hc2 & _).
    cbn [idx count set_current_parent]. lia.
  - destruct (ascend_state _ _ _ _ _ (idx p) Hok1 ltac:(lia) Hi1 Hcp1 Hp1 Ha)
      as (Hok2 & Hs2 & Hi2 & Hc2 & _).
    destruct (HB1 eq_refl) as [HB1' _].
    assert (fst (mxjson_token (set_current_parent par p2)) = true) as Hgr.
    { apply token_grows; cbn [resize_fn idx count tokens set_current_parent].
      - destruct Hs1 as (_ & _ & _ & E1). destruct Hs2 as (_ & _ & _ & E2).
        by rewrite E2, E1.
      - by apply ctx_ok_set_cp.
      - lia.
      - lia.
      - right. lia. }
    by rewrite Ht in Hgr.
  - destruct (ascend_state _ _ _ _ _ (idx p) Hok1 ltac:(lia) Hi1 Hcp1 Hp1 Ha)
      as (Hok2 & Hs2 & Hi2 & Hc2 & Ht2 & Hpar2 & Hp2 & Hl2).
    destruct (HB1 eq_refl) as [HB1' _].
    destruct (token_state p2 par (idx p) p5) as
      (Hok5 & Hs5 & Hi5 & Hc5 & _); try done; try lia.
    pose proof (upd_token_fields g p5) as (E1 & E2 & E3 & E4 & E5 & E6 & _).
    rewrite ?E1, ?E6. lia.
Qed.

Lemma loop_grows B fuel :
  forall p s ok p' s',
    head_ok B p s -> growing_policy (resize_fn p) -> (dlen s < fuel)%nat ->
    parse_json_loop fuel p s = Some (ok, p', s') -> idx p' < count p'.
Proof.
  induction fuel as [|fuel IH]; intros p s ok p' s' Hh Hg Hf; [lia|].
  cbn [parse_json_loop].
  destruct (parse_json_turn p s) as [[ok1 p1] s1] eqn:Et.
  apply turn_exits in Et.
  destruct (turn_head _ _ _ _ _ _ Hh Et) as (_ & (_ & _ & _ & Hrf) & _ & _ & _ & Htr).
  destruct ok1; cbn [andb].
  - destruct (Htr eq_refl) as (Hlt & _ & Hic & _ & Hnz).
    destruct (current_parent p1 =? MXJSON_IDX_NONE) eqn:E; cbn [negb].
    + by intros [= <- <- <-].
    + apply Z.eqb_neq in E. apply IH; [by apply Hnz|by rewrite Hrf|lia].
  - intros [= <- <- <-]. by eapply turn_grows.
Qed.

Lemma parse_grows p js ok q :
  ctx_ok p -> growing_policy (resize_fn p) -> short_input (data js) ->
  mxjson_parse p js = (ok, q) -> 1 <= idx q < count q.
Proof.
  intros Hok Hg Hshort. unfold mxjson_parse.
  pose proof (parse_reset_fields p js) as (_ & R2 & _ & _ & R5 & R6 & _ & _ & R9 & _).
  assert (fst (mxjson_token (parse_reset p js)) = true) as Hgr.
  { apply token_grows; rewrite ?R2, ?R9; try done; try lia.
    rewrite R5, R6. destruct Hok as (_ & _ & _ & Hs). destruct (tokens p); [|by left].
    right. simpl in Hs. lia. }
  destruct (mxjson_token (parse_reset p js)) as [[] p1] eqn:Et; [|done].
  destruct (root_head _ _ _ Hok Hshort Et) as (Hh & _ & _ & _ & Hrf).
  unfold mxjson_parse_json.
  destruct (loop_head _ (S (dlen (unparsed p1))) _ _ Hh ltac:(lia))
    as (ok' & p' & s' & E & _ & _ & _ & Hi & _).
  rewrite E.
  pose proof (loop_grows _ (S (dlen (unparsed p1))) _ _ _ _ _ Hh
                ltac:(by rewrite Hrf) ltac:(lia) E) as Hlt.
  destruct ok'; intros [= _ <-]; cbn [idx count set_unparsed]; lia.
Qed.

(** X9: with a callback that grows the token array whenever it is asked
    to, as [mxjson_resize] does, a parse never ends out of token memory:
    success or failure, the index of the last token is below the
    capacity, so a failure is a syntax error. *)
Theorem growing_never_exhausts p js :
  ctx_ok p -> growing_policy (resize_fn p) -> short_input (data js) ->
  let q := snd (mxjson_parse p js) in
  1 <= idx q < count q.
Proof.
  intros Hok Hg Hshort.
  destruct (mxjson_parse p js) as [ok q] eqn:E. cbn [snd].
  by apply (parse_grows p js ok).
Qed.

Lemma growing_never_exhausts_witness :
  let q := snd (mxjson_parse default_parser (input nested8)) in
  1 <= idx q < count q.
Proof.
  apply (growing_never_exhausts default_parser (input nested8) ctx_ok_default).
  - exact mxjson_resize_grows.
  - by vm_compute.
Defined.

(** *** How many tokens an input can need *)

Lemma turn_idx_bound B p s ok p' s' :
  head_ok B p s -> turn_exit p s ok p' s' -> idx p' <= B.
Proof.
  intros Hh Hx.
  assert (HB : B < 2147483648) by apply Hh.
  assert (Hi : 1 <= idx p < count p) by apply Hh.
  assert (HiB : idx p <= B) by (destruct Hh as (_ & _ & _ & _ & _ & ? & _); lia).
  destruct ok.
  { destruct (turn_head _ _ _ _ _ _ Hh Hx) as (_ & _ & _ & _ & _ & Htr).
    destruct (Htr eq_refl) as (_ & _ & _ & Hz & Hnz).
    destruct (decide (current_parent p' = 0)) as [E|E]; [rewrite (Hz E); lia|].
    destruct (Hnz E) as (_ & _ & _ & _ & _ & ? & _). lia. }
  inversion Hx as [f opens s1 Hv | f opens s1 p2 s2 Hv Ha
    | f opens s1 p2 s2 par s4 Hv Ha Hpar Hc
    | f opens s1 p2 s2 par s4 p5 Hv Ha Hpar Hc Ht
    | f opens s1 p2 s2 par s4 p5 Hv Ha Hpar Hc Ht Hty
    | f opens s1 p2 s2 par s4 p5 ok g s6 Hv Ha Hpar Hc Ht Hty Hn]; subst;
    pose proof (value_state _ _ _ _ _ _ _ Hh Hv)
      as (Hok1 & Hs1 & Hi1 & Hc1 & Ht1 & Hcp1 & Hp1 & Hl1 & HB1 & Hk1).
  - lia.
  - destruct (ascend_state _ _ _ _ _ (idx p) Hok1 ltac:(lia) Hi1 Hcp1 Hp1 Ha)
      as (Hok2 & Hs2 & Hi2 & Hc2 & _).
    cbn [idx set_current_parent]. lia.
  - destruct (ascend_state _ _ _ _ _ (idx p) Hok1 ltac:(lia) Hi1 Hcp1 Hp1 Ha)
      as (Hok2 & Hs2 & Hi2 & Hc2 & _).
    destruct (HB1 eq_refl) as [HB1' _].
    pose proof (mxjson_token_spec (set_current_parent par p2)) as Hs.
    rewrite Ht in Hs.
    cbn [idx count tokens current_parent json set_current_parent] in Hs.
    specialize (Hs (ctx_ok_set_cp _ _ Hok2) ltac:(lia) ltac:(lia) ltac:(right; lia)).
    destruct Hs as (-> & _). cbn [idx set_idx set_current_parent]. lia.
  - destruct (ascend_state _ _ _ _ _ (idx p) Hok1 ltac:(lia) Hi1 Hcp1 Hp1 Ha)
      as (Hok2 & Hs2 & Hi2 & Hc2 & Ht2 & Hpar2 & Hp2 & Hl2).
    destruct (HB1 eq_refl) as [HB1' _].
    destruct (token_state p2 par (idx p) p5) as
      (Hok5 & Hs5 & Hi5 & Hc5 & _); try done; try lia.
    rewrite upd_token_idx. lia.
Qed.

Lemma loop_idx_bound B fuel :
  forall p s ok p' s',
    head_ok B p s -> (dlen s < fuel)%nat ->
    parse_json_loop fuel p s = Some (ok, p', s') -> idx p' <= B.
Proof.
  induction fuel as [|fuel IH]; intros p s ok p' s' Hh Hf; [lia|].
  cbn [parse_json_loop].
  destruct (parse_json_turn p s) as [[ok1 p1] s1] eqn:Et.
  apply turn_exits in Et.
  pose proof (turn_idx_bound _ _ _ _ _ _ Hh Et) as Hb.
  destruct (turn_head _ _ _ _ _ _ Hh Et) as (_ & _ & _ & _ & _ & Htr).
  destruct ok1; cbn [andb]; [|by intros [= <- <- <-]].
  destruct (Htr eq_refl) as (Hlt & _ & _ & _ & Hnz).
  destruct (current_parent p1 =? MXJSON_IDX_NONE) eqn:E; cbn [negb].
  - by intros [= <- <- <-].
  - apply Z.eqb_neq in E. apply IH; [by apply Hnz|lia].
Qed.

Lemma parse_idx_bound p js :
  ctx_ok p -> short_input (data js) ->
  1 <= idx (snd (mxjson_parse p js)) <= Z.of_nat (length (data js)) + 1.
Proof.
  intros Hok Hshort.
  destruct (parse_spec p js Hok Hshort) as (ok & q & E & _ & _ & _ & _ & _ & Hi & _).
  rewrite E. cbn [snd]. split; [done|]. revert E. unfold mxjson_parse.
  destruct (mxjson_token (parse_reset p js)) as [[] p1] eqn:Et.
  - destruct (root_head _ _ _ Hok Hshort Et) as (Hh & _).
    unfold mxjson_parse_json.
    destruct (loop_head _ (S (dlen (unparsed p1))) _ _ Hh ltac:(lia))
      as (ok' & p' & s' & El & _).
    rewrite El.
    pose proof (loop_idx_bound _ (S (dlen (unparsed p1))) _ _ _ _ _ Hh ltac:(lia) El).
    destruct ok'; intros [= _ <-]; cbn [idx set_unparsed]; lia.
  - intros [= _ <-].
    pose proof (mxjson_token_fields (parse_reset p js)) as Hf. rewrite Et in Hf.
    cbn [fst snd] in Hf. destruct Hf as (-> & _).
    rewrite (proj1 (proj2 (parse_reset_fields p js))). rewrite u32_small; lia.
Qed.

(** X10: how large a token array an input can need.  Whatever the
    outcome, a parse leaves the index of the last token at most one
    above the number of bytes of the input.  So with an array from the
    caller that has more than that many tokens plus one, and no callback
    to grow it, a parse never ends out of token memory. *)
Theorem sized_array_suffices p js :
  ctx_ok p -> cap_ok p -> fixed_policy (resize_fn p) -> short_input (data js) ->
  init_tokens p <> None ->
  Z.of_nat (length (data js)) + 1 < init_count p ->
  let q := snd (mxjson_parse p js) in
  idx q <= Z.of_nat (length (data js)) + 1 /\ 1 <= idx q < count q.
Proof.
  intros Hok Hcap Hfx Hshort Hit Hsz.
  pose proof (parse_idx_bound p js Hok Hshort) as Hb.
  pose proof (parse_keeps p js Hok Hcap (or_introl Hfx) Hshort) as Hk.
  cbv zeta in Hk. destruct Hk as (Hokq & Hcapq & Hic & _ & Hrf).
  destruct (parse_spec p js Hok Hshort)
    as (ok & q & E & _ & _ & _ & _ & _ & Hi & Hfl & Htr).
  rewrite E in *. cbn [snd] in *. split; [lia|]. split; [done|].
  destruct ok; [by destruct (Htr eq_refl) as (_ & ? & _)|].
  destruct (Hfl eq_refl) as [?|[Heq|(Hn & _ & _ & Hpn)]]; [done|..].
  - assert (tokens q <> None) as Hne.
    { destruct Hokq as (_ & _ & _ & Hst). destruct (tokens q); [done|]. simpl in Hst. lia. }
    unfold cap_ok in Hcapq. rewrite Hrf, Hic in Hcapq.
    destruct (Hcapq Hfx Hne) as (Hc & _). lia.
  - exfalso. revert E. unfold mxjson_parse.
    pose proof (parse_reset_fields p js) as (_ & R2 & _ & _ & R5 & R6 & R7 & R8 & R9 & _).
    assert (ctx_ok (parse_reset p js)) as Hok0 by exact Hok.
    assert (cap_ok (parse_reset p js)) as Hcap0.
    { unfold cap_ok. by rewrite R5, R6, R7, R8, R9. }
    destruct (token_fixed (parse_reset p js)) as [Hft _];
      rewrite ?R2, ?R9; try done; try lia.
    { left. by rewrite R6. }
    rewrite R2, R7, R8 in Hft. destruct (init_tokens p) eqn:Eit; [|done].
    assert ((0 + 1 <? init_count p) = true) as Hlt by (apply Z.ltb_lt; lia).
    rewrite Hlt in Hft.
    destruct (mxjson_token (parse_reset p js)) as [[] p1] eqn:Et; [|done].
    destruct (root_head _ _ _ Hok Hshort Et) as (Hh & _).
    unfold mxjson_parse_json.
    destruct (loop_head _ (S (dlen (unparsed p1))) _ _ Hh ltac:(lia))
      as (ok' & p' & s' & El & Hok' & _ & _ & Hi' & Hf' & Ht').
    rewrite El.
    assert (tokens p' <> None) as Hne.
    { destruct Hok' as (_ & _ & _ & Hst). destruct (tokens p') eqn:Etp; [done|].
      simpl in Hst. destruct ok'; [destruct (Ht' eq_refl) as (_ & ? & _)|destruct (Hf' eq_refl)]; lia. }
    destruct ok'; intros E; apply (f_equal snd) in E; simpl in E; subst q;
      by cbn [tokens set_unparsed] in Hn.
Qed.

Lemma sized_array_suffices_witness :
  let q := snd (mxjson_parse (mxjson_init 32 (Some (replicate 32 zero_token)) None)
                  (input nested8)) in
  idx q <= Z.of_nat (length (data (input nested8))) + 1 /\ 1 <= idx q < count q.
Proof.
  apply (sized_array_suffices (mxjson_init 32 (Some (replicate 32 zero_token)) None)
           (input nested8)).
  - apply ctx_ok_init; [lia|by intros l [= <-]|done].
  - intros _ Hn. by destruct Hn.
  - done.
  - by vm_compute.
  - done.
  - by vm_compute.
Defined.

(** *** The report of mxjson-tree *)

Lemma parse_unparsed_len p js :
  ctx_ok p -> short_input (data js) ->
  (dlen (unparsed (snd (mxjson_parse p js))) <= dlen js)%nat.
Proof.
  intros Hok Hshort. unfold mxjson_parse.
  pose proof (parse_reset_fields p js) as (_ & _ & _ & _ & _ & _ & _ & _ & _ & R10).
  pose proof (mxjson_token_fields (parse_reset p js)) as Hf.
  destruct (mxjson_token (parse_reset p js)) as [[] p1] eqn:Et; cbn [fst snd] in Hf;
    destruct Hf as (_ & _ & _ & Hu & _).
  - destruct (root_head _ _ _ Hok Hshort Et) as (Hh & _).
    unfold mxjson_parse_json.
    destruct (loop_head _ (S (dlen (unparsed p1))) _ _ Hh ltac:(lia))
      as (ok' & p' & s' & El & _ & _ & Hl & _).
    rewrite El. rewrite Hu in Hl. pose proof (consume_ws_len s').
    destruct ok'; cbn [snd unparsed set_unparsed]; lia.
  - cbn [snd]. by rewrite Hu.
Qed.

Lemma tree_parser_ok : ctx_ok tree_parser.
Proof. apply ctx_ok_init; [lia|done|]. exact mxjson_resize_contract. Qed.

(** X11: what [mxjson-tree] reports.  For every input, its parse never
    ends out of token memory, so the first case of the report is never
    taken.  The report is [Valid JSON], with every byte counted as
    parsed, exactly when the parse succeeded, and [Invalid JSON], with
    fewer bytes parsed than the input has, when the parse failed with
    input left over.  No report is made, because the assertion of the
    last case fails, when the parse failed with no input left over. *)
Theorem tree_report_cases js :
  short_input (data js) ->
  let r := mxjson_parse tree_parser js in
  let n := Z.of_nat (length (data js)) in
  match tree_report js with
  | Some (status, parsed) =>
      (status = "Valid JSON"%string /\ fst r = true /\ parsed = n) \/
      (status = "Invalid JSON"%string /\ fst r = false /\ 0 <= parsed < n)
  | None => fst r = false /\ data (unparsed (snd r)) = []
  end.
Proof.
  intros Hshort r n. unfold tree_report. fold r.
  pose proof (parse_unparsed_len tree_parser js tree_parser_ok Hshort) as Hl.
  destruct (parse_spec tree_parser js tree_parser_ok Hshort)
    as (ok & q & E & _ & Hj & _).
  pose proof (parse_grows tree_parser js ok q tree_parser_ok mxjson_resize_grows Hshort E) as Hg.
  assert (ok = true -> data (unparsed q) = []) as Hc.
  { intros ->. by apply (parse_consumed tree_parser js q tree_parser_ok Hshort). }
  fold r in Hl, E. rewrite E in *. cbn [fst snd] in *.
  unfold tree_status.
  assert ((count q <=? idx q) = false) as -> by (apply Z.leb_gt; lia).
  rewrite Hj. unfold mxstr_len. fold n.
  assert (2 ^ 64 = 18446744073709551616) as -> by done.
  unfold short_input in Hshort.
  destruct (mxstr_empty (unparsed q)) eqn:Hem; unfold mxstr_empty in Hem; cbn [negb].
  - destruct (data (unparsed q)) eqn:Hd; [|done]. destruct ok; [|done].
    left. split_and!; try done. cbn [length]. rewrite Z.sub_0_r.
    apply Z.mod_small. lia.
  - destruct ok; cbn [negb].
    + by rewrite (Hc eq_refl) in Hem.
    + right. split_and!; try done.
      * apply Z.mod_pos_bound. lia.
      * rewrite Z.mod_small; destruct (data (unparsed q)); try done; cbn [length] in *; lia.
Qed.

(** X12: an input that ends where a value is expected, as an empty
    input, an input of white space or one that stops after an opening
    bracket, a comma or a colon does, is rejected with no input left
    over and with token memory to spare.  The result differs from that
    of a successful parse in the value returned alone, and [mxjson-tree]
    makes no report of it: the assertion of its last case fails. *)
Theorem truncated_input_unreported js q t :
  short_input (data js) ->
  value_position tree_parser js q t ->
  data (mxjson_consume_ws t) = [] ->
  let r := mxjson_parse tree_parser js in
  fst r = false /\ data (unparsed (snd r)) = [] /\
  idx (snd r) < count (snd r) /\ tree_report js = None.
Proof.
  intros Hshort (p1 & Hroot & Ht) Hend r.
  assert (1 <= idx (snd r) < count (snd r)) as Hg.
  { destruct r as [ok q'] eqn:E.
    exact (parse_grows tree_parser js ok q' tree_parser_ok mxjson_resize_grows Hshort E). }
  assert (fst r = false /\ data (unparsed (snd r)) = []) as [Hf Hd].
  { subst r. unfold mxjson_parse. rewrite Hroot. unfold mxjson_parse_json.
    destruct (loop_turns _ _ _ _ Ht (S (dlen (unparsed p1))) ltac:(lia))
      as (fuel & Hfuel & ->).
    destruct fuel as [|fuel]; [lia|]. cbn [parse_json_loop].
    unfold parse_json_turn, mxjson_parse_value, mxstr_getchar. rewrite Hend.
    cbn [andb fst snd unparsed set_unparsed]. by rewrite Hend. }
  split_and!; try done; try lia.
  unfold tree_report. fold r. destruct r as [ok p'] eqn:E. cbn [fst snd] in *. subst ok.
  unfold tree_status, mxstr_empty. rewrite Hd.
  by assert ((count p' <=? idx p') = false) as -> by (apply Z.leb_gt; lia).
Qed.

Lemma truncated_input_unreported_witness :
  let r := mxjson_parse tree_parser (input (bytes "[")) in
  fst r = false /\ data (unparsed (snd r)) = [] /\
  idx (snd r) < count (snd r) /\ tree_report (input (bytes "[")) = None.
Proof.
  set (p1 := snd (mxjson_token (parse_reset tree_parser (input (bytes "["))))).
  set (r1 := parse_json_turn p1 (unparsed p1)).
  apply (truncated_input_unreported (input (bytes "[")) (snd (fst r1)) (snd r1)).
  - by vm_compute.
  - exists p1. split; [by vm_compute|].
    apply (turns_on _ _ (snd (fst r1)) (snd r1)); [by vm_compute|by vm_compute|].
    apply turns_here.
  - by vm_compute.
Defined.

Lemma tree_report_cases_witness :
  let js := input scenario_object in
  let r := mxjson_parse tree_parser js in
  let n := Z.of_nat (length (data js)) in
  match tree_report js with
  | Some (status, parsed) =>
      (status = "Valid JSON"%string /\ fst r = true /\ parsed = n) \/
      (status = "Invalid JSON"%string /\ fst r = false /\ 0 <= parsed < n)
  | None => fst r = false /\ data (unparsed (snd r)) = []
  end.
Proof. apply (tree_report_cases (input scenario_object)). by vm_compute. Defined.

(** ** The string lexer *)

Ltac slice_eq :=
  repeat match goal with
         | |- Some _ = Some _ => f_equal
         | |- (_, _) = (_, _) => f_equal
         | |- mkstr _ _ _ = mkstr _ _ _ => f_equal
         end; try done; try lia.

Lemma string_loop_false fuel s c e r :
  parse_string_loop fuel false s c e = Some r -> r.1.1.1 = false.
Proof. destruct fuel; [done|]. cbn. by intros [= <-]. Qed.

Lemma consume_xdigits_false n s c :
  (consume_xdigits n false s c).1.1 = false.
Proof. by destruct n. Qed.

Lemma consume_xdigits_four b o l c s' c' :
  consume_xdigits 4 true (mkstr b o l) c = (true, s', c') <->
  exists a1 a2 a3 a4 rest,
    l = a1 :: a2 :: a3 :: a4 :: rest /\
    isxdigit a1 = true /\ isxdigit a2 = true /\
    isxdigit a3 = true /\ isxdigit a4 = true /\
    s' = mkstr b (o + 1 + 1 + 1 + 1) rest /\ c' = a4.
Proof.
  split.
  - cbn [consume_xdigits]. unfold mxstr_consume_char. cbn [data blk ptr].
    destruct l as [|a1 l]; [done|]. destruct (isxdigit a1) eqn:H1; [|done].
    cbn [data blk ptr].
    destruct l as [|a2 l]; [done|]. destruct (isxdigit a2) eqn:H2; [|done].
    cbn [data blk ptr].
    destruct l as [|a3 l]; [done|]. destruct (isxdigit a3) eqn:H3; [|done].
    cbn [data blk ptr].
    destruct l as [|a4 l]; [done|]. destruct (isxdigit a4) eqn:H4; [|done].
    cbn [data blk ptr]. intros [= <- <-]. by exists a1, a2, a3, a4, l.
  - intros (a1 & a2 & a3 & a4 & rest & -> & H1 & H2 & H3 & H4 & -> & ->).
    cbn [consume_xdigits]. unfold mxstr_consume_char. cbn [data blk ptr].
    rewrite H1. cbn [data blk ptr]. rewrite H2. cbn [data blk ptr].
    rewrite H3. cbn [data blk ptr]. by rewrite H4.
Qed.

Lemma string_loop_accepts items :
  forall fuel b o rest c e,
    Forall string_item_ok items ->
    (length (render items) < fuel)%nat ->
    parse_string_loop fuel true (mkstr b o (render items ++ DQUOTE :: rest)) c e =
    Some (true, mkstr b (o + Z.of_nat (length (render items))) (DQUOTE :: rest),
          DQUOTE, e || has_escape items).
Proof.
  induction items as [|it items IH]; intros fuel b o rest c e Hok Hf.
  - destruct fuel as [|fuel]; [cbn in Hf; lia|].
    cbn. by rewrite Z.add_0_r, orb_false_r.
  - apply Forall_cons in Hok as [Hit Hok].
    destruct fuel as [|fuel]; [lia|].
    destruct it as [x|x|a1 a2 a3 a4]; cbn [render render_item app] in Hf |- *;
      cbn [parse_string_loop]; unfold mxstr_consume_char; cbn [data blk ptr].
    + destruct Hit as (H1 & H2 & H3).
      assert (((chr " " <=? x) && negb (x =? DQUOTE)) = true) as ->.
      { apply andb_true_iff. split; [by apply Z.leb_le|].
        by apply negb_true_iff, Z.eqb_neq. }
      assert (negb (x =? BACKSLASH) = true) as -> by (by apply negb_true_iff, Z.eqb_neq).
      rewrite IH by (try done; simpl in Hf; lia).
      cbn [length has_escape existsb is_escape orb]. slice_eq.
    + cbn [item_ok string_item_ok] in Hit.
      assert (((chr " " <=? BACKSLASH) && negb (BACKSLASH =? DQUOTE)) = true) as -> by done.
      assert (negb (BACKSLASH =? BACKSLASH) = false) as -> by done.
      unfold mxjson_parse_escaped_char, mxstr_getchar. cbn [data blk ptr].
      rewrite Hit. unfold mxstr_consume, mxstr_advance. cbn [data blk ptr length Nat.leb snd skipn]; rewrite ?drop_0.
      rewrite IH by (try done; simpl in Hf; lia).
      cbn [length has_escape existsb is_escape orb]. rewrite orb_true_r.
      slice_eq.
    + cbn [item_ok string_item_ok] in Hit. destruct Hit as (H1 & H2 & H3 & H4).
      assert (((chr " " <=? BACKSLASH) && negb (BACKSLASH =? DQUOTE)) = true) as -> by done.
      assert (negb (BACKSLASH =? BACKSLASH) = false) as -> by done.
      unfold mxjson_parse_escaped_char, mxstr_getchar. cbn [data blk ptr].
      assert (is_simple_escape (chr "u") = false) as -> by done.
      assert ((chr "u" =? chr "u") = true) as -> by done.
      unfold mxstr_consume, mxstr_advance. cbn [data blk ptr length Nat.leb snd skipn]; rewrite ?drop_0.
      destruct (consume_xdigits 4 true
                  (mkstr b (o + 1 + Z.of_nat 1) (a1 :: a2 :: a3 :: a4 :: render items ++ DQUOTE :: rest))
                  (chr "u")) as [[ok s1] c1] eqn:E.
      assert (ok = true /\ s1 = mkstr b (o + 1 + Z.of_nat 1 + 1 + 1 + 1 + 1)
                                     (render items ++ DQUOTE :: rest)) as [-> ->].
      { pose proof (proj2 (consume_xdigits_four b (o + 1 + Z.of_nat 1)
          (a1 :: a2 :: a3 :: a4 :: render items ++ DQUOTE :: rest) (chr "u")
          (mkstr b (o + 1 + Z.of_nat 1 + 1 + 1 + 1 + 1) (render items ++ DQUOTE :: rest)) a4)) as H.
        rewrite H in E by (by exists a1, a2, a3, a4, (render items ++ DQUOTE :: rest)).
        by injection E as <- <- <-. }
      rewrite IH by (try done; simpl in Hf; lia).
      cbn [length has_escape existsb is_escape orb]. rewrite orb_true_r.
      slice_eq.
Qed.

Lemma string_loop_sound fuel :
  forall b o l c e s' e',
    l <> [] \/ c <> DQUOTE ->
    parse_string_loop fuel true (mkstr b o l) c e = Some (true, s', DQUOTE, e') ->
    exists items rest,
      Forall string_item_ok items /\ l = render items ++ DQUOTE :: rest /\
      s' = mkstr b (o + Z.of_nat (length (render items))) (DQUOTE :: rest) /\
      e' = e || has_escape items.
Proof.
  induction fuel as [|fuel IH]; intros b o l c e s' e' Hc; [done|].
  cbn [parse_string_loop]. unfold mxstr_consume_char. cbn [data blk ptr].
  destruct l as [|x l].
  { intros [= <- -> <-]. by destruct Hc. }
  destruct ((chr " " <=? x) && negb (x =? DQUOTE)) eqn:Hx.
  2:{ intros [= <- -> <-]. exists [], l. cbn. split_and!; try done.
      - by rewrite Z.add_0_r.
      - by rewrite orb_false_r. }
  apply andb_true_iff in Hx as [Hx1 Hx2].
  apply Z.leb_le in Hx1. apply negb_true_iff, Z.eqb_neq in Hx2.
  destruct (x =? BACKSLASH) eqn:Hb; cbn [negb].
  - apply Z.eqb_eq in Hb. subst x.
    unfold mxjson_parse_escaped_char, mxstr_getchar. cbn [data blk ptr].
    destruct l as [|y l].
    { intros E. by apply string_loop_false in E. }
    destruct (is_simple_escape y) eqn:Hy.
    + unfold mxstr_consume, mxstr_advance. cbn [data blk ptr length Nat.leb snd skipn]; rewrite ?drop_0.
      intros E. apply IH in E as (items & rest & Hok & -> & -> & ->); [|by right].
      exists (Esc y :: items), rest. split_and!.
      * by constructor.
      * done.
      * cbn [render render_item app length]. slice_eq.
      * cbn [has_escape existsb is_escape orb]. by rewrite orb_true_r.
    + destruct (y =? chr "u") eqn:Hu.
      2:{ intros E. by apply string_loop_false in E. }
      apply Z.eqb_eq in Hu. subst y.
      unfold mxstr_consume, mxstr_advance. cbn [data blk ptr length Nat.leb snd skipn]; rewrite ?drop_0.
      destruct (consume_xdigits 4 true (mkstr b (o + 1 + Z.of_nat 1) l) (chr "u"))
        as [[ok s1] c1] eqn:E4.
      destruct ok.
      2:{ intros E. by apply string_loop_false in E. }
      apply consume_xdigits_four in E4
        as (a1 & a2 & a3 & a4 & tl & -> & H1 & H2 & H3 & H4 & -> & ->).
      intros E. apply IH in E as (items & rest & Hok & -> & -> & ->); [|by right].
      exists (EscU a1 a2 a3 a4 :: items), rest. split_and!.
      * by constructor.
      * done.
      * cbn [render render_item app length]. slice_eq.
      * cbn [has_escape existsb is_escape orb]. by rewrite orb_true_r.
  - apply Z.eqb_neq in Hb.
    intros E. apply IH in E as (items & rest & Hok & -> & -> & ->); [|by right].
    exists (Plain x :: items), rest. split_and!.
    + by constructor.
    + done.
    + cbn [render render_item app length]. slice_eq.
    + done.
Qed.

Lemma string_sound b o l v e s' val e' :
  mxjson_parse_string (mkstr b o l) v e = (true, s', val, e') ->
  exists items rest,
    Forall string_item_ok items /\
    l = DQUOTE :: render items ++ DQUOTE :: rest /\
    s' = mkstr b (o + 2 + Z.of_nat (length (render items))) rest /\
    val = mkstr b (o + 1) (render items) /\
    e' = e || has_escape items.
Proof.
  unfold mxjson_parse_string, mxstr_consume_char. cbn [data blk ptr].
  destruct l as [|q l].
  { cbn [andb]. destruct (parse_string_loop _ false _ _ _) as [[[[ok s1] c1] e1]|] eqn:E;
      [|done]. apply string_loop_false in E. cbn in E. by subst ok. }
  destruct (q =? DQUOTE) eqn:Hq.
  2:{ cbn [andb]. destruct (parse_string_loop _ false _ _ _) as [[[[ok s1] c1] e1]|] eqn:E;
      [|done]. apply string_loop_false in E. cbn in E. by subst ok. }
  apply Z.eqb_eq in Hq. subst q. unfold mxstr_empty. cbn [data].
  destruct l as [|x l].
  { cbn [andb negb]. destruct (parse_string_loop _ false _ _ _) as [[[[ok s1] c1] e1]|] eqn:E;
      [|done]. apply string_loop_false in E. cbn in E. by subst ok. }
  cbn [andb negb].
  destruct (parse_string_loop _ true _ _ _) as [[[[ok s1] c1] e1]|] eqn:E; [|done].
  destruct ok; [|done]. cbn [andb].
  destruct (c1 =? DQUOTE) eqn:Hc; [|done]. apply Z.eqb_eq in Hc. subst c1.
  apply string_loop_sound in E as (items & rest & Hok & Hl & -> & ->); [|by left].
  rewrite Hl. unfold mxstr_consume, mxstr_advance. cbn [data blk ptr length Nat.leb snd skipn]; rewrite ?drop_0.
  intros [= <- <- <-]. exists items, rest. split_and!; try done.
  + slice_eq.
  + apply prefix_run.
Qed.

Lemma string_accepts b o items rest v e :
  Forall string_item_ok items ->
  mxjson_parse_string (mkstr b o (DQUOTE :: render items ++ DQUOTE :: rest)) v e =
  (true, mkstr b (o + 2 + Z.of_nat (length (render items))) rest,
   mkstr b (o + 1) (render items), e || has_escape items).
Proof.
  intros Hok.
  unfold mxjson_parse_string, mxstr_consume_char. cbn [data blk ptr].
  assert ((DQUOTE =? DQUOTE) = true) as -> by done.
  assert (mxstr_empty (mkstr b (o + 1) (render items ++ DQUOTE :: rest)) = false) as ->.
  { unfold mxstr_empty. cbn [data]. by destruct (render items). }
  cbn [andb negb].
  rewrite string_loop_accepts by (try done; cbn [data]; rewrite length_app; simpl; lia).
  cbn [andb]. assert ((DQUOTE =? DQUOTE) = true) as -> by done.
  unfold mxstr_consume, mxstr_advance. cbn [data blk ptr length Nat.leb snd skipn]; rewrite ?drop_0.
  rewrite prefix_run. slice_eq.
Qed.

(** X13: the string lexer accepts exactly the string grammar.
    [mxjson_parse_string] succeeds on an input if and only if the input
    is a quote, then pieces that are each a byte from the space on other
    than the quote and the backslash, a backslash followed by one of the
    eight escape letters, or a backslash, the letter u and four
    hexadecimal digits, and then a quote.  It then leaves what follows
    the closing quote, gives the bytes between the quotes as the value,
    and raises the escape flag when one of the pieces is an escape. *)
Theorem parse_string_grammar b o l v e s' val e' :
  mxjson_parse_string (mkstr b o l) v e = (true, s', val, e') <->
  exists items rest,
    Forall string_item_ok items /\
    l = DQUOTE :: render items ++ DQUOTE :: rest /\
    s' = mkstr b (o + 2 + Z.of_nat (length (render items))) rest /\
    val = mkstr b (o + 1) (render items) /\
    e' = e || has_escape items.
Proof.
  split; [apply string_sound|].
  intros (items & rest & Hok & -> & -> & -> & ->). by apply string_accepts.
Qed.

Lemma parse_string_grammar_witness :
  mxjson_parse_string (mkstr BInput 0 (quoted "a\n" ++ bytes ",1")) mxstr_null false =
  (true, mkstr BInput (0 + 2 + Z.of_nat (length (render [Plain (chr "a"); Esc (chr "n")])))
               (bytes ",1"),
   mkstr BInput (0 + 1) (render [Plain (chr "a"); Esc (chr "n")]),
   false || has_escape [Plain (chr "a"); Esc (chr "n")]).
Proof.
  apply (proj2 (parse_string_grammar BInput 0 (quoted "a\n" ++ bytes ",1") mxstr_null false
                  _ _ _)).
  exists [Plain (chr "a"); Esc (chr "n")], (bytes ",1").
  split_and!; try done. repeat constructor; by vm_compute.
Defined.

(** ** What the unescape pass writes *)

Lemma decode_plains ps rest :
  decode (map Plain ps ++ rest) = option_map (app ps) (decode rest).
Proof.
  induction ps as [|x ps IH]; cbn [map app decode].
  - by destruct (decode rest).
  - rewrite IH. by destruct (decode rest).
Qed.

Lemma ends_in_escape_plains ps rest :
  rest <> [] -> ends_in_escape (map Plain ps ++ rest) <-> ends_in_escape rest.
Proof.
  intros Hne. unfold ends_in_escape.
  destruct rest as [|it rest]; [done|]. by rewrite last_app_cons.
Qed.

Lemma ends_in_escape_cons it rest :
  is_escape it = true -> ends_in_escape (it :: rest) <-> ends_in_escape rest.
Proof.
  intros Hit. unfold ends_in_escape. destruct rest as [|it' rest].
  - by destruct it.
  - by rewrite last_cons_cons.
Qed.

Lemma ends_in_escape_only_plains ps :
  ends_in_escape (map Plain ps) <-> ps = [].
Proof.
  unfold ends_in_escape. split; [|by intros ->].
  induction ps as [|x ps _] using rev_ind; [done|].
  rewrite map_app. cbn [map]. by rewrite last_snoc.
Qed.

Lemma unescape_step_esc_byte buf b o ps x tl c :
  Forall (fun x => x <> BACKSLASH) ps -> is_simple_escape x = true ->
  unescape_step buf (mkstr b o (ps ++ BACKSLASH :: x :: tl)) c =
  (true, mkbuf ((contents buf ++ ps) ++ [unescape_byte x]),
   mkstr b (o + Z.of_nat (length ps) + 1 + 1) tl, x).
Proof.
  intros Hps Hx. rewrite unescape_step_front by done. cbv zeta.
  unfold is_simple_escape in Hx. unfold unescape_byte, mxbuf_putc. cbn [contents].
  destruct (x =? DQUOTE) eqn:E1.
  { apply Z.eqb_eq in E1. by subst x. }
  destruct (x =? BACKSLASH) eqn:E2.
  { apply Z.eqb_eq in E2. by subst x. }
  destruct (x =? chr "/") eqn:E3.
  { apply Z.eqb_eq in E3. by subst x. }
  cbn [orb] in Hx |- *.
  destruct (x =? chr "b"); [done|]. destruct (x =? chr "f"); [done|].
  destruct (x =? chr "n"); [done|]. destruct (x =? chr "r"); [done|].
  destruct (x =? chr "t"); [done|]. discriminate Hx.
Qed.

Lemma buf_app_nil buf : mkbuf (contents buf ++ []) = buf.
Proof. rewrite app_nil_r. by destruct buf. Qed.

Lemma unescape_loop_decodes fuel :
  forall items buf b o c l,
    Forall item_ok items -> ends_in_escape items -> decode items = Some l ->
    (length (render items) < fuel)%nat ->
    unescape_loop fuel true buf (mkstr b o (render items)) c =
    Some (true, mkbuf (contents buf ++ l)).
Proof.
  induction fuel as [|fuel IH]; intros items buf b o c l Hok He Hd Hf; [lia|].
  destruct (split_plains items) as (ps & rest & -> & Hrest).
  apply plains_ok in Hok as [Hps Hok].
  rewrite decode_plains in Hd.
  rewrite render_app, render_plains in Hf |- *. rewrite length_app in Hf.
  cbn [unescape_loop andb].
  destruct rest as [|[x|x|a1 a2 a3 a4] rest]; [|done|..].
  - rewrite app_nil_r in He. apply ends_in_escape_only_plains in He. subst ps.
    cbn in Hd. injection Hd as <-. cbn. by rewrite buf_app_nil.
  - apply ends_in_escape_plains in He; [|done].
    apply ends_in_escape_cons in He; [|done].
    apply Forall_cons in Hok as [Hx Hok]. cbn [item_ok] in Hx.
    cbn [decode] in Hd.
    destruct (decode rest) as [l'|] eqn:Hd'; [|done]. cbn in Hd. injection Hd as <-.
    cbn [render render_item app] in Hf |- *.
    assert (mxstr_empty (mkstr b o (ps ++ BACKSLASH :: x :: render rest)) = false) as ->.
    { unfold mxstr_empty. cbn [data]. by destruct ps. }
    cbn [negb]. rewrite unescape_step_esc_byte by done.
    rewrite (IH rest _ _ _ _ l') by (try done; simpl in Hf; lia).
    cbn [contents]. by rewrite <- !app_assoc.
  - apply ends_in_escape_plains in He; [|done].
    apply ends_in_escape_cons in He; [|done].
    apply Forall_cons in Hok as [(H1 & H2 & H3 & H4) Hok].
    cbn [render render_item app] in Hf |- *.
    assert (mxstr_empty (mkstr b o (ps ++ BACKSLASH :: chr "u" :: a1 :: a2 :: a3 :: a4 :: render rest)) = false) as ->.
    { unfold mxstr_empty. cbn [data]. by destruct ps. }
    cbn [negb]. cbn [decode] in Hd.
    destruct (is_high (hex4 a1 a2 a3 a4)) eqn:Hh.
    + destruct rest as [|[x|x|b1 b2 b3 b4] rest]; try done.
      destruct (is_low (hex4 b1 b2 b3 b4)) eqn:Hl; [|done].
      destruct (decode rest) as [l'|] eqn:Hd'; [|done]. cbn in Hd. injection Hd as <-.
      apply ends_in_escape_cons in He; [|done].
      apply Forall_cons in Hok as [(G1 & G2 & G3 & G4) Hok].
      cbn [render render_item app] in Hf |- *.
      rewrite unescape_step_u_pair by done.
      rewrite (IH rest _ _ _ _ l') by (try done; simpl in Hf; lia).
      cbn [contents]. by rewrite <- !app_assoc.
    + destruct (utf8_encode (hex4 a1 a2 a3 a4)) as [l0|] eqn:Hu; [|done].
      destruct (decode rest) as [l'|] eqn:Hd'; [|done]. cbn in Hd. injection Hd as <-.
      rewrite unescape_step_u_single by done.
      unfold mxbuf_put_utf8. rewrite Hu. cbn [contents].
      rewrite (IH rest _ _ _ _ l') by (try done; simpl in Hf; lia).
      cbn [contents]. by rewrite <- !app_assoc.
Qed.

Lemma unescape_loop_sound fuel :
  forall items buf b o c r,
    Forall item_ok items ->
    unescape_loop fuel true buf (mkstr b o (render items)) c = Some (true, r) ->
    ends_in_escape items /\
    exists l, decode items = Some l /\ r = mkbuf (contents buf ++ l).
Proof.
  induction fuel as [|fuel IH]; intros items buf b o c r Hok; [done|].
  destruct (split_plains items) as (ps & rest & -> & Hrest).
  apply plains_ok in Hok as [Hps Hok].
  rewrite decode_plains, render_app, render_plains.
  cbn [unescape_loop andb].
  destruct rest as [|[x|x|a1 a2 a3 a4] rest]; [|done|..].
  - cbn [render decode option_map]. rewrite !app_nil_r.
    destruct ps as [|y ps].
    { cbn. intros [= <-]. split; [done|]. exists []. by rewrite buf_app_nil. }
    assert (mxstr_empty (mkstr b o (y :: ps)) = false) as -> by done.
    cbn [negb].
    destruct (unescape_step_plain buf b o (y :: ps) c Hps) as (buf' & s' & c' & ->).
    intros E. by apply unescape_loop_false in E.
  - apply Forall_cons in Hok as [Hx Hok]. cbn [item_ok] in Hx.
    cbn [render render_item app].
    assert (mxstr_empty (mkstr b o (ps ++ BACKSLASH :: x :: render rest)) = false) as ->.
    { unfold mxstr_empty. cbn [data]. by destruct ps. }
    cbn [negb]. rewrite unescape_step_esc_byte by done.
    intros E. apply IH in E as (He & l' & Hd & ->); [|done].
    split.
    + apply ends_in_escape_plains; [done|]. by apply ends_in_escape_cons.
    + cbn [decode]. rewrite Hd. cbn. eexists. split; [done|].
      cbn [contents]. by rewrite <- !app_assoc.
  - apply Forall_cons in Hok as [Hit Hok]. pose proof Hit as (H1 & H2 & H3 & H4).
    cbn [render render_item app].
    assert (mxstr_empty (mkstr b o (ps ++ BACKSLASH :: chr "u" :: a1 :: a2 :: a3 :: a4 :: render rest)) = false) as ->.
    { unfold mxstr_empty. cbn [data]. by destruct ps. }
    cbn [negb]. cbn [decode].
    destruct (is_high (hex4 a1 a2 a3 a4)) eqn:Hh.
    + assert (Hfail :
        (forall w, head rest ≫= code_unit = Some w -> is_low w = false) ->
        unescape_loop fuel
          (unescape_step buf (mkstr b o (ps ++ BACKSLASH :: chr "u" :: a1 :: a2 :: a3 :: a4 :: render rest)) c).1.1.1
          (unescape_step buf (mkstr b o (ps ++ BACKSLASH :: chr "u" :: a1 :: a2 :: a3 :: a4 :: render rest)) c).1.1.2
          (unescape_step buf (mkstr b o (ps ++ BACKSLASH :: chr "u" :: a1 :: a2 :: a3 :: a4 :: render rest)) c).1.2
          (unescape_step buf (mkstr b o (ps ++ BACKSLASH :: chr "u" :: a1 :: a2 :: a3 :: a4 :: render rest)) c).2
        <> Some (true, r)).
      { intros Hn.
        destruct (unescape_step_u_unpaired buf b o ps a1 a2 a3 a4 rest c Hps Hit Hok Hh Hn)
          as (buf' & s' & c' & ->). cbn [fst snd].
        intros E. by apply unescape_loop_false in E. }
      destruct rest as [|[x|x|b1 b2 b3 b4] rest].
      * intros E. destruct Hfail; [by intros w [=]|].
        by destruct (unescape_step _ _ _) as [[[? ?] ?] ?].
      * intros E. destruct Hfail; [by intros w [=]|].
        by destruct (unescape_step _ _ _) as [[[? ?] ?] ?].
      * intros E. destruct Hfail; [by intros w [=]|].
        by destruct (unescape_step _ _ _) as [[[? ?] ?] ?].
      * destruct (is_low (hex4 b1 b2 b3 b4)) eqn:Hl.
        2:{ intros E. destruct Hfail; [by intros w [= <-]|].
            by destruct (unescape_step _ _ _) as [[[? ?] ?] ?]. }
        clear Hfail.
        apply Forall_cons in Hok as [(G1 & G2 & G3 & G4) Hok].
        cbn [render render_item app].
        rewrite unescape_step_u_pair by done.
        intros E. apply IH in E as (He & l' & Hd & ->); [|done].
        split.
        -- apply ends_in_escape_plains; [done|].
           apply ends_in_escape_cons; [done|]. by apply ends_in_escape_cons.
        -- rewrite Hd. cbn. eexists. split; [done|].
           cbn [contents]. by rewrite <- !app_assoc.
    + rewrite unescape_step_u_single by done.
      unfold mxbuf_put_utf8.
      destruct (utf8_encode (hex4 a1 a2 a3 a4)) as [l0|] eqn:Hu.
      2:{ intros E. by apply unescape_loop_false in E. }
      intros E. apply IH in E as (He & l' & Hd & ->); [|done].
      split.
      * apply ends_in_escape_plains; [done|]. by apply ends_in_escape_cons.
      * rewrite Hd. cbn. eexists. split; [done|].
        cbn [contents]. by rewrite <- !app_assoc.
Qed.

(** X14: what the unescape pass writes.  For a lexeme of well-formed
    pieces that ends in an escape and has its surrogates in pairs,
    [mxjson_unescape] succeeds and appends to the buffer the bytes the
    lexeme stands for: plain bytes as they are, each two-byte escape as
    its byte, each [\u] escape as the UTF-8 encoding of its code point
    and each surrogate pair as the four bytes of its scalar value. *)
Theorem unescape_decodes buf b o items l :
  Forall item_ok items -> ends_in_escape items -> decode items = Some l ->
  mxjson_unescape buf (mkstr b o (render items)) =
  (true, mkbuf (contents buf ++ l)).
Proof.
  intros Hok He Hd. unfold mxjson_unescape. cbn [data].
  by rewrite (unescape_loop_decodes _ items buf b o 0 l Hok He Hd) by lia.
Qed.

Lemma unescape_decodes_witness :
  mxjson_unescape (mkbuf []) (mkstr BInput 1 (render [Plain (chr "a"); Esc (chr "n")])) =
  (true, mkbuf (contents (mkbuf []) ++ [chr "a"; 10])).
Proof.
  apply (unescape_decodes (mkbuf []) BInput 1 [Plain (chr "a"); Esc (chr "n")] [chr "a"; 10]).
  - repeat constructor; by vm_compute.
  - exact I.
  - reflexivity.
Defined.

(** X15: when the unescape pass succeeds.  If [mxjson_unescape] reports
    a lexeme of well-formed pieces as valid, then the lexeme is empty or
    ends in an escape, every surrogate in it is one of a pair, and the
    bytes appended to the buffer are the bytes the lexeme stands for.
    A lexeme with plain bytes after its last escape is reported as not
    valid: the loop looks for the byte after a backslash where the
    input has ended. *)
Theorem unescape_success_exact buf b o items r :
  Forall item_ok items ->
  mxjson_unescape buf (mkstr b o (render items)) = (true, r) ->
  ends_in_escape items /\
  exists l, decode items = Some l /\ r = mkbuf (contents buf ++ l).
Proof.
  intros Hok. unfold mxjson_unescape. cbn [data].
  destruct (unescape_loop _ true buf _ 0) as [[ok r']|] eqn:E; [|done].
  intros [= -> ->]. by eapply unescape_loop_sound.
Qed.

Lemma unescape_success_exact_witness :
  ends_in_escape [Plain (chr "a"); Esc (chr "n")] /\
  exists l, decode [Plain (chr "a"); Esc (chr "n")] = Some l /\
            mkbuf [chr "a"; 10] = mkbuf (contents (mkbuf []) ++ l).
Proof.
  apply (unescape_success_exact (mkbuf []) BInput 1 [Plain (chr "a"); Esc (chr "n")]
           (mkbuf [chr "a"; 10])).
  - repeat constructor; by vm_compute.
  - by vm_compute.
Defined.

(** ** A string as the whole JSON text *)

Lemma string_item_plain it : string_item_ok it -> item_ok it.
Proof. destruct it; [by intros (_ & _ & ?)|done..]. Qed.

Lemma parse_value_string q b o items rest :
  Forall string_item_ok items ->
  mxjson_parse_value q (mkstr b o (DQUOTE :: render items ++ DQUOTE :: rest)) =
  (true,
   upd_token
     ((fun t => set_value_esc (has_escape items)
                  (set_str_size (u32 (Z.of_nat (length (render items))))
                     (set_str (u32 (o + 1 - ptr (json q))) t)))
        ∘ set_value_type MXJSON_STRING) q,
   mkstr b (o + 2 + Z.of_nat (length (render items))) rest).
Proof.
  intros Hok. unfold mxjson_parse_value, mxstr_getchar. cbn [data].
  assert ((DQUOTE =? DQUOTE) = true) as -> by done.
  rewrite string_accepts by done. cbn [orb].
  rewrite upd_token_json, upd_token_compose. done.
Qed.

(** X16: a string as the whole JSON text, from the parse to the string
    of its token.  The parse succeeds with one token, of type string,
    whose escape flag says whether the lexeme has an escape.  Without an
    escape [mxjson_token_string] returns the bytes between the quotes,
    as a slice of the input, and leaves the buffer alone; with escapes,
    for a lexeme that ends in an escape and has its surrogates in pairs,
    it returns the decoded bytes, as the slice of the buffer they were
    appended to. *)
Theorem string_round_trip p items buf :
  ctx_ok p -> Forall string_item_ok items ->
  short_input (DQUOTE :: render items ++ [DQUOTE]) ->
  fst (mxjson_token (parse_reset p (input (DQUOTE :: render items ++ [DQUOTE])))) = true ->
  let r := mxjson_parse p (input (DQUOTE :: render items ++ [DQUOTE])) in
  let t := tok_at (tokens (snd r)) 1 in
  fst r = true /\ idx (snd r) = 1 /\ value_type t = MXJSON_STRING /\
  value_esc t = has_escape items /\
  (has_escape items = false ->
   mxjson_token_string (snd r) 1 buf = (mkstr BInput 1 (render items), buf, true)) /\
  (forall l, has_escape items = true -> ends_in_escape items -> decode items = Some l ->
   mxjson_token_string (snd r) 1 buf =
   (mkstr BBuffer (Z.of_nat (length (contents buf))) l, mkbuf (contents buf ++ l), true)).
Proof.
  intros Hok Hit Hs Ht.
  set (l := DQUOTE :: render items ++ [DQUOTE]) in *.
  pose proof (parse_reset_fields p (input l)) as Hr. cbv zeta in Hr.
  assert (unparsed (parse_reset p (input l)) = input l) as Hu by done.
  set (p0 := parse_reset p (input l)) in *.
  destruct Hr as (Hj & Hi & Hcp & Htk & Hc & Hts & Hic & Hit0 & Hrf & _).
  assert (ctx_ok p0) as Hok0.
  { destruct Hok as (H1 & H2 & H3 & H4).
    refine (conj _ (conj _ (conj _ _))); by rewrite ?Hic, ?Hit0, ?Hrf, ?Hc, ?Hts. }
  pose proof (mxjson_token_spec p0 Hok0) as Hsp.
  unfold mxjson_parse. fold p0.
  destruct (mxjson_token p0) as [ok p1] eqn:E. cbn [fst] in Ht. subst ok.
  destruct Hsp as (Hok1 & Hi1 & Hc1 & Htk1 & Hcp1 & Hj1 & base & Hb1 & _ & _ & Hts1).
  { lia. } { lia. }
  { destruct Hok0 as (_ & _ & _ & Hst). destruct (tokens p0) eqn:Et; [right|by left].
    destruct Hst as (? & ? & _). lia. }
  assert (unparsed p1 = input l) as Hu1.
  { pose proof (mxjson_token_fields p0) as Hf. rewrite E in Hf. cbn [fst snd] in Hf.
    destruct Hf as (_ & _ & _ & Hf & _). by rewrite Hf. }
  unfold mxjson_parse_json. rewrite Hu1.
  cbn [parse_json_loop]. unfold parse_json_turn.
  assert (mxjson_consume_ws (input l) = input l) as -> by done.
  pose proof (parse_value_string p1 BInput 0 items [] Hit) as Hpv.
  fold l in Hpv. fold (input l) in Hpv. rewrite Hpv. clear Hpv.
  set (g := _ ∘ set_value_type MXJSON_STRING).
  unfold mxjson_ascend. rewrite (proj1 (proj2 (upd_token_fields g p1))).
  rewrite Hcp1, Hcp. change (negb (0 =? MXJSON_IDX_NONE)) with false.
  cbv iota beta. change (negb (0 =? MXJSON_IDX_NONE)) with false.
  cbv iota beta. cbn [current_parent set_current_parent andb negb].
  change (0 =? MXJSON_IDX_NONE) with true. cbn [andb negb fst snd].
  unfold mxjson_consume_ws, mxstr_consume_chars. cbn [blk ptr data consume_chars_from fst].
  unfold mxstr_empty. cbn [data fst snd].
  assert (0 <= 1 < tok_len (tokens p1)) as Hin.
  { rewrite Hts1, !tok_len_upd. lia. }
  assert (u32 (Z.of_nat (length (render items))) = Z.of_nat (length (render items))) as Hu32.
  { apply u32_small. unfold short_input in Hs. subst l. cbn [length] in Hs.
    rewrite length_app in Hs. lia. }
  assert (Htok : tok_at (tokens (upd_token g p1)) 1 =
                 g (tok_at (tokens p1) 1)).
  { unfold upd_token. rewrite Htk1, Hi. cbn [tokens set_tokens].
    change (0 + 1) with 1. by rewrite tok_at_upd_eq. }
  set (q := set_unparsed _ _).
  assert (tokens q = tokens (upd_token g p1)) as Hq1 by done.
  assert (idx q = 1) as Hq2.
  { subst q. cbn [idx set_unparsed set_current_parent]. rewrite upd_token_idx. lia. }
  assert (json q = input l) as Hq3.
  { subst q. cbn [json set_unparsed set_current_parent]. by rewrite upd_token_json, Hj1, Hj. }
  assert (Hsl : json_slice q 1 (Z.of_nat (length (render items))) =
                mkstr BInput 1 (render items)).
  { unfold json_slice. rewrite Hq3. cbn [input blk ptr data].
    f_equal. rewrite Nat2Z.id. subst l. change (Z.to_nat 1) with 1%nat.
    cbn [skipn]. rewrite drop_0. by rewrite take_app_length. }
  assert (value_type (g (tok_at (tokens p1) 1)) = MXJSON_STRING) as G1 by done.
  assert (value_esc (g (tok_at (tokens p1) 1)) = has_escape items) as G2 by done.
  assert (str (g (tok_at (tokens p1) 1)) = 1) as G3.
  { subst g. cbn. by rewrite Hj1, Hj. }
  assert (str_size (g (tok_at (tokens p1) 1)) = Z.of_nat (length (render items))) as G4.
  { subst g. cbn. by rewrite Hu32. }
  clearbody q g. unfold mxjson_token_string. rewrite Hq1, Htok, G1, G2, G3, G4, Hsl.
  split_and!; try done.
  - by intros ->.
  - intros d -> Hend Hd. unfold mxjson_unescape. cbn [data].
    rewrite (unescape_loop_decodes _ items buf BInput 1 0 d); try done; try lia.
    + unfold mxbuf_since, available. cbn [blk ptr contents]. rewrite Nat2Z.id.
      by rewrite drop_app_length.
    + eapply Forall_impl; [done|]. apply string_item_plain.
Qed.

Lemma string_round_trip_witness :
  let items := [Plain (chr "a"); Esc (chr "n")] in
  let buf := mkbuf [] in
  let r := mxjson_parse default_parser (input (DQUOTE :: render items ++ [DQUOTE])) in
  let t := tok_at (tokens (snd r)) 1 in
  fst r = true /\ idx (snd r) = 1 /\ value_type t = MXJSON_STRING /\
  value_esc t = has_escape items /\
  (has_escape items = false ->
   mxjson_token_string (snd r) 1 buf = (mkstr BInput 1 (render items), buf, true)) /\
  (forall l, has_escape items = true -> ends_in_escape items -> decode items = Some l ->
   mxjson_token_string (snd r) 1 buf =
   (mkstr BBuffer (Z.of_nat (length (contents buf))) l, mkbuf (contents buf ++ l), true)).
Proof.
  apply (string_round_trip default_parser [Plain (chr "a"); Esc (chr "n")] (mkbuf [])
           ctx_ok_default).
  - constructor; [by vm_compute|]. constructor; [by vm_compute|constructor].
  - by vm_compute.
  - by vm_compute.
Defined.

(** ** The lexemes the tokens record *)

(** *** Consuming from the front of a slice *)

Lemma tail_refl s : tail_of s s.
Proof. split; [done|]. exists []. split; [done|]. cbn. lia. Qed.

Lemma tail_trans s1 s2 s3 : tail_of s1 s2 -> tail_of s2 s3 -> tail_of s1 s3.
Proof.
  intros (Hb1 & pre1 & Hd1 & Hp1) (Hb2 & pre2 & Hd2 & Hp2).
  split; [congruence|]. exists (pre1 ++ pre2).
  rewrite Hd1, Hd2, <- app_assoc, length_app. split; [done|lia].
Qed.

Lemma tail_intro b o pre l : tail_of (mkstr b o (pre ++ l)) (mkstr b (o + Z.of_nat (length pre)) l).
Proof. split; [done|]. by exists pre. Qed.

Lemma consume_char_tail cond s c ok s' c' :
  mxstr_consume_char cond s c = (ok, s', c') -> tail_of s s'.
Proof.
  unfold mxstr_consume_char. destruct s as [b o l]. cbn [data blk ptr].
  destruct l as [|x r]; [intros [= <- <- <-]; apply tail_refl|].
  destruct (cond x); intros [= <- <- <-]; [|apply tail_refl].
  apply (tail_intro b o [x] r).
Qed.

Lemma consume_chars_split cond b o l c :
  exists ds rest c',
    l = ds ++ rest /\ Forall (fun x => cond x = true) ds /\
    match rest with x :: _ => cond x | [] => false end = false /\
    consume_chars_from cond b o l c = (mkstr b (o + Z.of_nat (length ds)) rest, c').
Proof.
  revert o c. induction l as [|x r IH]; intros o c; cbn [consume_chars_from].
  - exists [], [], c. split_and!; try done. by rewrite Z.add_0_r.
  - destruct (cond x) eqn:Hx.
    + destruct (IH (o + 1) x) as (ds & rest & c' & -> & Hds & Hr & ->).
      exists (x :: ds), rest, c'. split_and!; try done; [by constructor|].
      cbn [length]. do 2 f_equal. lia.
    + exists [], (x :: r), x. split_and!; try done. by rewrite Z.add_0_r.
Qed.

Lemma consume_chars_tail cond s c : tail_of s (mxstr_consume_chars cond s c).1.
Proof.
  unfold mxstr_consume_chars. destruct s as [b o l]. cbn [data blk ptr].
  destruct (consume_chars_split cond b o l c) as (ds & rest & c' & -> & _ & _ & ->).
  apply tail_intro.
Qed.

Lemma consume_ws_tail s : tail_of s (mxjson_consume_ws s).
Proof. apply consume_chars_tail. Qed.

Lemma consume_tail s n : tail_of s (mxstr_consume s n).2.
Proof.
  unfold mxstr_consume. destruct (n <=? dlen s)%nat eqn:E; [|apply tail_refl].
  apply Nat.leb_le in E. cbn [snd]. unfold mxstr_advance.
  split; [done|]. exists (take n (data s)). cbn [data ptr].
  rewrite take_drop, length_take. split; [done|lia].
Qed.

Lemma consume_str_tail s lit ok s' :
  mxstr_consume_str s lit = (ok, s') -> tail_of s s'.
Proof.
  unfold mxstr_consume_str.
  assert (Hl : forall a b, is_prefix a b = true -> (length a <= length b)%nat).
  { induction a as [|x a IH]; intros [|y b0]; cbn; try lia; try done.
    intros [_ H]%andb_true_iff. apply IH in H. lia. }
  destruct (is_prefix (data lit) (data s)) eqn:E; intros [= <- <-]; [|apply tail_refl].
  apply Hl in E. unfold mxstr_advance.
  split; [done|]. exists (take (dlen lit) (data s)). cbn [data ptr].
  rewrite take_drop, length_take. split; [done|lia].
Qed.

(** *** The number recognizer accepts well-formed numbers only *)

Lemma number_int_sound b o l c s' c' :
  number_int (mkstr b o l) c = (true, s', c') ->
  exists sg i rest,
    is_sign sg /\ is_int i /\ l = sg ++ i ++ rest /\
    s' = mkstr b (o + Z.of_nat (length (sg ++ i))) rest.
Proof.
  unfold number_int.
  assert (exists sg l1, is_sign sg /\ l = sg ++ l1 /\
            (mxstr_consume_char (fun c => c =? chr "-") (mkstr b o l) c).1.2 =
            mkstr b (o + Z.of_nat (length sg)) l1 /\
            (mxstr_consume_char (fun c => c =? chr "-") (mkstr b o l) c).1.1 = negb (bool_decide (sg = [])))
    as (sg & l1 & Hsg & -> & Hs & _).
  { unfold mxstr_consume_char. cbn [data blk ptr].
    destruct l as [|x r].
    - exists [], []. split_and!; try done; [by left|]. cbn. by rewrite Z.add_0_r.
    - destruct (x =? chr "-") eqn:Hx.
      + apply Z.eqb_eq in Hx. subst x. exists [chr "-"], r. split_and!; try done. by right.
      + exists [], (x :: r). split_and!; try done; [by left|]. cbn. by rewrite Z.add_0_r. }
  destruct (mxstr_consume_char _ (mkstr b o (sg ++ l1)) c) as [[ok0 s0] c0].
  cbn [fst snd] in Hs. subst s0.
  unfold mxstr_consume_char at 1. cbn [data blk ptr].
  destruct l1 as [|d r]; [done|]. destruct (isdigit d) eqn:Hd; [|done].
  destruct (d =? chr "0") eqn:Hz; cbn [negb].
  - apply Z.eqb_eq in Hz. subst d. intros [= <- <-].
    exists sg, [chr "0"], r. split_and!; try done; [by left|].
    rewrite length_app. cbn [length]. f_equal. lia.
  - apply Z.eqb_neq in Hz. unfold mxstr_consume_chars. cbn [data blk ptr].
    destruct (consume_chars_split isdigit b (o + Z.of_nat (length sg) + 1) r d)
      as (ds & rest & c1 & -> & Hds & _ & ->).
    intros [= <- <-]. exists sg, (d :: ds), rest. split_and!; try done.
    + right. by exists d, ds.
    + rewrite length_app. cbn [length]. f_equal. lia.
Qed.

Lemma number_frac_sound b o l c s' c' :
  number_frac (mkstr b o l) c = (true, s', c') ->
  exists fr rest,
    is_frac fr /\ l = fr ++ rest /\ s' = mkstr b (o + Z.of_nat (length fr)) rest.
Proof.
  unfold number_frac, mxstr_consume_char. cbn [data blk ptr].
  assert (Hnone : exists fr rest, is_frac fr /\ l = fr ++ rest /\
                    mkstr b o l = mkstr b (o + Z.of_nat (length fr)) rest).
  { exists [], l. split_and!; try done; [by left|]. cbn. by rewrite Z.add_0_r. }
  destruct l as [|x r]; [by intros [= <- <-]|].
  destruct (x =? chr ".") eqn:Hx; [|by intros [= <- <-]].
  apply Z.eqb_eq in Hx. subst x. cbn [data blk ptr]. clear Hnone.
  destruct r as [|d r].
  { cbn. by intros [=]. }
  destruct (isdigit d) eqn:Hd.
  2:{ unfold mxstr_consume_chars. cbn [data blk ptr].
      by destruct (consume_chars_from isdigit b (o + 1) (d :: r) d). }
  unfold mxstr_consume_chars. cbn [data blk ptr].
  destruct (consume_chars_split isdigit b (o + 1 + 1) r d)
    as (ds & rest & c1 & -> & Hds & _ & ->).
  intros [= <- <-]. exists (chr "." :: d :: ds), rest. split_and!; try done.
  - right. by exists d, ds.
  - cbn [length]. f_equal. lia.
Qed.

Lemma number_exp_sound b o l c s' c' :
  number_exp (mkstr b o l) c = (true, s', c') ->
  exists ex rest,
    is_exp ex /\ l = ex ++ rest /\ s' = mkstr b (o + Z.of_nat (length ex)) rest.
Proof.
  unfold number_exp. unfold mxstr_consume_char at 1. cbn [data blk ptr].
  assert (Hnone : exists ex rest, is_exp ex /\ l = ex ++ rest /\
                    mkstr b o l = mkstr b (o + Z.of_nat (length ex)) rest).
  { exists [], l. split_and!; try done; [by left|]. cbn. by rewrite Z.add_0_r. }
  destruct l as [|e r]; [by intros [= <- <-]|].
  destruct ((e =? chr "e") || (e =? chr "E")) eqn:He; [|by intros [= <- <-]].
  clear Hnone.
  assert (is_exp_mark e) as Hmark.
  { apply orb_true_iff in He as [H|H]; apply Z.eqb_eq in H; [by left|by right]. }
  assert (exists sg r1, is_exp_sign sg /\ r = sg ++ r1 /\
            (mxstr_consume_char (fun c => (c =? chr "+") || (c =? chr "-")) (mkstr b (o + 1) r) e).1.2 =
            mkstr b (o + 1 + Z.of_nat (length sg)) r1)
    as (sg & r1 & Hsg & -> & Hs).
  { unfold mxstr_consume_char. cbn [data blk ptr].
    destruct r as [|x r].
    - exists [], []. split_and!; try done; [by left|]. cbn. by rewrite Z.add_0_r.
    - destruct ((x =? chr "+") || (x =? chr "-")) eqn:Hx.
      + exists [x], r. split_and!; try done.
        apply orb_true_iff in Hx as [H|H]; apply Z.eqb_eq in H; subst x;
          [right; by left|right; by right].
      + exists [], (x :: r). split_and!; try done; [by left|]. cbn. by rewrite Z.add_0_r. }
  destruct (mxstr_consume_char _ (mkstr b (o + 1) (sg ++ r1)) e) as [[ok0 s0] c0].
  cbn [fst snd] in Hs. subst s0.
  unfold mxstr_consume_char. cbn [data blk ptr].
  destruct r1 as [|d r1].
  { cbn. by intros [=]. }
  destruct (isdigit d) eqn:Hd.
  2:{ unfold mxstr_consume_chars. cbn [data blk ptr].
      by destruct (consume_chars_from isdigit b _ (d :: r1) d). }
  unfold mxstr_consume_chars. cbn [data blk ptr].
  destruct (consume_chars_split isdigit b (o + 1 + Z.of_nat (length sg) + 1) r1 d)
    as (ds & rest & c1 & -> & Hds & _ & ->).
  intros [= <- <-]. exists (e :: sg ++ d :: ds), rest. split_and!.
  - right. by exists e, sg, d, ds.
  - cbn [app]. by rewrite <- app_assoc.
  - cbn [length]. rewrite length_app. cbn [length]. f_equal. lia.
Qed.

Lemma number_sound b o l v s' val :
  mxjson_parse_number (mkstr b o l) v = (true, s', val) ->
  exists n rest,
    valid_number n /\ l = n ++ rest /\
    s' = mkstr b (o + Z.of_nat (length n)) rest /\ val = mkstr b o n.
Proof.
  unfold mxjson_parse_number.
  destruct (number_int (mkstr b o l) 0) as [[[] s1] c1] eqn:E1; [|done].
  apply number_int_sound in E1 as (sg & i & r1 & Hsg & Hi & -> & ->).
  destruct (number_frac _ c1) as [[[] s2] c2] eqn:E2; [|done].
  apply number_frac_sound in E2 as (fr & r2 & Hfr & -> & ->).
  destruct (number_exp _ c2) as [[[] s3] c3] eqn:E3; [|done].
  apply number_exp_sound in E3 as (ex & r3 & Hex & -> & ->).
  intros [= <- <-]. exists (sg ++ i ++ fr ++ ex), r3.
  assert (o + Z.of_nat (length (sg ++ i)) + Z.of_nat (length fr) + Z.of_nat (length ex) =
          o + Z.of_nat (length (sg ++ i ++ fr ++ ex))) as Hlen.
  { rewrite !length_app. lia. }
  assert (sg ++ i ++ fr ++ ex ++ r3 = (sg ++ i ++ fr ++ ex) ++ r3) as Happ.
  { by rewrite <- !app_assoc. }
  split_and!.
  - by exists sg, i, fr, ex.
  - done.
  - by rewrite Hlen.
  - rewrite Hlen, Happ. apply prefix_run.
Qed.

(** *** The token of a value *)

Lemma slice_at js pre x post :
  data js = pre ++ x ++ post ->
  slice js (Z.of_nat (length pre)) (Z.of_nat (length x)) = x.
Proof.
  intros H. unfold slice. rewrite H, !Nat2Z.id.
  by rewrite drop_app_length, take_app_length.
Qed.

Lemma upd_tok_at f q i :
  token q = Some i -> 0 <= i < tok_len (tokens q) ->
  tok_at (tokens (upd_token f q)) i = f (tok_at (tokens q) i).
Proof. intros Ht Hi. rewrite (upd_token_tokens _ _ _ Ht). by apply tok_at_upd_eq. Qed.

Lemma value_lexeme q s q' s' i :
  token q = Some i -> 0 <= i < tok_len (tokens q) ->
  value_esc (tok_at (tokens q) i) = false ->
  tail_of (json q) s -> short_input (data (json q)) ->
  mxjson_parse_value q s = (true, q', s') ->
  tail_of s s' /\
  records_value (json q) s (eq (data s')) (tok_at (tokens q') i).
Proof.
  intros Htk Hi Hesc (Hb & pre & Hd & Hp) Hshort.
  destruct s as [b o l]. cbn [data ptr blk] in *.
  unfold short_input in Hshort. rewrite Hd, length_app in Hshort.
  unfold mxjson_parse_value, mxstr_getchar. cbn [data].
  destruct l as [|c r]; [done|].
  destruct (c =? DQUOTE).
  { destruct (mxjson_parse_string _ mxstr_null false) as [[[[] s1] v] e] eqn:E;
      [|by intros [=]].
    apply string_sound in E as (items & rest & Hok & Hl & -> & -> & ->).
    intros [= <- <-]. rewrite Hl in *. split.
    - replace (DQUOTE :: render items ++ DQUOTE :: rest)
        with ((DQUOTE :: render items ++ [DQUOTE]) ++ rest)
        by (cbn [app]; by rewrite <- app_assoc).
      replace (o + 2 + Z.of_nat (length (render items)))
        with (o + Z.of_nat (length (DQUOTE :: render items ++ [DQUOTE])))
        by (cbn [length]; rewrite length_app; cbn [length]; lia).
      apply tail_intro.
    - rewrite upd_token_compose, (upd_tok_at _ _ _ Htk Hi).
      unfold records_value. cbn [compose value_type set_value_esc set_str_size
        set_str set_u0 set_u1 set_value_type value_esc str str_size u0 u1 data].
      exists pre, items, rest.
      unfold mxstr_substr_offset, mxstr_len. cbn [ptr data].
      cbn [length] in Hshort. rewrite length_app in Hshort. cbn [length] in Hshort.
      rewrite ?upd_token_json. rewrite !u32_small by lia. split_and!; try done. lia. }
  destruct (c =? chr "{").
  { intros [= <- <-]. split; [exact (consume_tail (mkstr b o (c :: r)) 1)|].
    cbn [tokens set_current_parent]. rewrite (upd_tok_at _ _ _ Htk Hi). done. }
  destruct (c =? chr "[").
  { intros [= <- <-]. split; [exact (consume_tail (mkstr b o (c :: r)) 1)|].
    cbn [tokens set_current_parent]. rewrite (upd_tok_at _ _ _ Htk Hi). done. }
  destruct (c =? chr "t").
  { destruct (mxstr_consume_str _ _) as [ok s1] eqn:E. intros [= -> <- <-].
    split; [by eapply consume_str_tail|].
    rewrite upd_token_compose, (upd_tok_at _ _ _ Htk Hi). done. }
  destruct (c =? chr "f").
  { destruct (mxstr_consume_str _ _) as [ok s1] eqn:E. intros [= -> <- <-].
    split; [by eapply consume_str_tail|].
    rewrite upd_token_compose, (upd_tok_at _ _ _ Htk Hi). done. }
  destruct (c =? chr "n").
  { destruct (mxstr_consume_str _ _) as [ok s1] eqn:E. intros [= -> <- <-].
    split; [by eapply consume_str_tail|].
    rewrite (upd_tok_at _ _ _ Htk Hi). done. }
  destruct ((c =? chr "-") || isdigit c); [|done].
  destruct (mxjson_parse_number _ mxstr_null) as [[[] s1] v] eqn:E; [|by intros [=]].
  apply number_sound in E as (n & rest & Hv & Hl & -> & ->).
  intros [= <- <-]. rewrite Hl in *. split; [apply tail_intro|].
  rewrite upd_token_compose, (upd_tok_at _ _ _ Htk Hi).
  unfold records_value. cbn [compose value_type set_str_size value_esc
    set_str set_u0 set_u1 set_value_type str str_size u0 u1 data].
  exists pre, n, rest.
  unfold mxstr_substr_offset, mxstr_len. cbn [ptr data].
  rewrite length_app in Hshort. rewrite ?upd_token_json. rewrite !u32_small by lia.
  split_and!; try done. lia.
Qed.

(** *** The name of a member *)

Lemma consume_ws_split s :
  exists w, Forall (fun c => is_ws c = true) w /\
            data s = w ++ data (mxjson_consume_ws s).
Proof.
  unfold mxjson_consume_ws, mxstr_consume_chars.
  destruct (consume_chars_split is_ws (blk s) (ptr s) (data s) 0)
    as (ds & rest & c' & Hd & Hds & _ & ->).
  exists ds. by rewrite Hd.
Qed.

Lemma consume_char_true cond s c s' c' :
  mxstr_consume_char cond s c = (true, s', c') ->
  cond c' = true /\ data s = c' :: data s'.
Proof.
  unfold mxstr_consume_char. destruct (data s) as [|x r]; [done|].
  destruct (cond x) eqn:E; [|done]. by intros [= <- <-].
Qed.

Lemma name_lexeme q s q' s' i :
  token q = Some i -> 0 <= i < tok_len (tokens q) ->
  tail_of (json q) s -> short_input (data (json q)) ->
  mxjson_parse_name q s = (true, q', s') ->
  tail_of s s' /\
  (Z.of_nat (length (data (json q))) < 134217728 ->
   records_name (json q) s' (tok_at (tokens q') i)).
Proof.
  intros Htk Hi (Hb & pre & Hd & Hp) Hshort.
  destruct s as [b o l]. cbn [data ptr blk] in *.
  unfold short_input in Hshort. rewrite Hd, length_app in Hshort.
  unfold mxjson_parse_name.
  destruct (mxjson_parse_string _ mxstr_null false) as [[[[] s1] v] e] eqn:E;
    [|by intros [=]].
  apply string_sound in E as (items & rest & Hok & Hl & -> & -> & ->).
  destruct (mxstr_consume_char _ (mxjson_consume_ws _) 0) as [[[] s2] c2] eqn:E2;
    [|by intros [=]].
  intros [= <- <-]. rewrite Hl in *. split.
  - eapply tail_trans; [|eapply tail_trans; [apply consume_ws_tail|by eapply consume_char_tail]].
    replace (DQUOTE :: render items ++ DQUOTE :: rest)
      with ((DQUOTE :: render items ++ [DQUOTE]) ++ rest)
      by (cbn [app]; by rewrite <- app_assoc).
    replace (o + 2 + Z.of_nat (length (render items)))
      with (o + Z.of_nat (length (DQUOTE :: render items ++ [DQUOTE])))
      by (cbn [length]; rewrite length_app; cbn [length]; lia).
    apply tail_intro.
  - intros Hfit. rewrite (upd_tok_at _ _ _ Htk Hi).
    destruct (consume_ws_split
                (mkstr b (o + 2 + Z.of_nat (length (render items))) rest))
      as (w & Hw & Hrest).
    apply consume_char_true in E2 as [Hc Hcolon]. apply Z.eqb_eq in Hc. subst c2.
    cbn [data] in Hrest. rewrite Hcolon in Hrest.
    unfold records_name. cbn [name name_size name_esc set_name_esc set_name_size set_name].
    exists pre, items, w.
    unfold mxstr_substr_offset, mxstr_len. cbn [ptr data].
    rewrite Hd, length_app in Hfit.
    cbn [length] in Hshort, Hfit. rewrite length_app in Hshort, Hfit.
    cbn [length] in Hshort, Hfit.
    rewrite u32_small by lia.
    assert (u27 (Z.of_nat (length (render items))) = Z.of_nat (length (render items))) as ->.
    { unfold u27. apply Z.mod_small. lia. }
    split_and!; try done; [|lia]. by rewrite Hd, Hrest.
Qed.

(** *** Closing brackets and new tokens leave the lexemes alone *)

Lemma kept_refl t : kept t t.
Proof. by unfold kept. Qed.

Lemma kept_trans t1 t2 t3 : kept t1 t2 -> kept t2 t3 -> kept t1 t3.
Proof.
  intros (A1 & A2 & A3 & A4 & A5 & A6) (B1 & B2 & B3 & B4 & B5 & B6).
  unfold kept. split_and!; try congruence.
  intros H. rewrite B6, A6; [done..|]. by rewrite A1.
Qed.

(** A write to the second word of the union, or to the first, keeps a
    container. *)
Lemma kept_container t v :
  is_container (value_type t) = true ->
  kept t (set_next v t) /\ kept t (add_child t).
Proof.
  intros H. unfold kept, add_child. cbn. split; split_and!; try done;
    intros H'; by rewrite H in H'.
Qed.

Lemma records_value_kept js v F t t' :
  kept t t' -> records_value js v F t -> records_value js v F t'.
Proof.
  intros (E & _ & _ & _ & _ & Hs). unfold records_value. rewrite E.
  destruct (value_type t) eqn:Et; try done; by rewrite (Hs eq_refl).
Qed.

Lemma records_value_mono js v (F G : list Z -> Prop) t :
  (forall r, F r -> G r) -> records_value js v F t -> records_value js v G t.
Proof.
  intros H. unfold records_value.
  destruct (value_type t); try done;
    intros (a & b & rest & H1 & H2 & H3 & H4 & H5 & H6 & H7);
    exists a, b, rest; split_and!; try done; by apply H.
Qed.

(** What is known of the input after a value that has just been parsed. *)
Lemma records_value_follow js v s1 (G : list Z -> Prop) t :
  records_value js v (eq (data s1)) t ->
  (value_type t = MXJSON_NUMBER \/ value_type t = MXJSON_STRING -> G (data s1)) ->
  records_value js v G t.
Proof.
  unfold records_value.
  destruct (value_type t); try done;
    intros (a & b & rest & H1 & H2 & H3 & H4 & H5 & H6 & H7) HG;
    exists a, b, rest; split_and!; try done; rewrite <- H7; apply HG; auto.
Qed.

Lemma lexemes_mono (F G : list Z -> Prop) p1 p k :
  (forall r, F r -> G r) -> lexemes_ok F p1 p k -> lexemes_ok G p1 p k.
Proof.
  intros H Hl i Hi. destruct (Hl i Hi) as (q0 & t0 & H1 & H2 & H3 & H4).
  exists q0, t0. split_and!; try done. by eapply records_value_mono.
Qed.

Lemma records_name_ext js s t t' :
  name t' = name t -> name_size t' = name_size t -> name_esc t' = name_esc t ->
  (records_name js s t -> records_name js s t') /\ (no_name t -> no_name t').
Proof.
  intros E1 E2 E3. unfold records_name, no_name. by rewrite E1, E2, E3.
Qed.

Lemma name_of_kept js s T T' i :
  kept (tok_at T i) (tok_at T' i) ->
  kept (tok_at T (parent (tok_at T i))) (tok_at T' (parent (tok_at T i))) ->
  name_of js s T i -> name_of js s T' i.
Proof.
  intros (_ & E2 & E3 & E4 & E5 & _) (F1 & _). unfold name_of. cbv zeta.
  rewrite E2, F1.
  destruct (records_name_ext js s _ _ E3 E4 E5) as [H1 H2].
  by destruct (value_type (tok_at T (parent (tok_at T i)))).
Qed.

Lemma tok_at_upd_cases f i t j :
  tok_at (tok_upd f i t) j = tok_at t j \/
  (tok_at (tok_upd f i t) j = f (tok_at t i) /\ tok_at t j = tok_at t i).
Proof.
  destruct t as [l|]; [|by left]. unfold tok_at, tok_upd. cbn [fmap option_fmap option_map mbind option_bind].
  destruct (decide (Z.to_nat i = Z.to_nat j)) as [E|E].
  - rewrite <- E. rewrite list_lookup_alter_eq.
    destruct (l !! Z.to_nat i) eqn:El; cbn; [right|left]; done.
  - left. by rewrite list_lookup_alter_ne.
Qed.

Lemma ascend_loop_lex fuel :
  forall p s par p' s' par',
    ascend_loop fuel p s par = Some (p', s', par') ->
    tail_of s s' /\
    forall i, kept (tok_at (tokens p) i) (tok_at (tokens p') i).
Proof.
  induction fuel as [|fuel IH]; intros p s par p' s' par'; [done|].
  rewrite ascend_loop_unfold. cbv zeta.
  set (r := match value_type (tok_at (tokens p) par) with
            | MXJSON_ARRAY => _ | MXJSON_OBJECT => _ | _ => _ end).
  assert (tail_of s r.1.2) as Htl.
  { eapply tail_trans; [apply consume_ws_tail|]. subst r.
    destruct (value_type (tok_at (tokens p) par)); cbn [fst snd]; try apply tail_refl;
      destruct (mxstr_consume_char _ _ 0) as [[ok1 s1] c1] eqn:E;
      by apply consume_char_tail in E. }
  destruct (r.1.1) eqn:Er.
  - assert (is_container (value_type (tok_at (tokens p) par)) = true) as Hty.
    { subst r. by destruct (value_type (tok_at (tokens p) par)). }
    intros Hl. apply IH in Hl as [Ht Hk]. split; [by eapply tail_trans|].
    intros i. specialize (Hk i). cbn [tokens set_tokens] in Hk.
    eapply kept_trans; [|exact Hk].
    destruct (tok_at_upd_cases (set_next (u32 (idx p + 1))) par (tokens p) i)
      as [E|[E E']]; rewrite E; [apply kept_refl|].
    rewrite E'. by apply kept_container.
  - intros [= <- <- <-]. split; [|intros i; apply kept_refl].
    eapply tail_trans; [apply consume_ws_tail|]. subst r.
    destruct (value_type (tok_at (tokens p) par)); cbn [fst snd] in Er |- *;
      try apply tail_refl;
      destruct (mxstr_consume_char _ _ 0) as [[ok1 s1] c1] eqn:E;
      cbn [fst snd] in Er; subst ok1;
      apply consume_char_len in E as (_ & _ & E); rewrite (E eq_refl); apply tail_refl.
Qed.

Lemma ascend_lex p s p' s' par :
  mxjson_ascend p s = (p', s', par) ->
  tail_of s s' /\
  forall i, kept (tok_at (tokens p) i) (tok_at (tokens p') i).
Proof.
  unfold mxjson_ascend.
  destruct (negb (current_parent p =? MXJSON_IDX_NONE)).
  - destruct (ascend_loop _ p s (current_parent p)) as [[[p1 s1] par1]|] eqn:E.
    + intros [= <- <- <-]. by eapply ascend_loop_lex.
    + intros [= <- <- <-]. split; [apply tail_refl|intros i; apply kept_refl].
  - intros [= <- <- <-]. split; [apply tail_refl|intros i; apply kept_refl].
Qed.

Lemma comma_tail par i s ok s' : comma_effect par i s ok s' -> tail_of s s'.
Proof.
  unfold comma_effect. destruct (par =? i).
  - intros [= <- <-]. apply consume_ws_tail.
  - destruct (mxstr_consume_char _ _ 0) as [[ok1 s1] c1] eqn:E. cbn [fst].
    intros [= <- <-]. eapply tail_trans; [apply consume_ws_tail|].
    by eapply consume_char_tail.
Qed.

(** *** What comes after a value *)

(** [mxjson_ascend] finds a closing bracket after the white space, or
    leaves the parent as it is and consumes at most the white space. *)
Lemma ascend_follow p s p' s' par :
  mxjson_ascend p s = (p', s', par) ->
  followed_by False (data s) \/
  (par = current_parent p /\ (s' = s \/ s' = mxjson_consume_ws s)).
Proof.
  unfold mxjson_ascend.
  destruct (negb (current_parent p =? MXJSON_IDX_NONE)).
  2:{ intros [= <- <- <-]. right. split; [done|by left]. }
  destruct (ascend_loop _ p s (current_parent p)) as [[[p1 s1] par1]|] eqn:E.
  2:{ intros [= <- <- <-]. right. split; [done|by left]. }
  intros [= <- <- <-]. rewrite ascend_loop_unfold in E. cbv zeta in E.
  destruct (consume_ws_split s) as (w & Hw & Hd).
  destruct (value_type (tok_at (tokens p) (current_parent p))); cbn [fst snd] in E;
    try (injection E as <- <- <-; right; split; [done|by right]).
  - destruct (mxstr_consume_char _ (mxjson_consume_ws s) 0) as [[[] s2] c2] eqn:Ec;
      cbn [fst snd] in E.
    + apply consume_char_true in Ec as [Hc Hd2]. apply Z.eqb_eq in Hc. subst c2.
      left. exists w, (chr "}" :: data s2). rewrite Hd, Hd2.
      split_and!; try done. right. by right.
    + injection E as <- <- <-. right. split; [done|by right].
  - destruct (mxstr_consume_char _ (mxjson_consume_ws s) 0) as [[[] s2] c2] eqn:Ec;
      cbn [fst snd] in E.
    + apply consume_char_true in Ec as [Hc Hd2]. apply Z.eqb_eq in Hc. subst c2.
      left. exists w, (chr "]" :: data s2). rewrite Hd, Hd2.
      split_and!; try done. right. by left.
    + injection E as <- <- <-. right. split; [done|by right].
Qed.

(** A value that is not the first of its container, in a turn that goes
    on to the next token, has a comma after it. *)
Lemma comma_follow s1 s2 par i s4 :
  s2 = s1 \/ s2 = mxjson_consume_ws s1 -> par <> i ->
  comma_effect par i s2 true s4 -> followed_by False (data s1).
Proof.
  intros Hs Hne. unfold comma_effect.
  assert ((par =? i) = false) as -> by (by apply Z.eqb_neq).
  destruct (mxstr_consume_char _ (mxjson_consume_ws s2) 0) as [[ok s3] c3] eqn:E.
  cbn [fst]. intros [= -> ->].
  apply consume_char_true in E as [Hc Hd]. apply Z.eqb_eq in Hc. subst c3.
  destruct (consume_ws_split s2) as (w2 & Hw2 & Hd2). rewrite Hd in Hd2.
  destruct Hs as [->| ->].
  - exists w2, (chr "," :: data s4). split_and!; try done. by left.
  - destruct (consume_ws_split s1) as (w1 & Hw1 & Hd1). rewrite Hd2 in Hd1.
    exists (w1 ++ w2), (chr "," :: data s4). rewrite <- app_assoc.
    split_and!; try done; [by apply Forall_app|by left].
Qed.

(** *** The lexemes through the parse loop *)

Lemma parents_range p i :
  parents_ok p -> 1 <= i <= idx p -> 0 <= parent (tok_at (tokens p) i) < i.
Proof.
  intros Hpo Hi. destruct (Hpo i Hi) as [Ha Hb].
  destruct (decide (i = 1)) as [->|]; [rewrite Ha by done; lia|].
  specialize (Hb ltac:(lia)). lia.
Qed.

(** Parsing the value of the current token leaves the names alone. *)
Lemma name_of_value js s T f k i :
  keeps_links f -> 0 <= k -> 0 <= parent (tok_at T i) ->
  parent (tok_at T i) <> k ->
  name_of js s T i -> name_of js s (tok_upd f k T) i.
Proof.
  intros Hkl Hk Hp Hne. unfold name_of. cbv zeta.
  assert (parent (tok_at (tok_upd f k T) i) = parent (tok_at T i) /\
          name (tok_at (tok_upd f k T) i) = name (tok_at T i) /\
          name_size (tok_at (tok_upd f k T) i) = name_size (tok_at T i) /\
          name_esc (tok_at (tok_upd f k T) i) = name_esc (tok_at T i))
    as (E1 & E2 & E3 & E4).
  { destruct (tok_at_upd_cases f k T i) as [E|[E E']]; rewrite E; [done|].
    rewrite E'. apply Hkl. }
  rewrite E1. rewrite (tok_at_upd_ne f k _ T) by (try done; congruence).
  destruct (records_name_ext js s _ _ E2 E3 E4) as [H1 H2].
  by destruct (value_type (tok_at T (parent (tok_at T i)))).
Qed.

(** A new token, counted by its parent, leaves the tokens before it
    what they were. *)
Lemma token_kept T2 base par K c :
  1 <= par <= K -> K + 1 < tok_len base -> K < c ->
  (forall i, 0 <= i < c -> tok_at base i = tok_at T2 i) ->
  is_container (value_type (tok_at T2 par)) = true ->
  let T5 := tok_upd add_child par (tok_upd (new_token par) (K + 1) base) in
  tok_at T5 (K + 1) = set_parent par zero_token /\
  forall j, 0 <= j <= K -> kept (tok_at T2 j) (tok_at T5 j).
Proof.
  intros Hpar Hlen Hc Hbase Hcont T5. subst T5. split.
  - rewrite tok_at_upd_ne by lia. by rewrite tok_at_upd_eq by lia.
  - intros j Hj. destruct (decide (j = par)) as [->|Hne].
    + rewrite tok_at_upd_eq by (rewrite tok_len_upd; lia).
      rewrite tok_at_upd_ne by lia. rewrite Hbase by lia.
      by apply kept_container.
    + rewrite tok_at_upd_ne by lia. rewrite tok_at_upd_ne by lia.
      rewrite Hbase by lia. apply kept_refl.
Qed.

(** The value of the current token, with the brackets closed after it. *)
Lemma value_lex B (G : list Z -> Prop) p1 p s f opens s1 p2 s2 par :
  head_ok B p s -> tail_of (json p) s -> short_input (data (json p)) ->
  lexemes_ok (followed_by False) p1 p (idx p - 1) -> fresh_token p ->
  (Z.of_nat (length (data (json p))) < 134217728 ->
   name_of (json p) s (tokens p) (idx p)) ->
  turns p1 (unparsed p1) p s ->
  value_effect (json p) (mxjson_consume_ws s) true f opens s1 ->
  mxjson_ascend (after_value f opens p) s1 = (p2, s2, par) ->
  (forall r, followed_by False r -> G r) ->
  (opens = false -> G (data s1)) ->
  tail_of (json p) s2 /\
  forall i, 1 <= i <= idx p ->
    exists q0 t0,
      turns p1 (unparsed p1) q0 t0 /\ idx q0 = i /\
      records_value (json p) (mxjson_consume_ws t0) G (tok_at (tokens p2) i) /\
      (Z.of_nat (length (data (json p))) < 134217728 ->
       name_of (json p) t0 (tokens p2) i).
Proof.
  intros Hh Htl Hshort Hlex [_ Hfresh] Hnm Hpos Hv Ha HG1 HG2.
  assert (Hi : 1 <= idx p < count p) by apply Hh.
  assert (Htk : token p = Some (idx p)) by apply Hh.
  assert (Hpo : parents_ok p) by apply Hh.
  pose proof (head_ok_store _ _ _ Hh) as (Hc & Hlen & H0).
  pose proof (value_state _ _ _ _ _ _ _ Hh Hv)
    as (_ & _ & _ & _ & _ & _ & _ & _ & _ & Hk1).
  pose proof (proj1 Hv p eq_refl) as Ev.
  destruct (value_lexeme p _ _ _ (idx p) Htk ltac:(lia) Hfresh
              (tail_trans _ _ _ Htl (consume_ws_tail s)) Hshort Ev) as [Htl1 Hlx1].
  destruct (ascend_lex _ _ _ _ _ Ha) as [Htl2 Hk2].
  split.
  { eapply tail_trans; [|exact Htl2]. eapply tail_trans; [|exact Htl1].
    eapply tail_trans; [exact Htl|apply consume_ws_tail]. }
  assert (Hkl : keeps_links f) by apply Hv.
  assert (Hname : forall i t0, 1 <= i <= idx p ->
            name_of (json p) t0 (tokens p) i ->
            name_of (json p) t0 (tokens p2) i).
  { intros i t0 Hi' H. pose proof (parents_range p i Hpo Hi') as Hpar.
    apply (name_of_value (json p) t0 (tokens p) f (idx p) i Hkl ltac:(lia)
             ltac:(lia) ltac:(lia)) in H.
    rewrite <- Hk1 in H.
    exact (name_of_kept _ _ _ _ _ (Hk2 i) (Hk2 _) H). }
  intros i Hi'. destruct (decide (i = idx p)) as [->|Hne].
  - exists p, s. split_and!; try done.
    + apply (records_value_kept _ _ _ _ _ (Hk2 _)).
      apply (records_value_follow _ _ s1); [exact Hlx1|].
      intros Hty. apply HG2. destruct opens; [exfalso|done].
      destruct Hv as (_ & _ & _ & _ & Hopen & _).
      destruct (Hopen eq_refl) as (_ & ty & Hct & Hf).
      rewrite Hk1, tok_at_upd_eq, Hf in Hty by lia.
      cbn [value_type set_value_type] in Hty.
      destruct Hty as [Hty|Hty]; by rewrite Hty in Hct.
    + intros Hfit. apply Hname; [lia|by apply Hnm].
  - destruct (Hlex i ltac:(lia)) as (q0 & t0 & Hq & Hi0 & Hval & Hn0).
    exists q0, t0. split_and!; try done.
    + apply (records_value_kept _ _ _ _ _ (Hk2 _)).
      rewrite Hk1, tok_at_upd_ne by lia.
      exact (records_value_mono _ _ _ _ _ HG1 Hval).
    + intros Hfit. apply Hname; [lia|by apply Hn0].
Qed.

Lemma turn_lex B p1 p s anc p' s' :
  head_ok B p s -> tree_head p anc ->
  tail_of (json p) s -> short_input (data (json p)) ->
  lexemes_ok (followed_by False) p1 p (idx p - 1) -> fresh_token p ->
  (Z.of_nat (length (data (json p))) < 134217728 ->
   name_of (json p) s (tokens p) (idx p)) ->
  turns p1 (unparsed p1) p s ->
  turn_exit p s true p' s' ->
  json p' = json p /\ tail_of (json p) s' /\
  lexemes_ok (fun r => followed_by False r \/
                       (current_parent p' = 0 /\ pending s' r)) p1 p' (idx p) /\
  (current_parent p' <> 0 ->
   idx p' = idx p + 1 /\ fresh_token p' /\
   (Z.of_nat (length (data (json p))) < 134217728 ->
    name_of (json p) s' (tokens p') (idx p'))).
Proof.
  intros Hh Htree Htl Hshort Hlex Hfr Hnm Hpos Hx.
  assert (HB : B < 2147483648) by apply Hh.
  assert (Hi : 1 <= idx p < count p) by apply Hh.
  assert (Htk : token p = Some (idx p)) by apply Hh.
  assert (Hcp : 0 <= current_parent p < idx p) by apply Hh.
  pose proof (head_ok_store _ _ _ Hh) as (Hc & Hlen & H0).
  inversion Hx as [ | f opens s1 p2 s2 Hv Ha
    | | | f opens s1 p2 s2 par s4 p5 Hv Ha Hpar Hcm Ht Hty
    | f opens s1 p2 s2 par s4 p5 ok g s6 Hv Ha Hpar Hcm Ht Hty Hn]; subst;
    pose proof (value_state _ _ _ _ _ _ _ Hh Hv)
      as (Hok1 & Hs1 & Hi1 & Hc1 & Ht1 & Hcp1 & Hp1 & Hl1 & HB1 & Hk1);
    destruct (HB1 eq_refl) as [HB1' _];
    destruct (value_tree _ _ _ _ _ _ _ Hh Htree Hv) as [Hup1 Hcpa];
    destruct (ascend_state _ _ _ _ _ (idx p) Hok1 ltac:(lia) Hi1 Hcp1 Hp1 Ha)
      as (Hok2 & Hs2 & Hi2 & Hc2 & Ht2 & Hpar2 & Hp2 & Hl2);
    assert (value_type (tok_at (tokens (after_value f opens p)) 0) = MXJSON_NONE)
      as H01 by (rewrite Hk1, tok_at_upd_ne by lia; exact H0);
    assert (idx (after_value f opens p) < tok_len (tokens (after_value f opens p)))
      as Hlen1 by (rewrite Hi1, Hk1, tok_len_upd; lia);
    assert (idx (after_value f opens p) + 1 < 2147483648)
      as HB2 by (rewrite Hi1; lia);
    destruct (ascend_tree _ _ _ _ _ _ H01 Hlen1 HB2 Hup1 Hcpa Ha)
      as (anc2 & Hup2 & Hpar'');
    assert (Hj2 : json p2 = json p)
      by (destruct Hs1 as (E1 & _); destruct Hs2 as (E2 & _); congruence).
  - set (G := fun r => followed_by False r \/
                       (current_parent (set_current_parent 0 p2) = 0 /\ pending s' r)).
    assert (HG1 : forall r, followed_by False r -> G r) by (intros r Hr; by left).
    assert (HG2 : opens = false -> G (data s1)).
    { intros _. destruct (ascend_follow _ _ _ _ _ Ha) as [Hf|[_ [->| ->]]];
        [by left|right..]; (split; [done|]).
      - by exists [].
      - destruct (consume_ws_split s1) as (w & Hw & Hd). by exists w. }
    destruct (value_lex _ G _ _ _ _ _ _ _ _ _ Hh Htl Hshort Hlex Hfr Hnm Hpos Hv Ha HG1 HG2)
      as [Htail2 Hlex2].
    split_and!; [exact Hj2|exact Htail2| |done].
    intros i Hi'. cbn [json tokens set_current_parent]. rewrite Hj2. by apply Hlex2.
  - set (G := fun r => followed_by False r \/ (current_parent p' = 0 /\ pending s' r)).
    assert (HG1 : forall r, followed_by False r -> G r) by (intros r Hr; by left).
    assert (Hcomma : opens = false -> followed_by False (data s1)).
    { intros Hop. destruct (ascend_follow _ _ _ _ _ Ha) as [Hf|[Hpe Hse]]; [exact Hf|].
      apply (comma_follow s1 s2 par (idx p2) s' Hse); [|exact Hcm].
      subst opens. cbn [after_value] in Hpe.
      rewrite (proj1 (proj2 (upd_token_fields f p))) in Hpe. lia. }
    assert (HG2 : opens = false -> G (data s1)).
    { intros Hop. left. by apply Hcomma. }
    destruct (value_lex _ G _ _ _ _ _ _ _ _ _ Hh Htl Hshort Hlex Hfr Hnm Hpos Hv Ha HG1 HG2)
      as [Htail2 Hlex2].
    destruct anc2 as [|a anc2]; [done|]. cbn [hd] in Hpar''. subst a.
    destruct Hup2 as ((_ & Hcont & _) & _).
    destruct (token_state p2 par (idx p) p' Hok2 ltac:(lia) Hi2 ltac:(lia) ltac:(lia) Hp2 Ht)
      as (Hok5 & Hs5 & Hi5 & Hc5 & Ht5 & Hcp5 & Hp5 & base & Hb1 & Hb2 & Hb3).
    assert (Hj5 : json p' = json p) by (destruct Hs5 as (E5 & _); congruence).
    destruct (token_kept (tokens p2) base par (idx p) (count p2)
                ltac:(lia) ltac:(lia) ltac:(lia) Hb2 Hcont) as [Hnew Hkept5].
    rewrite <- Hb3 in Hnew, Hkept5.
    split_and!; [done|by eapply tail_trans; [exact Htail2|eapply comma_tail]| |].
    + intros i Hi'. destruct (Hlex2 i Hi') as (q0 & t0 & Hq & Hi0 & Hval & Hn0).
      exists q0, t0. rewrite Hj5. split_and!; try done.
      * exact (records_value_kept _ _ _ _ _ (Hkept5 i ltac:(lia)) Hval).
      * intros Hfit.
        pose proof (parents_range p2 i Hp2 ltac:(lia)) as Hpr.
        apply (name_of_kept _ _ (tokens p2)); [apply Hkept5; lia|apply Hkept5; lia|].
        by apply Hn0.
    + intros _. split_and!; [done| |].
      * unfold fresh_token. by rewrite Hi5, Hnew.
      * intros _. rewrite Hi5. unfold name_of. cbv zeta. rewrite Hnew.
        cbn [parent set_parent].
        by destruct (value_type (tok_at (tokens p') par)).
  - set (G := fun r => followed_by False r \/
                       (current_parent (upd_token g p5) = 0 /\ pending s' r)).
    assert (HG1 : forall r, followed_by False r -> G r) by (intros r Hr; by left).
    assert (Hcomma : opens = false -> followed_by False (data s1)).
    { intros Hop. destruct (ascend_follow _ _ _ _ _ Ha) as [Hf|[Hpe Hse]]; [exact Hf|].
      apply (comma_follow s1 s2 par (idx p2) s4 Hse); [|exact Hcm].
      subst opens. cbn [after_value] in Hpe.
      rewrite (proj1 (proj2 (upd_token_fields f p))) in Hpe. lia. }
    assert (HG2 : opens = false -> G (data s1)).
    { intros Hop. left. by apply Hcomma. }
    destruct (value_lex _ G _ _ _ _ _ _ _ _ _ Hh Htl Hshort Hlex Hfr Hnm Hpos Hv Ha HG1 HG2)
      as [Htail2 Hlex2].
    destruct anc2 as [|a anc2]; [done|]. cbn [hd] in Hpar''. subst a.
    destruct Hup2 as ((_ & Hcont & _) & _).
    destruct (token_state p2 par (idx p) p5 Hok2 ltac:(lia) Hi2 ltac:(lia) ltac:(lia) Hp2 Ht)
      as (Hok5 & Hs5 & Hi5 & Hc5 & Ht5 & Hcp5 & Hp5 & base & Hb1 & Hb2 & Hb3).
    assert (Hj5 : json p5 = json p) by (destruct Hs5 as (E5 & _); congruence).
    assert (Hlen5 : 0 <= idx p + 1 < tok_len (tokens p5)).
    { rewrite Hb3, !tok_len_upd. lia. }
    destruct (token_kept (tokens p2) base par (idx p) (count p2)
                ltac:(lia) ltac:(lia) ltac:(lia) Hb2 Hcont) as [Hnew Hkept5].
    rewrite <- Hb3 in Hnew, Hkept5.
    assert (Htail4 : tail_of (json p) s4).
    { eapply tail_trans; [exact Htail2|by eapply comma_tail]. }
    pose proof (proj1 Hn p5 eq_refl) as En.
    destruct (name_lexeme p5 _ _ _ (idx p + 1) Ht5 Hlen5
                ltac:(rewrite Hj5; exact (tail_trans _ _ _ Htail4 (consume_ws_tail s4)))
                ltac:(by rewrite Hj5) En) as [Htl6 Hnm6].
    rewrite Hj5 in Hnm6.
    assert (Hkv : keeps_value g) by apply Hn.
    assert (Hkept6 : forall j, 0 <= j <= idx p ->
              kept (tok_at (tokens p2) j) (tok_at (tokens (upd_token g p5)) j)).
    { intros j Hj. rewrite (upd_token_tokens _ _ _ Ht5).
      rewrite tok_at_upd_ne by lia. by apply Hkept5. }
    assert (Hnew6 : tok_at (tokens (upd_token g p5)) (idx p + 1) =
                    g (set_parent par zero_token)).
    { by rewrite (upd_tok_at _ _ _ Ht5 Hlen5), Hnew. }
    rewrite upd_token_json, upd_token_idx. split_and!; [done| | |].
    { eapply tail_trans; [exact Htail4|].
      eapply tail_trans; [apply consume_ws_tail|exact Htl6]. }
    + intros i Hi'. destruct (Hlex2 i Hi') as (q0 & t0 & Hq & Hi0 & Hval & Hn0).
      exists q0, t0. rewrite upd_token_json, Hj5. split_and!; try done.
      * exact (records_value_kept _ _ _ _ _ (Hkept6 i ltac:(lia)) Hval).
      * intros Hfit.
        pose proof (parents_range p2 i Hp2 ltac:(lia)) as Hpr.
        apply (name_of_kept _ _ (tokens p2)); [apply Hkept6; lia|apply Hkept6; lia|].
        by apply Hn0.
    + intros _. destruct (Hkv (set_parent par zero_token)) as (G1 & G2 & G3 & _).
      split_and!; [done| |].
      * unfold fresh_token. rewrite upd_token_idx, Hi5, Hnew6. by rewrite G2, G3.
      * intros Hfit. rewrite Hi5. unfold name_of. cbv zeta. rewrite Hnew6, G1.
        cbn [parent set_parent].
        destruct (Hkept6 par ltac:(lia)) as (K1 & _).
        destruct (Hkept5 par ltac:(lia)) as (K2 & _).
        rewrite K1, <- K2, Hty. rewrite <- Hnew6. by apply Hnm6.
Qed.

Lemma loop_lex B p1 fuel :
  forall p s anc p' s',
    head_ok B p s -> tree_head p anc ->
    tail_of (json p) s -> short_input (data (json p)) ->
    lexemes_ok (followed_by False) p1 p (idx p - 1) -> fresh_token p ->
    (Z.of_nat (length (data (json p))) < 134217728 ->
     name_of (json p) s (tokens p) (idx p)) ->
    turns p1 (unparsed p1) p s ->
    parse_json_loop fuel p s = Some (true, p', s') ->
    json p' = json p /\
    lexemes_ok (fun r => followed_by False r \/ pending s' r) p1 p' (idx p').
Proof.
  induction fuel as [|fuel IH];
    intros p s anc p' s' Hh Htree Htl Hshort Hlex Hfr Hnm Hpos; [done|].
  cbn [parse_json_loop].
  destruct (parse_json_turn p s) as [[ok p2] s2] eqn:Et.
  pose proof (turn_exits _ _ _ _ _ Et) as Hx.
  destruct (turn_head _ _ _ _ _ _ Hh Hx) as (_ & _ & _ & _ & _ & Htr).
  destruct ok; cbn [andb]; [|done].
  destruct (Htr eq_refl) as (_ & _ & _ & Hz & Hnz).
  destruct (turn_tree _ _ _ _ _ _ Hh Htree Hx) as [_ Hnz'].
  destruct (turn_lex _ _ _ _ _ _ _ Hh Htree Htl Hshort Hlex Hfr Hnm Hpos Hx)
    as (Hj & Htl1 & Hlex1 & Hnext).
  destruct (current_parent p2 =? MXJSON_IDX_NONE) eqn:E; cbn [negb].
  - apply Z.eqb_eq in E. intros [= <- <-]. split; [done|]. rewrite (Hz E).
    eapply lexemes_mono; [|exact Hlex1]. intros r [Hr|[_ Hr]]; [by left|by right].
  - apply Z.eqb_neq in E. destruct (Hnz' E) as [anc1 Htree1].
    destruct (Hnext E) as (Hi1 & Hfr1 & Hnm1).
    intros El. rewrite <- Hj in Htl1, Hshort, Hnm1.
    assert (lexemes_ok (followed_by False) p1 p2 (idx p2 - 1)) as Hlex2.
    { replace (idx p2 - 1) with (idx p) by lia.
      eapply lexemes_mono; [|exact Hlex1]. by intros r [Hr|[Hr _]]. }
    destruct (IH _ _ _ _ _ (Hnz E) Htree1 Htl1 Hshort Hlex2 Hfr1 Hnm1
                (turns_snoc _ _ _ _ _ _ Hpos Et E) El) as [Hj' Hlex'].
    split; [congruence|done].
Qed.

Lemma root_lex p js p1 :
  ctx_ok p -> short_input (data js) ->
  mxjson_token (parse_reset p js) = (true, p1) ->
  tail_of (json p1) (unparsed p1) /\ fresh_token p1 /\ idx p1 = 1 /\
  forall s, name_of (json p1) s (tokens p1) 1.
Proof.
  intros Hok Hshort Ht.
  pose proof (parse_reset_fields p js) as (R1 & R2 & R3 & R4 & R5 & R6 & R7 & R8 & R9 & R10).
  pose proof (mxjson_token_fields (parse_reset p js)) as Hf. rewrite Ht in Hf.
  cbn [fst snd] in Hf. destruct Hf as (_ & _ & Hj & Hu & _).
  assert (Hok0 : ctx_ok (parse_reset p js)) by exact Hok.
  pose proof (mxjson_token_spec (parse_reset p js) Hok0) as Hs.
  rewrite R2, R3 in Hs.
  assert (Hcap : tokens (parse_reset p js) = None /\ 0 = 0 \/ 0 < count (parse_reset p js)).
  { destruct Hok0 as (_ & _ & _ & Hst). destruct (tokens (parse_reset p js)); [|by left].
    right. simpl in Hst. lia. }
  specialize (Hs ltac:(lia) ltac:(lia) Hcap). rewrite Ht in Hs.
  destruct Hs as (Hok1 & Hi1 & Hc1 & Ht1 & Hcp1 & Hj1 & base & Hb1 & Hb2 & Hb3 & Hb4).
  assert (tok_at (tokens p1) 1 = set_parent 0 zero_token) as Hnew.
  { rewrite Hb4. rewrite tok_at_upd_ne by lia. by rewrite tok_at_upd_eq by lia. }
  destruct (root_head _ _ _ Hok Hshort Ht) as (Hh & _).
  pose proof (head_ok_store _ _ _ Hh) as (_ & _ & H0).
  split_and!.
  - rewrite Hj, Hu, R1.
    assert (unparsed (parse_reset p js) =
            snd (mxstr_consume_str js (mkstr BLiteral 0 [239; 187; 191]))) as -> by done.
    destruct (mxstr_consume_str js _) as [ok s1] eqn:E. cbn [snd].
    by eapply consume_str_tail.
  - unfold fresh_token. rewrite Hi1. change (0 + 1) with 1. by rewrite Hnew.
  - by rewrite Hi1.
  - intros s. unfold name_of. cbv zeta. rewrite Hnew. cbn [parent set_parent].
    by rewrite H0.
Qed.

Lemma parse_lex p js q :
  ctx_ok p -> short_input (data js) ->
  mxjson_parse p js = (true, q) ->
  json q = js /\
  exists p1, mxjson_token (parse_reset p js) = (true, p1) /\
             lexemes_ok (followed_by True) p1 q (idx q).
Proof.
  intros Hok Hshort. unfold mxjson_parse.
  destruct (mxjson_token (parse_reset p js)) as [[] p1] eqn:Et; [|done].
  destruct (root_head _ _ _ Hok Hshort Et) as (Hh & Hj & _).
  pose proof (root_tree _ _ _ Hok Hshort Et) as Htree.
  destruct (root_lex _ _ _ Hok Hshort Et) as (Htl & Hfr & Hi1 & Hnm).
  unfold mxjson_parse_json.
  destruct (loop_head _ (S (dlen (unparsed p1))) _ _ Hh ltac:(lia))
    as (ok & p' & s' & E & _).
  rewrite E. destruct ok; [|done].
  assert (lexemes_ok (followed_by False) p1 p1 (idx p1 - 1)) as Hlex0.
  { intros i Hi. lia. }
  destruct (loop_lex _ _ _ _ _ _ _ _ Hh Htree Htl ltac:(by rewrite Hj) Hlex0 Hfr
              ltac:(intros _; rewrite Hi1; apply Hnm) (turns_here _ _) E)
    as [Hj' Hlex'].
  intros [= Hemp <-]. cbn [json set_unparsed]. split; [congruence|].
  exists p1. split; [done|].
  assert (data (mxjson_consume_ws s') = []) as Hend.
  { unfold mxstr_empty in Hemp. by destruct (data (mxjson_consume_ws s')). }
  destruct (consume_ws_split s') as (w' & Hw' & Hd'). rewrite Hend in Hd'.
  intros i Hi. cbn [json idx tokens set_unparsed] in Hi |- *.
  revert i Hi. change (lexemes_ok (followed_by True) p1 p' (idx p')).
  eapply lexemes_mono; [|exact Hlex'].
  intros r [(w & tl & -> & Hw & Htl')|(w & -> & Hw)].
  - exists w, tl. split_and!; try done. by destruct tl.
  - exists (w ++ w'), []. rewrite Hd', app_nil_r. split_and!; try done.
    + by rewrite app_nil_r.
    + by apply Forall_app.
Qed.

(** What a parse that succeeds has recorded for the token [i]: the
    parser came to expect its value with the context [q0] and the input
    [t0] left. *)
Lemma parse_token_at p js q i :
  ctx_ok p -> short_input (data js) ->
  mxjson_parse p js = (true, q) -> 1 <= i <= idx q ->
  json q = js /\
  exists q0 t0,
    value_position p js q0 t0 /\ idx q0 = i /\
    records_value js (mxjson_consume_ws t0) (followed_by True)
                  (tok_at (tokens q) i) /\
    (Z.of_nat (length (data js)) < 134217728 -> name_of js t0 (tokens q) i).
Proof.
  intros Hok Hshort E Hi.
  destruct (parse_lex p js q Hok Hshort E) as (Hj & p1 & Ht & Hlex).
  split; [done|]. destruct (Hlex i Hi) as (q0 & t0 & Hq & Hi0 & Hv & Hn).
  rewrite Hj in Hv, Hn. exists q0, t0. split_and!; try done. by exists p1.
Qed.

Lemma slice_quoted js pre x rest off size :
  data js = pre ++ DQUOTE :: x ++ DQUOTE :: rest ->
  off = Z.of_nat (length pre) + 1 -> size = Z.of_nat (length x) ->
  slice js off size = x.
Proof.
  intros Hd -> ->.
  replace (Z.of_nat (length pre) + 1) with (Z.of_nat (length (pre ++ [DQUOTE])))
    by (rewrite length_app; cbn [length]; lia).
  apply (slice_at _ _ _ (DQUOTE :: rest)). rewrite Hd. by rewrite <- app_assoc.
Qed.

(** X17: the lexemes of the values.  After a parse that succeeds, every
    number token records, by its offset and size, bytes of the input
    that are a well-formed number of RFC 8259, with its escape flag not
    set, and every string token
    records bytes that are well-formed pieces of a string (plain bytes
    from the space on other than the quote and the backslash, two-byte
    escapes, and [\u] escapes with four hexadecimal digits), with its
    escape flag set exactly when one of the pieces is an escape. *)
Theorem value_lexemes_wellformed p js i :
  ctx_ok p -> short_input (data js) ->
  fst (mxjson_parse p js) = true ->
  let q := snd (mxjson_parse p js) in
  1 <= i <= idx q ->
  let t := tok_at (tokens q) i in
  let lexeme := data (json_slice q (str t) (str_size t)) in
  (value_type t = MXJSON_NUMBER -> valid_number lexeme /\ value_esc t = false) /\
  (value_type t = MXJSON_STRING ->
   exists items,
     Forall string_item_ok items /\ lexeme = render items /\
     value_esc t = has_escape items).
Proof.
  intros Hok Hshort Hres.
  destruct (mxjson_parse p js) as [ok q] eqn:E. cbn [fst snd] in *. subst ok.
  intros Hi.
  destruct (parse_token_at p js q i Hok Hshort E Hi) as (Hj & q0 & t0 & _ & _ & Hv & _).
  unfold records_value in Hv. unfold json_slice. cbn [data].
  fold (slice (json q) (str (tok_at (tokens q) i)) (str_size (tok_at (tokens q) i))).
  rewrite Hj. split; intros Hty; rewrite Hty in Hv.
  - destruct Hv as (pre & n & rest & Hn & Hd & _ & Hs & Hz & He & _). split; [|done].
    rewrite Hs, Hz. by rewrite (slice_at _ _ _ _ Hd).
  - destruct Hv as (pre & items & rest & Hit & Hd & _ & Hs & Hz & He & _).
    exists items. split_and!; try done. by apply (slice_quoted _ pre _ rest).
Qed.

Lemma value_lexemes_wellformed_witness :
  let q := snd (mxjson_parse default_parser (input scenario_object)) in
  let t := tok_at (tokens q) 2 in
  let lexeme := data (json_slice q (str t) (str_size t)) in
  (value_type t = MXJSON_NUMBER -> valid_number lexeme /\ value_esc t = false) /\
  (value_type t = MXJSON_STRING ->
   exists items,
     Forall string_item_ok items /\ lexeme = render items /\
     value_esc t = has_escape items).
Proof.
  apply (value_lexemes_wellformed default_parser (input scenario_object) 2 ctx_ok_default);
    by vm_compute.
Defined.



(** ** Where a parse stops *)

Lemma consume_xdigits_tail n ok s c :
  tail_of s (consume_xdigits n ok s c).1.2.
Proof.
  revert ok s c. induction n as [|n IH]; intros ok s c; cbn [consume_xdigits];
    [apply tail_refl|].
  destruct ok; [|apply tail_refl].
  destruct (mxstr_consume_char isxdigit s c) as [[ok1 s1] c1] eqn:E.
  apply consume_char_tail in E. eapply tail_trans; [exact E|apply IH].
Qed.

Lemma escaped_char_tail s e : tail_of s (mxjson_parse_escaped_char s e).1.2.
Proof.
  unfold mxjson_parse_escaped_char.
  destruct (mxstr_getchar s 0) as [[] c]; [|apply tail_refl].
  destruct (is_simple_escape c); [apply consume_tail|].
  destruct (c =? chr "u"); [|apply tail_refl].
  pose proof (consume_xdigits_tail 4 true (mxstr_consume s 1).2 c) as H.
  destruct (consume_xdigits 4 true (mxstr_consume s 1).2 c) as [[ok1 s1] c1].
  cbn [fst snd] in *. eapply tail_trans; [apply consume_tail|exact H].
Qed.

Lemma string_loop_tail fuel :
  forall ok s c e r, parse_string_loop fuel ok s c e = Some r -> tail_of s r.1.1.2.
Proof.
  induction fuel as [|fuel IH]; intros ok s c e r; [done|].
  cbn [parse_string_loop]. destruct ok; [|intros [= <-]; apply tail_refl].
  destruct (mxstr_consume_char _ s c) as [[more s1] c1] eqn:E.
  apply consume_char_tail in E.
  destruct more; [|intros [= <-]; exact E].
  destruct (negb (c1 =? BACKSLASH)).
  - intros H. apply IH in H. by eapply tail_trans.
  - pose proof (escaped_char_tail s1 e) as He.
    destruct (mxjson_parse_escaped_char s1 e) as [[ok2 s2] e2]. cbn [fst snd] in He.
    intros H. apply IH in H. eapply tail_trans; [exact E|]. by eapply tail_trans.
Qed.

Lemma parse_string_tail s v e : tail_of s (mxjson_parse_string s v e).1.1.2.
Proof.
  unfold mxjson_parse_string.
  destruct (mxstr_consume_char _ s 0) as [[ok1 s1] c1] eqn:E.
  apply consume_char_tail in E.
  destruct (parse_string_loop _ _ s1 c1 e) as [[[[ok2 s2] c2] e2]|] eqn:El; [|exact E].
  apply string_loop_tail in El. cbn [fst snd] in El.
  destruct (ok2 && (c2 =? DQUOTE)); cbn [fst snd].
  - eapply tail_trans; [exact E|]. eapply tail_trans; [exact El|apply consume_tail].
  - by eapply tail_trans.
Qed.

Lemma parse_number_tail s v : tail_of s (mxjson_parse_number s v).1.2.
Proof.
  assert (Hint : forall s c, tail_of s (number_int s c).1.2).
  { intros s0 c. unfold number_int.
    destruct (mxstr_consume_char _ s0 c) as [[ok1 s1] c1] eqn:E1.
    apply consume_char_tail in E1.
    destruct (mxstr_consume_char isdigit s1 c1) as [[ok2 s2] c2] eqn:E2.
    apply consume_char_tail in E2.
    destruct ok2; cbn [fst snd]; [|by eapply tail_trans].
    destruct (negb (c2 =? chr "0")); cbn [fst snd]; [|by eapply tail_trans].
    pose proof (consume_chars_tail isdigit s2 c2) as H3.
    destruct (mxstr_consume_chars isdigit s2 c2) as [s3 c3]. cbn [fst snd] in *.
    eapply tail_trans; [exact E1|by eapply tail_trans]. }
  assert (Hfrac : forall s c, tail_of s (number_frac s c).1.2).
  { intros s0 c. unfold number_frac.
    destruct (mxstr_consume_char _ s0 c) as [[ok1 s1] c1] eqn:E1.
    apply consume_char_tail in E1. destruct ok1; [|exact E1].
    destruct (mxstr_consume_char isdigit s1 c1) as [[ok2 s2] c2] eqn:E2.
    apply consume_char_tail in E2.
    pose proof (consume_chars_tail isdigit s2 c2) as H3.
    destruct (mxstr_consume_chars isdigit s2 c2) as [s3 c3]. cbn [fst snd] in *.
    eapply tail_trans; [exact E1|by eapply tail_trans]. }
  assert (Hexp : forall s c, tail_of s (number_exp s c).1.2).
  { intros s0 c. unfold number_exp.
    destruct (mxstr_consume_char _ s0 c) as [[ok1 s1] c1] eqn:E1.
    apply consume_char_tail in E1. destruct ok1; [|exact E1].
    destruct (mxstr_consume_char _ s1 c1) as [[ok2 s2] c2] eqn:E2.
    apply consume_char_tail in E2.
    destruct (mxstr_consume_char isdigit s2 c2) as [[ok3 s3] c3] eqn:E3.
    apply consume_char_tail in E3.
    pose proof (consume_chars_tail isdigit s3 c3) as H4.
    destruct (mxstr_consume_chars isdigit s3 c3) as [s4 c4]. cbn [fst snd] in *.
    eapply tail_trans; [exact E1|]. eapply tail_trans; [exact E2|by eapply tail_trans]. }
  unfold mxjson_parse_number.
  pose proof (Hint s 0) as H1. destruct (number_int s 0) as [[ok1 s1] c1].
  cbn [fst snd] in H1.
  assert (tail_of s1 (if ok1 then number_frac s1 c1 else (ok1, s1, c1)).1.2) as H2.
  { destruct ok1; [apply Hfrac|apply tail_refl]. }
  destruct (if ok1 then number_frac s1 c1 else (ok1, s1, c1)) as [[ok2 s2] c2].
  cbn [fst snd] in H2.
  assert (tail_of s2 (if ok2 then number_exp s2 c2 else (ok2, s2, c2)).1.2) as H3.
  { destruct ok2; [apply Hexp|apply tail_refl]. }
  destruct (if ok2 then number_exp s2 c2 else (ok2, s2, c2)) as [[ok3 s3] c3].
  cbn [fst snd] in H3 |- *. eapply tail_trans; [exact H1|by eapply tail_trans].
Qed.

Lemma parse_value_tail p s : tail_of s (mxjson_parse_value p s).2.
Proof.
  unfold mxjson_parse_value.
  destruct (mxstr_getchar s 0) as [[] c]; [|apply tail_refl].
  destruct (c =? DQUOTE).
  { pose proof (parse_string_tail s mxstr_null false) as H.
    by destruct (mxjson_parse_string s mxstr_null false) as [[[ok s1] v] e]. }
  destruct (c =? chr "{"); [apply consume_tail|].
  destruct (c =? chr "["); [apply consume_tail|].
  destruct (c =? chr "t").
  { destruct (mxstr_consume_str _ _) as [ok s1] eqn:E. by apply consume_str_tail in E. }
  destruct (c =? chr "f").
  { destruct (mxstr_consume_str _ _) as [ok s1] eqn:E. by apply consume_str_tail in E. }
  destruct (c =? chr "n").
  { destruct (mxstr_consume_str _ _) as [ok s1] eqn:E. by apply consume_str_tail in E. }
  destruct ((c =? chr "-") || isdigit c); [|apply tail_refl].
  pose proof (parse_number_tail s mxstr_null) as H.
  by destruct (mxjson_parse_number s mxstr_null) as [[ok s1] v].
Qed.

Lemma parse_name_tail p s : tail_of s (mxjson_parse_name p s).2.
Proof.
  unfold mxjson_parse_name.
  pose proof (parse_string_tail s mxstr_null false) as H.
  destruct (mxjson_parse_string s mxstr_null false) as [[[ok s1] v] e].
  cbn [fst snd] in H. destruct ok; [|exact H].
  destruct (mxstr_consume_char _ (mxjson_consume_ws s1) 0) as [[ok2 s2] c2] eqn:E.
  apply consume_char_tail in E. cbn [snd].
  eapply tail_trans; [exact H|]. eapply tail_trans; [apply consume_ws_tail|exact E].
Qed.

Lemma turn_tail p s : tail_of s (parse_json_turn p s).2.
Proof.
  unfold parse_json_turn.
  pose proof (parse_value_tail p (mxjson_consume_ws s)) as Hv.
  destruct (mxjson_parse_value p (mxjson_consume_ws s)) as [[ok p1] s1].
  cbn [snd] in Hv.
  assert (tail_of s s1) as H1 by (eapply tail_trans; [apply consume_ws_tail|exact Hv]).
  destruct ok; [|exact H1].
  destruct (mxjson_ascend p1 s1) as [[p2 s2] par] eqn:Ea.
  apply ascend_lex in Ea as [Ha _].
  assert (tail_of s s2) as H2 by (by eapply tail_trans).
  destruct (negb (par =? MXJSON_IDX_NONE)); [|exact H2].
  set (c := if par =? idx (set_current_parent par p2) then _ else _).
  assert (tail_of s c.2) as H4.
  { subst c. destruct (par =? idx _); cbn [snd].
    - eapply tail_trans; [exact H2|apply consume_ws_tail].
    - destruct (mxstr_consume_char _ _ 0) as [[ok3 s3] c3] eqn:E. cbn [snd].
      apply consume_char_tail in E.
      eapply tail_trans; [exact H2|]. eapply tail_trans; [apply consume_ws_tail|exact E]. }
  destruct c as [ok4 s4]. cbn [snd] in H4.
  destruct (if ok4 then mxjson_token _ else _) as [ok5 p5].
  destruct (ok5 && _); [|exact H4].
  eapply tail_trans; [exact H4|].
  eapply tail_trans; [apply consume_ws_tail|apply parse_name_tail].
Qed.

Lemma loop_tail fuel :
  forall p s r, parse_json_loop fuel p s = Some r -> tail_of s r.2.
Proof.
  induction fuel as [|fuel IH]; intros p s r; [done|].
  cbn [parse_json_loop].
  pose proof (turn_tail p s) as Ht.
  destruct (parse_json_turn p s) as [[ok p1] s1]. cbn [snd] in Ht.
  destruct (ok && _).
  - intros H. apply IH in H. by eapply tail_trans.
  - by intros [= <-].
Qed.

(** X19: where a parse stops.  Whatever the outcome, and whatever the
    context was before, the slice that [mxjson_parse] leaves as
    [unparsed] is the rest of the input: the input is the bytes
    consumed followed by the bytes of [unparsed], and [unparsed] starts
    at the address of the input plus the number of bytes consumed, in
    the same buffer. *)
Theorem unparsed_is_rest p js :
  let q := snd (mxjson_parse p js) in
  blk (unparsed q) = blk js /\
  exists consumed,
    data js = consumed ++ data (unparsed q) /\
    ptr (unparsed q) = ptr js + Z.of_nat (length consumed).
Proof.
  change (tail_of js (unparsed (snd (mxjson_parse p js)))).
  unfold mxjson_parse.
  assert (tail_of js (unparsed (parse_reset p js))) as H0.
  { assert (unparsed (parse_reset p js) =
            snd (mxstr_consume_str js (mkstr BLiteral 0 [239; 187; 191]))) as -> by done.
    destruct (mxstr_consume_str js _) as [ok s1] eqn:E. cbn [snd].
    by eapply consume_str_tail. }
  pose proof (mxjson_token_fields (parse_reset p js)) as Hf.
  destruct (mxjson_token (parse_reset p js)) as [ok p1]. cbn [fst snd] in Hf.
  destruct Hf as (_ & _ & _ & Hu & _). rewrite <- Hu in H0.
  destruct ok; [|exact H0].
  unfold mxjson_parse_json.
  destruct (parse_json_loop _ p1 (unparsed p1)) as [[[ok2 p2] s2]|] eqn:E; [|exact H0].
  apply loop_tail in E. cbn [snd] in E.
  destruct ok2; cbn [snd unparsed set_unparsed].
  - eapply tail_trans; [exact H0|]. eapply tail_trans; [exact E|apply consume_ws_tail].
  - by eapply tail_trans.
Qed.

(** ** The strings of the tokens of a document *)

Lemma unescape_slice buf s items l :
  Forall string_item_ok items -> data s = render items ->
  ends_in_escape items -> decode items = Some l ->
  mxjson_unescape buf s = (true, mkbuf (contents buf ++ l)).
Proof.
  intros Hok Hd He Hl. destruct s as [b o d]. cbn [data] in Hd. subst d.
  unfold mxjson_unescape. cbn [data].
  rewrite (unescape_loop_decodes _ items buf b o 0 l); try done; try lia.
  eapply Forall_impl; [done|]. apply string_item_plain.
Qed.

Lemma since_available buf l :
  mxbuf_since (mkbuf (contents buf ++ l)) (available buf) =
  mkstr BBuffer (Z.of_nat (length (contents buf))) l.
Proof.
  unfold mxbuf_since, available. cbn [blk ptr contents]. rewrite Nat2Z.id.
  by rewrite drop_app_length.
Qed.

(** The slice of the input that a token records, when the bytes [x]
    are at the offset it has. *)
Lemma json_slice_at q js pre x post off size :
  json q = js -> data js = pre ++ x ++ post ->
  off = Z.of_nat (length pre) -> size = Z.of_nat (length x) ->
  json_slice q off size = mkstr (blk js) (ptr js + Z.of_nat (length pre)) x.
Proof.
  intros Hj Hd -> ->. unfold json_slice. rewrite Hj. f_equal.
  exact (slice_at js pre x post Hd).
Qed.

Lemma json_slice_quoted q js pre x rest off size :
  json q = js -> data js = pre ++ DQUOTE :: x ++ DQUOTE :: rest ->
  off = Z.of_nat (length pre) + 1 -> size = Z.of_nat (length x) ->
  json_slice q off size = mkstr (blk js) (ptr js + Z.of_nat (length pre) + 1) x.
Proof.
  intros Hj Hd Ho Hs. unfold json_slice. rewrite Hj. f_equal.
  - rewrite Ho. lia.
  - exact (slice_quoted js pre x rest off size Hd Ho Hs).
Qed.

(** X20: the string of a token of a document.  After a parse that
    succeeds, the parser came to expect the value of the token [i] with
    some input left.  If the token is a number, that input begins,
    after its white space, with a well-formed number, which white
    space and then a comma, a closing bracket or the end of the input
    follow, and [mxjson_token_string] returns the bytes of the number
    as a slice of the input, with the buffer untouched.  If the token is a string, that input
    begins with a quote, well-formed pieces of a string and the closing
    quote, and [mxjson_token_string] returns the bytes between the two
    quotes as a slice of the input, with the buffer untouched, when
    none of the pieces is an escape, and the decoded bytes, as the
    slice of the buffer they were appended to, when there are escapes,
    the last piece is one and the surrogates are in pairs. *)
Theorem token_string_of_document p js i buf :
  ctx_ok p -> short_input (data js) ->
  fst (mxjson_parse p js) = true ->
  let q := snd (mxjson_parse p js) in
  1 <= i <= idx q ->
  let t := tok_at (tokens q) i in
  exists q0 t0,
    value_position p js q0 t0 /\ idx q0 = i /\
    (value_type t = MXJSON_NUMBER ->
     exists pre n rest,
       valid_number n /\ data js = pre ++ n ++ rest /\
       data (mxjson_consume_ws t0) = n ++ rest /\ followed_by True rest /\
       mxjson_token_string q i buf =
       (mkstr (blk js) (ptr js + Z.of_nat (length pre)) n, buf, true)) /\
    (value_type t = MXJSON_STRING ->
     exists pre items rest,
       Forall string_item_ok items /\
       data js = pre ++ DQUOTE :: render items ++ DQUOTE :: rest /\
       data (mxjson_consume_ws t0) = DQUOTE :: render items ++ DQUOTE :: rest /\
       (has_escape items = false ->
        mxjson_token_string q i buf =
        (mkstr (blk js) (ptr js + Z.of_nat (length pre) + 1) (render items),
         buf, true)) /\
       (forall l, has_escape items = true -> ends_in_escape items ->
                  decode items = Some l ->
        mxjson_token_string q i buf =
        (mkstr BBuffer (Z.of_nat (length (contents buf))) l,
         mkbuf (contents buf ++ l), true))).
Proof.
  intros Hok Hshort Hres.
  destruct (mxjson_parse p js) as [ok q] eqn:E. cbn [fst snd] in *. subst ok.
  intros Hi.
  destruct (parse_token_at p js q i Hok Hshort E Hi)
    as (Hj & q0 & t0 & Hpos & Hi0 & Hv & _).
  exists q0, t0. split_and!; try done.
  - intros Hty. unfold records_value in Hv. rewrite Hty in Hv.
    destruct Hv as (pre & n & rest & Hn & Hd & Hd0 & Hs & Hz & He & Hfw).
    exists pre, n, rest. split_and!; try done.
    unfold mxjson_token_string. rewrite Hty, He.
    by rewrite (json_slice_at q js pre n rest _ _ Hj Hd Hs Hz).
  - intros Hty. unfold records_value in Hv. rewrite Hty in Hv.
    destruct Hv as (pre & items & rest & Hit & Hd & Hd0 & Hs & Hz & He & _).
    exists pre, items, rest.
    pose proof (json_slice_quoted q js pre (render items) rest _ _ Hj Hd Hs Hz) as Hsl.
    unfold mxjson_token_string. rewrite Hty, He, Hsl.
    split_and!; try done.
    + by intros ->.
    + intros l -> Hend Hdec.
      rewrite (unescape_slice buf
                 (mkstr (blk js) (ptr js + Z.of_nat (length pre) + 1) (render items))
                 items l Hit eq_refl Hend Hdec).
      by rewrite since_available.
Qed.

(** The member k of an object, a string: the token 2, whose string is
    the two bytes at the offset 7. *)
Lemma token_string_of_document_witness :
  let js := input (bytes "{" ++ quoted "k" ++ bytes ": " ++ quoted "hi" ++ bytes "}") in
  let q := snd (mxjson_parse default_parser js) in
  let buf := mkbuf [] in
  let t := tok_at (tokens q) 2 in
  (value_type t = MXJSON_STRING /\
   mxjson_token_string q 2 buf = (mkstr BInput 7 (bytes "hi"), buf, true)) /\
  exists q0 t0,
    value_position default_parser js q0 t0 /\ idx q0 = 2 /\
    (value_type t = MXJSON_NUMBER ->
     exists pre n rest,
       valid_number n /\ data js = pre ++ n ++ rest /\
       data (mxjson_consume_ws t0) = n ++ rest /\ followed_by True rest /\
       mxjson_token_string q 2 buf =
       (mkstr (blk js) (ptr js + Z.of_nat (length pre)) n, buf, true)) /\
    (value_type t = MXJSON_STRING ->
     exists pre items rest,
       Forall string_item_ok items /\
       data js = pre ++ DQUOTE :: render items ++ DQUOTE :: rest /\
       data (mxjson_consume_ws t0) = DQUOTE :: render items ++ DQUOTE :: rest /\
       (has_escape items = false ->
        mxjson_token_string q 2 buf =
        (mkstr (blk js) (ptr js + Z.of_nat (length pre) + 1) (render items),
         buf, true)) /\
       (forall l, has_escape items = true -> ends_in_escape items ->
                  decode items = Some l ->
        mxjson_token_string q 2 buf =
        (mkstr BBuffer (Z.of_nat (length (contents buf))) l,
         mkbuf (contents buf ++ l), true))).
Proof.
  split; [by vm_compute|].
  apply (token_string_of_document default_parser
           (input (bytes "{" ++ quoted "k" ++ bytes ": " ++ quoted "hi" ++ bytes "}"))
           2 (mkbuf []) ctx_ok_default); by vm_compute.
Defined.


